(* ===== verification/_CoqProject ===== *)
-Q . S2P
Prelude.v
Interleave.v
Ownership.v
GoStrings.v
Encoding.v
Json.v
Floats.v
Shortest.v
Crypto.v
Schema.v
Samples.v
GoPath.v
Wire.v
RoomChecker.v
Rooms.v
RoomsRace.v
Dbenc.v
Keydir.v
KeydirRace.v
Auth.v
Relay.v
RelayRace.v
Paging.v
Stream.v
Coordinator.v
Federation.v
BackupReceiver.v
Config.v
WgStats.v
VpnText.v
VpnNodes.v
XrayApi.v
Vpn.v
VpnRace.v
Push.v
Media.v
Invariant.v
Api.v
FedHandler.v
Peers.v
AuthHandler.v
Backup.v
Sockets.v
RoomsHandler.v
MsgHandler.v
VpnHandler.v
PushHandler.v
MediaHandler.v
Routes.v
Server.v
Boot.v
EndToEnd.v
