(* ===== verification/Prelude.v ===== *)
(** * AstralRelay: verification of the Go backend

    AstralRelay is a federated messenger.  This library models its Go code:
    the home server ([src/server]), the services of the VPN mesh between servers
    ([src/mesh]), and the protocol between two
    servers.  Definitions keep the names of the Go functions they translate;
    module [M] of file [M.v] stands for one Go package or one file of handlers.

    ** The parts and how they interact

    A request reaches a route of [api/router.go]; a chain of middleware
    authenticates it and counts it; a handler decodes it and calls services;
    the services work on one PostgreSQL database; some handlers also use the
    hub, which tells connected sockets, and the federation client, which calls
    other servers.

    - [Prelude]: results, statements on a database with injected faults ([M]),
      transactions, the weakest preconditions [wp] with their tactics, and
      [keeps], preservation of an invariant by a program.
    - [GoStrings], [Encoding], [Json]: what the code uses of [strings],
      [strconv], [encoding/hex], [encoding/base64], [unicode/utf8], [net/url],
      [time] and [encoding/json], as executable definitions with their round
      trips.  [Floats]: [float64] with correct rounding, [strconv.ParseFloat],
      and numbers as [encoding/json] prints them.
    - [GoPath]: [path/filepath] and the calls of [os] on files.
    - [Crypto]: classes for SHA-256, Ed25519, bcrypt and JWT.  [Samples]:
      concrete instances of parameters, for the witnesses only.
    - [Schema]: the tables of [internal/db/migrations] as finite maps, their
      keys and references, and the SQL idioms shared by the services.
    - Services, each over the database: [Rooms] ([rooms/rooms.go], promised to
      its clients by the class of [RoomChecker]), [Dbenc] ([dbenc]), [Keydir]
      ([keydir/keydir.go]), [Auth] ([auth/auth.go]), [Relay]
      ([relay/relay.go]; [Paging] reads a mailbox page by page), [WgStats],
      [VpnText], [VpnNodes], [XrayApi] and [Vpn] ([vpn]), [Push] ([push/service.go]);
      [Media] over a bucket of objects ([media/media.go]).
    - [Interleave]: programs cut at their statements and requests that take
      turns; [Ownership]: what a request may rely on between its statements,
      with a ghost state that only grows.  [RoomsRace],
      [KeydirRace], [RelayRace] and [VpnRace]: four services in that form, which
      run alone are the methods of [Rooms], [Keydir], [Relay] and [Vpn].
    - [Stream] ([stream/hub.go]): the hub as a transition system whose steps
      are the atomic sections of its goroutines.
    - [Coordinator] ([mesh/coordinator]): its handlers cut at the mutex, its
      state file, crashes and restarts, as a transition system.
    - [BackupReceiver] ([mesh/backup-receiver]): its handler over a file
      system.
    - [Wire] and [Federation] ([federation]): the JSON two servers exchange,
      block and allow lists, signed requests, keys, discovery.
    - Handlers, over the state [World] of the process that [Api] defines with
      replies, middleware and requests: [FedHandler], [Peers], [AuthHandler],
      [Backup], [Sockets], [RoomsHandler], [MsgHandler], [VpnHandler],
      [PushHandler], [MediaHandler] ([api/handlers_*.go], [peer_resolver.go]).
    - [Config] ([config/config.go]): the settings read from the environment.
    - [Routes], [Invariant] and [Server] ([api/router.go],
      [cmd/server/main.go]): all routes with their middleware, sockets, steps
      of the hub, cleanup, and restarts at any time, as one transition system
      over [World].
    - [Boot] ([cmd/server/main.go]): from the environment, the files and the
      database to the process that serves requests.
    - [EndToEnd]: two servers and the network between them.

    ** How code becomes definitions

    A Go function that talks to the database is a value of [M D E A]: it takes
    a fault schedule [F], under which its [n]-th statement fails when [F n],
    the database, and the number of statements so far.  An ignored error is an
    ignored [None]; [defer tx.Rollback] is [with_tx]; a loop over rows that
    does not look at [rows.Err] is [fetch] or [for_rows], which may end early
    without an error.  Handlers are such
    computations on [World] that may leave early with a reply.  Time, random
    bytes, map and row orders that Go or PostgreSQL leave open are arguments.
    A request whose body ends early says so ([Api.cut_short]).  The federation
    client keeps, besides the fields of the code, the list of the requests it
    made ([S2S.requests]), which no definition reads.
    Integers are [Z] with [wrap64] where they may overflow.

    ** What the theorems show

    - Composition: a message sent on one server is stored on the other, or the
      sender learns otherwise ([EndToEnd.message_delivered]); every state the
      server reaches satisfies the invariants of all its services and of the
      hub ([Server.server_invariant]); protected routes answer for the owner
      of the token only ([Server.protected_routes]); a server that starts has
      settings within their bounds and keeps the invariants ([Boot.main_outcome]).
    - Contracts of operations on every branch and under all faults: the
      theorems named [*_outcome] of services and handlers.
    - Refinement: the rooms service refines an access-control matrix
      ([Rooms.run_op_refines], [RoomsHandler.rooms_authorised]).
    - Invariants by induction over operations or steps: accounts and tokens
      ([Auth.auth_inv_preserved]), the hub ([Stream.hub_invariant]), addresses
      of the mesh ([Coordinator.addresses_never_shared], and across crashes
      [Coordinator.addresses_survive_crashes]) and of VPN peers
      ([Vpn.addresses_never_reused]).
    - Requests at the same time, their statements in any order: changes of
      rooms are authorised by roles held since the request arrived
      ([RoomsRace.rooms_authorised_together]), and so are messages by membership
      ([RelayRace.messages_authorised_together]); bundle requests that do not
      overlap never receive the same one-time prekey
      ([KeydirRace.prekey_not_reissued]); WireGuard configurations of different
      devices have different addresses
      ([VpnRace.addresses_apart_together]).  The modules [Sample] of these files
      hold the races that remain.
    - Security: passwords, revocation, one use of a prekey, signatures, lists,
      confinement of written files ([Coordinator.routes_confined],
      [BackupReceiver.receive_outcome]).
    - Round trips and equivalences: transactions on the wire, sealed columns,
      their migration ([Dbenc.EncryptExisting_view]), stored files
      ([Media.Upload_Download]).
    - Numbers: a traffic limit is enforced on the amounts that [wg] prints, those
      in tebibytes apart, through its text, regular expressions and floating
      point
      ([VpnHandler.traffic_limit]).
    - Progress: a device that asks page by page receives every waiting message
      ([Paging.poll_complete]), notifications reach their sockets
      ([Stream.Notify_delivers]), configurations are issued
      ([Vpn.WireGuard_config_issued]), the migration ends with the columns
      that it visits sealed ([Dbenc.EncryptExisting_seals]).

    A theorem with hypotheses is followed by a witness, [..._witness], that
    applies it to concrete data.  Where the code deviates from what it means
    to do, the theorem states what it does, or an [Example] shows the case.

    ** Bounds and fuel

    The reader of JSON runs on fuel [text_fuel], which [value_fuel] shows to be
    enough for every text; printing a [float64] tries 17 digits at most, which
    [Shortest.shortest_reads_back] shows to be enough;
    retries of the Xray API are bounded by its constant;
    [Paging.poll] makes at most [n] calls, of which one more than there are
    messages is enough; no other definition needs fuel.

    ** What is assumed

    Code outside the repository is a parameter, with laws only for what it
    documents: hashes, signatures, JWT, AES-GCM, bcrypt, X.509, Curve25519,
    UUIDs, letter case beyond ASCII, PostgreSQL's [LOWER] and timestamps, the
    object store, the Xray API, calendars, and other servers.  Nothing is
    assumed about forging or collisions.  In the transition system of [Server]
    handlers are atomic with respect to each other; their database statements
    may fail at any point.  Statements of concurrent requests are interleaved
    in the files named [*Race], and steps of goroutines in the hub and the
    coordinator, where they share memory.  A statement is atomic, as
    PostgreSQL's READ COMMITTED makes those of the code, but for the one that
    claims a prekey, whose subquery does not see the lock of its row
    ([KeydirRace.claim]).

    ** Not modelled

    Matching of paths by chi, TLS, timeouts, the counting of rate limits (only
    whether a request is over its limit), the handling of CORS (its options
    are in [Routes]), logs and metrics; response headers but [Content-Range];
    rejection of invalid UTF-8 by PostgreSQL; delivery of web pushes; the
    pools of connections; the latency probe, the web client
    and deployment files.  The texts that other programs print ([wg show]) are
    arguments. *)

From stdpp Require Export base tactics list strings gmap sorting pretty.
From Stdlib Require Export Lia ZArith.

Set Default Goal Selector "!".

(** ** Results and errors

    A Go function that returns [(v, err)] is modelled by [result E A]:
    [Ok v] when [err == nil], [Err e] otherwise. *)
Inductive result (E A : Type) : Type :=
| Ok (a : A)
| Err (e : E).
Arguments Ok {E A} a.
Arguments Err {E A} e.

#[global] Instance result_eq_dec {E A} `{EqDecision E, EqDecision A} :
  EqDecision (result E A).
Proof. solve_decision. Defined.

Definition is_ok {E A} (r : result E A) : bool :=
  match r with Ok _ => true | Err _ => false end.

#[global] Instance result_ret {E} : MRet (result E) := λ A, Ok.
#[global] Instance result_bind {E} : MBind (result E) := λ A B k r,
  match r with Ok a => k a | Err e => Err e end.
#[global] Instance result_fmap {E} : FMap (result E) := λ A B f r,
  match r with Ok a => Ok (f a) | Err e => Err e end.

(** ** Statements against a database

    [M D E A] is a Go function that talks to the database [D].  The first
    argument is a fault schedule: [F n = true] when the [n]-th statement of
    the run fails for a reason outside the program (connection lost, timeout,
    cancelled context).  A failing statement changes nothing. *)
Definition M (D E A : Type) : Type :=
  (nat → bool) → D → nat → result E A * D * nat.

#[global] Instance M_ret {D E} : MRet (M D E) := λ A a F d n, (Ok a, d, n).
#[global] Instance M_bind {D E} : MBind (M D E) := λ A B k m F d n,
  match m F d n with
  | (Ok a, d', n') => k a F d' n'
  | (Err e, d', n') => (Err e, d', n')
  end.

Definition raise {D E A} (e : E) : M D E A := λ F d n, (Err e, d, n).

(** [stmt f]: one SQL statement.  [f d = None] when a constraint of the
    schema rejects it.  The result is [None] exactly when Go sees
    [err != nil]. *)
Definition stmt {D E A} (f : D → option (A * D)) : M D E (option A) :=
  λ F d n,
    if F n then (Ok None, d, S n)
    else match f d with
         | None => (Ok None, d, S n)
         | Some (a, d') => (Ok (Some a), d', S n)
         end.

(** A read-only statement: [pool.Query] / [pool.QueryRow]. *)
Definition query {D E A} (f : D → A) : M D E (option A) :=
  stmt (λ d, Some (f d, d)).

(** A statement run for its effect: [pool.Exec]. *)
Definition exec {D E} (f : D → option D) : M D E (option unit) :=
  stmt (λ d, (λ d', (tt, d')) <$> f d).

(** A pure computation that may fail. *)
Definition of_result {D E A} (r : result E A) : M D E A :=
  λ F d n, (r, d, n).

(** [Pool.Begin], the body against the transaction, then [Commit]; the
    deferred [Rollback] restores the database when the body fails or when
    the commit does.  [on_commit] is what the function returns when
    [Commit] returns an error. *)
Definition with_tx {D E A} (on_begin : E) (on_commit : A → result E A)
    (body : M D E A) : M D E A :=
  λ F d n,
    if F n then (Err on_begin, d, S n)
    else match body F d (S n) with
         | (Err e, _, n') => (Err e, d, n')
         | (Ok a, d', n') =>
           if F n' then (on_commit a, d, S n') else (Ok a, d', S n')
         end.

(** A callee with an error type of its own. *)
Definition map_err {D E E' A} (f : E → E') (m : M D E A) : M D E' A :=
  λ F d n,
    match m F d n with
    | (Ok a, d', n') => (Ok a, d', n')
    | (Err e, d', n') => (Err (f e), d', n')
    end.

(** A callee whose error the caller inspects or drops. *)
Definition attempt {D E E' A} (m : M D E A) : M D E' (result E A) :=
  λ F d n, match m F d n with (r, d', n') => (Ok r, d', n') end.

Fixpoint for_each {D E A} (f : A → M D E unit) (l : list A) : M D E unit :=
  match l with
  | [] => mret tt
  | a :: l' => f a ≫= λ _, for_each f l'
  end.

(** [for rows.Next() { ... }] when [rows.Err()] is not checked afterwards: a
    failing [Next] ends the loop as if there were no more rows. *)
Fixpoint for_rows {D E A} (f : A → M D E unit) (l : list A) : M D E unit :=
  match l with
  | [] => mret tt
  | a :: l' =>
    ok ← stmt (λ d, Some (tt, d));
    match ok with
    | None => mret tt
    | Some _ => f a ≫= λ _, for_rows f l'
    end
  end.

(** Rows read with [rows.Next()] into a slice, [rows.Err()] not checked: a
    failing [Next] cuts the list short. *)
Fixpoint fetch {D E A} (l : list A) : M D E (list A) :=
  match l with
  | [] => mret []
  | a :: l' =>
    ok ← stmt (λ d, Some (tt, d));
    match ok with
    | None => mret []
    | Some _ => rest ← fetch l'; mret (a :: rest)
    end
  end.

Definition no_faults : nat → bool := λ _, false.

(** Some statement may fail. *)
Definition faulty (F : nat → bool) : Prop := ∃ n, F n = true.

Lemma not_faulty : ¬ faulty no_faults.
Proof. by intros [n Hn]. Qed.

(** [run m d]: the run in which no statement fails. *)
Definition run {D E A} (m : M D E A) (d : D) : result E A * D :=
  match m no_faults d 0 with (r, d', _) => (r, d') end.

(** [Exec F m d r d']: under the fault schedule [F], [m] started on [d] can
    return [r] and leave [d']. *)
Definition Exec {D E A} (F : nat → bool) (m : M D E A) (d : D)
    (r : result E A) (d' : D) : Prop :=
  ∃ n n', m F d n = (r, d', n').

(** ** Weakest preconditions *)
Definition wp {D E A} (F : nat → bool) (m : M D E A)
    (Q : result E A → D → Prop) (d : D) : Prop :=
  ∀ n, match m F d n with (r, d', _) => Q r d' end.

Section wp_rules.
Context {D E : Type}.
Implicit Types (d : D) (e : E).

Lemma wp_Exec {A} F (m : M D E A) Q d r d' :
  wp F m Q d → Exec F m d r d' → Q r d'.
Proof. intros H (n & n' & Hm). specialize (H n). by rewrite Hm in H. Qed.

Lemma wp_Exec_ok {A} F (m : M D E A) (Q : A → D → Prop) d a d' :
  wp F m (λ r d', ∀ a, r = Ok a → Q a d') d → Exec F m d (Ok a) d' → Q a d'.
Proof. intros H He. by apply (wp_Exec _ _ _ _ _ _ H He). Qed.

Lemma wp_Exec_all {A} F (m : M D E A) (Q : result E A → D → Prop) d :
  wp F m Q d → ∀ r d', Exec F m d r d' → Q r d'.
Proof. intros H r d'. by apply wp_Exec. Qed.

Lemma Exec_wp {A} F (m : M D E A) (Q : result E A → D → Prop) d :
  (∀ r d', Exec F m d r d' → Q r d') → wp F m Q d.
Proof.
  intros H n. destruct (m F d n) as [[r d'] n'] eqn:Hm.
  apply H. by exists n, n'.
Qed.

Lemma Exec_first {A} F (m : M D E A) d : Exec F m d (m F d 0).1.1 (m F d 0).1.2.
Proof. exists 0. destruct (m F d 0) as [[r d'] n']. by exists n'. Qed.

Lemma Exec_run {A} (m : M D E A) d r d' :
  run m d = (r, d') → Exec no_faults m d r d'.
Proof.
  unfold run, Exec. intros H. exists 0.
  destruct (m no_faults d 0) as [[r1 d1] n1]. simplify_eq. by exists n1.
Qed.

Lemma wp_run {A} (m : M D E A) Q d :
  wp no_faults m Q d → Q (run m d).1 (run m d).2.
Proof.
  intros H. specialize (H 0). unfold run.
  by destruct (m no_faults d 0) as [[r1 d1] n1].
Qed.

Lemma wp_mono {A} F (m : M D E A) (Q Q' : result E A → D → Prop) d :
  wp F m Q d → (∀ r d', Q r d' → Q' r d') → wp F m Q' d.
Proof. intros H HQ n. specialize (H n). destruct (m F d n) as [[??]?]. auto. Qed.

Lemma wp_conj {A} F (m : M D E A) (Q Q' : result E A → D → Prop) d :
  wp F m Q d → wp F m Q' d → wp F m (λ r d', Q r d' ∧ Q' r d') d.
Proof. intros H H' n. specialize (H n). specialize (H' n).
  by destruct (m F d n) as [[??]?]. Qed.

Lemma wp_ret {A} F (a : A) (Q : result E A → D → Prop) d :
  Q (Ok a) d → wp F (mret a) Q d.
Proof. by intros H n. Qed.

Lemma wp_raise {A} F e (Q : result E A → D → Prop) d :
  Q (Err e) d → wp F (raise e) Q d.
Proof. by intros H n. Qed.

Lemma wp_of_result {A} F (r : result E A) (Q : result E A → D → Prop) d :
  Q r d → wp F (of_result r) Q d.
Proof. by intros H n. Qed.

Lemma wp_bind {A B} F (m : M D E A) (k : A → M D E B) Q d :
  wp F m (λ r d', match r with
                  | Ok a => wp F (k a) Q d'
                  | Err e => Q (Err e) d'
                  end) d →
  wp F (m ≫= k) Q d.
Proof.
  intros H n. specialize (H n). unfold mbind, M_bind.
  destruct (m F d n) as [[[a|e] d'] n']; [apply H | done].
Qed.

Lemma wp_stmt {A} F (f : D → option (A * D)) (Q : result E (option A) → D → Prop) d :
  Q (Ok None) d →
  (∀ a d', f d = Some (a, d') → Q (Ok (Some a)) d') →
  wp F (stmt f) Q d.
Proof.
  intros H1 H2 n. unfold stmt. destruct (F n); [done|].
  destruct (f d) as [[a d']|] eqn:Hf; auto.
Qed.

Lemma wp_query {A} F (f : D → A) (Q : result E (option A) → D → Prop) d :
  Q (Ok None) d → Q (Ok (Some (f d))) d → wp F (query f) Q d.
Proof. intros. apply wp_stmt; [done|]. intros; by simplify_eq. Qed.

Lemma wp_exec F (f : D → option D) (Q : result E (option unit) → D → Prop) d :
  Q (Ok None) d → (∀ d', f d = Some d' → Q (Ok (Some tt)) d') →
  wp F (exec f) Q d.
Proof.
  intros H1 H2. apply wp_stmt; [done|]. intros [] d' Hf.
  destruct (f d) eqn:?; simplify_eq/=. auto.
Qed.

(** Without faults a statement fails only on a constraint. *)
Lemma wp_stmt_nf {A} (f : D → option (A * D)) (Q : result E (option A) → D → Prop) d :
  match f d with
  | Some (a, d') => Q (Ok (Some a)) d'
  | None => Q (Ok None) d
  end → wp no_faults (stmt f) Q d.
Proof. intros H n. unfold stmt; simpl. by destruct (f d) as [[a d']|]. Qed.

Lemma wp_query_nf {A} (f : D → A) (Q : result E (option A) → D → Prop) d :
  Q (Ok (Some (f d))) d → wp no_faults (query f) Q d.
Proof. intros. by apply wp_stmt_nf. Qed.

Lemma wp_exec_nf (f : D → option D) (Q : result E (option unit) → D → Prop) d :
  match f d with Some d' => Q (Ok (Some tt)) d' | None => Q (Ok None) d end →
  wp no_faults (exec f) Q d.
Proof. intros. apply wp_stmt_nf. by destruct (f d). Qed.

(** Why a statement failed. *)
Lemma wp_stmt_full {A} F (f : D → option (A * D)) (Q : result E (option A) → D → Prop) d :
  (faulty F ∨ f d = None → Q (Ok None) d) →
  (∀ a d', f d = Some (a, d') → Q (Ok (Some a)) d') →
  wp F (stmt f) Q d.
Proof.
  intros H1 H2 n. unfold stmt. destruct (F n) eqn:HF; [apply H1; left; by exists n|].
  destruct (f d) as [[a d']|] eqn:Hf; auto.
Qed.

Lemma wp_exec_full F (f : D → option D) (Q : result E (option unit) → D → Prop) d :
  (faulty F ∨ f d = None → Q (Ok None) d) →
  (∀ d', f d = Some d' → Q (Ok (Some tt)) d') → wp F (exec f) Q d.
Proof.
  intros H1 H2. apply wp_stmt_full.
  - intros [?|Hf]; apply H1; [by left|right]. by destruct (f d).
  - intros [] d' Hf. destruct (f d) eqn:?; simplify_eq/=. auto.
Qed.

(** Statements no constraint can reject: they fail only on a fault. *)
Lemma wp_query_fault {A} F (f : D → A) (Q : result E (option A) → D → Prop) d :
  (faulty F → Q (Ok None) d) → Q (Ok (Some (f d))) d → wp F (query f) Q d.
Proof. intros H1 H2 n. unfold query, stmt. destruct (F n) eqn:?; [|done]. apply H1. by exists n. Qed.

Lemma wp_exec_some F (f : D → D) (Q : result E (option unit) → D → Prop) d :
  (faulty F → Q (Ok None) d) → Q (Ok (Some tt)) (f d) →
  wp F (exec (λ d, Some (f d))) Q d.
Proof. intros H1 H2 n. unfold exec, stmt. destruct (F n) eqn:?; [|done]. apply H1. by exists n. Qed.

Lemma wp_fetch {A} F (l : list A) (Q : result E (list A) → D → Prop) d :
  (∀ l', l' `prefix_of` l → faulty F ∨ l' = l → Q (Ok l') d) → wp F (fetch l) Q d.
Proof.
  revert Q. induction l as [|a l IH]; intros Q HQ; simpl; [apply wp_ret, HQ; auto; apply prefix_nil|].
  intros n. unfold mbind, M_bind, stmt. destruct (F n) eqn:HF.
  { apply HQ; [apply prefix_nil|]. left. by exists n. }
  apply (wp_bind F (fetch l) (λ rest, mret (a :: rest)) Q d), IH.
  intros l' Hp Hl. apply wp_ret, HQ; [by apply prefix_cons|]. destruct Hl as [?| ->]; auto.
Qed.

Lemma wp_with_tx {A} F eb oc (body : M D E A) Q d :
  Q (Err eb) d →
  wp F body (λ r d', match r with
                     | Ok a => Q (Ok a) d' ∧ Q (oc a) d
                     | Err e => Q (Err e) d
                     end) d →
  wp F (with_tx eb oc body) Q d.
Proof.
  intros H1 H2 n. unfold with_tx. destruct (F n); [done|].
  specialize (H2 (S n)). destruct (body F d (S n)) as [[[a|e] d'] n']; [|done].
  destruct H2. by destruct (F n').
Qed.

Lemma wp_with_tx_nf {A} eb oc (body : M D E A) Q d :
  wp no_faults body (λ r d', match r with
                             | Ok a => Q (Ok a) d'
                             | Err e => Q (Err e) d
                             end) d →
  wp no_faults (with_tx eb oc body) Q d.
Proof.
  intros H2 n. unfold with_tx; simpl. specialize (H2 (S n)).
  by destruct (body _ d (S n)) as [[[a|e] d'] n'].
Qed.

Lemma wp_map_err {E' A} F (g : E' → E) (m : M D E' A) Q d :
  wp F m (λ r d', Q (match r with Ok a => Ok a | Err e => Err (g e) end) d') d →
  wp F (map_err g m) Q d.
Proof. intros H n. specialize (H n). unfold map_err.
  by destruct (m F d n) as [[[a|e] d'] n']. Qed.

Lemma wp_attempt {E' A} F (m : M D E' A) (Q : result E (result E' A) → D → Prop) d :
  wp F m (λ r d', Q (Ok r) d') d → wp F (attempt m) Q d.
Proof. intros H n. specialize (H n). unfold attempt.
  by destruct (m F d n) as [[r d'] n']. Qed.

(** Loop rule: [I] holds before every iteration. *)
Lemma wp_for_each {A} F (f : A → M D E unit) (I : D → Prop)
    (Q : result E unit → D → Prop) l d :
  I d →
  (∀ a d, a ∈ l → I d →
     wp F (f a) (λ r d', match r with Ok _ => I d' | Err e => Q (Err e) d' end) d) →
  (∀ d, I d → Q (Ok tt) d) →
  wp F (for_each f l) Q d.
Proof.
  revert d. induction l as [|a l IH]; intros d Hd Hf HQ; simpl.
  { apply wp_ret. auto. }
  apply wp_bind. eapply wp_mono; [apply Hf; [set_solver|done]|].
  intros [?|e] d' H; [|done]. apply IH; [done| |done].
  intros a' d'' ??. apply Hf; [set_solver|done].
Qed.

(** The same, with the elements still to come. *)
Lemma wp_for_each_rest {A} F (f : A → M D E unit) (I : list A → D → Prop)
    (Q : result E unit → D → Prop) l d :
  I l d →
  (∀ a l' d, a ∈ l → I (a :: l') d →
     wp F (f a) (λ r d', match r with Ok _ => I l' d' | Err e => Q (Err e) d' end) d) →
  (∀ d, I [] d → Q (Ok tt) d) →
  wp F (for_each f l) Q d.
Proof.
  intros Hd Hf HQ.
  assert (∀ l', l' ⊆ l → ∀ d, I l' d → wp F (for_each f l') Q d) as Hg; [|by apply Hg].
  clear Hd. induction l' as [|a l' IH]; intros Hl d' Hd'; simpl; [apply wp_ret; auto|].
  apply wp_bind. eapply wp_mono; [apply Hf; [set_solver|done]|].
  intros [?|e] d'' H; [|done]. apply IH; [set_solver|done].
Qed.

(** The same for [for_rows]; [I] may mention the rows still to come. *)
Lemma wp_for_rows {A} F (f : A → M D E unit) (I : list A → D → Prop)
    (Q : result E unit → D → Prop) l d :
  I l d →
  (∀ a l' d, (∃ l0, l = l0 ++ a :: l') → I (a :: l') d →
     wp F (f a) (λ r d', match r with Ok _ => I l' d' | Err e => Q (Err e) d' end) d) →
  (∀ l' d, I l' d → faulty F ∨ l' = [] → Q (Ok tt) d) →
  wp F (for_rows f l) Q d.
Proof.
  intros Hd Hf HQ.
  assert (∀ l0 l', l = l0 ++ l' → ∀ d, I l' d → wp F (for_rows f l') Q d) as Hg;
    [|by apply (Hg [])].
  intros l0 l'. revert l0. clear Hd. induction l' as [|a l' IH]; intros l0 Hl d' Hd'; simpl.
  { apply wp_ret. eauto. }
  intros n. unfold mbind, M_bind, stmt. destruct (F n) eqn:HF.
  { eapply HQ; [done|]. left. by exists n. }
  apply (wp_bind F (f a) (λ _, for_rows f l') Q d'). eapply wp_mono; [apply Hf; eauto|].
  intros [[]|e] d'' H; [|done]. apply (IH (l0 ++ [a])); [|done].
  by rewrite <- app_assoc.
Qed.

#[export] Instance wp_proper {A} F (m : M D E A) :
  Proper (pointwise_relation _ (pointwise_relation _ iff) ==> eq ==> iff) (wp F m).
Proof.
  intros Q Q' HQ d ? <-. unfold wp.
  split; intros H n; specialize (H n); destruct (m F d n) as [[r d'] n'];
    by apply (HQ r d').
Qed.
End wp_rules.

(** ** Automation

    [wp_step] applies the rule for the head of the program; [wp_go] runs it
    to the end, leaving one goal per path.  [wp_call] is the hook by which a
    component registers the specifications of its operations. *)
Create HintDb wp_db discriminated.

Ltac wp_step :=
  lazymatch goal with
  | |- wp _ (mbind _ _) _ _ => apply wp_bind
  | |- wp _ (mret _) _ _ => apply wp_ret
  | |- wp _ (raise _) _ _ => apply wp_raise
  | |- wp _ (of_result _) _ _ => apply wp_of_result
  | |- wp no_faults (query _) _ _ => apply wp_query_nf
  | |- wp no_faults (exec _) _ _ => apply wp_exec_nf
  | |- wp no_faults (stmt _) _ _ => apply wp_stmt_nf
  | |- wp no_faults (with_tx _ _ _) _ _ => apply wp_with_tx_nf
  | |- wp _ (query _) _ _ => apply wp_query
  | |- wp _ (exec _) _ _ => apply wp_exec; [|intros ?d ?Hd]
  | |- wp _ (stmt _) _ _ => apply wp_stmt; [|intros ?a ?d ?Hd]
  | |- wp _ (with_tx _ _ _) _ _ => apply wp_with_tx
  | |- wp _ (map_err _ _) _ _ => apply wp_map_err
  | |- wp _ (attempt _) _ _ => apply wp_attempt
  | |- wp _ (match ?x with _ => _ end) _ _ => destruct x eqn:?
  | |- wp _ (let _ := _ in _) _ _ => cbv zeta
  end.

Ltac wp_go := repeat (wp_step; cbn beta iota).

(** Case analysis on every conditional in the goal. *)
Ltac split_ifs :=
  repeat match goal with
  | |- context [match ?x with _ => _ end] => destruct x eqn:?
  end.

(** ** Lists *)
Lemma elem_of_map_fst_NoDup {A B} (l : list (A * B)) a b b' :
  NoDup l.*1 → (a, b) ∈ l → (a, b') ∈ l → b = b'.
Proof.
  induction l as [|[a0 b0] l IH]; simpl; [set_solver|].
  rewrite NoDup_cons. intros [Hn Hd] [?|H1]%elem_of_cons [?|H2]%elem_of_cons;
    simplify_eq; try done; [| |by eauto].
  - destruct Hn. apply list_elem_of_fmap. by exists (a0, b').
  - destruct Hn. apply list_elem_of_fmap. by exists (a0, b).
Qed.

(** ** Finite maps *)

(** An update invisible through [f]. *)
Lemma fmap_alter_same {K A B} `{Countable K} (f : A → B) (g : A → A) k (m : gmap K A) :
  (∀ x, m !! k = Some x → f (g x) = f x) → f <$> alter g k m = f <$> m.
Proof.
  intros Hf. apply map_eq. intros k'. rewrite !lookup_fmap, lookup_alter.
  case_decide; subst; [|done]. destruct (m !! k') eqn:Hm; [|done]. simpl. by rewrite Hf.
Qed.

(** Equal images, read at one key. *)
Lemma fmap_eq_lookup {K A B} `{Countable K} (f : A → B) (m m' : gmap K A) k x y :
  f <$> m = f <$> m' → m !! k = Some x → m' !! k = Some y → f x = f y.
Proof.
  intros Hm Hx Hy. assert ((f <$> m) !! k = (f <$> m') !! k) as Hk by by rewrite Hm.
  rewrite !lookup_fmap, Hx, Hy in Hk. by simplify_eq/=.
Qed.

(** ** Machine integers *)
Definition two63 : Z := 9223372036854775808.
Definition in_int64 (z : Z) : bool := bool_decide (- two63 ≤ z < two63)%Z.

(** Wrap-around of a 64-bit signed result. *)
Definition wrap64 (z : Z) : Z := ((z + two63) mod (2 * two63) - two63)%Z.

Lemma wrap64_id z : (- two63 ≤ z < two63)%Z → wrap64 z = z.
Proof. intros. unfold wrap64, two63 in *. rewrite Z.mod_small; lia. Qed.

Lemma wrap64_bounds z : (- two63 ≤ wrap64 z < two63)%Z.
Proof.
  unfold wrap64, two63.
  pose proof (Z.mod_pos_bound (z + 9223372036854775808) (2 * 9223372036854775808)).
  lia.
Qed.

(** Time is a number of nanoseconds; [time.Unix()] is in seconds. *)
Definition second : Z := 1000000000.
Definition hour : Z := 3600 * second.
Definition day : Z := 24 * hour.
Definition unix (t : Z) : Z := (t / second)%Z.

(** [if err != nil { return e }] after a statement. *)
Definition or_raise {D E A} (e : E) (m : M D E (option A)) : M D E A :=
  r ← m; match r with Some a => mret a | None => raise e end.

Lemma wp_or_raise {D E A} F (e : E) (m : M D E (option A)) (Q : result E A → D → Prop) d :
  wp F m (λ r d', Q match r with
                    | Ok (Some a) => Ok a
                    | Ok None => Err e
                    | Err e' => Err e'
                    end d') d →
  wp F (or_raise e m) Q d.
Proof.
  intros H. apply wp_bind. eapply wp_mono; [exact H|].
  intros [[a|]|e'] d' HQ; [by apply wp_ret|by apply wp_raise|done].
Qed.

Ltac wp_step ::=
  lazymatch goal with
  | |- wp _ (mbind _ _) _ _ => apply wp_bind
  | |- wp _ (mret _) _ _ => apply wp_ret
  | |- wp _ (raise _) _ _ => apply wp_raise
  | |- wp _ (of_result _) _ _ => apply wp_of_result
  | |- wp _ (or_raise _ _) _ _ => apply wp_or_raise
  | |- wp no_faults (query _) _ _ => apply wp_query_nf
  | |- wp no_faults (exec _) _ _ => apply wp_exec_nf
  | |- wp no_faults (stmt _) _ _ => apply wp_stmt_nf
  | |- wp no_faults (with_tx _ _ _) _ _ => apply wp_with_tx_nf
  | |- wp _ (query _) _ _ => apply wp_query
  | |- wp _ (exec _) _ _ => apply wp_exec; [|intros ?d ?Hd]
  | |- wp _ (stmt _) _ _ => apply wp_stmt; [|intros ?a ?d ?Hd]
  | |- wp _ (with_tx _ _ _) _ _ => apply wp_with_tx
  | |- wp _ (map_err _ _) _ _ => apply wp_map_err
  | |- wp _ (attempt _) _ _ => apply wp_attempt
  | |- wp _ (match ?x with _ => _ end) _ _ => destruct x eqn:?
  end.

(** Turns a hypothesis [Exec F m d r d'] into the post-condition of [m]. *)
Ltac wp_use lem H := eapply wp_Exec in H; [|apply lem].

(** ** Preservation

    [keeps I m]: under every fault schedule, [m] takes databases that satisfy
    [I] to databases that satisfy [I], whatever it returns. *)
Definition keeps {D E A} (I : D → Prop) (m : M D E A) : Prop :=
  ∀ F d, I d → wp F m (λ _ d', I d') d.

Section keeps_rules.
Context {D E : Type} (I : D → Prop).

Lemma keeps_ret {A} (a : A) : keeps I (mret a : M D E A).
Proof. intros F d Hd. by apply wp_ret. Qed.

Lemma keeps_raise {A} (e : E) : keeps I (raise e : M D E A).
Proof. intros F d Hd. by apply wp_raise. Qed.

Lemma keeps_of_result {A} (r : result E A) : keeps I (of_result r).
Proof. intros F d Hd. by apply wp_of_result. Qed.

Lemma keeps_query {A} (f : D → A) : keeps (E := E) I (query f).
Proof. intros F d Hd. by apply wp_query. Qed.

Lemma keeps_exec (f : D → option D) :
  (∀ d d', I d → f d = Some d' → I d') → keeps (E := E) I (exec f).
Proof. intros Hf F d Hd. apply wp_exec; eauto. Qed.

Lemma keeps_stmt {A} (f : D → option (A * D)) :
  (∀ d a d', I d → f d = Some (a, d') → I d') → keeps (E := E) I (stmt f).
Proof. intros Hf F d Hd. apply wp_stmt; eauto. Qed.

Lemma keeps_bind {A B} (m : M D E A) (k : A → M D E B) :
  keeps I m → (∀ a, keeps I (k a)) → keeps I (m ≫= k).
Proof.
  intros Hm Hk F d Hd. apply wp_bind. eapply wp_mono; [by apply Hm|].
  intros [a|e] d' Hd'; [by apply Hk|done].
Qed.

Lemma keeps_forget {A} (m : M D E A) : keeps I (m ≫= λ _, mret tt) → keeps I m.
Proof.
  intros Hm F d Hd n. specialize (Hm F d Hd n). unfold mbind, M_bind in Hm.
  by destruct (m F d n) as [[[a|e] d'] n'].
Qed.

Lemma keeps_or_raise {A} e (m : M D E (option A)) : keeps I m → keeps I (or_raise e m).
Proof. intros Hm F d Hd. apply wp_or_raise. eapply wp_mono; [by apply Hm|done]. Qed.

Lemma keeps_attempt {E' A} (m : M D E' A) : keeps I m → keeps (E := E) I (attempt m).
Proof. intros Hm F d Hd. apply wp_attempt. by apply Hm. Qed.

Lemma keeps_with_tx {A} eb oc (m : M D E A) : keeps I m → keeps I (with_tx eb oc m).
Proof.
  intros Hm F d Hd. apply wp_with_tx; [done|]. eapply wp_mono; [by apply Hm|].
  by intros [a|e] d' Hd'.
Qed.

Lemma keeps_fetch {A} (l : list A) : keeps (E := E) I (fetch l).
Proof. intros F d Hd. by apply wp_fetch. Qed.

Lemma keeps_for_each {A} (f : A → M D E unit) l :
  (∀ a, keeps I (f a)) → keeps I (for_each f l).
Proof.
  intros Hf F d Hd. apply wp_for_each with (I := I); [done| |done].
  intros a d' _ Hd'. eapply wp_mono; [by apply Hf|]. by intros [].
Qed.
End keeps_rules.

(** [keeps_go] follows the program; goals about single statements remain. *)
#[export] Hint Resolve keeps_ret keeps_raise keeps_of_result keeps_query keeps_fetch : wp_db.

Ltac keeps_step :=
  lazymatch goal with
  | |- keeps _ (mbind _ _) => apply keeps_bind; [|intros ?]
  | |- keeps _ (or_raise _ _) => apply keeps_or_raise
  | |- keeps _ (attempt _) => apply keeps_attempt
  | |- keeps _ (with_tx _ _ _) => apply keeps_with_tx
  | |- keeps _ (for_each _ _) => apply keeps_for_each; intros ?
  | |- keeps _ (exec _) => apply keeps_exec; intros ?d ?d' ?HI ?Hf
  | |- keeps _ (stmt _) => apply keeps_stmt; intros ?d ?a ?d' ?HI ?Hf
  | |- keeps _ (match ?x with _ => _ end) => destruct x
  | |- keeps _ _ => solve [auto with wp_db]
  end.

Ltac keeps_go := repeat (keeps_step; cbn beta iota).
