(* ===== verification/Interleave.v ===== *)
(** * Requests that run at the same time

    A handler is atomic in [M]; PostgreSQL only makes its statements and its
    transactions atomic.  [prog] is a program cut at its statements: [interp]
    is what it does alone, [step] lets the programs of several requests take
    turns on one database.  Statements may fail at any time, as in [M]. *)

From S2P Require Import Prelude.
Set Default Goal Selector "!".
Open Scope stdpp_scope.

Module Interleave.

(** ** Programs

    [Atomic]: a transaction whose statements do not read what other requests
    write; with the locks of its rows it takes effect at its commit. *)
Inductive prog (D E A : Type) : Type :=
| Stop (r : result E A)
| Stmt {X : Type} (f : D → option (X * D)) (k : option X → prog D E A)
| Atomic {X : Type} (m : M D E X) (k : result E X → prog D E A).
Arguments Stop {D E A} r.
Arguments Stmt {D E A X} f k.
Arguments Atomic {D E A X} m k.

#[export] Instance prog_ret {D E} : MRet (prog D E) := λ A a, Stop (Ok a).
#[export] Instance prog_bind {D E} : MBind (prog D E) := λ A B k,
  fix bind p := match p with
  | Stop (Ok a) => k a
  | Stop (Err e) => Stop (Err e)
  | Stmt f k' => Stmt f (λ x, bind (k' x))
  | Atomic m k' => Atomic m (λ r, bind (k' r))
  end.

Definition throw {D E A} (e : E) : prog D E A := Stop (Err e).

Fixpoint try_ {D E A} (p : prog D E A) : prog D E (result E A) :=
  match p with
  | Stop r => Stop (Ok r)
  | Stmt f k => Stmt f (λ x, try_ (k x))
  | Atomic m k => Atomic m (λ r, try_ (k r))
  end.

Definition asks {D E A} (f : D → A) : prog D E (option A) :=
  Stmt (λ d, Some (f d, d)) (λ x, mret x).
Definition does {D E} (f : D → option D) : prog D E (option unit) :=
  Stmt (λ d, (λ d', (tt, d')) <$> f d) (λ x, mret x).
Definition whole {D E A} (m : M D E A) : prog D E A := Atomic m Stop.

Definition or_throw {D E A} (e : E) (p : prog D E (option A)) : prog D E A :=
  x ← p; match x with Some a => mret a | None => throw e end.

(** A loop. *)
Fixpoint each {D E A} (f : A → prog D E unit) (l : list A) : prog D E unit :=
  match l with
  | [] => mret tt
  | a :: l => _ ← f a; each f l
  end.

(** [for rows.Next()], a row a statement. *)
Fixpoint fetched {D E A} (l : list A) : prog D E (list A) :=
  match l with
  | [] => mret []
  | a :: l' =>
    ok ← Stmt (λ d, Some (tt, d)) mret;
    match ok with
    | None => mret []
    | Some _ => rest ← fetched l'; mret (a :: rest)
    end
  end.

(** ** Alone *)
Fixpoint interp {D E A} (p : prog D E A) : M D E A :=
  match p with
  | Stop r => of_result r
  | Stmt f k => x ← stmt f; interp (k x)
  | Atomic m k => r ← attempt m; interp (k r)
  end.

(** ** Together

    A thread is a request, the databases seen since it arrived, the latest
    first, and what it has left to do. *)
Section system.
Context {O D E A : Type} (code : O → prog D E A).

Record thread := Thread { th_op : O; th_seen : list D; th_prog : prog D E A }.

Record system := System { sys_db : D; sys_threads : list thread }.

(** A program from one database to the next. *)
Inductive pstep : prog D E A → D → prog D E A → D → Prop :=
| ps_stmt X (f : D → option (X * D)) k d x d' : f d = Some (x, d') → pstep (Stmt f k) d (k (Some x)) d'
| ps_fail X (f : D → option (X * D)) k d : pstep (Stmt f k) d (k None) d
| ps_atomic X F (m : M D E X) k d r d' : Exec F m d r d' → pstep (Atomic m k) d (k r) d'.

Definition see (d : D) (t : thread) : thread := Thread (th_op t) (d :: th_seen t) (th_prog t).

Inductive step (s : system) : system → Prop :=
| st_arrive o : step s (System (sys_db s) (sys_threads s ++ [Thread o [sys_db s] (code o)]))
| st_run i t p d : sys_threads s !! i = Some t → pstep (th_prog t) (sys_db s) p d →
    step s (System d (see d <$> <[i := Thread (th_op t) (th_seen t) p]> (sys_threads s))).

Inductive reach (d0 : D) : system → Prop :=
| reach_start : reach d0 (System d0 [])
| reach_step s s' : reach d0 s → step s s' → reach d0 s'.

(** *** One request alone *)
Inductive alone : prog D E A → D → result E A → D → Prop :=
| al_stop r d : alone (Stop r) d r d
| al_step p d p' d' r d'' : pstep p d p' d' → alone p' d' r d'' → alone p d r d''.

(** What a program does in [M] are steps of it. *)
Lemma interp_alone F p d r d' : Exec F (interp p) d r d' → alone p d r d'.
Proof.
  revert d. induction p as [r0|X f k IH|X m k IH]; intros d (n & n' & He); cbn [interp] in He.
  - unfold of_result in He. simplify_eq. constructor.
  - unfold mbind, M_bind, stmt in He. destruct (F n).
    + eapply al_step; [apply ps_fail|apply IH; by eexists _, _].
    + destruct (f d) as [[x d1]|] eqn:Hf.
      * eapply al_step; [by apply ps_stmt|apply IH; by eexists _, _].
      * eapply al_step; [apply ps_fail|apply IH; by eexists _, _].
  - unfold mbind, M_bind, attempt in He. destruct (m F d n) as [[x d1] n1] eqn:Hm.
    eapply al_step; [eapply (ps_atomic _ F); by eexists _, _|apply IH; by eexists _, _].
Qed.

(** *** Invariants of statements

    [every I p]: each statement and each transaction of [p] preserves [I]. *)
Fixpoint every (I : D → Prop) (p : prog D E A) : Prop :=
  match p with
  | Stop _ => True
  | Stmt f k => (∀ d x d', I d → f d = Some (x, d') → I d') ∧ ∀ x, every I (k x)
  | Atomic m k => (∀ F d r d', I d → Exec F m d r d' → I d') ∧ ∀ r, every I (k r)
  end.

Lemma every_next I p d p' d' : pstep p d p' d' → every I p → every I p'.
Proof. by destruct 1; cbn [every]; intros [_ He]. Qed.

Lemma every_pstep I p d p' d' : pstep p d p' d' → every I p → I d → I d' ∧ every I p'.
Proof. destruct 1; cbn [every]; intros [H1 H2] Hd; eauto. Qed.

(** Whatever the order of the statements, what each of them preserves holds. *)
Theorem every_reach I d0 s :
  (∀ o, every I (code o)) → I d0 → reach d0 s →
  I (sys_db s) ∧ Forall (λ t, every I (th_prog t)) (sys_threads s).
Proof.
  intros Hc H0. induction 1 as [|s s' _ [Hd Ht] Hs]; [by split|]. destruct Hs as [o|i t p d Hi Hp]; cbn.
  - split; [done|]. apply Forall_app. split; [done|]. constructor; [apply Hc|constructor].
  - destruct (every_pstep I _ _ _ _ Hp) as [Hd' Hp']; [by eapply Forall_lookup_1 in Ht|done|].
    split; [done|]. apply Forall_fmap. by apply Forall_insert.
Qed.

(** *** What a request has seen

    An assertion about a request, the databases it has seen and its program
    is an invariant when it holds at its arrival, is not lost by seeing more,
    and is preserved by its own steps. *)
Section seen.
Context (P : O → list D → prog D E A → Prop).
Context (P_start : ∀ o d, P o [d] (code o))
  (P_more : ∀ o d l p, P o l p → P o (d :: l) p)
  (P_step : ∀ o d l p p' d', P o l p → head l = Some d → pstep p d p' d' → P o (d' :: l) p').

Definition tells (s : system) (t : thread) : Prop :=
  head (th_seen t) = Some (sys_db s) ∧ P (th_op t) (th_seen t) (th_prog t).

Lemma seen_reach d0 s : reach d0 s → Forall (tells s) (sys_threads s).
Proof.
  induction 1 as [|s s' _ Ht Hs]; [constructor|]. destruct Hs as [o|i t p d Hi Hp]; cbn.
  - apply Forall_app. split; [done|]. constructor; [|constructor]. split; [done|apply P_start].
  - apply Forall_fmap, Forall_insert.
    + eapply Forall_impl; [exact Ht|]. intros t' [_ Ht']. split; [done|]. by apply P_more.
    + pose proof (Forall_lookup_1 _ _ _ _ Ht Hi) as [Hh Hpt]. split; [done|]. by eapply P_step.
Qed.
End seen.

(** *** Authorised changes

    [safe ok post seen p]: whatever else happens, each change that [p] makes
    is one that [ok] allows, and its result one that [post] allows, given the
    databases its request has seen by then. *)
Fixpoint safe (ok : list D → D → D → Prop) (post : list D → result E A → Prop)
    (seen : list D) (p : prog D E A) : Prop :=
  match p with
  | Stop r => ∀ l, post (l ++ seen) r
  | Stmt f k => ∀ l d, head (l ++ seen) = Some d →
      (∀ x d', f d = Some (x, d') →
        (d' = d ∨ ok (l ++ seen) d d') ∧ safe ok post (d' :: l ++ seen) (k (Some x))) ∧
      safe ok post (d :: l ++ seen) (k None)
  | Atomic m k => ∀ l d, head (l ++ seen) = Some d → ∀ F r d', Exec F m d r d' →
      (d' = d ∨ ok (l ++ seen) d d') ∧ safe ok post (d' :: l ++ seen) (k r)
  end.

Lemma safe_more ok post d seen p : safe ok post seen p → safe ok post (d :: seen) p.
Proof.
  assert (∀ l, l ++ d :: seen = (l ++ [d]) ++ seen) as Hl by (intros; by rewrite <- app_assoc).
  destruct p as [r|X f k|X m k]; cbn [safe]; intros H l; rewrite Hl; apply H.
Qed.

Lemma safe_mono ok ok' post post' seen p :
  safe ok post seen p → (∀ l d d', ok (l ++ seen) d d' → ok' (l ++ seen) d d') →
  (∀ l r, post (l ++ seen) r → post' (l ++ seen) r) → safe ok' post' seen p.
Proof.
  assert (∀ d l l', l' ++ d :: l ++ seen = (l' ++ d :: l) ++ seen) as Hl by (intros; by rewrite <- app_assoc).
  revert seen Hl. induction p as [r|X f k IH|X m k IH]; intros seen Hl Hp Ho Hq; cbn [safe] in *.
  - intros l. by apply Hq.
  - assert (∀ d l x, safe ok post (d :: l ++ seen) (k x) → safe ok' post' (d :: l ++ seen) (k x)) as Hk.
    { intros d l x Hs. apply IH; [intros; rewrite <- app_assoc; done|done|..]; intros l'; rewrite Hl; auto. }
    intros l d Hd. destruct (Hp l d Hd) as [H1 H2]. split; [|by apply Hk].
    intros x d' Hf. destruct (H1 x d' Hf) as [[->|H3] H4]; (split; [|by apply Hk]); [by left|right; by apply Ho].
  - assert (∀ d l x, safe ok post (d :: l ++ seen) (k x) → safe ok' post' (d :: l ++ seen) (k x)) as Hk.
    { intros d l x Hs. apply IH; [intros; rewrite <- app_assoc; done|done|..]; intros l'; rewrite Hl; auto. }
    intros l d Hd F r d' Hm. destruct (Hp l d Hd F r d' Hm) as [[->|H3] H4]; (split; [|by apply Hk]);
      [by left|right; by apply Ho].
Qed.

Lemma safe_step ok post p d l p' d' : safe ok post l p → head l = Some d → pstep p d p' d' →
  (d' = d ∨ ok l d d') ∧ safe ok post (d' :: l) p'.
Proof.
  intros Hs Hl Hp. destruct Hp; cbn [safe] in Hs; specialize (Hs [] _ Hl).
  - destruct Hs as [Hs _]. by apply Hs.
  - destruct Hs as [_ Hs]. split; [by left|done].
  - by eapply Hs.
Qed.

Section safe_system.
Context (ok : O → list D → D → D → Prop) (post : O → list D → result E A → Prop).
Context (Hc : ∀ o d, safe (ok o) (post o) [d] (code o)).

Lemma safe_threads d0 s : reach d0 s →
  Forall (tells (λ o l p, safe (ok o) (post o) l p) s) (sys_threads s).
Proof.
  intros Hr. eapply (seen_reach (λ o l p, safe (ok o) (post o) l p)); [done| | |exact Hr].
  - intros. by apply safe_more.
  - intros o d1 l p1 p2 d2 Hs Hh Hp1. by eapply safe_step.
Qed.

(** A request changes the database only as it is allowed to by what it has
    seen since it arrived. *)
Lemma safe_reach d0 s i t p d :
  reach d0 s → sys_threads s !! i = Some t → pstep (th_prog t) (sys_db s) p d →
  d = sys_db s ∨ ok (th_op t) (th_seen t) (sys_db s) d.
Proof.
  intros Hr%safe_threads Hi Hp. destruct (Forall_lookup_1 _ _ _ _ Hr Hi) as [Hh Hs]. by eapply safe_step.
Qed.

(** What a finished request answers. *)
Lemma safe_result d0 s i o l r :
  reach d0 s → sys_threads s !! i = Some (Thread o l (Stop r)) → post o l r.
Proof. intros Hr%safe_threads Hi. destruct (Forall_lookup_1 _ _ _ _ Hr Hi) as [Hh Hs]. apply (Hs []). Qed.
End safe_system.

(** *** What no request of some kind undoes

    [I] is preserved by the statements of the good requests; none but good
    requests has arrived. *)
Section stable.
Context (good : O → Prop) (I : D → Prop) (Hgood : ∀ o, good o → every I (code o)).

Definition all_good (s : system) : Prop := Forall good (th_op <$> sys_threads s).

Lemma step_ops s s' : step s s' → th_op <$> sys_threads s `prefix_of` th_op <$> sys_threads s'.
Proof.
  destruct 1 as [o|i t p d Hi Hp]; cbn.
  - rewrite fmap_app. by apply prefix_app_r.
  - rewrite <- list_fmap_compose, list_fmap_insert. cbn. rewrite list_insert_id; [done|].
    by rewrite list_lookup_fmap, Hi.
Qed.

Lemma steps_ops s s' : rtc step s s' → th_op <$> sys_threads s `prefix_of` th_op <$> sys_threads s'.
Proof. induction 1; [done|]. etrans; [by apply step_ops|done]. Qed.

Lemma reach_steps d0 s s' : reach d0 s → rtc step s s' → reach d0 s'.
Proof. intros Hr Hs. induction Hs; [done|]. eauto using reach_step. Qed.

Lemma step_good s s' : step s s' → all_good s' → all_good s.
Proof. unfold all_good. intros [l ->]%step_ops Hg. by apply Forall_app in Hg as [? _]. Qed.

Lemma every_threads d0 s : reach d0 s → all_good s → Forall (λ t, every I (th_prog t)) (sys_threads s).
Proof.
  induction 1 as [|s s' _ IH Hs]; [constructor|]. intros Hg. specialize (IH (step_good _ _ Hs Hg)).
  unfold all_good in Hg. destruct Hs as [o|i t p d Hi Hp]; cbn in *.
  - rewrite fmap_app in Hg. apply Forall_app in Hg as [_ Hg]. apply Forall_app. split; [done|].
    constructor; [|constructor]. apply Hgood. by inversion Hg.
  - apply Forall_fmap, Forall_insert; [by eapply Forall_impl|].
    eapply every_next; [done|]. apply (Forall_lookup_1 _ _ _ _ IH Hi).
Qed.

Lemma step_keeps d0 s s' : reach d0 s → all_good s → step s s' → I (sys_db s) → I (sys_db s').
Proof.
  intros Hr Hg Hs Hi. pose proof (every_threads _ _ Hr Hg) as He. destruct Hs as [o|i t p d Hl Hp]; [done|].
  eapply every_pstep; [done| |done]. apply (Forall_lookup_1 _ _ _ _ He Hl).
Qed.

(** What a request has seen to hold holds still. *)
Lemma seen_stable d0 s : reach d0 s → all_good s →
  Forall (λ t, ∀ d, d ∈ th_seen t → I d → I (sys_db s)) (sys_threads s).
Proof.
  induction 1 as [|s s' Hr IH Hs]; [constructor|]. intros Hg. pose proof (step_good _ _ Hs Hg) as Hg'.
  specialize (IH Hg'). pose proof (step_keeps _ _ _ Hr Hg' Hs) as Hk. destruct Hs as [o|i t p d Hi Hp]; cbn in *.
  - apply Forall_app. split; [done|]. constructor; [|constructor]. intros d. cbn. by intros ->%list_elem_of_singleton.
  - assert (∀ t0 : thread, (∀ d1, d1 ∈ th_seen t0 → I d1 → I (sys_db s)) →
      ∀ d1, d1 ∈ th_seen (see d t0) → I d1 → I d) as Hsee.
    { intros t0 H0 d1 [->|H1]%elem_of_cons; [done|]. intros. by eapply Hk, H0. }
    apply Forall_fmap, Forall_insert; [by eapply Forall_impl|].
    unfold compose. apply Hsee. cbn. by apply (Forall_lookup_1 _ _ _ _ IH Hi).
Qed.

(** All that a later request sees satisfies [I]. *)
Lemma later_seen d0 s s' : reach d0 s → rtc step s s' → all_good s' → I (sys_db s) →
  I (sys_db s') ∧ ∀ j t, length (sys_threads s) ≤ j → sys_threads s' !! j = Some t → Forall I (th_seen t).
Proof.
  intros Hr Hs Hg Hi. cut (reach d0 s' ∧ I (sys_db s') ∧
    ∀ j t, length (sys_threads s) ≤ j → sys_threads s' !! j = Some t → Forall I (th_seen t)); [by intros (_ & ? & ?)|].
  revert s' Hs Hg. apply (rtc_ind_r (λ s', all_good s' → _)); [|intros s1 s2 _ Hs2 IH]; intros Hg.
  - split; [done|]. split; [done|]. intros j t Hj Ht%lookup_lt_Some. lia.
  - destruct (IH (step_good _ _ Hs2 Hg)) as (Hr1 & Hi1 & Hl). split; [by eapply reach_step|].
    pose proof (step_keeps _ _ _ Hr1 (step_good _ _ Hs2 Hg) Hs2 Hi1) as Hi2. split; [done|].
    intros j t Hj Ht. destruct Hs2 as [o|i t0 p d Hi0 Hp]; cbn in *.
    + apply lookup_app_Some in Ht as [Ht|[_ Ht]]; [by eapply Hl|].
      apply list_lookup_singleton_Some in Ht as [_ <-]. by repeat constructor.
    + rewrite list_lookup_fmap in Ht. apply fmap_Some in Ht as (t1 & Ht1 & ->). cbn. constructor; [done|].
      destruct (decide (i = j)) as [->|].
      * rewrite list_lookup_insert_eq in Ht1 by (by eapply lookup_lt_Some). simplify_eq. cbn. by eapply Hl.
      * rewrite list_lookup_insert_ne in Ht1 by done. by eapply Hl.
Qed.
End stable.

(** *** Schedules

    The system after a list of turns: a new request, or a step of a thread
    without a fault. *)
Inductive turn := Arrives (o : O) | Runs (i : nat).

Definition advance (p : prog D E A) (d : D) : prog D E A * D :=
  match p with
  | Stop r => (p, d)
  | Stmt f k => match f d with Some (x, d') => (k (Some x), d') | None => (k None, d) end
  | Atomic m k => let r := m no_faults d 0 in (k r.1.1, r.1.2)
  end.

Definition take_turn (s : system) (u : turn) : system :=
  match u with
  | Arrives o => System (sys_db s) (sys_threads s ++ [Thread o [sys_db s] (code o)])
  | Runs i => match sys_threads s !! i with
              | None | Some (Thread _ _ (Stop _)) => s
              | Some t => let '(p, d) := advance (th_prog t) (sys_db s) in
                          System d (see d <$> <[i := Thread (th_op t) (th_seen t) p]> (sys_threads s))
              end
  end.

Lemma advance_pstep p d : (∀ r, p ≠ Stop r) → pstep p d (advance p d).1 (advance p d).2.
Proof.
  intros Hp. destruct p as [r|X f k|X m k]; cbn; [by destruct (Hp r)|..].
  - destruct (f d) as [[x d']|] eqn:Hf; [by apply ps_stmt|apply ps_fail].
  - apply (ps_atomic X no_faults), Exec_first.
Qed.

Lemma turn_steps s u : rtc step s (take_turn s u).
Proof.
  destruct u as [o|i]; cbn [take_turn]; [apply rtc_once; constructor|].
  destruct (sys_threads s !! i) as [[o l p]|] eqn:Hi; [|done]. pose proof (advance_pstep p (sys_db s)) as Hp.
  destruct p as [r|X f k|X m k]; [done|..]; specialize (Hp ltac:(done)); cbn [th_prog];
    destruct (advance _ _) as [p' d']; apply rtc_once; by eapply (st_run _ i (Thread o l _)).
Qed.

Lemma turns_steps us s : rtc step s (foldl take_turn s us).
Proof.
  revert s. induction us as [|u us IH]; intros s; [done|]. cbn. etrans; [apply turn_steps|apply IH].
Qed.

Lemma turns_reach d0 us s : reach d0 s → reach d0 (foldl take_turn s us).
Proof. intros Hs. by eapply reach_steps, turns_steps. Qed.
End system.
Arguments thread : clear implicits.
Arguments system : clear implicits.

Lemma head_elem {A} (l : list A) a : head l = Some a → a ∈ l.
Proof. destruct l; [done|]. intros [= ->]. by left. Qed.

Lemma alone_inv {D E A} (p : prog D E A) d r d' : alone p d r d' →
  match p with
  | Stop r0 => r = r0 ∧ d' = d
  | Stmt f k => alone (k None) d r d' ∨ ∃ x d1, f d = Some (x, d1) ∧ alone (k (Some x)) d1 r d'
  | Atomic m k => ∃ F r1 d1, Exec F m d r1 d1 ∧ alone (k r1) d1 r d'
  end.
Proof.
  destruct 1 as [r d|p d p1 d1 r d' Hp Ha]; [done|]. destruct Hp; [right|left|]; eauto.
Qed.

(** ** Sequences *)
Section sequence.
Context {D E A B : Type}.
Implicit Types (p : prog D E A) (k : A → prog D E B).

Lemma safe_bind ok (post : list D → result E B → Prop) post1 seen p k :
  safe ok post1 seen p → (∀ l a, post1 l (Ok a) → safe ok post l (k a)) →
  (∀ l e, post1 l (Err e) → post l (Err e)) → safe ok post seen (p ≫= k).
Proof.
  intros Hp Hk He. revert seen Hp. induction p as [[a|e]|X f k1 IH|X m k1 IH]; intros seen Hp.
  - by apply Hk, (Hp []).
  - intros l. by apply He, Hp.
  - intros l d Hd. destruct (Hp l d Hd) as [H1 H2]. split; [|by apply IH].
    intros x d' Hf. destruct (H1 x d' Hf). split; [done|by apply IH].
  - intros l d Hd F r d' Hm. destruct (Hp l d Hd F r d' Hm). split; [done|by apply IH].
Qed.

Lemma interp_bind p k F d n : interp (p ≫= k) F d n = (interp p ≫= λ a, interp (k a)) F d n.
Proof.
  revert d n. induction p as [[a|e]|X f k1 IH|X m k1 IH]; intros d n; [done|done|..].
  - change (interp (Stmt f k1 ≫= k)) with (x ← stmt f; interp (k1 x ≫= k)). cbn [interp].
    unfold mbind, M_bind in *. destruct (stmt f F d n) as [[[x|e] d1] n1]; [apply IH|done].
  - change (interp (Atomic m k1 ≫= k)) with (r ← attempt m; interp (k1 r ≫= k)). cbn [interp].
    unfold mbind, M_bind in *. destruct (attempt m F d n) as [[[x|e] d1] n1]; [apply IH|done].
Qed.

(** A statement that reads, and one that writes. *)
Lemma safe_asks {X} ok (post : list D → result E B → Prop) seen (f : D → X) (k : option X → prog D E B) :
  (∀ d l, d ∈ l ++ seen → safe ok post (d :: l ++ seen) (k (Some (f d)))) →
  (∀ d l, safe ok post (d :: l ++ seen) (k None)) → safe ok post seen (x ← asks f; k x).
Proof.
  intros Hk Hn l d Hd%head_elem. split; [|apply Hn]. intros x d' [= <- <-]. split; [by left|by apply Hk].
Qed.

Lemma safe_does ok (post : list D → result E B → Prop) seen (f : D → option D) (k : option unit → prog D E B) :
  (∀ d l d', d ∈ l ++ seen → f d = Some d' → ok (l ++ seen) d d' ∧ safe ok post (d' :: l ++ seen) (k (Some tt))) →
  (∀ d l, safe ok post (d :: l ++ seen) (k None)) → safe ok post seen (x ← does f; k x).
Proof.
  intros Hk Hn l d Hd%head_elem. split; [|apply Hn]. intros x d' Hf. destruct (f d) as [d1|] eqn:Hd1; [|done].
  cbn in Hf. simplify_eq. destruct (Hk _ _ _ Hd Hd1). split; [by right|done].
Qed.

Lemma pstep_bind p k d p' d' : pstep p d p' d' → pstep (p ≫= k) d (p' ≫= k) d'.
Proof.
  destruct 1 as [X f k1 d x d' Hf|X f k1 d|X F m k1 d r d' Hm].
  - exact (ps_stmt X f (λ x, k1 x ≫= k) d x d' Hf).
  - exact (ps_fail X f (λ x, k1 x ≫= k) d).
  - exact (ps_atomic X F m (λ x, k1 x ≫= k) d r d' Hm).
Qed.

Lemma alone_bind p k d a d1 r d' : alone p d (Ok a) d1 → alone (k a) d1 r d' → alone (p ≫= k) d r d'.
Proof.
  remember (Ok a) as ra eqn:Ha. induction 1 as [r1 d1|p1 d2 p2 d3 r1 d4 Hp _ IH]; intros Hk.
  - by subst r1.
  - specialize (IH Ha Hk). eapply al_step; [by apply pstep_bind|exact IH].
Qed.

Lemma alone_bind_inv p k d r d' : alone (p ≫= k) d r d' →
  (∃ e, r = Err e ∧ alone p d (Err e) d') ∨ ∃ a d1, alone p d (Ok a) d1 ∧ alone (k a) d1 r d'.
Proof.
  revert d. induction p as [[a|e]|X f k1 IH|X m k1 IH]; intros d Ha.
  - right. exists a, d. split; [constructor|done].
  - left. apply (alone_inv (Stop (Err e))) in Ha as [-> ->]. exists e. split; [done|constructor].
  - pose proof (alone_inv (Stmt f (λ x, prog_bind A B k (k1 x))) _ _ _ Ha) as Hi. clear Ha.
    destruct Hi as [Ha|(x & d1 & Hf & Ha)]; apply IH in Ha as [(e & -> & Ha)|(a & d2 & Ha & Hk)].
    + left. exists e. split; [done|]. eapply al_step; [apply ps_fail|done].
    + right. exists a, d2. split; [|done]. eapply al_step; [apply ps_fail|done].
    + left. exists e. split; [done|]. eapply al_step; [by apply ps_stmt|done].
    + right. exists a, d2. split; [|done]. eapply al_step; [by apply ps_stmt|done].
  - pose proof (alone_inv (Atomic m (λ x, prog_bind A B k (k1 x))) _ _ _ Ha) as Hi. clear Ha.
    destruct Hi as (F & r1 & d1 & Hm & Ha); apply IH in Ha as [(e & -> & Ha)|(a & d2 & Ha & Hk)].
    + left. exists e. split; [done|]. eapply al_step; [by eapply ps_atomic|done].
    + right. exists a, d2. split; [|done]. eapply al_step; [by eapply ps_atomic|done].
Qed.

Lemma alone_bind_err p k d e d' : alone p d (Err e) d' → alone (p ≫= k) d (Err e) d'.
Proof.
  remember (Err e) as re eqn:He. induction 1 as [r1 d1|p1 d2 p2 d3 r1 d4 Hp _ IH].
  - subst r1. constructor.
  - specialize (IH He). subst r1. eapply al_step; [by apply pstep_bind|exact IH].
Qed.
End sequence.

Lemma safe_each {D E X} (ok : list D → D → D → Prop) (post : list D → result E unit → Prop) (C : list D → Prop) (f : X → prog D E unit) (xs : list X) seen :
  (∀ l seen, C seen → C (l ++ seen)) → (∀ l, C l → post l (Ok tt)) → C seen →
  (∀ x l, x ∈ xs → C l →
     safe ok (λ l r, match r with Ok _ => C l | Err e => post l (Err e) end) l (f x)) →
  safe ok post seen (each f xs).
Proof.
  intros Hm Hp Hseen. revert seen Hseen. induction xs as [|x xs IH]; intros seen Hseen Hf; cbn [each].
  - intros l. by apply Hp, Hm.
  - eapply safe_bind; [apply Hf; [by left|done]| |done].
    intros l [] Hl. apply IH; [done|]. intros x' l' Hx. apply Hf. by right.
Qed.

Section throws.
Context {D E B : Type} (ok : list D → D → D → Prop).

Lemma safe_throws_asks {X} e (f : D → X) (k : X → prog D E B) post seen :
  (∀ l, post l (Err e)) → (∀ d l, d ∈ l ++ seen → safe ok post (d :: l ++ seen) (k (f d))) →
  safe ok post seen (x ← or_throw e (asks f); k x).
Proof.
  intros He Hk l d Hd%head_elem. split; [|by intros l']. intros x d' [= <- <-]. split; [by left|by apply Hk].
Qed.

Lemma safe_throws_then e (f : D → option D) (k : unit → prog D E B) post seen :
  (∀ l, post l (Err e)) →
  (∀ d l d', d ∈ l ++ seen → f d = Some d' → ok (l ++ seen) d d' ∧ safe ok post (d' :: l ++ seen) (k tt)) →
  safe ok post seen (u ← or_throw e (does f); k u).
Proof.
  intros He Hk l d Hd%head_elem. split; [|by intros l']. intros x d' Hf. destruct (f d) as [d1|] eqn:Hd1; [|done].
  cbn in Hf. simplify_eq. destruct (Hk _ _ _ Hd Hd1). split; [by right|done].
Qed.

Lemma safe_throws_does e (f : D → option D) (post : list D → result E unit → Prop) seen :
  (∀ l, post l (Err e)) → (∀ l, post (l ++ seen) (Ok tt)) →
  (∀ d l d', d ∈ l ++ seen → f d = Some d' → ok (l ++ seen) d d') → safe ok post seen (or_throw e (does f)).
Proof.
  intros He Hp Hf l d Hin%head_elem. split; [|by intros l']. intros x d' Hd. destruct (f d) as [d1|] eqn:Hd1; [|done].
  cbn in Hd. simplify_eq. split; [right; by eapply Hf|]. intros l1.
  change (d' :: l ++ seen) with ((d' :: l) ++ seen). rewrite app_assoc. apply Hp.
Qed.
End throws.

(** Invariants of sequences. *)
Lemma every_bind {D E A B} (I : D → Prop) (p : prog D E A) (k : A → prog D E B) :
  every I p → (∀ a, every I (k a)) → every I (p ≫= k).
Proof.
  intros Hp Hk. induction p as [[a|e]|X f k1 IH|X m k1 IH]; [apply Hk|done|..];
    destruct Hp as [Hf Hp]; (split; [done|]); intros x; by apply IH.
Qed.

Lemma every_asks {D E A} (I : D → Prop) (f : D → A) : every (E:=E) I (asks f).
Proof. split; [by intros d x d' Hd [= <- <-]|]. by intros [x|]. Qed.

Lemma every_does {D E} (I : D → Prop) (f : D → option D) :
  (∀ d d', I d → f d = Some d' → I d') → every (E:=E) I (does f).
Proof.
  intros Hf. split; [|by intros [x|]]. intros d x d' Hd He. destruct (f d) as [d1|] eqn:Hd1; [|done].
  cbn in He. simplify_eq. eauto.
Qed.

Lemma every_throws {D E A} (I : D → Prop) (e : E) (p : prog D E (option A)) : every I p → every I (or_throw e p).
Proof. intros Hp. apply every_bind; [done|]. by intros [a|]. Qed.

Lemma every_each {D E X} (I : D → Prop) (f : X → prog D E unit) l : (∀ x, every I (f x)) → every I (each f l).
Proof. intros Hf. induction l as [|x l IH]; [done|]. by apply every_bind. Qed.

Lemma every_fetched {D E A} (I : D → Prop) (l : list A) : every (E:=E) I (fetched l).
Proof.
  induction l as [|a l IH]; [done|]. apply every_bind; [split; [by intros d x d' Hd [= <- <-]|done]|].
  intros [[]|]; [|done]. by apply every_bind.
Qed.

Lemma every_pure {D E A B} (I : D → Prop) (r : result E A) (k : A → prog D E B) :
  (∀ a, every I (k a)) → every I (Stop r ≫= k).
Proof. intros Hk. by apply every_bind. Qed.

Create HintDb every.
#[export] Hint Resolve every_asks every_does every_throws : every.

(** ** Equivalence with handlers *)
Definition is_code {D E A} (p : prog D E A) (m : M D E A) : Prop := ∀ F d n, interp p F d n = m F d n.

Section is_code.
Context {D E : Type}.

Lemma ic_ret {A} (a : A) : is_code (D:=D) (E:=E) (mret a) (mret a).
Proof. done. Qed.

Lemma ic_result {A} (r : result E A) : is_code (D:=D) (Stop r) (of_result r).
Proof. done. Qed.

Lemma ic_throw {A} (e : E) : is_code (D:=D) (A:=A) (throw e) (raise e).
Proof. done. Qed.

Lemma ic_bind {A B} (p : prog D E A) m (k : A → prog D E B) km :
  is_code p m → (∀ a, is_code (k a) (km a)) → is_code (p ≫= k) (m ≫= km).
Proof.
  intros Hp Hk F d n. rewrite interp_bind. unfold mbind, M_bind. rewrite Hp.
  destruct (m F d n) as [[[a|e] d1] n1]; [apply Hk|done].
Qed.

Lemma ic_stmt {A} (f : D → option (A * D)) : is_code (E:=E) (Stmt f mret) (stmt f).
Proof.
  intros F d n. cbn. unfold mbind, M_bind, stmt. destruct (F n); [done|]. by destruct (f d) as [[]|].
Qed.

Lemma ic_asks {A} (f : D → A) : is_code (E:=E) (asks f) (query f).
Proof. apply (ic_stmt (λ d, Some (f d, d))). Qed.

Lemma ic_does (f : D → option D) : is_code (E:=E) (does f) (exec f).
Proof.
  intros F d n. cbn. unfold mbind, M_bind, exec, stmt. destruct (F n); [done|]. by destruct (f d).
Qed.

Lemma ic_throws {A} e (p : prog D E (option A)) (m : M D E (option A)) : is_code p m → is_code (or_throw e p) (or_raise e m).
Proof. intros Hp. unfold or_throw, or_raise. apply ic_bind; [done|]. intros [a|]; [apply ic_ret|apply ic_throw]. Qed.

Lemma ic_each {B} (f : B → prog D E unit) g l :
  (∀ b, is_code (f b) (g b)) → is_code (each f l) (for_each g l).
Proof. intros Hf. induction l as [|b l IH]; [done|]. by apply ic_bind. Qed.
Lemma ic_attempt {A} (p : prog D E A) m : is_code p m → is_code (try_ p) (attempt m).
Proof.
  intros Hp F d n. unfold attempt. rewrite <- Hp. clear Hp m. revert d n.
  induction p as [r|X f k IH|X m k IH]; intros d n; cbn [try_ interp]; [done|..]; unfold mbind, M_bind.
  - unfold stmt. destruct (F n); [apply IH|]. destruct (f d) as [[x d1]|]; apply IH.
  - unfold attempt. destruct (m F d n) as [[x d1] n1]. apply IH.
Qed.

Lemma ic_whole {A} (m : M D E A) : is_code (whole m) m.
Proof. intros F d n. cbn. unfold mbind, M_bind, attempt, of_result. by destruct (m F d n) as [[r d1] n1]. Qed.

Lemma ic_fetched {A} (l : list A) : is_code (D:=D) (E:=E) (fetched l) (fetch l).
Proof.
  induction l as [|a l IH]; [apply ic_ret|]. apply ic_bind; [apply ic_stmt|]. intros [[]|]; [|apply ic_ret].
  apply ic_bind; [done|]. intros. apply ic_ret.
Qed.
End is_code.

Ltac ic_step := first
  [ progress intros | done | apply ic_throws | apply ic_asks | apply ic_does | apply ic_stmt
  | apply ic_whole | apply ic_fetched | apply ic_attempt | apply ic_each | apply ic_bind
  | apply ic_ret | apply ic_throw | apply ic_result | case_match ].

Create HintDb is_code.
#[export] Hint Resolve ic_ret ic_result ic_throw ic_stmt ic_asks ic_does ic_throws : is_code.

(** ** Refinement: every outcome of [p] alone is one of [q] *)
Definition refines {D E A} (p q : prog D E A) : Prop := ∀ d r d', alone p d r d' → alone q d r d'.

Lemma refines_refl {D E A} (p : prog D E A) : refines p p.
Proof. by intros d r d'. Qed.

Lemma refines_bind {D E A B} (p q : prog D E A) (k k' : A → prog D E B) :
  refines p q → (∀ a, refines (k a) (k' a)) → refines (p ≫= k) (q ≫= k').
Proof.
  intros Hp Hk d r d' [(e & -> & Ha%Hp)|(a & d1 & Ha%Hp & Hr%Hk)]%alone_bind_inv.
  - by apply alone_bind_err.
  - by eapply alone_bind.
Qed.

#[export] Hint Resolve refines_refl : is_code.

End Interleave.
