(* ===== verification/Ownership.v ===== *)
(** * What requests hold between their statements

    Rely and guarantee for the programs of [Interleave], with a ghost state
    [W] that only grows: who owns what.  [guards post w p]: whatever other
    requests do in between, the statements of [p] preserve [I] for ever larger
    ghost states, and [post] holds of the result. *)

From S2P Require Import Prelude Interleave.
Set Default Goal Selector "!".
Open Scope stdpp_scope.

Module Ownership.
Import Interleave.

Section guards.
Context {D E W : Type} (R : W → W → Prop) `{!PreOrder R} (I : W → D → Prop).

Fixpoint guards {A} (post : W → result E A → Prop) (w : W) (p : prog D E A) : Prop :=
  match p with
  | Stop r => ∀ w', R w w' → post w' r
  | Stmt f k => ∀ w' d, R w w' → I w' d →
      (∀ x d', f d = Some (x, d') → ∃ w'', R w' w'' ∧ I w'' d' ∧ guards post w'' (k (Some x))) ∧
      guards post w' (k None)
  | Atomic m k => ∀ w' d, R w w' → I w' d → ∀ F r d', Exec F m d r d' →
      ∃ w'', R w' w'' ∧ I w'' d' ∧ guards post w'' (k r)
  end.

Lemma guards_grow {A} (post : W → result E A → Prop) w w' p : R w w' → guards post w p → guards post w' p.
Proof.
  intros Hw. destruct p as [r|X f k|X m k]; cbn; intros Hp w1; [|intros d..]; intros Hw1; apply Hp; by etrans.
Qed.

Lemma guards_step {A} (post : W → result E A → Prop) w p d p' d' :
  guards post w p → I w d → pstep p d p' d' → ∃ w', R w w' ∧ I w' d' ∧ guards post w' p'.
Proof.
  intros Hp Hi Hs. destruct Hs; cbn in Hp; specialize (Hp w _ ltac:(done) Hi).
  - destruct Hp as [Hp _]. by apply Hp.
  - destruct Hp as [_ Hp]. by exists w.
  - by eapply Hp.
Qed.

Lemma guards_bind {A B} (post : W → result E B → Prop) (post1 : W → result E A → Prop) w p k :
  guards post1 w p → (∀ w' a, R w w' → post1 w' (Ok a) → guards post w' (k a)) →
  (∀ w' e, post1 w' (Err e) → post w' (Err e)) → guards post w (p ≫= k).
Proof.
  intros Hp Hk He. revert w Hp Hk. induction p as [[a|e]|X f k1 IH|X m k1 IH]; intros w Hp Hk.
  - by apply Hk, (Hp w).
  - intros w' Hw. by apply He, Hp.
  - assert (∀ w1, R w w1 → ∀ w2 a, R w1 w2 → post1 w2 (Ok a) → guards post w2 (k a)) as Hk1
      by (intros w1 H1 w2 a H2; apply Hk; by etrans).
    intros w' d Hw Hd. destruct (Hp w' d Hw Hd) as [H1 H2]. split; [|by apply IH; eauto].
    intros x d' Hf. destruct (H1 x d' Hf) as (w2 & Hw2 & Hi2 & Hg). exists w2. split; [done|]. split; [done|].
    apply IH; [done|]. eapply Hk1. by etrans.
  - intros w' d Hw Hd F r d' Hm. destruct (Hp w' d Hw Hd F r d' Hm) as (w2 & Hw2 & Hi2 & Hg).
    exists w2. split; [done|]. split; [done|]. apply IH; [done|]. intros w3 a Hw3. apply Hk. do 2 (etrans; [done|]). done.
Qed.

Lemma guards_weaken {A} (post post' : W → result E A → Prop) w p :
  guards post w p → (∀ w' r, post w' r → post' w' r) → guards post' w p.
Proof.
  intros Hp Hw. revert w Hp. induction p as [r|X f k IH|X m k IH]; intros w Hp.
  - intros w' H. by apply Hw, Hp.
  - intros w' d H Hd. destruct (Hp w' d H Hd) as [H1 H2]. split; [|by apply IH].
    intros x d' Hf. destruct (H1 x d' Hf) as (w2 & ? & ? & ?). exists w2. eauto.
  - intros w' d H Hd F r d' Hm. destruct (Hp w' d H Hd F r d' Hm) as (w2 & ? & ? & ?). exists w2. eauto.
Qed.

Lemma guards_ret {A} (post : W → result E A → Prop) w r : (∀ w', R w w' → post w' r) → guards post w (Stop r).
Proof. done. Qed.

Definition any {A} : W → result E A → Prop := λ _ _, True.

(** A statement that reads, and one that writes. *)
Lemma guards_asks {A} (f : D → A) (post : W → result E (option A) → Prop) w :
  (∀ w' d, R w w' → I w' d → ∀ w'', R w' w'' → post w'' (Ok (Some (f d)))) → (∀ w', R w w' → post w' (Ok None)) →
  guards post w (asks f).
Proof.
  intros Hs Hn w' d Hw Hd. split; [intros x d' [= <- <-]; exists w'; split; [done|split; [done|]]|]; intros w1 Hw1.
  - by eapply Hs.
  - apply Hn. by etrans.
Qed.

Lemma guards_does (f : D → option D) w :
  (∀ w' d d', R w w' → I w' d → f d = Some d' → ∃ w'', R w' w'' ∧ I w'' d') → guards any w (does f).
Proof.
  intros Hf w' d Hw Hd. split; [|done]. intros x d' He. destruct (f d) as [d1|] eqn:Hd1; [|done].
  cbn in He. simplify_eq. destruct (Hf w' d d' Hw Hd Hd1) as (w2 & ? & ?). by exists w2.
Qed.

Lemma guards_throws {A} e (p : prog D E (option A)) (post : W → result E A → Prop) post1 w :
  guards post1 w p → (∀ w' a, post1 w' (Ok (Some a)) → ∀ w'', R w' w'' → post w'' (Ok a)) →
  (∀ w' e, post w' (Err e)) → guards post w (or_throw e p).
Proof.
  intros Hp Hs He. eapply guards_bind; [exact Hp| |by intros]. intros w1 [a|] Hw1 Ha w2 Hw2; [by eapply Hs|apply He].
Qed.

Lemma guards_each {X} (f : X → prog D E unit) l w :
  (∀ x w', R w w' → guards any w' (f x)) → guards any w (each f l).
Proof.
  intros Hf. revert w Hf. induction l as [|x l IH]; intros w Hf; [done|]. cbn [each].
  apply (guards_bind _ any); [by apply Hf| |done]. intros w' [] Hw _. apply IH. intros y w2 Hw2. apply Hf. by etrans.
Qed.

(** Statements that preserve [I] as it is. *)
Lemma guards_every {A} w (p : prog D E A) : (∀ w', every (I w') p) → guards any w p.
Proof.
  revert w. induction p as [r|X f k IH|X m k IH]; intros w Hp; [done|..]; intros w' d Hw Hd.
  - split; [|apply IH; intros w1; apply Hp]. intros x d' Hf. exists w'. split; [done|].
    split; [by eapply (proj1 (Hp w'))|]. apply IH. intros w1. apply Hp.
  - intros F r d' Hm. exists w'. split; [done|]. split; [by eapply (proj1 (Hp w'))|]. apply IH. intros w1. apply Hp.
Qed.

(** ** The system *)
Section system.
Context {O A : Type} (code : O → prog D E A) (post : O → W → result E A → Prop).
Context (Hcode : ∀ o w, guards (post o) w (code o)).

Definition guarded (w : W) (s : system O D E A) : Prop :=
  I w (sys_db s) ∧ Forall (λ t, guards (post (th_op t)) w (th_prog t)) (sys_threads s).

Lemma guarded_step w s s' : guarded w s → step code s s' → ∃ w', R w w' ∧ guarded w' s'.
Proof.
  intros [Hi Ht] Hs. destruct Hs as [o|i t p d Hl Hp]; cbn.
  - exists w. split; [done|]. split; [done|]. apply Forall_app. split; [done|]. constructor; [apply Hcode|constructor].
  - destruct (guards_step _ _ _ _ _ _ (Forall_lookup_1 _ _ _ _ Ht Hl) Hi Hp) as (w' & Hw & Hi' & Hg).
    exists w'. split; [done|]. split; [done|]. apply Forall_fmap, Forall_insert; [|done].
    eapply Forall_impl; [exact Ht|]. intros t'. by apply guards_grow.
Qed.

Lemma guarded_steps w s s' : guarded w s → rtc (step code) s s' → ∃ w', R w w' ∧ guarded w' s'.
Proof.
  intros Hg Hs. revert w Hg. induction Hs as [s|s1 s2 s3 Hs _ IH]; intros w Hg; [by exists w|].
  destruct (guarded_step _ _ _ Hg Hs) as (w1 & Hw1 & Hg1). destruct (IH _ Hg1) as (w2 & Hw2 & Hg2).
  exists w2. split; [by etrans|done].
Qed.

Lemma guarded_reach w d s : I w d → reach code d s → ∃ w', R w w' ∧ guarded w' s.
Proof.
  intros Hi. induction 1 as [|s s' _ (w1 & Hw1 & Hg) Hs]; [by exists w; repeat split|].
  destruct (guarded_step _ _ _ Hg Hs) as (w2 & Hw2 & Hg2). exists w2. split; [by etrans|done].
Qed.

Lemma guarded_result w s i o l r :
  guarded w s → sys_threads s !! i = Some (Thread o l (Stop r)) → post o w r.
Proof. intros [_ Ht] Hi. by apply (Forall_lookup_1 _ _ _ _ Ht Hi). Qed.
End system.
End guards.
End Ownership.
