(* ===== verification/GoStrings.v ===== *)
(** * The parts of Go's [strings], [strconv], [unicode/utf8] and [fmt] packages
    that the backend uses.

    A Go string or byte slice is a Rocq [string]: a sequence of bytes.
    Everything is executable.  The one operation that needs the Unicode
    tables, the case folding of a string with non-ASCII bytes, is the
    parameter [uni_to_lower] ([uni_equal_fold] for [strings.EqualFold]); on
    ASCII strings the definitions are complete. *)

From S2P Require Import Prelude.
From Stdlib Require Import Ascii String DecimalString DecimalZ.
From stdpp Require Import strings.
Set Default Goal Selector "!".
Open Scope stdpp_scope.

Abbreviation slen := String.length.

(** ** Bytes *)
Definition code (a : ascii) : Z := Z.of_N (N_of_ascii a).
Definition byte_of (z : Z) : ascii := ascii_of_N (Z.to_N z).

Lemma code_bounds a : (0 ≤ code a < 256)%Z.
Proof. unfold code. pose proof (N_ascii_bounded a). lia. Qed.

Lemma byte_of_code a : byte_of (code a) = a.
Proof. unfold byte_of, code. rewrite N2Z.id. apply ascii_N_embedding. Qed.

Lemma code_byte_of z : (0 ≤ z < 256)%Z → code (byte_of z) = z.
Proof. intros. unfold byte_of, code. rewrite N_ascii_embedding; lia. Qed.

Lemma string_app_nil_r (s : string) : s +:+ "" = s.
Proof. induction s; [done|]. unfold String.append in *; fold String.append in *. by rewrite IHs. Qed.

Lemma string_app_assoc (a b c : string) : a +:+ (b +:+ c) = (a +:+ b) +:+ c.
Proof. induction a; [done|]. unfold String.append in *; fold String.append in *. by rewrite IHa. Qed.

Lemma slen_app a b : slen (a +:+ b) = slen a + slen b.
Proof. induction a; simpl; [done|]. unfold String.append; fold String.append. simpl. by rewrite IHa. Qed.

Lemma string_cons_app c s : String c s = String c "" +:+ s.
Proof. done. Qed.

Lemma string_app_cons c a b : String c a +:+ b = String c (a +:+ b).
Proof. done. Qed.

Lemma string_app_inj_l (a b c : string) : a +:+ b = a +:+ c → b = c.
Proof. induction a; [done|]. rewrite !string_app_cons. intros [=]. auto. Qed.

(** [s[n:]] and [s[:n]] *)
Fixpoint sdrop (n : nat) (s : string) : string :=
  match n, s with
  | S n', String _ s' => sdrop n' s'
  | _, _ => s
  end.

Fixpoint stake (n : nat) (s : string) : string :=
  match n, s with
  | S n', String a s' => String a (stake n' s')
  | _, _ => ""
  end.

Lemma sdrop_app a b : sdrop (slen a) (a +:+ b) = b.
Proof. induction a; [by destruct b|]. by rewrite string_app_cons. Qed.

Lemma stake_app a b : stake (slen a) (a +:+ b) = a.
Proof. induction a; [by destruct b|]. rewrite string_app_cons. simpl. by rewrite IHa. Qed.

Lemma stake_all n s : slen s ≤ n → stake n s = s.
Proof. revert n. induction s as [|a s IH]; intros [|n]; simpl; intros; try done; [lia|]. by rewrite IH by lia. Qed.

Lemma stake_sdrop n s : stake n s +:+ sdrop n s = s.
Proof. revert s. induction n; intros [|a s]; simpl; try done. by rewrite string_app_cons, IHn. Qed.

(** Characters of a string, as a predicate. *)
Fixpoint sforall (P : ascii → bool) (s : string) : bool :=
  match s with "" => true | String a s' => P a && sforall P s' end.

Lemma sforall_app P a b : sforall P (a +:+ b) = sforall P a && sforall P b.
Proof. induction a; [done|]. rewrite string_app_cons. simpl. by rewrite IHa, andb_assoc. Qed.

Lemma sforall_impl (P Q : ascii → bool) s :
  (∀ a, P a = true → Q a = true) → sforall P s = true → sforall Q s = true.
Proof.
  intros H. induction s; simpl; [done|]. rewrite !andb_true_iff.
  intros [??]. auto.
Qed.

(** The byte [c] does not occur in [s]. *)
Definition lacks (c : ascii) (s : string) : bool := sforall (λ a, negb (Ascii.eqb a c)) s.

Lemma lacks_cons_inv c a s : lacks c (String a s) = true → a ≠ c ∧ lacks c s = true.
Proof.
  unfold lacks. cbn [sforall]. intros [Ha ?]%andb_true_iff.
  apply negb_true_iff, Ascii.eqb_neq in Ha. done.
Qed.

Lemma lacks_cons c a s : a ≠ c → lacks c s = true → lacks c (String a s) = true.
Proof. unfold lacks. cbn [sforall]. intros Ha ->. apply Ascii.eqb_neq in Ha. by rewrite Ha. Qed.

Lemma lacks_app c a b : lacks c (a +:+ b) = lacks c a && lacks c b.
Proof. apply sforall_app. Qed.

(** ** [strings.HasPrefix], [TrimPrefix], [HasSuffix], [TrimSuffix] *)
Definition has_prefix (s p : string) : bool := String.prefix p s.

Lemma has_prefix_app p s : has_prefix (p +:+ s) p = true.
Proof.
  unfold has_prefix. induction p as [|a p IH]; [by destruct s|].
  rewrite string_app_cons. simpl. by destruct (ascii_dec a a).
Qed.

Lemma has_prefix_inv s p : has_prefix s p = true → s = p +:+ sdrop (slen p) s.
Proof.
  unfold has_prefix. revert s. induction p as [|a p IH]; intros s; [done|].
  destruct s as [|b s]; simpl; [done|].
  destruct (ascii_dec a b) as [->|]; [|done]. intros H. rewrite string_app_cons.
  f_equal. auto.
Qed.

Definition trim_prefix (s p : string) : string :=
  if has_prefix s p then sdrop (slen p) s else s.

Fixpoint srev_app (s acc : string) : string :=
  match s with "" => acc | String a s' => srev_app s' (String a acc) end.
Definition srev (s : string) : string := srev_app s "".

Lemma srev_app_spec s acc : srev_app s acc = srev s +:+ acc.
Proof.
  unfold srev. revert acc. induction s as [|a s IH]; intros acc; [done|]. cbn [srev_app].
  by rewrite IH, (IH (String a "")), <- string_app_assoc.
Qed.

Lemma srev_of_app a b : srev (a +:+ b) = srev b +:+ srev a.
Proof.
  unfold srev at 1. assert (∀ acc, srev_app (a +:+ b) acc = srev_app b (srev_app a acc)) as ->.
  { induction a as [|x a IH]; intros acc; [done|]. rewrite string_app_cons. apply IH. }
  apply srev_app_spec.
Qed.

Lemma lacks_srev c s : lacks c s = true → lacks c (srev s) = true.
Proof.
  unfold srev. assert (∀ acc, lacks c s = true → lacks c acc = true → lacks c (srev_app s acc) = true) as H.
  { induction s as [|a s IH]; intros acc; [done|]. intros [Ha Hs]%lacks_cons_inv Hacc.
    apply IH; [done|]. by apply lacks_cons. }
  intros Hs. by apply H.
Qed.

Lemma srev_involutive s : srev (srev s) = s.
Proof.
  assert (∀ s acc acc', srev_app (srev_app s acc) acc' = srev_app acc (s +:+ acc')) as H.
  { clear s. induction s as [|a s IH]; intros acc acc'; [done|]. simpl. rewrite IH. by rewrite string_app_cons. }
  unfold srev. by rewrite H, string_app_nil_r.
Qed.

Definition has_suffix (s p : string) : bool := has_prefix (srev s) (srev p).
Definition trim_suffix (s p : string) : string :=
  if has_suffix s p then stake (slen s - slen p) s else s.

Lemma has_suffix_app s t p : slen t = slen p → has_suffix (s +:+ t) p = String.eqb t p.
Proof.
  intros Hl. unfold has_suffix. rewrite srev_of_app. destruct (String.eqb_spec t p) as [->|Hne].
  - apply has_prefix_app.
  - destruct (has_prefix _ _) eqn:Hp; [|done]. apply has_prefix_inv in Hp. destruct Hne.
    apply (f_equal (stake (slen (srev t)))) in Hp. rewrite stake_app in Hp.
    assert (∀ u, slen (srev u) = slen u) as Hr.
    { induction u as [|a u IH]; [done|]. rewrite string_cons_app, srev_of_app, !slen_app, IH. cbn. lia. }
    replace (slen (srev t)) with (slen (srev p)) in Hp by (rewrite !Hr; lia). rewrite stake_app in Hp.
    rewrite <- (srev_involutive t), <- (srev_involutive p). by f_equal.
Qed.

Lemma trim_suffix_app s p : trim_suffix (s +:+ p) p = s.
Proof.
  unfold trim_suffix. rewrite has_suffix_app, String.eqb_refl by done.
  rewrite slen_app, Nat.add_sub. apply stake_app.
Qed.

(** ** [strings.Index] and [LastIndex] *)
Fixpoint index (s sub : string) : option nat :=
  if has_prefix s sub then Some 0
  else match s with "" => None | String _ s' => S <$> index s' sub end.

Fixpoint last_index (s sub : string) : option nat :=
  match s with
  | "" => if has_prefix s sub then Some 0 else None
  | String _ s' =>
    match last_index s' sub with
    | Some i => Some (S i)
    | None => if has_prefix s sub then Some 0 else None
    end
  end.

Lemma index_char_lacks c s : lacks c s = true → index s (String c "") = None.
Proof.
  unfold lacks. induction s as [|a s IH]; [done|].
  simpl. intros [H1 H2]%andb_true_iff. rewrite (IH H2).
  unfold has_prefix; simpl. rewrite negb_true_iff, Ascii.eqb_neq in H1.
  by destruct (ascii_dec c a) as [->|].
Qed.

Lemma index_char_app c a b :
  lacks c a = true → index (a +:+ String c b) (String c "") = Some (slen a).
Proof.
  unfold lacks. induction a as [|x a IH].
  { intros _. simpl. unfold has_prefix; simpl.
    destruct (ascii_dec c c); [|done]. by destruct b. }
  rewrite string_app_cons. simpl. intros [H1 H2]%andb_true_iff. rewrite (IH H2).
  unfold has_prefix; simpl. rewrite negb_true_iff, Ascii.eqb_neq in H1.
  by destruct (ascii_dec c x) as [->|].
Qed.

Lemma index_char_inv c s i :
  index s (String c "") = Some i →
  ∃ a b, s = a +:+ String c b ∧ slen a = i ∧ lacks c a = true.
Proof.
  revert i. induction s as [|x s IH]; intros i; [done|].
  simpl. unfold has_prefix; simpl. destruct (ascii_dec c x) as [->|Hne].
  - assert (String.prefix "" s = true) as -> by (by destruct s).
    intros [= <-]. by exists "", s.
  - destruct (index s (String c "")) as [j|] eqn:Hi; simpl; [|done].
    intros [= <-]. destruct (IH _ eq_refl) as (a & b & -> & <- & Hl).
    exists (String x a), b. repeat split. unfold lacks; simpl.
    rewrite andb_true_iff. split; [|done].
    rewrite negb_true_iff, Ascii.eqb_neq. congruence.
Qed.

Lemma last_index_char_lacks c s : lacks c s = true → last_index s (String c "") = None.
Proof.
  unfold lacks. induction s as [|a s IH]; [done|].
  simpl. intros [H1 H2]%andb_true_iff. rewrite (IH H2).
  unfold has_prefix; simpl. rewrite negb_true_iff, Ascii.eqb_neq in H1.
  by destruct (ascii_dec c a) as [->|].
Qed.

Lemma last_index_char_app c a b :
  lacks c b = true → last_index (a +:+ String c b) (String c "") = Some (slen a).
Proof.
  intros Hb. induction a as [|x a IH].
  - change ("" +:+ String c b) with (String c b). cbn [last_index]. rewrite last_index_char_lacks by done.
    unfold has_prefix; simpl. destruct (ascii_dec c c); [|done]. by destruct b.
  - rewrite string_app_cons. simpl. by rewrite IH.
Qed.

(** ** [strings.Split], [SplitN(_, _, 2)], [ReplaceAll], [Contains], [Join] *)
Fixpoint split_byte (c : ascii) (s : string) : list string :=
  match s with
  | "" => [""]
  | String a s' =>
    if Ascii.eqb a c then "" :: split_byte c s'
    else match split_byte c s' with
         | [] => [String a ""]
         | w :: ws => String a w :: ws
         end
  end.

Lemma split_byte_nonempty c s : split_byte c s ≠ [].
Proof. induction s as [|a s IH]; [done|]. simpl. repeat case_match; done. Qed.

Lemma split_byte_app c a b : split_byte c (a +:+ String c b) = split_byte c a ++ split_byte c b.
Proof.
  induction a as [|x a IH].
  - change ("" +:+ String c b) with (String c b). simpl. by rewrite Ascii.eqb_refl.
  - rewrite string_app_cons. simpl. rewrite IH. destruct (Ascii.eqb x c); [done|].
    pose proof (split_byte_nonempty c a). by destruct (split_byte c a).
Qed.

Lemma split_byte_lacks c s : lacks c s = true → split_byte c s = [s].
Proof.
  induction s as [|x s IH]; [done|]. intros [Hx Hs]%lacks_cons_inv. simpl.
  apply Ascii.eqb_neq in Hx. by rewrite Hx, IH.
Qed.

Definition splitn2 (s : string) (c : ascii) : list string :=
  match index s (String c "") with
  | Some i => [stake i s; sdrop (S i) s]
  | None => [s]
  end.

Fixpoint replace_byte (c : ascii) (by_ : string) (s : string) : string :=
  match s with
  | "" => ""
  | String a s' =>
    if Ascii.eqb a c then by_ +:+ replace_byte c by_ s'
    else String a (replace_byte c by_ s')
  end.

Definition contains (s sub : string) : bool :=
  match index s sub with Some _ => true | None => false end.

Fixpoint join (sep : string) (l : list string) : string :=
  match l with
  | [] => ""
  | [w] => w
  | w :: ws => w +:+ sep +:+ join sep ws
  end.

Lemma split_byte_join b l :
  Forall (λ w, lacks b w = true) l → l ≠ [] → split_byte b (join (String b "") l) = l.
Proof.
  induction l as [|c l IH]; [done|]. intros [Hc Hl]%Forall_cons _. destruct l as [|c' l].
  - by apply split_byte_lacks.
  - change (join (String b "") (c :: c' :: l)) with (c +:+ String b (join (String b "") (c' :: l))).
    rewrite split_byte_app, IH, split_byte_lacks by done. done.
Qed.

Lemma splitn2_app a c b :
  lacks c a = true → splitn2 (a +:+ String c b) c = [a; b].
Proof.
  intros H. unfold splitn2. rewrite index_char_app by done. rewrite stake_app.
  do 2 f_equal. rewrite (string_cons_app c b), string_app_assoc.
  replace (S (slen a)) with (slen (a +:+ String c "")).
  - apply sdrop_app.
  - rewrite slen_app; simpl. lia.
Qed.

(** ** [strings.TrimSpace]

    White space is Unicode's [White_Space]: the ASCII bytes below and the
    UTF-8 encodings of U+0085, U+00A0, U+1680, U+2000 to U+200A, U+2028,
    U+2029, U+202F, U+205F and U+3000. *)
Definition ascii_space (a : ascii) : bool :=
  let z := code a in ((9 <=? z) && (z <=? 13) || (z =? 32))%Z.

Definition space2 (a b : ascii) : bool :=
  ((code a =? 194) && ((code b =? 133) || (code b =? 160)))%Z.

Definition space3 (a b c : ascii) : bool :=
  let z := (code a * 65536 + code b * 256 + code c)%Z in
  ((z =? 14785152) ||                             (* U+1680: E1 9A 80 *)
   ((14844032 <=? z) && (z <=? 14844042)) ||      (* U+2000..200A: E2 80 80..8A *)
   (z =? 14844072) || (z =? 14844073) ||          (* U+2028, U+2029 *)
   (z =? 14844079) || (z =? 14844319) ||          (* U+202F, U+205F: E2 81 9F *)
   (z =? 14909568))%Z.                            (* U+3000: E3 80 80 *)

Fixpoint trim_left (s : string) : string :=
  match s with
  | "" => ""
  | String a s1 =>
    if ascii_space a then trim_left s1
    else match s1 with
         | "" => s
         | String b s2 =>
           if space2 a b then trim_left s2
           else match s2 with
                | "" => s
                | String c s3 => if space3 a b c then trim_left s3 else s
                end
         end
  end.

(** The same on the reversed string. *)
Fixpoint trim_left_rev (s : string) : string :=
  match s with
  | "" => ""
  | String a s1 =>
    if ascii_space a then trim_left_rev s1
    else match s1 with
         | "" => s
         | String b s2 =>
           if space2 b a then trim_left_rev s2
           else match s2 with
                | "" => s
                | String c s3 => if space3 c b a then trim_left_rev s3 else s
                end
         end
  end.

Definition trim_space (s : string) : string :=
  srev (trim_left_rev (srev (trim_left s))).

(** Bytes that are ASCII and not white space. *)
Definition solid (a : ascii) : bool := (code a <? 128)%Z && negb (ascii_space a).

Lemma solid_inv a : solid a = true → ascii_space a = false ∧ (code a < 128)%Z.
Proof. unfold solid. rewrite andb_true_iff, negb_true_iff, Z.ltb_lt. tauto. Qed.

Lemma trim_left_solid a s : solid a = true → trim_left (String a s) = String a s.
Proof.
  intros [Hs Ha]%solid_inv. simpl. rewrite Hs. destruct s as [|b s]; [done|].
  replace (space2 a b) with false by (unfold space2; lia). destruct s as [|c s]; [done|].
  replace (space3 a b c) with false; [done|].
  unfold space3. pose proof (code_bounds b). pose proof (code_bounds c). lia.
Qed.

Lemma trim_left_rev_solid a s : solid a = true → trim_left_rev (String a s) = String a s.
Proof.
  intros [Hs Ha]%solid_inv. simpl. rewrite Hs. destruct s as [|b s]; [done|].
  replace (space2 b a) with false by (unfold space2; lia). destruct s as [|c s]; [done|].
  replace (space3 c b a) with false; [done|].
  unfold space3. pose proof (code_bounds b). pose proof (code_bounds c). pose proof (code_bounds a).
  lia.
Qed.

Lemma sforall_srev P s : sforall P (srev s) = sforall P s.
Proof.
  induction s as [|a s IH]; [done|]. rewrite string_cons_app, srev_of_app, sforall_app, IH.
  change (srev (String a "")) with (String a ""). cbn [sforall]. by rewrite andb_true_r, andb_comm.
Qed.

Lemma trim_space_all s : sforall solid s = true → trim_space s = s.
Proof.
  intros Hs. unfold trim_space. replace (trim_left s) with s.
  - replace (trim_left_rev (srev s)) with (srev s); [apply srev_involutive|].
    rewrite <- sforall_srev in Hs. destruct (srev s) as [|a t]; [done|]. cbn [sforall] in Hs.
    apply andb_true_iff in Hs as [Ha _]. by rewrite trim_left_rev_solid.
  - destruct s as [|a s]; [done|]. cbn [sforall] in Hs.
    apply andb_true_iff in Hs as [Ha _]. by rewrite trim_left_solid.
Qed.

(** A text with such bytes at both ends is not trimmed. *)
Lemma trim_space_solid a s b : solid a = true → solid b = true →
  trim_space (String a s +:+ String b "") = String a s +:+ String b "".
Proof.
  intros Ha Hb. unfold trim_space. rewrite string_app_cons, trim_left_solid, <- string_app_cons by done.
  rewrite srev_of_app. change (srev (String b "")) with (String b "").
  rewrite string_app_cons, trim_left_rev_solid by done.
  rewrite <- string_app_cons. change (String b "") with (srev (String b "")).
  by rewrite <- srev_of_app, srev_involutive.
Qed.

(** ** [strings.ToLower] *)
Class GoUnicode := {
  uni_to_lower : string → string;
  uni_equal_fold : string → string → bool;
}.

Definition lower_byte (a : ascii) : ascii :=
  let z := code a in
  if ((65 <=? z) && (z <=? 90))%Z then byte_of (z + 32) else a.

Definition is_ascii_byte (a : ascii) : bool := (code a <? 128)%Z.
Definition is_ascii (s : string) : bool := sforall is_ascii_byte s.

Fixpoint smap (f : ascii → ascii) (s : string) : string :=
  match s with "" => "" | String a s' => String (f a) (smap f s') end.

Definition to_lower `{GoUnicode} (s : string) : string :=
  if is_ascii s then smap lower_byte s else uni_to_lower s.

(** [strings.EqualFold] *)
Definition equal_fold `{GoUnicode} (s t : string) : bool :=
  if is_ascii s && is_ascii t then String.eqb (smap lower_byte s) (smap lower_byte t)
  else uni_equal_fold s t.

(** The normal form of domain names used throughout the backend:
    [strings.ToLower(strings.TrimSpace(d))]. *)
Definition norm `{GoUnicode} (d : string) : string := to_lower (trim_space d).

Lemma lower_byte_idemp a : lower_byte (lower_byte a) = lower_byte a.
Proof. by destruct a as [[] [] [] [] [] [] [] []]. Qed.

Lemma lower_byte_ascii a : is_ascii_byte (lower_byte a) = is_ascii_byte a.
Proof. by destruct a as [[] [] [] [] [] [] [] []]. Qed.

Lemma to_lower_idemp `{GoUnicode} s :
  is_ascii s = true → to_lower (to_lower s) = to_lower s.
Proof.
  intros Ha. unfold to_lower. rewrite Ha.
  assert (is_ascii (smap lower_byte s) = true) as ->.
  { revert Ha. unfold is_ascii. induction s; simpl; [done|].
    rewrite lower_byte_ascii, !andb_true_iff. intros [??]. auto. }
  clear. induction s; simpl; [done|]. by rewrite lower_byte_idemp, IHs.
Qed.

(** [x != a && x != b] is false *)
Lemma guard_passed (x a b : string) :
  negb (bool_decide (x = a)) && negb (bool_decide (x = b)) = false → x = a ∨ x = b.
Proof. repeat case_bool_decide; naive_solver. Qed.

