(* ===== verification/Encoding.v ===== *)
(** * Decimal, hexadecimal, base64 and UTF-8 codecs, [fmt.Sscanf], float64

    The fragments of [strconv], [encoding/hex], [encoding/base64],
    [unicode/utf8] and [fmt] the backend relies on, with their round trips. *)

From S2P Require Import Prelude GoStrings.
From Stdlib Require Import Ascii String Decimal DecimalString DecimalZ DecimalPos DecimalFacts.
From stdpp Require Import strings.
Set Default Goal Selector "!".
Open Scope stdpp_scope.

(** ** [strconv.Itoa], [FormatInt(_, 10)], [ParseInt(_, 10, 64)], [Atoi] *)
Definition itoa (z : Z) : string := NilZero.string_of_int (Z.to_int z).

Definition parse_digits (s : string) : option Z :=
  Z.of_uint <$> NilZero.uint_of_string s.

(** A decimal number with an optional sign. *)
Definition parse_int (s : string) : option Z :=
  match s with
  | "" => None
  | String a s' => if Ascii.eqb a "-" then Z.opp <$> parse_digits s'
                   else if Ascii.eqb a "+" then parse_digits s'
                   else parse_digits s
  end.

Definition parse_int64 (s : string) : option Z :=
  z ← parse_int s; if in_int64 z then Some z else None.

Lemma uint_string_digit (d : uint) a s :
  NilEmpty.string_of_uint d = String a s → Ascii.eqb a "-" = false ∧ Ascii.eqb a "+" = false.
Proof. destruct d; simpl; intros; by simplify_eq. Qed.

Lemma parse_digits_of_uint d :
  d ≠ Nil → parse_digits (NilZero.string_of_uint d) = Some (Z.of_uint d).
Proof. intros. unfold parse_digits. by rewrite NilZero.usu. Qed.

Lemma to_int_nonnil z :
  (∃ d, Z.to_int z = Decimal.Pos d ∧ d ≠ Nil ∧ Z.of_uint d = z) ∨
  (∃ d, Z.to_int z = Decimal.Neg d ∧ d ≠ Nil ∧ (- Z.of_uint d)%Z = z).
Proof.
  pose proof (DecimalZ.of_to z) as Hz.
  destruct z as [|p|p]; simpl in *.
  - left. by exists (D0 Nil).
  - left. eexists. split; [done|]. split; [apply Unsigned.to_uint_nonnil|done].
  - right. eexists. split; [done|]. split; [apply Unsigned.to_uint_nonnil|].
    unfold Z.of_uint. unfold Z.of_int in Hz. done.
Qed.

Lemma nz_string_of_uint d : d ≠ Nil → NilZero.string_of_uint d = NilEmpty.string_of_uint d.
Proof. by destruct d. Qed.

Lemma parse_int_itoa z : parse_int (itoa z) = Some z.
Proof.
  unfold itoa.
  destruct (to_int_nonnil z) as [(d & -> & Hd & Hz)|(d & -> & Hd & Hz)]; simpl.
  - pose proof (parse_digits_of_uint d Hd) as Hp.
    destruct (NilZero.string_of_uint d) as [|a s] eqn:Hs; [by destruct d|].
    rewrite nz_string_of_uint in Hs by done.
    destruct (uint_string_digit _ _ _ Hs) as [Ha Hb]. simpl.
    by rewrite Ha, Hb, Hp, Hz.
  - rewrite parse_digits_of_uint by done. simpl. by rewrite Hz.
Qed.

Theorem parse_itoa z : in_int64 z = true → parse_int64 (itoa z) = Some z.
Proof. intros Hr. unfold parse_int64. rewrite parse_int_itoa. simpl. by rewrite Hr. Qed.

(** Every byte of a printed number is a digit or a minus sign. *)
Definition dec_byte (a : ascii) : bool :=
  Ascii.eqb a "-" || ((48 <=? code a) && (code a <=? 57))%Z.

Lemma itoa_dec_bytes z : sforall dec_byte (itoa z) = true.
Proof.
  assert (∀ d, sforall dec_byte (NilEmpty.string_of_uint d) = true) as Hu.
  { induction d; [done|..]; simpl; by rewrite IHd. }
  unfold itoa. destruct (to_int_nonnil z) as [(d & -> & Hd & _)|(d & -> & Hd & _)];
    simpl; by rewrite nz_string_of_uint, ?Hu.
Qed.

Lemma itoa_lacks c z : dec_byte c = false → lacks c (itoa z) = true.
Proof.
  intros Hc. unfold lacks. eapply sforall_impl, itoa_dec_bytes.
  intros a Ha. simpl. rewrite negb_true_iff, Ascii.eqb_neq. intros ->. congruence.
Qed.

#[export] Instance itoa_inj : Inj (=) (=) itoa.
Proof.
  intros x y H. unfold itoa in H.
  apply (f_equal NilZero.int_of_string) in H.
  rewrite !NilZero.isi in H.
  - injection H as H. by apply DecimalZ.to_int_inj in H.
  - destruct (to_int_nonnil y) as [(d & -> & ? & _)|(d & -> & ? & _)]; congruence.
  - destruct (to_int_nonnil y) as [(d & -> & ? & _)|(d & -> & ? & _)]; congruence.
  - destruct (to_int_nonnil x) as [(d & -> & ? & _)|(d & -> & ? & _)]; congruence.
  - destruct (to_int_nonnil x) as [(d & -> & ? & _)|(d & -> & ? & _)]; congruence.
Qed.

(** ** [encoding/hex] *)
Definition hex_digit (z : Z) : ascii :=
  if (z <? 10)%Z then byte_of (48 + z) else byte_of (87 + z).

Definition hex_val (a : ascii) : option Z :=
  let z := code a in
  if ((48 <=? z) && (z <=? 57))%Z then Some (z - 48)%Z
  else if ((97 <=? z) && (z <=? 102))%Z then Some (z - 87)%Z
  else if ((65 <=? z) && (z <=? 70))%Z then Some (z - 55)%Z
  else None.

Fixpoint hex_encode (s : string) : string :=
  match s with
  | "" => ""
  | String a s' =>
    String (hex_digit (code a / 16)) (String (hex_digit (code a mod 16)) (hex_encode s'))
  end.

(** [hex.DecodeString]; [None] when it returns an error. *)
Fixpoint hex_decode (s : string) : option string :=
  match s with
  | "" => Some ""
  | String a (String b s') =>
    x ← hex_val a; y ← hex_val b; t ← hex_decode s';
    Some (String (byte_of (x * 16 + y)) t)
  | _ => None
  end.

Lemma hex_byte a :
  (x ← hex_val (hex_digit (code a / 16)); y ← hex_val (hex_digit (code a mod 16));
   Some (byte_of (x * 16 + y))) = Some a.
Proof. by destruct a as [[] [] [] [] [] [] [] []]. Qed.

Theorem hex_roundtrip s : hex_decode (hex_encode s) = Some s.
Proof.
  induction s as [|a s IH]; [done|]. simpl. pose proof (hex_byte a) as H.
  destruct (hex_val (hex_digit (code a / 16))) as [x|]; simpl in *; [|done].
  destruct (hex_val (hex_digit (code a mod 16))) as [y|]; simpl in *; [|done].
  rewrite IH. simpl. by simplify_eq.
Qed.

Lemma slen_hex_encode s : slen (hex_encode s) = 2 * slen s.
Proof. induction s; simpl; lia. Qed.

(** ** [base64.StdEncoding] *)
Definition b64_digit (z : Z) : ascii :=
  if (z <? 26)%Z then byte_of (65 + z)
  else if (z <? 52)%Z then byte_of (71 + z)
  else if (z <? 62)%Z then byte_of (z - 4)
  else if (z =? 62)%Z then "+" else "/".

Definition b64_val (a : ascii) : option Z :=
  let z := code a in
  if ((65 <=? z) && (z <=? 90))%Z then Some (z - 65)%Z
  else if ((97 <=? z) && (z <=? 122))%Z then Some (z - 71)%Z
  else if ((48 <=? z) && (z <=? 57))%Z then Some (z + 4)%Z
  else if (z =? 43)%Z then Some 62%Z
  else if (z =? 47)%Z then Some 63%Z
  else None.

Fixpoint b64_encode (s : string) : string :=
  match s with
  | "" => ""
  | String a "" =>
    let v := (code a * 16)%Z in
    String (b64_digit (v / 64)) (String (b64_digit (v mod 64)) "==")
  | String a (String b "") =>
    let v := ((code a * 256 + code b) * 4)%Z in
    String (b64_digit (v / 4096)) (String (b64_digit ((v / 64) mod 64))
      (String (b64_digit (v mod 64)) "="))
  | String a (String b (String c s')) =>
    let v := ((code a * 256 + code b) * 256 + code c)%Z in
    String (b64_digit (v / 262144)) (String (b64_digit ((v / 4096) mod 64))
      (String (b64_digit ((v / 64) mod 64)) (String (b64_digit (v mod 64)) (b64_encode s'))))
  end.

(** The decoder ignores line breaks. *)
Fixpoint strip_newlines (s : string) : string :=
  match s with
  | "" => ""
  | String a s' =>
    if ((code a =? 10) || (code a =? 13))%Z then strip_newlines s'
    else String a (strip_newlines s')
  end.

(** One quantum of four bytes at a time.  Like [DecodeString], it returns the
    bytes decoded so far together with whether the whole input was valid:
    several callers ignore the error and keep the bytes. *)
Fixpoint b64_quanta (s : string) : string * bool :=
  match s with
  | "" => ("", true)
  | String a (String b (String c (String d s'))) =>
    match b64_val a, b64_val b, b64_val c, b64_val d with
    | Some x, Some y, Some z, Some w =>
      let v := (((x * 64 + y) * 64 + z) * 64 + w)%Z in
      let '(t, ok) := b64_quanta s' in
      (String (byte_of (v / 65536)) (String (byte_of ((v / 256) mod 256))
         (String (byte_of (v mod 256)) t)), ok)
    | Some x, Some y, Some z, None =>
      if Ascii.eqb d "=" then
        let v := ((x * 64 + y) * 64 + z)%Z in
        (String (byte_of (v / 1024)) (String (byte_of ((v / 4) mod 256)) ""),
         String.eqb s' "")
      else ("", false)
    | Some x, Some y, None, _ =>
      if Ascii.eqb c "=" && Ascii.eqb d "=" then
        (String (byte_of ((x * 64 + y) / 16)) "", String.eqb s' "")
      else ("", false)
    | _, _, _, _ => ("", false)
    end
  | _ => ("", false)
  end.

Definition b64_decode_partial (s : string) : string * bool :=
  b64_quanta (strip_newlines s).

(** [key, _ := base64.StdEncoding.DecodeString(s)] *)
Definition b64_bytes (s : string) : string := (b64_decode_partial s).1.

(** [base64.StdEncoding.DecodeString(s)] with the error checked. *)
Definition b64_decode (s : string) : option string :=
  let '(t, ok) := b64_decode_partial s in if ok then Some t else None.

Lemma Z_range_ind (n : nat) (P : Z → bool) :
  forallb (λ i, P (Z.of_nat i)) (seq 0 n) = true → ∀ z, (0 ≤ z < Z.of_nat n)%Z → P z = true.
Proof.
  rewrite forallb_forall. intros H z Hz.
  rewrite <- (Z2Nat.id z) by lia. apply H. apply in_seq. lia.
Qed.

Lemma b64_val_digit z : (0 ≤ z < 64)%Z → b64_val (b64_digit z) = Some z.
Proof.
  intros Hz.
  set (P := λ z, match b64_val (b64_digit z) with Some w => (w =? z)%Z | None => false end).
  assert (P z = true) as H by (apply (Z_range_ind 64 P); [by vm_compute|lia]).
  subst P. simpl in H. destruct (b64_val (b64_digit z)); [|done].
  apply Z.eqb_eq in H. by subst.
Qed.

Lemma b64_digit_not_newline z :
  (0 ≤ z < 64)%Z →
  ((code (b64_digit z) =? 10) || (code (b64_digit z) =? 13))%Z = false.
Proof.
  intros Hz. apply negb_true_iff.
  apply (Z_range_ind 64 (λ z, negb ((code (b64_digit z) =? 10) || (code (b64_digit z) =? 13)))%Z); [|lia].
  by vm_compute.
Qed.

(** Induction by groups of three bytes. *)
Lemma string_ind3 (P : string → Prop) :
  P "" → (∀ a, P (String a "")) → (∀ a b, P (String a (String b ""))) →
  (∀ a b c s, P s → P (String a (String b (String c s)))) → ∀ s, P s.
Proof.
  intros H0 H1 H2 H3 s.
  assert (P s ∧ (∀ a, P (String a s)) ∧ (∀ a b, P (String a (String b s)))) as [? _]; [|done].
  induction s as [|x s (IH0 & IH1 & IH2)]; naive_solver.
Qed.

Ltac bytes :=
  repeat match goal with
  | a : ascii |- _ =>
    lazymatch goal with
    | _ : (0 ≤ code a < 256)%Z |- _ => fail
    | _ => pose proof (code_bounds a)
    end
  end.

Ltac zdiv := Z.div_mod_to_equations; lia.

Lemma strip_b64_encode s : strip_newlines (b64_encode s) = b64_encode s.
Proof.
  induction s as [|a|a b|a b c s IH] using string_ind3; [done|..]; bytes;
    cbn [b64_encode strip_newlines].
  - rewrite !b64_digit_not_newline by zdiv. done.
  - rewrite !b64_digit_not_newline by zdiv. done.
  - rewrite !b64_digit_not_newline by zdiv. by rewrite IH.
Qed.

Lemma b64_byte_eq z a : z = code a → byte_of z = a.
Proof. intros ->. apply byte_of_code. Qed.

Theorem b64_roundtrip s : b64_decode (b64_encode s) = Some s.
Proof.
  unfold b64_decode, b64_decode_partial. rewrite strip_b64_encode.
  enough (b64_quanta (b64_encode s) = (s, true)) as -> by done.
  induction s as [|a|a b|a b c s IH] using string_ind3; [done|..]; bytes;
    cbn [b64_encode b64_quanta].
  - rewrite !b64_val_digit by zdiv. cbn. do 2 f_equal. apply b64_byte_eq. zdiv.
  - rewrite !b64_val_digit by zdiv. cbn.
    repeat f_equal; apply b64_byte_eq; zdiv.
  - rewrite !b64_val_digit by zdiv. rewrite IH.
    repeat f_equal; apply b64_byte_eq; zdiv.
Qed.

Lemma b64_bytes_encode s : b64_bytes (b64_encode s) = s.
Proof.
  unfold b64_bytes. pose proof (b64_roundtrip s) as H. unfold b64_decode in H.
  destruct (b64_decode_partial _) as [t []]; simpl in *; congruence.
Qed.

(** ** [unicode/utf8]: [for _, r := range s] and [strings.Builder.WriteRune] *)
Definition rune_error : Z := 65533.

Definition cont (a : ascii) : bool := ((128 <=? code a) && (code a <=? 191))%Z.

(** Accepted range of the second byte, by the first (the [acceptRanges] table). *)
Definition second_ok (a b : ascii) : bool :=
  let z := code a in let w := code b in
  (if z =? 224 then (160 <=? w) && (w <=? 191)
   else if z =? 237 then (128 <=? w) && (w <=? 159)
   else if z =? 240 then (144 <=? w) && (w <=? 191)
   else if z =? 244 then (128 <=? w) && (w <=? 143)
   else cont b)%Z.

Fixpoint runes (s : string) : list Z :=
  match s with
  | "" => []
  | String a s1 =>
    let z := code a in
    if (z <? 128)%Z then z :: runes s1
    else if ((194 <=? z) && (z <=? 223))%Z then
      match s1 with
      | String b s2 =>
        if cont b then ((z - 192) * 64 + (code b - 128))%Z :: runes s2
        else rune_error :: runes s1
      | _ => rune_error :: runes s1
      end
    else if ((224 <=? z) && (z <=? 239))%Z then
      match s1 with
      | String b (String c s3) =>
        if second_ok a b && cont c
        then ((z - 224) * 4096 + (code b - 128) * 64 + (code c - 128))%Z :: runes s3
        else rune_error :: runes s1
      | _ => rune_error :: runes s1
      end
    else if ((240 <=? z) && (z <=? 244))%Z then
      match s1 with
      | String b (String c (String d s4)) =>
        if second_ok a b && cont c && cont d
        then ((z - 240) * 262144 + (code b - 128) * 4096
              + (code c - 128) * 64 + (code d - 128))%Z :: runes s4
        else rune_error :: runes s1
      | _ => rune_error :: runes s1
      end
    else rune_error :: runes s1
  end.

Definition encode_rune (r : Z) : string :=
  let r := if ((r <? 0) || (1114111 <? r) || ((55296 <=? r) && (r <=? 57343)))%Z
           then rune_error else r in
  (if r <? 128 then String (byte_of r) ""
   else if r <? 2048 then
     String (byte_of (192 + r / 64)) (String (byte_of (128 + r mod 64)) "")
   else if r <? 65536 then
     String (byte_of (224 + r / 4096))
       (String (byte_of (128 + (r / 64) mod 64)) (String (byte_of (128 + r mod 64)) ""))
   else
     String (byte_of (240 + r / 262144)) (String (byte_of (128 + (r / 4096) mod 64))
       (String (byte_of (128 + (r / 64) mod 64)) (String (byte_of (128 + r mod 64)) ""))))%Z.

Lemma slen_encode_rune r : 1 ≤ slen (encode_rune r) ≤ 4.
Proof. unfold encode_rune. split_ifs; simpl; lia. Qed.

Lemma slen_encode_rune_ascii r : (0 ≤ r < 128)%Z → slen (encode_rune r) = 1.
Proof.
  intros. unfold encode_rune.
  replace ((r <? 0) || (1114111 <? r) || ((55296 <=? r) && (r <=? 57343)))%Z with false by lia.
  by replace (r <? 128)%Z with true by lia.
Qed.

Lemma runes_ascii s : is_ascii s = true → Forall (λ r, 0 ≤ r < 128)%Z (runes s).
Proof.
  unfold is_ascii, is_ascii_byte. induction s as [|a s IH]; simpl; [done|].
  intros [Ha Hs]%andb_true_iff. rewrite Ha. constructor; [|auto].
  pose proof (code_bounds a). lia.
Qed.

(** Every byte of an encoded rune that is not a control character is not one. *)
Lemma encode_rune_bytes r :
  (32 ≤ r)%Z → sforall (λ a, 32 <=? code a)%Z (encode_rune r) = true.
Proof.
  intros Hr. unfold encode_rune, rune_error.
  set (r' := if ((r <? 0) || _ || _)%Z then _ else _).
  assert (32 ≤ r' ≤ 1114111)%Z as Hr'.
  { subst r'. destruct ((r <? 0) || (1114111 <? r) ||
      ((55296 <=? r) && (r <=? 57343)))%Z eqn:?; lia. }
  clearbody r'. clear Hr.
  destruct (r' <? 128)%Z eqn:?; [|destruct (r' <? 2048)%Z eqn:?; [|destruct (r' <? 65536)%Z eqn:?]];
    cbn [sforall]; rewrite !code_byte_of by zdiv;
    repeat (apply andb_true_iff; split); try done; apply Z.leb_le; zdiv.
Qed.

(** ** [fmt.Sscanf] into string operands

    [sscanf fmt input n] for a format made of literal non-space bytes and
    verbs, with [n] operands of type [*string]: the words scanned, or [None]
    when [Sscanf] returns an error.  Go has no scan sets: for a string
    operand every verb other than [%s] and [%v] (and [%q], [%x], [%X], which
    no format of the backend uses) is a "bad verb" error. *)
Definition scan_space (a : ascii) : bool :=
  let z := code a in ((z =? 9) || (z =? 11) || (z =? 12) || (z =? 13) || (z =? 32))%Z.

(** [SkipSpace] of [Sscanf]: a newline is an error. *)
Fixpoint skip_space (s : string) : option string :=
  match s with
  | "" => Some ""
  | String a s' =>
    if (code a =? 10)%Z then None
    else if scan_space a then skip_space s' else Some s
  end.

Fixpoint scan_word (s : string) : string * string :=
  match s with
  | "" => ("", "")
  | String a s' =>
    if scan_space a || (code a =? 10)%Z then ("", s)
    else let '(w, rest) := scan_word s' in (String a w, rest)
  end.

Fixpoint sscanf (fmt input : string) (n : nat) : option (list string) :=
  match fmt with
  | "" => Some []
  | String p (String v fmt' as tl) =>
    if Ascii.eqb p "%" then
      rest ← skip_space input;
      match n with
      | 0 => None
      | S n' =>
        if Ascii.eqb v "s" || Ascii.eqb v "v" then
          match rest with
          | "" => None
          | _ => let '(w, rest') := scan_word rest in
                 ws ← sscanf fmt' rest' n'; Some (w :: ws)
          end
        else None
      end
    else match input with
         | String a input' => if Ascii.eqb a p then sscanf tl input' n else None
         | "" => None
         end
  | String p "" =>
    match input with
    | String a _ => if Ascii.eqb a p && negb (Ascii.eqb p "%") then Some [] else None
    | "" => None
    end
  end.

(** The format by which the backend splits [@user:domain]. *)
Definition user_id_format : string := "@%[^:]:%s".

Lemma sscanf_user_id_fails input n : sscanf user_id_format input n = None.
Proof.
  unfold user_id_format. destruct input as [|a s]; [done|].
  cbn [sscanf]. simpl (Ascii.eqb "@" "%"). cbv iota.
  destruct (Ascii.eqb a "@"); [|done]. cbn [sscanf].
  simpl (Ascii.eqb "%" "%"). cbv iota.
  destruct (skip_space s); simpl; [|done]. by destruct n.
Qed.

(** ** int64 through a JSON number

    A number in [jwt.MapClaims] is decoded into a float64: the nearest
    multiple of a power of two with a 53-bit significand, ties to even. *)
Definition f64_round (z : Z) : Z :=
  let a := Z.abs z in
  let e := Z.max 0 (Z.log2 a - 52) in
  let p := (2 ^ e)%Z in
  let q := (a / p)%Z in
  let r := (a mod p)%Z in
  let q' := if (2 * r <? p)%Z then q
            else if (p <? 2 * r)%Z then (q + 1)%Z else (q + q mod 2)%Z in
  (Z.sgn z * (q' * p))%Z.

(** [int64(f)]; out of range the result is implementation-defined, and is the
    least integer on amd64. *)
Definition int64_of_f64 (f : Z) : Z := if in_int64 f then f else (- two63)%Z.

Lemma f64_round_exact z : (Z.abs z ≤ 2 ^ 53)%Z → f64_round z = z.
Proof.
  intros Hz. unfold f64_round.
  destruct (decide (Z.abs z = 2 ^ 53)%Z) as [Heq|Hne].
  - rewrite Heq. change (Z.max 0 (Z.log2 (2 ^ 53) - 52)) with 1%Z.
    change (2 ^ 53)%Z with 9007199254740992%Z in *. vm_compute (2 ^ 1)%Z.
    change (9007199254740992 / 2)%Z with 4503599627370496%Z.
    change (9007199254740992 mod 2)%Z with 0%Z. simpl. lia.
  - assert (Z.log2 (Z.abs z) ≤ 52)%Z as Hl.
    { destruct (decide (Z.abs z = 0)%Z) as [->|]; [done|].
      apply Z.lt_succ_r. apply Z.log2_lt_pow2; lia. }
    replace (Z.max 0 (Z.log2 (Z.abs z) - 52)) with 0%Z by lia.
    change (2 ^ 0)%Z with 1%Z. rewrite Z.div_1_r, Z.mod_1_r. simpl. lia.
Qed.

Lemma int64_of_f64_id z : in_int64 z = true → int64_of_f64 z = z.
Proof. intros H. unfold int64_of_f64. by rewrite H. Qed.

(** ** [t.UTC().Format(time.RFC3339)] for a time in nanoseconds

    Proleptic Gregorian calendar: [days] counts from 1970-01-01. *)
Definition civil (days : Z) : Z * Z * Z :=
  let z := (days + 719468)%Z in
  let era := (z / 146097)%Z in
  let doe := (z mod 146097)%Z in
  let yoe := ((doe - doe / 1460 + doe / 36524 - doe / 146096) / 365)%Z in
  let doy := (doe - (365 * yoe + yoe / 4 - yoe / 100))%Z in
  let mp := ((5 * doy + 2) / 153)%Z in
  let m := (if mp <? 10 then mp + 3 else mp - 9)%Z in
  ((yoe + era * 400 + (if m <=? 2 then 1 else 0))%Z, m, (doy - (153 * mp + 2) / 5 + 1)%Z).

Fixpoint zeros (n : nat) : string := match n with 0 => "" | S n => String "0" (zeros n) end.

Definition pad (w : nat) (z : Z) : string := zeros (w - slen (itoa z)) +:+ itoa z.

Definition rfc3339 (t : Z) : string :=
  let s := unix t in
  let '(y, m, d) := civil (s / 86400)%Z in
  let r := (s mod 86400)%Z in
  pad 4 y +:+ "-" +:+ pad 2 m +:+ "-" +:+ pad 2 d +:+ "T" +:+
  pad 2 (r / 3600)%Z +:+ ":" +:+ pad 2 (r / 60 mod 60)%Z +:+ ":" +:+ pad 2 (r mod 60)%Z +:+ "Z".

Example rfc3339_epoch : rfc3339 0 = "1970-01-01T00:00:00Z".
Proof. by vm_compute. Qed.
Example rfc3339_leap : rfc3339 (1709210096 * second) = "2024-02-29T12:34:56Z".
Proof. by vm_compute. Qed.

(** ** [base64.RawURLEncoding.EncodeToString]: the URL alphabet, no padding *)
Definition url_byte (a : ascii) : ascii :=
  if Ascii.eqb a "+" then "-"%char else if Ascii.eqb a "/" then "_"%char else a.

Fixpoint raw_url_encode_std (s : string) : string :=
  match s with
  | "" => ""
  | String a s' => if Ascii.eqb a "=" then raw_url_encode_std s' else String (url_byte a) (raw_url_encode_std s')
  end.

Definition b64_raw_url_encode (s : string) : string := raw_url_encode_std (b64_encode s).

Lemma b64_digit_not_pad z : (0 ≤ z < 64)%Z → Ascii.eqb (b64_digit z) "=" = false.
Proof.
  intros Hz. apply negb_true_iff.
  apply (Z_range_ind 64 (λ z, negb (Ascii.eqb (b64_digit z) "="))); [by vm_compute|lia].
Qed.

(** [n] bytes take [⌈4n/3⌉] characters. *)
Lemma slen_b64_raw_url s :
  Z.of_nat (slen (b64_raw_url_encode s)) = ((4 * Z.of_nat (slen s) + 2) / 3)%Z.
Proof.
  unfold b64_raw_url_encode.
  induction s as [|a|a b|a b c s IH] using string_ind3; [done|..]; bytes;
    cbn [b64_encode raw_url_encode_std]; rewrite ?b64_digit_not_pad by zdiv; simpl slen; try done.
  zdiv.
Qed.

(** ** Strings through JSON

    [encoding/json] writes a Go string as a JSON string, each byte that is
    not part of a valid UTF-8 sequence as U+FFFD; the decoder gives it back
    as UTF-8. *)
Fixpoint encode_runes (l : list Z) : string :=
  match l with [] => "" | r :: l' => encode_rune r +:+ encode_runes l' end.

Definition json_str (s : string) : string := encode_runes (runes s).

Definition valid_rune (r : Z) : Prop :=
  (0 ≤ r ≤ 1114111 ∧ ¬ (55296 ≤ r ≤ 57343))%Z.

Lemma encode_rune_valid r :
  valid_rune r →
  encode_rune r =
  (if r <? 128 then String (byte_of r) ""
   else if r <? 2048 then
     String (byte_of (192 + r / 64)) (String (byte_of (128 + r mod 64)) "")
   else if r <? 65536 then
     String (byte_of (224 + r / 4096))
       (String (byte_of (128 + (r / 64) mod 64)) (String (byte_of (128 + r mod 64)) ""))
   else
     String (byte_of (240 + r / 262144)) (String (byte_of (128 + (r / 4096) mod 64))
       (String (byte_of (128 + (r / 64) mod 64)) (String (byte_of (128 + r mod 64)) ""))))%Z.
Proof.
  intros Hr. unfold encode_rune.
  by replace ((r <? 0) || (1114111 <? r) || ((55296 <=? r) && (r <=? 57343)))%Z with false
    by (unfold valid_rune in Hr; lia).
Qed.

Lemma runes_encode_app r s : valid_rune r → runes (encode_rune r +:+ s) = r :: runes s.
Proof.
  intros Hr. rewrite encode_rune_valid by done. unfold valid_rune in Hr.
  destruct (r <? 128)%Z eqn:H1; [|destruct (r <? 2048)%Z eqn:H2; [|destruct (r <? 65536)%Z eqn:H3]];
    rewrite !string_app_cons; change ("" +:+ s) with s; cbn [runes];
    unfold cont, second_ok; rewrite !code_byte_of by zdiv.
  - by rewrite H1.
  - replace (192 + r / 64 <? 128)%Z with false by zdiv.
    replace ((194 <=? 192 + r / 64) && (192 + r / 64 <=? 223))%Z with true by zdiv.
    replace ((128 <=? 128 + r mod 64) && (128 + r mod 64 <=? 191))%Z with true by zdiv.
    f_equal. zdiv.
  - replace (224 + r / 4096 <? 128)%Z with false by zdiv.
    replace ((194 <=? 224 + r / 4096) && (224 + r / 4096 <=? 223))%Z with false by zdiv.
    replace ((224 <=? 224 + r / 4096) && (224 + r / 4096 <=? 239))%Z with true by zdiv.
    match goal with |- context [if ?b then _ :: runes s else _] => replace b with true end.
    + f_equal. zdiv.
    + symmetry. rewrite !andb_true_iff. split_ifs; unfold cont; rewrite ?code_byte_of by zdiv; zdiv.
  - replace (240 + r / 262144 <? 128)%Z with false by zdiv.
    replace ((194 <=? 240 + r / 262144) && (240 + r / 262144 <=? 223))%Z with false by zdiv.
    replace ((224 <=? 240 + r / 262144) && (240 + r / 262144 <=? 239))%Z with false by zdiv.
    replace ((240 <=? 240 + r / 262144) && (240 + r / 262144 <=? 244))%Z with true by zdiv.
    match goal with |- context [if ?b then _ :: runes s else _] => replace b with true end.
    + f_equal. zdiv.
    + symmetry. rewrite !andb_true_iff. split_ifs; unfold cont; rewrite ?code_byte_of by zdiv; zdiv.
Qed.

Lemma runes_encode_runes l : Forall valid_rune l → runes (encode_runes l) = l.
Proof. induction 1; simpl; [done|]. rewrite runes_encode_app by done. by f_equal. Qed.

(** Strong induction on the length of a string. *)
Lemma string_len_ind (P : string → Prop) :
  (∀ s, (∀ t, slen t < slen s → P t) → P s) → ∀ s, P s.
Proof. intros H s. remember (slen s) as n. revert s Heqn.
  induction n as [n IH] using lt_wf_ind. intros s ->. apply H. intros t Ht. by apply (IH (slen t)). Qed.

Lemma runes_valid s : Forall valid_rune (runes s).
Proof.
  induction s as [s IH] using string_len_ind.
  assert (valid_rune rune_error) as He by (unfold valid_rune, rune_error; lia).
  destruct s as [|a s1]; [constructor|]. cbn [runes]. pose proof (code_bounds a) as Ha.
  assert (Forall valid_rune (rune_error :: runes s1)) as Herr.
  { constructor; [done|]. apply IH. simpl. lia. }
  split_ifs; try done; constructor; try (apply IH; simpl; lia); bytes;
    unfold valid_rune, second_ok, cont in *;
    repeat match goal with H : context [if ?b then _ else _] |- _ => destruct b eqn:? end; lia.
Qed.

Lemma json_str_idemp s : json_str (json_str s) = json_str s.
Proof. unfold json_str. by rewrite runes_encode_runes by apply runes_valid. Qed.

Lemma json_str_ascii s : is_ascii s = true → json_str s = s.
Proof.
  unfold is_ascii, is_ascii_byte, json_str. induction s as [|a s IH]; simpl; [done|].
  intros [Ha Hs]%andb_true_iff. rewrite Ha. simpl. rewrite IH by done.
  pose proof (code_bounds a). rewrite encode_rune_valid by (unfold valid_rune; lia).
  rewrite Ha, byte_of_code. done.
Qed.

Lemma json_str_nonempty s : s ≠ "" → json_str s ≠ "".
Proof.
  unfold json_str. destruct s as [|a s]; [done|]. intros _ He.
  assert (runes (String a s) ≠ []) as Hr by (cbn [runes]; split_ifs; done).
  destruct (runes (String a s)) as [|r l]; [done|]. simpl in He.
  pose proof (slen_encode_rune r) as Hl. apply (f_equal slen) in He.
  rewrite slen_app in He. simpl in He. lia.
Qed.

Lemma is_ascii_app a b : is_ascii (a +:+ b) = is_ascii a && is_ascii b.
Proof. apply sforall_app. Qed.

Lemma itoa_ascii z : is_ascii (itoa z) = true.
Proof.
  unfold is_ascii. eapply sforall_impl, itoa_dec_bytes. intros a. unfold is_ascii_byte, dec_byte.
  destruct (Ascii.eqb a "-") eqn:Ha; [apply Ascii.eqb_eq in Ha; by subst|]. simpl. lia.
Qed.

Lemma b64_ascii s : is_ascii (b64_encode s) = true.
Proof.
  assert (∀ z, (0 ≤ z < 64)%Z → is_ascii_byte (b64_digit z) = true) as Hd.
  { intros z Hz. apply (Z_range_ind 64 (λ z, is_ascii_byte (b64_digit z))); [by vm_compute|lia]. }
  unfold is_ascii. induction s as [|a|a b|a b c s IH] using string_ind3; [done|..]; bytes;
    cbn [b64_encode sforall]; rewrite ?Hd by zdiv; done.
Qed.

Lemma b64_raw_url_ascii s : is_ascii (b64_raw_url_encode s) = true.
Proof.
  unfold b64_raw_url_encode. pose proof (b64_ascii s) as Hs. revert Hs.
  generalize (b64_encode s). clear. unfold is_ascii. induction s as [|a s IH]; simpl; [done|].
  intros [Ha Hs]%andb_true_iff. destruct (Ascii.eqb a "="); [auto|]. simpl. rewrite IH by done.
  unfold url_byte. by destruct (Ascii.eqb a "+"), (Ascii.eqb a "/"); rewrite ?Ha.
Qed.

Lemma is_ascii_stake n s : is_ascii s = true → is_ascii (stake n s) = true.
Proof.
  unfold is_ascii. revert s. induction n as [|n IH]; intros [|a s]; simpl; try done.
  rewrite !andb_true_iff. intros [??]. auto.
Qed.
