(* ===== verification/Json.v ===== *)
(** * [encoding/json]

    The part of Go's [encoding/json] the backend uses, for Go 1.23: values and
    their text ([json.Marshal]), the scanner ([json.Unmarshal] and
    [json.Decoder]), and decoding into Go values.  The text of a value is read
    back ([unmarshal_marshal]); this is what the endpoints of two servers rely
    on. *)

From Stdlib Require Import Ascii String Decimal DecimalString DecimalZ DecimalPos DecimalFacts.
From stdpp Require Import strings.
From S2P Require Import Prelude GoStrings Encoding.
Set Default Goal Selector "!".
Open Scope stdpp_scope.

(** A number keeps its literal; the members of an object keep their order
    and their duplicates. *)
Inductive json :=
| JNull
| JBool (b : bool)
| JNum (lit : string)
| JStr (s : string)
| JArr (l : list json)
| JObj (l : list (string * json)).

Definition JInt (z : Z) : json := JNum (itoa z).

Section json_rec.
Context (P : json → Prop).
Context (Hnull : P JNull) (Hbool : ∀ b, P (JBool b)) (Hnum : ∀ n, P (JNum n))
  (Hstr : ∀ s, P (JStr s)) (Harr : ∀ l, Forall P l → P (JArr l))
  (Hobj : ∀ l, Forall (λ kv, P kv.2) l → P (JObj l)).

Fixpoint json_nested_ind (j : json) : P j :=
  match j with
  | JNull => Hnull
  | JBool b => Hbool b
  | JNum n => Hnum n
  | JStr s => Hstr s
  | JArr l => Harr l ((fix go l : Forall P l :=
      match l with
      | [] => Forall_nil_2 _
      | x :: l => Forall_cons_2 _ x l (json_nested_ind x) (go l)
      end) l)
  | JObj l => Hobj l ((fix go l : Forall (λ kv, P kv.2) l :=
      match l with
      | [] => Forall_nil_2 _
      | kv :: l => Forall_cons_2 _ kv l (json_nested_ind kv.2) (go l)
      end) l)
  end.
End json_rec.

(** ** Text *)
Definition chr (z : Z) : string := String (byte_of z) "".
Definition quote_byte : ascii := "034".
Definition backslash : ascii := "092".

(** The runes of a string, [None] for a byte that is not part of a valid
    sequence (where [runes] has U+FFFD). *)
Fixpoint raw_runes (s : string) : list (option Z) :=
  match s with
  | "" => []
  | String a s1 =>
    let z := code a in
    if (z <? 128)%Z then Some z :: raw_runes s1
    else if ((194 <=? z) && (z <=? 223))%Z then
      match s1 with
      | String b s2 =>
        if cont b then Some ((z - 192) * 64 + (code b - 128))%Z :: raw_runes s2
        else None :: raw_runes s1
      | _ => None :: raw_runes s1
      end
    else if ((224 <=? z) && (z <=? 239))%Z then
      match s1 with
      | String b (String c s3) =>
        if second_ok a b && cont c
        then Some ((z - 224) * 4096 + (code b - 128) * 64 + (code c - 128))%Z :: raw_runes s3
        else None :: raw_runes s1
      | _ => None :: raw_runes s1
      end
    else if ((240 <=? z) && (z <=? 244))%Z then
      match s1 with
      | String b (String c (String d s4)) =>
        if second_ok a b && cont c && cont d
        then Some ((z - 240) * 262144 + (code b - 128) * 4096
                   + (code c - 128) * 64 + (code d - 128))%Z :: raw_runes s4
        else None :: raw_runes s1
      | _ => None :: raw_runes s1
      end
    else None :: raw_runes s1
  end.

(** [\u00xx] and [\uxxxx], lower case. *)
Definition u_escape (z : Z) : string :=
  String backslash (String "u" (String (hex_digit (z / 4096 mod 16)) (String (hex_digit (z / 256 mod 16))
    (String (hex_digit (z / 16 mod 16)) (String (hex_digit (z mod 16)) ""))))).

Definition esc (a : ascii) : string := String backslash (String a "").

(** One rune of [appendString], [escapeHTML] set. *)
Definition quote_rune (r : option Z) : string :=
  match r with
  | None => u_escape 65533
  | Some z =>
    (if z =? 34 then esc quote_byte
     else if z =? 92 then esc backslash
     else if z =? 8 then esc "b"
     else if z =? 12 then esc "f"
     else if z =? 10 then esc "n"
     else if z =? 13 then esc "r"
     else if z =? 9 then esc "t"
     else if (z <? 32) || (z =? 60) || (z =? 62) || (z =? 38) then u_escape z
     else if (z =? 8232) || (z =? 8233) then u_escape z
     else encode_rune z)%Z
  end.

Fixpoint quote_runes (l : list (option Z)) : string :=
  match l with [] => "" | r :: l => quote_rune r +:+ quote_runes l end.

Definition quote (s : string) : string :=
  String quote_byte (quote_runes (raw_runes s) +:+ String quote_byte "").

(** [json.Marshal] *)
Fixpoint marshal (j : json) : string :=
  match j with
  | JNull => "null"
  | JBool b => if b then "true" else "false"
  | JNum lit => lit
  | JStr s => quote s
  | JArr l => "[" +:+ join "," (marshal <$> l) +:+ "]"
  | JObj l => "{" +:+ join "," ((λ kv, quote kv.1 +:+ ":" +:+ marshal kv.2) <$> l) +:+ "}"
  end.

(** ** The scanner *)
Definition json_space (a : ascii) : bool :=
  let z := code a in ((z =? 32) || (z =? 9) || (z =? 13) || (z =? 10))%Z.

Fixpoint skip_ws (s : string) : string :=
  match s with
  | String a s' => if json_space a then skip_ws s' else s
  | "" => ""
  end.

Definition hex4 (a b c d : ascii) : option Z :=
  w ← hex_val a; x ← hex_val b; y ← hex_val c; z ← hex_val d;
  Some (w * 4096 + x * 256 + y * 16 + z)%Z.

Definition high_surrogate (z : Z) : bool := ((55296 <=? z) && (z <? 56320))%Z.
Definition low_surrogate (z : Z) : bool := ((56320 <=? z) && (z <? 57344))%Z.

Definition simple_escape (a : ascii) : option ascii :=
  (let z := code a in
   if (z =? 34) || (z =? 92) || (z =? 47) then Some a
   else if z =? 98 then Some (byte_of 8)
   else if z =? 102 then Some (byte_of 12)
   else if z =? 110 then Some (byte_of 10)
   else if z =? 114 then Some (byte_of 13)
   else if z =? 116 then Some (byte_of 9)
   else None)%Z.

(** The low surrogate that [\uxxxx] after a high one gives. *)
Definition low_half (z : Z) (e u k1 k2 k3 k4 : ascii) : option Z :=
  if high_surrogate z && Ascii.eqb e backslash && Ascii.eqb u "u"
  then w ← hex4 k1 k2 k3 k4; if low_surrogate w then Some w else None
  else None.

Definition join_halves (z w : Z) : Z := 65536 + (z - 55296) * 1024 + (w - 56320).

Definition prepend (t : string) (r : option (string * string)) : option (string * string) :=
  '(u, r) ← r; Some (t +:+ u, r).

(** The bytes of a string literal up to its closing quote, escapes replaced,
    and what follows.  [utf16.DecodeRune] joins two surrogates; a lone one
    is U+FFFD ([encode_rune]). *)
Fixpoint literal (s : string) : option (string * string) :=
  match s with
  | "" => None
  | String a s1 =>
    if Ascii.eqb a quote_byte then Some ("", s1)
    else if Ascii.eqb a backslash then
      match s1 with
      | String b s2 =>
        if Ascii.eqb b "u" then
          match s2 with
          | String h1 (String h2 (String h3 (String h4 s6))) =>
            z ← hex4 h1 h2 h3 h4;
            match s6 with
            | String e (String u (String k1 (String k2 (String k3 (String k4 s12))))) =>
              match low_half z e u k1 k2 k3 k4 with
              | Some w => prepend (encode_rune (join_halves z w)) (literal s12)
              | None => prepend (encode_rune z) (literal s6)
              end
            | _ => prepend (encode_rune z) (literal s6)
            end
          | _ => None
          end
        else c ← simple_escape b; prepend (String c "") (literal s2)
      | "" => None
      end
    else if (code a <? 32)%Z then None
    else prepend (String a "") (literal s1)
  end.

(** A string value: its bytes as UTF-8, U+FFFD for what is not. *)
Definition string_value (s : string) : option (string * string) :=
  '(t, r) ← literal s; Some (json_str t, r).

Definition digit (a : ascii) : bool := ((48 <=? code a) && (code a <=? 57))%Z.

Fixpoint digits (s : string) : string * string :=
  match s with
  | String a s' => if digit a then let '(d, r) := digits s' in (String a d, r) else ("", s)
  | "" => ("", "")
  end.

(** At least one digit. *)
Definition digits1 (s : string) : option (string * string) :=
  let '(d, r) := digits s in if String.eqb d "" then None else Some (d, r).

Definition int_part (s : string) : option (string * string) :=
  match s with
  | String a s' => if Ascii.eqb a "0" then Some ("0", s') else digits1 s
  | "" => None
  end.

Definition frac_part (s : string) : option (string * string) :=
  match s with
  | String a s' => if Ascii.eqb a "." then '(d, r) ← digits1 s'; Some (String a d, r)
                   else Some ("", s)
  | "" => Some ("", s)
  end.

Definition exp_part (s : string) : option (string * string) :=
  match s with
  | String e s' =>
    if Ascii.eqb e "e" || Ascii.eqb e "E" then
      match s' with
      | String g s'' =>
        if Ascii.eqb g "+" || Ascii.eqb g "-"
        then '(d, r) ← digits1 s''; Some (String e (String g d), r)
        else '(d, r) ← digits1 s'; Some (String e d, r)
      | "" => None
      end
    else Some ("", s)
  | "" => Some ("", s)
  end.

Definition unsigned_number (s : string) : option (string * string) :=
  '(i, r) ← int_part s; '(f, r) ← frac_part r; '(e, r) ← exp_part r; Some (i +:+ f +:+ e, r).

Definition number (s : string) : option (string * string) :=
  match s with
  | String a s' => if Ascii.eqb a "-" then '(n, r) ← unsigned_number s'; Some (String a n, r)
                   else unsigned_number s
  | "" => None
  end.

Definition maxNestingDepth : Z := 10000.

Definition keyword (w : string) (j : json) (s : string) : option (json * string) :=
  if has_prefix s w then Some (j, sdrop (slen w) s) else None.

(** [fuel]: twice the length of the text and a little more is enough
    ([value_fuel]); [d]: the open arrays and objects. *)
Fixpoint value (fuel : nat) (d : Z) (s : string) : option (json * string) :=
  match fuel with
  | 0 => None
  | S fuel =>
    match skip_ws s with
    | "" => None
    | String a s1 =>
      if Ascii.eqb a quote_byte then '(t, r) ← string_value s1; Some (JStr t, r)
      else if Ascii.eqb a "{" then
        if (maxNestingDepth <? d + 1)%Z then None else
        match skip_ws s1 with
        | String b r =>
          if Ascii.eqb b "}" then Some (JObj [], r)
          else '(l, r) ← members fuel (d + 1) (String b r); Some (JObj l, r)
        | "" => None
        end
      else if Ascii.eqb a "[" then
        if (maxNestingDepth <? d + 1)%Z then None else
        match skip_ws s1 with
        | String b r =>
          if Ascii.eqb b "]" then Some (JArr [], r)
          else '(l, r) ← elements fuel (d + 1) (String b r); Some (JArr l, r)
        | "" => None
        end
      else if Ascii.eqb a "t" then keyword "true" (JBool true) (String a s1)
      else if Ascii.eqb a "f" then keyword "false" (JBool false) (String a s1)
      else if Ascii.eqb a "n" then keyword "null" JNull (String a s1)
      else '(n, r) ← number (String a s1); Some (JNum n, r)
    end
  end
with elements (fuel : nat) (d : Z) (s : string) : option (list json * string) :=
  match fuel with
  | 0 => None
  | S fuel =>
    '(j, r) ← value fuel d s;
    match skip_ws r with
    | String b r =>
      if Ascii.eqb b "," then '(l, r) ← elements fuel d r; Some (j :: l, r)
      else if Ascii.eqb b "]" then Some ([j], r)
      else None
    | "" => None
    end
  end
with members (fuel : nat) (d : Z) (s : string) : option (list (string * json) * string) :=
  match fuel with
  | 0 => None
  | S fuel =>
    match skip_ws s with
    | String q s1 =>
      if negb (Ascii.eqb q quote_byte) then None else
      '(k, r) ← string_value s1;
      match skip_ws r with
      | String c r =>
        if negb (Ascii.eqb c ":") then None else
        '(j, r) ← value fuel d r;
        match skip_ws r with
        | String b r =>
          if Ascii.eqb b "," then '(l, r) ← members fuel d r; Some ((k, j) :: l, r)
          else if Ascii.eqb b "}" then Some ([(k, j)], r)
          else None
        | "" => None
        end
      | "" => None
      end
    | "" => None
    end
  end.

Definition text_fuel (s : string) : nat := 2 * slen s + 2.

(** [json.NewDecoder(r).Decode]: the first value of the text. *)
Definition decode_first (s : string) : option json :=
  fst <$> value (text_fuel s) 0 s.

(** [json.Unmarshal]: nothing but white space may follow. *)
Definition unmarshal (s : string) : option json :=
  '(j, r) ← value (text_fuel s) 0 s; if String.eqb (skip_ws r) "" then Some j else None.

(** ** Decoding into Go values

    [Dec A]: [reflect] assigning a JSON value to a variable of type [A] that
    holds the given value; [None] when the decoder returns an error.  The
    decoder goes on after an [UnmarshalTypeError], but every caller of the
    backend discards the result then. *)
Abbreviation Dec A := (A → json → option A) (only parsing).

Definition dec_string : Dec string := λ old j,
  match j with JStr s => Some s | JNull => Some old | _ => None end.

Definition dec_bool : Dec bool := λ old j,
  match j with JBool b => Some b | JNull => Some old | _ => None end.

(** [strconv.ParseInt] on the literal: no fraction, no exponent, in range. *)
Definition dec_int64 : Dec Z := λ old j,
  match j with JNum n => parse_int64 n | JNull => Some old | _ => None end.

(** [null] makes a pointer nil; otherwise a nil pointer is allocated. *)
Definition dec_ptr {A} (zero : A) (d : Dec A) : Dec (option A) := λ old j,
  match j with JNull => Some None | _ => Some <$> d (default zero old) j end.

(** A slice: its length, its backing array, and whether it is not nil.  The elements are decoded
    into the backing array, which keeps what an earlier, duplicate member
    stored beyond the new length. *)
Record slice (A : Type) := Slice { sl_len : nat; sl_backing : list A; sl_made : bool }.
Arguments Slice {A} _ _ _.
Arguments sl_made {A} _.
Arguments sl_len {A} _.
Arguments sl_backing {A} _.

Definition items {A} (s : slice A) : list A := take (sl_len s) (sl_backing s).
Definition nil_slice {A} : slice A := Slice 0 [] false.

Fixpoint dec_items {A} (zero : A) (d : Dec A) (back : list A) (l : list json) : option (list A) :=
  match l with
  | [] => Some back
  | j :: l => x ← d (default zero (head back)) j; t ← dec_items zero d (tail back) l; Some (x :: t)
  end.

Definition dec_slice {A} (zero : A) (d : Dec A) : Dec (slice A) := λ old j,
  match j with
  | JNull => Some nil_slice
  | JArr l => (λ b, Slice (length l) b true) <$> dec_items zero d (sl_backing old) l
  | _ => None
  end.

(** A nil slice is [null]. *)
Definition JSlice {A} (f : A → json) (s : slice A) : json :=
  if sl_made s then JArr (f <$> items s) else JNull.

(** [map[string]string]: elements are decoded into fresh values. *)
Definition dec_map_step (acc : option (gmap string string)) (kv : string * json) :
    option (gmap string string) :=
  m ← acc; v ← dec_string "" kv.2; Some (<[kv.1 := v]> m).

Definition dec_map : Dec (gmap string string) := λ old j,
  match j with
  | JNull => Some ∅
  | JObj l => foldl dec_map_step (Some old) l
  | _ => None
  end.

(** ** Maps are written with sorted keys *)
Definition key_le (a b : string * json) : Prop := String.leb a.1 b.1 = true.

#[export] Instance key_le_dec a b : Decision (key_le a b).
Proof. unfold key_le. solve_decision. Defined.

(** The last of the members of each name. *)
Definition last_members (l : list (string * json)) : list (string * json) :=
  foldr (λ kv acc, if bool_decide (kv.1 ∈ acc.*1) then acc else kv :: acc) [] l.

Definition sorted_members (l : list (string * json)) : list (string * json) :=
  merge_sort key_le (last_members l).

Definition map_json (m : gmap string string) : json :=
  JObj (merge_sort key_le ((λ kv, (kv.1, JStr kv.2)) <$> map_to_list m)).

Section structs.
Context `{GoUnicode}.

(** The field a member goes to: its exact name, or else the first that
    matches up to case. *)
Fixpoint field_of {B} (k : string) (fs : list (string * B)) : option B :=
  match fs with
  | [] => None
  | (n, b) :: fs => if String.eqb k n then Some b else field_of k fs
  end.

Fixpoint folded_field_of {B} (k : string) (fs : list (string * B)) : option B :=
  match fs with
  | [] => None
  | (n, b) :: fs => if equal_fold k n then Some b else folded_field_of k fs
  end.

Definition dec_member {A} (fs : list (string * Dec A)) (acc : option A) (kv : string * json) :
    option A :=
  a ← acc;
  match field_of kv.1 fs with
  | Some d => d a kv.2
  | None => match folded_field_of kv.1 fs with Some d => d a kv.2 | None => Some a end
  end.

Definition dec_struct {A} (fs : list (string * Dec A)) : Dec A := λ old j,
  match j with
  | JNull => Some old
  | JObj l => foldl (dec_member fs) (Some old) l
  | _ => None
  end.

(** A field of a record, by its getter and setter. *)
Definition at_field {A B} (get : A → B) (set : B → A → A) (d : Dec B) : Dec A := λ a j,
  (λ b, set b a) <$> d (get a) j.
End structs.

(** What every field keeps, decoding a struct keeps. *)
Lemma dec_struct_keeps `{GoUnicode} {A} (P : A → Prop) (fs : list (string * Dec A)) old j a :
  Forall (λ f, ∀ x j y, P x → f.2 x j = Some y → P y) fs → P old →
  dec_struct fs old j = Some a → P a.
Proof.
  intros Hfs Hold. destruct j as [| | | | |l]; try done; [by intros [= <-]|].
  assert (∀ k g, field_of k fs = Some g ∨ folded_field_of k fs = Some g →
    ∀ x j y, P x → g x j = Some y → P y) as Hg.
  { intros k g. induction Hfs as [|[n d] fs Hd _ IH]; cbn; [by intros []|].
    destruct (String.eqb k n), (equal_fold k n); cbn; naive_solver. }
  cbn.
  assert (∀ o, (∀ x, o = Some x → P x) → foldl (dec_member fs) o l = Some a → P a) as Hf.
  { induction l as [|[k v] l IH]; cbn [foldl]; intros o Ho; [auto|]. apply IH.
    intros x. unfold dec_member. destruct o as [y|]; [|done]. cbn.
    destruct (field_of k fs) eqn:H1; [by eauto|]. destruct (folded_field_of k fs) eqn:H2; [by eauto|].
    intros [= <-]. auto. }
  apply Hf. by intros x [= <-].
Qed.

(** ** Round trip *)
Lemma runes_raw s : runes s = default rune_error <$> raw_runes s.
Proof.
  induction s as [s IH] using string_len_ind.
  destruct s as [|a s1]; [done|]. cbn [runes raw_runes].
  assert (∀ t, slen t < S (slen s1) → runes t = default rune_error <$> raw_runes t) as IH'
    by (intros; apply IH; simpl; lia).
  assert (rune_error :: runes s1 = default rune_error <$> None :: raw_runes s1) as Herr
    by (cbn; f_equal; apply IH'; lia).
  split_ifs; try done; cbn [fmap list_fmap default from_option]; f_equal; apply IH'; simpl; lia.
Qed.

Lemma raw_runes_valid s r : Some r ∈ raw_runes s → valid_rune r.
Proof.
  intros Hr. pose proof (runes_valid s) as Hv. rewrite runes_raw in Hv.
  apply Forall_fmap, (proj1 (Forall_forall _ _)) with (x := Some r) in Hv; [done|exact Hr].
Qed.

Lemma hex_val_digit z : (0 ≤ z < 16)%Z → hex_val (hex_digit z) = Some z.
Proof.
  intros Hz. enough (from_option (Z.eqb z) false (hex_val (hex_digit z)) = true) as Hb.
  { destruct (hex_val _); [|done]. apply Z.eqb_eq in Hb. by subst. }
  apply (Z_range_ind 16 (λ z, from_option (Z.eqb z) false (hex_val (hex_digit z)))); [by vm_compute|lia].
Qed.

Lemma hex4_digits z :
  (0 ≤ z < 65536)%Z →
  hex4 (hex_digit (z / 4096 mod 16)) (hex_digit (z / 256 mod 16)) (hex_digit (z / 16 mod 16))
    (hex_digit (z mod 16)) = Some z.
Proof.
  intros Hz. unfold hex4. rewrite !hex_val_digit by zdiv. cbn. f_equal. zdiv.
Qed.

Lemma prepend_app a b r : prepend a (prepend b r) = prepend (a +:+ b) r.
Proof. destruct r as [[u r]|]; cbn; [|done]. by rewrite string_app_assoc. Qed.

Lemma literal_u z t :
  (0 ≤ z < 65536)%Z → high_surrogate z = false →
  literal (u_escape z +:+ t) = prepend (encode_rune z) (literal t).
Proof.
  intros Hz Hs. unfold u_escape. rewrite !string_app_cons. change ("" +:+ t) with t.
  cbn [literal]. rewrite hex4_digits by done.
  change (Ascii.eqb backslash quote_byte) with false.
  change (Ascii.eqb backslash backslash) with true. change (Ascii.eqb "u" "u") with true.
  cbn [mbind option_bind]. unfold low_half. rewrite Hs.
  destruct t as [|? [|? [|? [|? [|? [|? ?]]]]]]; done.
Qed.

Lemma literal_plain a t :
  a ≠ quote_byte → a ≠ backslash → (32 ≤ code a)%Z →
  literal (String a t) = prepend (String a "") (literal t).
Proof.
  intros H1 H2 H3. cbn [literal].
  destruct (Ascii.eqb_spec a quote_byte); [done|]. destruct (Ascii.eqb_spec a backslash); [done|].
  replace (code a <? 32)%Z with false by lia. done.
Qed.

Lemma code_inj a b : code a = code b → a = b.
Proof. intros H. rewrite <- (byte_of_code a), <- (byte_of_code b). by rewrite H. Qed.

Lemma literal_high a t : (128 ≤ code a)%Z → literal (String a t) = prepend (String a "") (literal t).
Proof.
  intros Ha. apply literal_plain; [| |lia];
    intros ->; by vm_compute in Ha.
Qed.

Lemma literal_rune r t :
  valid_rune r → (32 ≤ r)%Z → r ≠ 34%Z → r ≠ 92%Z →
  literal (encode_rune r +:+ t) = prepend (encode_rune r) (literal t).
Proof.
  intros Hr H32 Hq Hb. rewrite encode_rune_valid by done. unfold valid_rune in Hr.
  destruct (r <? 128)%Z eqn:H1; [|destruct (r <? 2048)%Z eqn:H2; [|destruct (r <? 65536)%Z eqn:H3]];
    rewrite !string_app_cons; change ("" +:+ t) with t.
  - apply literal_plain.
    + intros He. apply (f_equal code) in He. rewrite code_byte_of in He by lia. by vm_compute in He.
    + intros He. apply (f_equal code) in He. rewrite code_byte_of in He by lia. by vm_compute in He.
    + rewrite code_byte_of; lia.
  - rewrite !literal_high by (rewrite code_byte_of; zdiv). by rewrite !prepend_app.
  - rewrite !literal_high by (rewrite code_byte_of; zdiv). by rewrite !prepend_app.
  - rewrite !literal_high by (rewrite code_byte_of; zdiv). by rewrite !prepend_app.
Qed.

Lemma literal_quote_rune r t :
  (∀ z, r = Some z → valid_rune z) →
  literal (quote_rune r +:+ t) = prepend (encode_rune (default rune_error r)) (literal t).
Proof.
  intros Hv. destruct r as [z|]; [|by apply literal_u].
  assert (valid_rune z) as Hz by auto. clear Hv. unfold valid_rune in Hz. change (default rune_error (Some z)) with z.
  unfold quote_rune.
  repeat match goal with
  | |- context [(if (z =? ?k)%Z then esc _ else _)] =>
    destruct (Z.eqb_spec z k); [subst; by cbn|]
  end.
  destruct ((z <? 32) || (z =? 60) || (z =? 62) || (z =? 38))%Z eqn:Hc.
  - rewrite !orb_true_iff in Hc. apply literal_u; [lia|]. unfold high_surrogate. lia.
  - rewrite !orb_false_iff in Hc. destruct ((z =? 8232) || (z =? 8233))%Z eqn:Hl.
    + rewrite orb_true_iff in Hl. apply literal_u; [lia|]. unfold high_surrogate. lia.
    + apply literal_rune; [done|lia..].
Qed.

Lemma literal_quote_runes l t :
  (∀ z, Some z ∈ l → valid_rune z) →
  literal (quote_runes l +:+ String quote_byte t) =
  Some (encode_runes (default rune_error <$> l), t).
Proof.
  induction l as [|r l IH]; intros Hv; [done|].
  cbn [quote_runes]. rewrite <- string_app_assoc, literal_quote_rune, IH; [done|..].
  - intros z Hz. apply Hv. by right.
  - intros z ->. apply Hv. by left.
Qed.

Lemma string_value_quote s t :
  string_value (quote_runes (raw_runes s) +:+ String quote_byte t) = Some (json_str s, t).
Proof.
  unfold string_value. rewrite literal_quote_runes by (intros z; apply raw_runes_valid).
  cbn. rewrite <- runes_raw. fold (json_str s). by rewrite json_str_idemp.
Qed.

(** Text after which a number literal ends. *)
Definition num_stop (s : string) : bool :=
  match s with
  | "" => true
  | String a _ => negb (digit a || Ascii.eqb a "." || Ascii.eqb a "e" || Ascii.eqb a "E")
  end.

(** Literals that are read back, and are not mistaken for another value. *)
Definition num_ok (n : string) : Prop :=
  (∀ s, num_stop s = true → number (n +:+ s) = Some (n, s)) ∧
  match n with "" => False | String a _ => digit a || Ascii.eqb a "-" = true end.

Lemma digits_app d s :
  sforall digit d = true → num_stop s = true → digits (d +:+ s) = (d, s).
Proof.
  intros Hd Hs. induction d as [|a d IH].
  - destruct s as [|a s]; [done|]. change ("" +:+ String a s) with (String a s).
    cbn [num_stop digits] in *. by destruct (digit a).
  - cbn [sforall] in Hd. apply andb_true_iff in Hd as [Ha Hd].
    rewrite string_app_cons. cbn [digits]. by rewrite Ha, (IH Hd).
Qed.

Lemma no_frac_exp s : num_stop s = true → frac_part s = Some ("", s) ∧ exp_part s = Some ("", s).
Proof.
  destruct s as [|a s]; [done|]. cbn [num_stop]. intros Ha. apply negb_true_iff in Ha.
  rewrite !orb_false_iff in Ha. destruct Ha as (((_ & Hd) & He) & HE).
  cbn [frac_part exp_part]. by rewrite Hd, He, HE.
Qed.

Lemma unsigned_number_app d s :
  sforall digit d = true → d = "0" ∨ (∃ a d', d = String a d' ∧ a ≠ "0"%char) → num_stop s = true →
  unsigned_number (d +:+ s) = Some (d, s).
Proof.
  intros Hd Hz Hs. unfold unsigned_number.
  assert (int_part (d +:+ s) = Some (d, s)) as ->.
  { destruct Hz as [->|(a & d' & -> & Ha)]; [done|].
    pose proof (digits_app _ s Hd Hs) as He. rewrite string_app_cons in *.
    cbn [int_part]. destruct (Ascii.eqb_spec a "0"); [done|]. unfold digits1. by rewrite He. }
  cbn. destruct (no_frac_exp s Hs) as [Hf He]. rewrite Hf. cbn. rewrite He. cbn.
  by rewrite string_app_nil_r.
Qed.

Lemma nzhead_not_zero d d' : nzhead d ≠ D0 d'.
Proof. by induction d. Qed.

Lemma to_uint_head p d : Pos.to_uint p ≠ D0 d.
Proof.
  pose proof (DecimalPos.Unsigned.to_of (Pos.to_uint p)) as Hn.
  rewrite DecimalPos.Unsigned.of_to in Hn. cbn in Hn. intros He. rewrite He in Hn.
  unfold unorm in Hn. pose proof (nzhead_not_zero (D0 d)) as Hh.
  destruct (nzhead (D0 d)) eqn:Hz; try done; [|by eapply Hh].
  injection Hn as ->. apply (DecimalPos.Unsigned.to_uint_nonzero p). done.
Qed.

Lemma string_of_uint_digits d : sforall digit (NilEmpty.string_of_uint d) = true.
Proof. by induction d; cbn. Qed.

Lemma pos_text p :
  sforall digit (NilZero.string_of_uint (Pos.to_uint p)) = true ∧
  ∃ a d', NilZero.string_of_uint (Pos.to_uint p) = String a d' ∧ a ≠ "0"%char ∧ digit a = true.
Proof.
  pose proof (DecimalPos.Unsigned.to_uint_nonnil p) as Hn.
  rewrite nz_string_of_uint by done. split; [apply string_of_uint_digits|].
  pose proof (to_uint_head p) as Hh.
  destruct (Pos.to_uint p); try done; [by edestruct Hh|..]; by eexists _, _.
Qed.

Lemma num_ok_itoa z : num_ok (itoa z).
Proof.
  unfold itoa. destruct z as [|p|p]; cbn [Z.to_int NilZero.string_of_int].
  - split; [|done]. intros s Hs. apply (unsigned_number_app "0"); [done|by left|done].
  - destruct (pos_text p) as (Hd & a & d' & He & Ha & Hda). split; [|by rewrite He, Hda].
    intros s Hs. rewrite <- (unsigned_number_app _ s Hd) by (done || (right; eauto)).
    rewrite He, string_app_cons. cbn [number].
    by destruct (Ascii.eqb_spec a "-") as [->|].
  - destruct (pos_text p) as (Hd & a & d' & He & Ha & Hda). split; [|done].
    intros s Hs. rewrite string_app_cons. cbn [number].
    rewrite unsigned_number_app; [done..| |done]. right. eauto.
Qed.

(** What the reader gets of a value that was written: strings as UTF-8. *)
Fixpoint clean (j : json) : json :=
  match j with
  | JStr s => JStr (json_str s)
  | JArr l => JArr (clean <$> l)
  | JObj l => JObj ((λ kv, (json_str kv.1, clean kv.2)) <$> l)
  | _ => j
  end.

Fixpoint depth (j : json) : Z :=
  match j with
  | JArr l => 1 + foldr (λ x, Z.max (depth x)) 0 l
  | JObj l => 1 + foldr (λ kv, Z.max (depth kv.2)) 0 l
  | _ => 0
  end%Z.

Fixpoint json_ok (j : json) : Prop :=
  match j with
  | JNum n => num_ok n
  | JArr l => foldr (λ x P, json_ok x ∧ P) True l
  | JObj l => foldr (λ kv P, json_ok kv.2 ∧ P) True l
  | _ => True
  end.

Lemma skip_ws_head a s : json_space a = false → skip_ws (String a s) = String a s.
Proof. intros Ha. cbn [skip_ws]. by rewrite Ha. Qed.

Lemma digit_head a :
  digit a || Ascii.eqb a "-" = true →
  json_space a = false ∧ Ascii.eqb a quote_byte = false ∧ Ascii.eqb a "{" = false ∧
  Ascii.eqb a "[" = false ∧ Ascii.eqb a "t" = false ∧ Ascii.eqb a "f" = false ∧
  Ascii.eqb a "n" = false ∧ Ascii.eqb a "]" = false ∧ Ascii.eqb a "}" = false.
Proof. destruct a as [[] [] [] [] [] [] [] []]; done. Qed.

(** The first byte of a value is neither white space nor a closing bracket. *)
Lemma marshal_head j :
  json_ok j → ∃ a t, marshal j = String a t ∧ json_space a = false ∧
    Ascii.eqb a "]" = false ∧ Ascii.eqb a "}" = false.
Proof.
  destruct j as [|b|n|s|l|l]; cbn [json_ok marshal]; intros Hj.
  - by eexists _, _.
  - by destruct b; eexists _, _.
  - destruct Hj as [_ Hj]. destruct n as [|a t]; [done|].
    destruct (digit_head a Hj) as (? & ? & ? & ? & ? & ? & ? & ? & ?). by exists a, t.
  - by eexists _, _.
  - by eexists _, _.
  - by eexists _, _.
Qed.

Lemma value_string f d s t :
  value (S f) d (quote s +:+ t) = Some (JStr (json_str s), t).
Proof.
  unfold quote. rewrite string_app_cons, <- string_app_assoc, string_app_cons.
  change ("" +:+ t) with t. cbn [value]. rewrite skip_ws_head by done.
  change (Ascii.eqb quote_byte quote_byte) with true. cbn iota.
  by rewrite string_value_quote.
Qed.

(** [j] is read back from its text, wherever the text occurs. *)
Definition read_back (j : json) : Prop := ∀ f d rest,
  2 * slen (marshal j) + 1 ≤ f → (d + depth j ≤ maxNestingDepth)%Z → num_stop rest = true →
  value f d (marshal j +:+ rest) = Some (clean j, rest).

Lemma elements_marshal l f d rest :
  l ≠ [] → Forall read_back l → 2 * slen (join "," (marshal <$> l)) + 2 ≤ f →
  (d + foldr (λ x, Z.max (depth x)) 0 l ≤ maxNestingDepth)%Z →
  elements f d (join "," (marshal <$> l) +:+ String "]" rest) = Some (clean <$> l, rest).
Proof.
  intros Hne Hl. revert f. induction Hl as [|j l Hj Hl IH]; [done|]. intros f Hf Hd. cbn [foldr] in Hd.
  destruct f as [|f]; [lia|]. destruct l as [|j' l].
  - cbn [fmap list_fmap join] in *. cbn [elements]. rewrite Hj by (done || lia). done.
  - change (join "," (marshal <$> j :: j' :: l)) with
      (marshal j +:+ "," +:+ join "," (marshal <$> j' :: l)) in *.
    rewrite <- !string_app_assoc. rewrite !slen_app in Hf. cbn [slen] in Hf.
    cbn [elements]. rewrite Hj by (done || lia). cbn [mbind option_bind].
    rewrite string_app_cons, skip_ws_head by done. change (Ascii.eqb "," ",") with true.
    cbn iota. change ("" +:+ ?t) with t. rewrite IH by (done || lia). done.
Qed.

Lemma members_marshal l f d rest :
  l ≠ [] → Forall (λ kv, read_back kv.2) l →
  2 * slen (join "," ((λ kv, quote kv.1 +:+ ":" +:+ marshal kv.2) <$> l)) + 2 ≤ f →
  (d + foldr (λ kv, Z.max (depth kv.2)) 0 l ≤ maxNestingDepth)%Z →
  members f d (join "," ((λ kv, quote kv.1 +:+ ":" +:+ marshal kv.2) <$> l) +:+ String "}" rest) =
  Some ((λ kv, (json_str kv.1, clean kv.2)) <$> l, rest).
Proof.
  set (text kv := quote kv.1 +:+ ":" +:+ marshal kv.2).
  assert (∀ f d k j t, 2 * slen (text (k, j)) + 1 ≤ f → read_back j →
    (d + depth j ≤ maxNestingDepth)%Z → num_stop t = true →
    members (S f) d (text (k, j) +:+ t) =
      match skip_ws t with
      | String b r =>
        if Ascii.eqb b "," then '(l, r) ← members f d r; Some ((json_str k, clean j) :: l, r)
        else if Ascii.eqb b "}" then Some ([(json_str k, clean j)], r) else None
      | "" => None
      end) as Hone.
  { clear. intros f d k j t Hf Hj Hd Ht. subst text. cbn beta iota delta [fst snd] in *.
    unfold quote in *. rewrite !string_app_cons, <- !string_app_assoc, !string_app_cons in *.
    change ("" +:+ ?t) with t. change ("" +:+ ?t) with t in Hf. cbn [members]. rewrite skip_ws_head by done.
    change (negb (Ascii.eqb quote_byte quote_byte)) with false. cbn iota.
    rewrite string_value_quote. cbn [mbind option_bind].
    change ("" +:+ ?t) with t. rewrite skip_ws_head by done. change (negb (Ascii.eqb ":" ":")) with false. cbn iota.
    change ("" +:+ marshal j) with (marshal j). rewrite Hj; [done| |done..].
    change ("" +:+ marshal j) with (marshal j) in Hf.
    simpl in Hf. rewrite slen_app in Hf. simpl in Hf. lia. }
  intros Hne Hl. revert f. induction Hl as [|[k j] l Hj Hl IH]; [done|]. intros f Hf Hd.
  cbn [foldr snd] in Hd, Hj. destruct f as [|f]; [lia|]. destruct l as [|kj l].
  - cbn [fmap list_fmap join] in *. rewrite Hone by (done || lia). done.
  - change (join "," (text <$> (k, j) :: kj :: l)) with
      (text (k, j) +:+ "," +:+ join "," (text <$> kj :: l)) in *.
    rewrite <- !string_app_assoc. rewrite !slen_app in Hf. cbn [slen] in Hf.
    rewrite Hone by (done || lia).
    rewrite string_app_cons, skip_ws_head by done. change (Ascii.eqb "," ",") with true.
    cbn iota. change ("" +:+ ?t) with t. rewrite IH by (done || lia). done.
Qed.

Lemma keyword_app w j t : keyword w j (w +:+ t) = Some (j, t).
Proof. unfold keyword. by rewrite has_prefix_app, sdrop_app. Qed.

Lemma json_ok_Forall {A} (f : A → json) (P : A → Prop) l :
  Forall (λ x, json_ok (f x) → P x) l → foldr (λ x Q, json_ok (f x) ∧ Q) True l → Forall P l.
Proof. induction 1; cbn; [done|]. intros []. constructor; auto. Qed.

(** A text that starts with neither white space nor [c]. *)
Definition starts_ok (c : ascii) (s : string) : Prop :=
  ∃ a t, s = String a t ∧ json_space a = false ∧ Ascii.eqb a c = false.

Lemma starts_ok_app c s t : starts_ok c s → starts_ok c (s +:+ t).
Proof. intros (a & s' & -> & ?). exists a, (s' +:+ t). by rewrite string_app_cons. Qed.

Lemma starts_ok_join c s l : starts_ok c s → starts_ok c (join "," (s :: l)).
Proof. intros Hs. destruct l; [done|]. by apply starts_ok_app. Qed.

(** An opening bracket, then something that is not the closing one. *)
Lemma value_open_list f d s l r :
  (d + 1 ≤ maxNestingDepth)%Z → starts_ok "]" s → elements f (d + 1) s = Some (l, r) →
  value (S f) d ("[" +:+ s) = Some (JArr l, r).
Proof.
  intros Hd (a & t & -> & Ha & Hb) He. rewrite string_app_cons. cbn [value].
  rewrite skip_ws_head by done.
  change (Ascii.eqb "[" quote_byte) with false. change (Ascii.eqb "[" "{") with false.
  change (Ascii.eqb "[" "[") with true. cbn iota.
  replace (maxNestingDepth <? d + 1)%Z with false by lia.
  change ("" +:+ ?t) with t. rewrite skip_ws_head, Hb by done. by rewrite He.
Qed.

Lemma value_open_obj f d s l r :
  (d + 1 ≤ maxNestingDepth)%Z → starts_ok "}" s → members f (d + 1) s = Some (l, r) →
  value (S f) d ("{" +:+ s) = Some (JObj l, r).
Proof.
  intros Hd (a & t & -> & Ha & Hb) He. rewrite string_app_cons. cbn [value].
  rewrite skip_ws_head by done.
  change (Ascii.eqb "{" quote_byte) with false. change (Ascii.eqb "{" "{") with true. cbn iota.
  replace (maxNestingDepth <? d + 1)%Z with false by lia.
  change ("" +:+ ?t) with t. rewrite skip_ws_head, Hb by done. by rewrite He.
Qed.

Lemma depth_list_nonneg {A} (f : A → Z) l : (0 ≤ foldr (λ x, Z.max (f x)) 0 l)%Z.
Proof. induction l; cbn; lia. Qed.

Lemma value_number f d n s :
  num_ok n → num_stop s = true → value (S f) d (n +:+ s) = Some (JNum n, s).
Proof.
  intros [Hn Hh] Hs. specialize (Hn s Hs). destruct n as [|a t]; [done|].
  destruct (digit_head a Hh) as (H1 & H2 & H3 & H4 & H5 & H6 & H7 & _).
  rewrite string_app_cons in *. cbn [value]. rewrite skip_ws_head by done.
  by rewrite H2, H3, H4, H5, H6, H7, Hn.
Qed.

Lemma read_back_list l :
  json_ok (JArr l) → Forall read_back l → read_back (JArr l).
Proof.
  intros Hok Hl f d rest Hf Hd Hr. cbn [depth] in Hd.
  pose proof (depth_list_nonneg depth l) as Hd0. destruct f as [|f]; [lia|].
  cbn [marshal] in *. rewrite <- !string_app_assoc.
  rewrite !slen_app in Hf. change (slen "[") with 1 in Hf. change (slen "]") with 1 in Hf.
  destruct l as [|j l].
  { cbn [fmap list_fmap join]. cbn [value]. rewrite string_app_cons. cbn [value skip_ws].
    change (json_space "[") with false. cbn iota.
    replace (maxNestingDepth <? d + 1)%Z with false by (cbn in Hd; lia). done. }
  apply value_open_list; [lia| |apply elements_marshal; [done|done|lia|lia]].
  destruct (marshal_head j) as (a & t & Ha & Hsp & Hb & _); [by destruct Hok|].
  apply starts_ok_app, starts_ok_join. by exists a, t.
Qed.

Lemma read_back_obj l :
  Forall (λ kv, read_back kv.2) l → read_back (JObj l).
Proof.
  intros Hl f d rest Hf Hd Hr. cbn [depth] in Hd.
  pose proof (depth_list_nonneg (λ kv : string * json, depth kv.2) l) as Hd0.
  destruct f as [|f]; [lia|]. cbn [marshal] in *. rewrite <- !string_app_assoc.
  rewrite !slen_app in Hf. change (slen "{") with 1 in Hf. change (slen "}") with 1 in Hf.
  destruct l as [|[k j] l].
  { cbn [fmap list_fmap join]. cbn [value]. rewrite string_app_cons. cbn [value skip_ws].
    change (json_space "{") with false. cbn iota.
    replace (maxNestingDepth <? d + 1)%Z with false by (cbn in Hd; lia). done. }
  apply value_open_obj; [lia| |apply members_marshal; [done|done|lia|lia]].
  apply starts_ok_app, starts_ok_join, starts_ok_app. by eexists _, _.
Qed.

(** Encoding and decoding compose: whatever text follows, the decoder reads
    the text of a value back as the value with its strings made valid UTF-8. *)
Theorem marshal_read_back j : json_ok j → read_back j.
Proof.
  induction j as [|b|n|s|l IH|l IH] using json_nested_ind; intros Hok.
  - intros [|f] d rest; [lia|]. intros _ _ _. apply (keyword_app "null").
  - intros [|f] d rest; [lia|]. intros _ _ _.
    destruct b; [apply (keyword_app "true")|apply (keyword_app "false")].
  - intros [|f] d rest; [lia|]. intros _ _ Hr. by apply value_number.
  - intros [|f] d rest; [lia|]. intros _ _ _. apply value_string.
  - apply read_back_list; [done|]. by apply (json_ok_Forall id).
  - apply read_back_obj. by apply (json_ok_Forall snd).
Qed.

Lemma unmarshal_marshal j :
  json_ok j → (depth j ≤ maxNestingDepth)%Z → unmarshal (marshal j) = Some (clean j).
Proof.
  intros Hok Hd. unfold unmarshal. rewrite <- (string_app_nil_r (marshal j)) at 2.
  rewrite (marshal_read_back j Hok); [done|unfold text_fuel; lia|lia|done].
Qed.

(** The same with the line break of [json.Encoder]. *)
Lemma unmarshal_encoded j :
  json_ok j → (depth j ≤ maxNestingDepth)%Z → unmarshal (marshal j +:+ String "010" "") = Some (clean j).
Proof.
  intros Hok Hd. unfold unmarshal. rewrite (marshal_read_back j Hok); [done| |lia|done].
  unfold text_fuel. rewrite slen_app. lia.
Qed.

Lemma decode_first_marshal j t :
  json_ok j → (depth j ≤ maxNestingDepth)%Z → num_stop t = true →
  decode_first (marshal j +:+ t) = Some (clean j).
Proof.
  intros Hok Hd Ht. unfold decode_first.
  rewrite (marshal_read_back j Hok); [done| |lia|done].
  unfold text_fuel. rewrite slen_app. lia.
Qed.

(** ** Termination of the scanner

    Every part of the scanner consumes text, so that the fuel given by
    [text_fuel] is never used up. *)
Lemma skip_ws_le s : slen (skip_ws s) ≤ slen s.
Proof. induction s as [|a s IH]; cbn [skip_ws]; [done|]. destruct (json_space a); simpl in *; lia. Qed.

Lemma literal_lt s t r : literal s = Some (t, r) → slen r < slen s.
Proof.
  revert t r. induction s as [s IH] using string_len_ind. intros t r Hs.
  destruct s as [|a s1]; [done|].
  assert (∀ s' x, slen s' < slen (String a s1) →
    prepend x (literal s') = Some (t, r) → slen r < slen (String a s1)) as Hrec.
  { intros s' x Hlt Hp. destruct (literal s') as [[t' r']|] eqn:Hl; [|done]. cbn in Hp.
    simplify_eq. apply IH in Hl; lia. }
  cbn [literal] in Hs. destruct (Ascii.eqb a quote_byte); [simplify_eq; simpl; lia|].
  destruct (Ascii.eqb a backslash).
  - destruct s1 as [|b s2]; [done|]. destruct (Ascii.eqb b "u").
    + destruct s2 as [|h1 [|h2 [|h3 [|h4 s6]]]]; try done.
      destruct (hex4 h1 h2 h3 h4) as [z|]; [|done]. cbn [mbind option_bind] in Hs.
      destruct s6 as [|e [|u [|k1 [|k2 [|k3 [|k4 s12]]]]]];
        try (eapply Hrec; [|exact Hs]; simpl; lia).
      destruct (low_half z e u k1 k2 k3 k4); (eapply Hrec; [|exact Hs]; simpl; lia).
    + destruct (simple_escape b); [|done]. eapply Hrec; [|exact Hs]. simpl; lia.
  - destruct (code a <? 32)%Z; [done|]. eapply Hrec; [|exact Hs]. simpl; lia.
Qed.

Lemma string_value_lt s t r : string_value s = Some (t, r) → slen r < slen s.
Proof.
  unfold string_value. destruct (literal s) as [[t' r']|] eqn:Hl; [|done]. cbn.
  intros ?; simplify_eq. by apply literal_lt in Hl.
Qed.

Lemma digits_split s d r : digits s = (d, r) → s = d +:+ r.
Proof.
  revert d. induction s as [|a s IH]; intros d; cbn [digits]; [by intros [= <- <-]|].
  destruct (digit a); [|by intros [= <- <-]].
  destruct (digits s) as [d' r'] eqn:Hd. intros [= <- <-].
  rewrite string_app_cons. f_equal. by apply IH.
Qed.

Lemma digits1_split s d r : digits1 s = Some (d, r) → s = d +:+ r ∧ slen r < slen s.
Proof.
  unfold digits1. destruct (digits s) as [d' r'] eqn:Hd. apply digits_split in Hd.
  destruct (String.eqb_spec d' ""); [done|]. intros [= <- <-]. split; [done|].
  subst s. rewrite slen_app. destruct d'; simpl; [done|lia].
Qed.

Lemma int_part_lt s d r : int_part s = Some (d, r) → slen r < slen s.
Proof.
  destruct s as [|a s]; [done|]. cbn [int_part].
  destruct (Ascii.eqb a "0"); [intros [= <- <-]; simpl; lia|]. by intros [_ ?]%digits1_split.
Qed.

Lemma frac_part_le s d r : frac_part s = Some (d, r) → slen r ≤ slen s.
Proof.
  destruct s as [|a s]; cbn [frac_part]; [by intros [= <- <-]|].
  destruct (Ascii.eqb a "."); [|by intros [= <- <-]].
  destruct (digits1 s) as [[d' r']|] eqn:Hd; [|done]. intros [= <- <-].
  apply digits1_split in Hd as [_ ?]. simpl. lia.
Qed.

Lemma exp_part_le s d r : exp_part s = Some (d, r) → slen r ≤ slen s.
Proof.
  destruct s as [|e s]; cbn [exp_part]; [by intros [= <- <-]|].
  destruct (_ || _); [|by intros [= <- <-]]. destruct s as [|g s]; [done|].
  assert (∀ s' x, slen s' ≤ S (slen s) →
    ('(d, r) ← digits1 s'; Some (x d, r)) = Some (d, r) → slen r ≤ slen (String e (String g s))) as H1.
  { intros s' x Hle Hx. destruct (digits1 s') as [[d' r']|] eqn:Hd; [|done]. cbn in Hx. simplify_eq.
    apply digits1_split in Hd as [_ ?]. simpl. lia. }
  destruct (_ || _); [apply (H1 _ (λ d, String e (String g d)))|apply (H1 _ (λ d, String e d))]; simpl; lia.
Qed.

Lemma number_lt s n r : number s = Some (n, r) → slen r < slen s.
Proof.
  assert (∀ s n r, unsigned_number s = Some (n, r) → slen r < slen s) as Hu.
  { clear. intros s n r. unfold unsigned_number.
    destruct (int_part s) as [[i r1]|] eqn:Hi; [|done]. cbn.
    destruct (frac_part r1) as [[f r2]|] eqn:Hf; [|done]. cbn.
    destruct (exp_part r2) as [[e r3]|] eqn:He; [|done]. cbn. intros [= _ <-].
    apply int_part_lt in Hi. apply frac_part_le in Hf. apply exp_part_le in He. lia. }
  destruct s as [|a s]; [done|]. cbn [number]. destruct (Ascii.eqb a "-"); [|apply Hu].
  destruct (unsigned_number s) as [[n' r']|] eqn:Hn; [|done]. intros [= <- <-].
  apply Hu in Hn. simpl. lia.
Qed.

Ltac bind_inv H :=
  lazymatch type of H with
  | (match ?m with _ => _ end) = Some _ => destruct m as [[? ?]|] eqn:?; [cbn beta iota in H|done]
  | (?m ≫= _) = Some _ => destruct m as [[? ?]|] eqn:?; [cbn [mbind option_bind] in H|done]
  end.

Lemma skip_ws_cons s a t : skip_ws s = String a t → slen t < slen s.
Proof. intros Hs. pose proof (skip_ws_le s) as Hl. rewrite Hs in Hl. simpl in Hl. lia. Qed.

Lemma keyword_lt w j s j' r : w ≠ "" → keyword w j s = Some (j', r) → slen r < slen s.
Proof.
  intros Hw. unfold keyword. destruct (has_prefix s w) eqn:Hp; [|done]. intros [= _ <-].
  apply has_prefix_inv in Hp. rewrite Hp at 2. rewrite slen_app. destruct w; [done|simpl; lia].
Qed.

Lemma scanner_consumes f :
  (∀ d s j r, value f d s = Some (j, r) → slen r < slen s) ∧
  (∀ d s l r, elements f d s = Some (l, r) → slen r < slen s) ∧
  (∀ d s l r, members f d s = Some (l, r) → slen r < slen s).
Proof.
  induction f as [|f (IHv & IHe & IHm)]; [done|]. split_and!; intros d s x r H.
  - cbn [value] in H. destruct (skip_ws s) as [|a s1] eqn:Hs; [done|]. pose proof (skip_ws_cons _ _ _ Hs).
    pose proof (skip_ws_le s) as Hle. rewrite Hs in Hle.
    destruct (Ascii.eqb a quote_byte).
    { bind_inv H. simplify_eq. apply string_value_lt in Heqo. lia. }
    destruct (Ascii.eqb a "{").
    { destruct (_ <? _)%Z; [done|]. destruct (skip_ws s1) as [|b s2] eqn:Hs1; [done|].
      pose proof (skip_ws_cons _ _ _ Hs1). pose proof (skip_ws_le s1) as Hle1. rewrite Hs1 in Hle1.
      destruct (Ascii.eqb b "}"); [simplify_eq; lia|].
      bind_inv H. simplify_eq. apply IHm in Heqo. lia. }
    destruct (Ascii.eqb a "[").
    { destruct (_ <? _)%Z; [done|]. destruct (skip_ws s1) as [|b s2] eqn:Hs1; [done|].
      pose proof (skip_ws_cons _ _ _ Hs1). pose proof (skip_ws_le s1) as Hle1. rewrite Hs1 in Hle1.
      destruct (Ascii.eqb b "]"); [simplify_eq; lia|].
      bind_inv H. simplify_eq. apply IHe in Heqo. lia. }
    do 3 (destruct (Ascii.eqb a _); [apply keyword_lt in H; [lia|done]|]).
    bind_inv H. simplify_eq. apply number_lt in Heqo. lia.
  - cbn [elements] in H. bind_inv H. apply IHv in Heqo.
    destruct (skip_ws s0) as [|b s2] eqn:Hs; [done|]. pose proof (skip_ws_cons _ _ _ Hs).
    destruct (Ascii.eqb b ","); [bind_inv H; simplify_eq; apply IHe in Heqo0; lia|].
    destruct (Ascii.eqb b "]"); [simplify_eq; lia|done].
  - cbn [members] in H. destruct (skip_ws s) as [|q s1] eqn:Hs; [done|]. pose proof (skip_ws_cons _ _ _ Hs).
    destruct (negb _); [done|]. bind_inv H. apply string_value_lt in Heqo.
    destruct (skip_ws s2) as [|c s3] eqn:Hs2; [done|]. pose proof (skip_ws_cons _ _ _ Hs2).
    destruct (negb _); [done|]. bind_inv H. apply IHv in Heqo0.
    destruct (skip_ws s4) as [|b s5] eqn:Hs4; [done|]. pose proof (skip_ws_cons _ _ _ Hs4).
    destruct (Ascii.eqb b ","); [bind_inv H; simplify_eq; apply IHm in Heqo1; lia|].
    destruct (Ascii.eqb b "}"); [simplify_eq; lia|done].
Qed.

Lemma scanner_fuel_S f :
  (∀ d s, 2 * slen s + 1 ≤ f → value (S f) d s = value f d s) ∧
  (∀ d s, 2 * slen s + 2 ≤ f → elements (S f) d s = elements f d s) ∧
  (∀ d s, 2 * slen s + 2 ≤ f → members (S f) d s = members f d s).
Proof.
  induction f as [|f (IHv & IHe & IHm)]; [split_and!; intros; lia|].
  pose proof (scanner_consumes f) as (Cv & _ & _). split_and!; intros d s Hf.
  - remember (S f) as g eqn:Hg. cbn [value].
    replace (value g d s) with (value (S f) d s) by by subst g. cbn [value].
    destruct (skip_ws s) as [|a s1] eqn:Hs; [done|]. pose proof (skip_ws_cons _ _ _ Hs).
    destruct (Ascii.eqb a quote_byte); [done|].
    destruct (Ascii.eqb a "{"); [|destruct (Ascii.eqb a "["); [|done]];
      (destruct (_ <? _)%Z; [done|]; pose proof (skip_ws_le s1) as Hle;
       destruct (skip_ws s1) as [|b s2]; [done|]; subst g).
    + destruct (Ascii.eqb b "}"); [done|]. by rewrite IHm by lia.
    + destruct (Ascii.eqb b "]"); [done|]. by rewrite IHe by lia.
  - remember (S f) as g eqn:Hg. cbn [elements].
    replace (elements g d s) with (elements (S f) d s) by by subst g. cbn [elements]. subst g.
    rewrite IHv by lia. destruct (value f d s) as [[j r]|] eqn:Hv; [|done]. cbn [mbind option_bind].
    apply Cv in Hv. destruct (skip_ws r) as [|b s2] eqn:Hs; [done|]. pose proof (skip_ws_cons _ _ _ Hs).
    destruct (Ascii.eqb b ","); [|done]. by rewrite IHe by lia.
  - remember (S f) as g eqn:Hg. cbn [members].
    replace (members g d s) with (members (S f) d s) by by subst g. cbn [members]. subst g.
    destruct (skip_ws s) as [|q s1] eqn:Hs; [done|]. pose proof (skip_ws_cons _ _ _ Hs).
    destruct (negb _); [done|]. destruct (string_value s1) as [[k r]|] eqn:Hk; [|done]. cbn [mbind option_bind].
    apply string_value_lt in Hk.
    destruct (skip_ws r) as [|c s3] eqn:Hs2; [done|]. pose proof (skip_ws_cons _ _ _ Hs2).
    destruct (negb _); [done|]. rewrite IHv by lia.
    destruct (value f d s3) as [[j r']|] eqn:Hv; [|done]. cbn [mbind option_bind]. apply Cv in Hv.
    destruct (skip_ws r') as [|b s5] eqn:Hs4; [done|]. pose proof (skip_ws_cons _ _ _ Hs4).
    destruct (Ascii.eqb b ","); [|done]. by rewrite IHm by lia.
Qed.

(** More fuel than [text_fuel] gives never changes the answer. *)
Lemma value_fuel f d s : text_fuel s ≤ f → value f d s = value (text_fuel s) d s.
Proof.
  induction 1 as [|f Hf IH]; [done|]. rewrite <- IH.
  apply (scanner_fuel_S f). unfold text_fuel in Hf. lia.
Qed.
