(* ===== verification/Floats.v ===== *)
(** * Binary floating point: [float64], [strconv.ParseFloat], [FormatFloat]

    A finite [float64] is a sign, a significand and an exponent of two; every
    operation is the exact rational result rounded once, to nearest with ties
    to even.  [ParseFloat] reads the decimal and hexadecimal literals of Go;
    [json_float] is how [encoding/json] prints a number that it holds as a
    [float64]: the fewest digits that read back as the same number. *)

From S2P Require Import Prelude GoStrings Encoding Json.
From Stdlib Require Import Ascii String Decimal DecimalString DecimalZ.
From stdpp Require Import strings.
Set Default Goal Selector "!".
Open Scope stdpp_scope.

Module Floats.
Local Open Scope Z_scope.

(** [Fin neg m e] is [m * 2 ^ e], negative or not. *)
Inductive float64 :=
| Fin (neg : bool) (m e : Z)
| Inf (neg : bool)
| NaN.

#[export] Instance float64_eq_dec : EqDecision float64.
Proof. solve_decision. Defined.

(** ** Rounding *)

(** The integer nearest to [a / b], the even one of two. *)
Definition nearest (a b : Z) : Z :=
  let q := a / b in
  let r := a mod b in
  if 2 * r <? b then q else if b <? 2 * r then q + 1 else q + q mod 2.

(** [p / q] in units of [2 ^ e]. *)
Definition in_units (p q e : Z) : Z * Z :=
  if e <? 0 then (p * 2 ^ (- e), q) else (p, q * 2 ^ e).

(** The exponent of [p / q] with a significand of 53 bits, no less than that
    of the subnormal numbers. *)
Definition exponent (p q : Z) : Z :=
  let e := Z.log2 p - Z.log2 q - 52 in
  let '(a, b) := in_units p q e in
  Z.max (-1074) (if a <? 2 ^ 52 * b then e - 1 else e).

(** The [float64] nearest to [p / q], for [0 <= p] and [0 < q]. *)
Definition round64 (neg : bool) (p q : Z) : float64 :=
  if p =? 0 then Fin neg 0 0 else
  let e := exponent p q in
  let '(a, b) := in_units p q e in
  let m := nearest a b in
  let '(m, e) := if m =? 2 ^ 53 then (2 ^ 52, e + 1) else (m, e) in
  if m =? 0 then Fin neg 0 0 else if 971 <? e then Inf neg else Fin neg m e.

(** [f * float64(n)] for a positive integer [n] of at most 53 bits. *)
Definition scale (f : float64) (n : Z) : float64 :=
  match f with
  | Fin neg m e => if e <? 0 then round64 neg (m * n) (2 ^ (- e)) else round64 neg (m * n * 2 ^ e) 1
  | _ => f
  end.

(** [int64(f)]: the integer towards zero; out of range the result depends on
    the implementation, and is the least integer on amd64. *)
Definition to_int64 (f : float64) : Z :=
  match f with
  | Fin neg m e =>
    let z := if e <? 0 then m / 2 ^ (- e) else m * 2 ^ e in
    int64_of_f64 (if neg then - z else z)
  | _ => - two63
  end.

(** ** [strconv.ParseFloat] *)
Definition dec_val (a : ascii) : option Z :=
  let z := code a in if (48 <=? z) && (z <=? 57) then Some (z - 48) else None.

Definition digit_val (hex : bool) (a : ascii) : option Z := if hex then hex_val a else dec_val a.

(** The digits of a significand with at most one point among them: its value
    without the point, the number of digits after it, whether there is any
    digit, and the rest. *)
Fixpoint scan (hex dot : bool) (v frac : Z) (any : bool) (s : string) : Z * Z * bool * string :=
  match s with
  | "" => (v, frac, any, s)
  | String a s' =>
    if Ascii.eqb a "_" then scan hex dot v frac any s'
    else if Ascii.eqb a "." then
      if dot then (v, frac, any, s) else scan hex true v frac any s'
    else match digit_val hex a with
         | Some d => scan hex dot (v * (if hex then 16 else 10) + d)%Z (if dot then frac + 1 else frac)%Z true s'
         | None => (v, frac, any, s)
         end
  end%string.

(** The digits of an exponent, which stops growing at five of them. *)
Fixpoint scan_exp (v : Z) (s : string) : Z * string :=
  match s with
  | "" => (v, s)
  | String a s' =>
    if Ascii.eqb a "_" then scan_exp v s'
    else match dec_val a with
         | Some d => scan_exp (if v <? 10000 then v * 10 + d else v)%Z s'
         | None => (v, s)
         end
  end%string.

(** The optional exponent; [None]: a letter without digits after it, or a
    hexadecimal number without exponent. *)
Definition exp_of (hex : bool) (s : string) : option (Z * string) :=
  let none := if hex then None else Some (0, s) in
  match s with
  | "" => none
  | String a s' =>
    if Ascii.eqb (lower_byte a) (if hex then "p" else "e") then
      let '(neg, t) := match s' with
                       | "" => (false, s')
                       | String b t => if Ascii.eqb b "+" then (false, t)
                                       else if Ascii.eqb b "-" then (true, t) else (false, s')
                       end in
      match t with
      | "" => None
      | String b _ => match dec_val b with
                      | Some _ => let '(v, rest) := scan_exp 0 t in
                                  Some ((if neg then - v else v)%Z, rest)
                      | None => None
                      end
      end
    else none
  end%string.

(** [underscoreOK]: underscores stand between digits; a base prefix counts as
    one.  [saw] is the class of the last byte: [0] a digit, [_] an underscore,
    [!] anything else. *)
Fixpoint underscores_ok (hex : bool) (saw : ascii) (s : string) : bool :=
  match s with
  | "" => negb (Ascii.eqb saw "_")
  | String a s' =>
    match digit_val hex a with
    | Some _ => underscores_ok hex "0" s'
    | None => if Ascii.eqb a "_" then Ascii.eqb saw "0" && underscores_ok hex "_" s'
              else negb (Ascii.eqb saw "_") && underscores_ok hex "!" s'
    end
  end%string.

Definition hex_prefix (s : string) : bool :=
  match s with
  | String a (String b (String _ _)) => Ascii.eqb a "0" && Ascii.eqb (lower_byte b) "x"
  | _ => false
  end.

(** A number without its sign: [v * base ^ (- frac) * (2 or 10) ^ exp]. *)
Definition read_number (neg : bool) (s : string) : option float64 :=
  let hex := hex_prefix s in
  let body := if hex then sdrop 2 s else s in
  let '(v, frac, any, rest) := scan hex false 0 0 false body in
  if negb any then None else
  '(exp, rest) ← exp_of hex rest;
  if negb (String.eqb rest "") then None else
  if negb (lacks "_" s || underscores_ok hex (if hex then "0" else "^") body) then None else
  let e := if hex then exp - 4 * frac else exp - frac in
  let base := if hex then 2 else 10 in
  Some (if e <? 0 then round64 neg v (base ^ (- e)) else round64 neg (v * base ^ e) 1).

Definition sign (s : string) : bool * string :=
  match s with
  | String a s' => if Ascii.eqb a "-" then (true, s') else if Ascii.eqb a "+" then (false, s') else (false, s)
  | "" => (false, s)
  end%string.

Definition special (s : string) : option float64 :=
  let '(neg, t) := sign s in
  let t := smap lower_byte t in
  if String.eqb t "inf" || String.eqb t "infinity" then Some (Inf neg)
  else if String.eqb (smap lower_byte s) "nan" then Some NaN else None.

(** The number and whether the error is nil: a text that is no number gives
    zero, a number out of range an infinity. *)
Definition ParseFloat (s : string) : float64 * bool :=
  match special s with
  | Some f => (f, true)
  | None =>
    let '(neg, t) := sign s in
    match read_number neg t with
    | Some f => (f, match f with Inf _ => false | _ => true end)
    | None => (Fin false 0 0, false)
    end
  end.

(** ** [encoding/json] on a [float64] *)

(** [p / q] and the power of ten that it reaches: [10 ^ x <= p / q < 10 ^ (x + 1)]. *)
Definition decimal_exponent (p q : Z) : Z :=
  if p <? q then - Z.of_nat (slen (itoa ((q + p - 1) / p - 1)))
  else Z.of_nat (slen (itoa (p / q))) - 1.

Definition decimal (d x : Z) : Z * Z := if x <? 0 then (d, 10 ^ (- x)) else (d * 10 ^ x, 1).

(** [p / q] in units of [10 ^ x]. *)
Definition in_tens (p q x : Z) : Z * Z := if x <? 0 then (p * 10 ^ (- x), q) else (p, q * 10 ^ x).

(** The [n]-digit decimals around [p / q] in units of [10 ^ x]; of those that
    read back as [f], the nearest one. *)
Definition candidate (f : float64) (p q x : Z) : option Z :=
  let '(a, b) := in_tens p q x in
  let ok d := bool_decide (round64 false (decimal d x).1 (decimal d x).2 = f) in
  let d := a / b in
  if ok d then if ok (d + 1) then Some (nearest a b) else Some d
  else if ok (d + 1) then Some (d + 1) else None.

(** With 17 digits there is always one, [Shortest.shortest_reads_back]. *)
Fixpoint shortest (fuel : nat) (f : float64) (p q x : Z) : Z * Z :=
  match fuel with
  | O => (0, 0)
  | S fuel => match candidate f p q x with
              | Some d => (d, x)
              | None => shortest fuel f p q (x - 1)
              end
  end.

(** Without the zeros at the end. *)
Fixpoint strip (fuel : nat) (d x : Z) : Z * Z :=
  match fuel with
  | O => (d, x)
  | S fuel => if d mod 10 =? 0 then strip fuel (d / 10) (x + 1) else (d, x)
  end.

(** [m * 2 ^ e] *)
Definition fraction (m e : Z) : Z * Z := if e <? 0 then (m, 2 ^ (- e)) else (m * 2 ^ e, 1).

Definition digits_of (m e : Z) : Z * Z :=
  let '(p, q) := fraction m e in
  let '(d, x) := shortest 17 (Fin false m e) p q (decimal_exponent p q) in
  strip 17 d x.

(** [%f]: all digits, with a point where there is a fraction. *)
Definition fixed (d x : Z) : string :=
  let t := itoa d in
  if 0 <=? x then t +:+ zeros (Z.to_nat x)
  else let n := Z.to_nat (- x) in
       let t := (zeros (S n - slen t) +:+ t)%string in
       (stake (slen t - n) t +:+ "." +:+ sdrop (slen t - n) t)%string.

(** [%e], with the exponent as JSON prints it. *)
Definition scientific (d x : Z) : string :=
  let t := itoa d in
  let e := x + Z.of_nat (slen t) - 1 in
  let frac := sdrop 1 t in
  (stake 1 t +:+ (if String.eqb frac "" then "" else "." +:+ frac) +:+ "e" +:+
   (if (e <? 0)%Z then "-" else "+") +:+ itoa (Z.abs e))%string.

Definition json_float (f : float64) : option string :=
  match f with
  | Fin neg m e =>
    Some ((if neg then "-" else "") +:+
          if (m =? 0)%Z then "0" else
          let '(d, x) := digits_of m e in
          let top := (x + Z.of_nat (slen (itoa d)))%Z in     (* abs f < 10 ^ top *)
          if ((top <? -5) || (21 <? top))%Z then scientific d x else fixed d x)%string
  | _ => None
  end.

(** A JSON number decoded into an empty interface and encoded again; [None]
    when it is out of range. *)
Definition float_text (lit : string) : option string :=
  let '(f, ok) := ParseFloat lit in if ok then json_float f else None.

(** ** Decimal texts *)

(** The value of the digits [s] after those of [v]. *)
Fixpoint dnum (v : Z) (s : string) : Z :=
  match s with "" => v | String a s' => dnum (v * 10 + (code a - 48))%Z s' end%string.

Lemma dec_val_digit a : digit a = true → dec_val a = Some (code a - 48) ∧ 0 <= code a - 48 <= 9.
Proof. destruct a as [[] [] [] [] [] [] [] []]; done. Qed.

Lemma dnum_app v s t : dnum v (s +:+ t)%string = dnum (dnum v s) t.
Proof. revert v. induction s as [|a s IH]; intros v; [done|]. rewrite string_app_cons. apply IH. Qed.

Lemma dnum_zeros v n : dnum v (zeros n) = v * 10 ^ Z.of_nat n.
Proof.
  revert v. induction n as [|n IH]; intros v; [cbn; lia|]. cbn [zeros dnum]. rewrite IH.
  rewrite Nat2Z.inj_succ, Z.pow_succ_r by lia. change (code "0" - 48) with 0. lia.
Qed.

Lemma dnum_lower v s :
  0 <= v → sforall digit s = true → v * 10 ^ Z.of_nat (slen s) <= dnum v s.
Proof.
  revert v. induction s as [|a s IH]; intros v Hv Hs; [cbn; lia|]. cbn [sforall] in Hs.
  apply andb_true_iff in Hs as [Ha Hs]. destruct (dec_val_digit a Ha) as [_ Hd].
  cbn [dnum String.length]. rewrite Nat2Z.inj_succ, Z.pow_succ_r by lia.
  etransitivity; [|apply IH; [lia|done]]. nia.
Qed.

Lemma dnum_uint_acc l acc : dnum (Z.pos acc) (NilEmpty.string_of_uint l) = Z.pos (Pos.of_uint_acc l acc).
Proof.
  revert acc. induction l; intros acc; [done|..];
    cbn [NilEmpty.string_of_uint dnum Pos.of_uint_acc]; rewrite <- IHl; f_equal;
    match goal with |- context [code ?a - 48] =>
      let v := eval vm_compute in (code a - 48) in change (code a - 48) with v end; lia.
Qed.

Lemma dnum_uint d : dnum 0 (NilEmpty.string_of_uint d) = Z.of_uint d.
Proof.
  induction d; [done|exact IHd|..]; exact (dnum_uint_acc d _).
Qed.

Lemma digits_uint s : sforall digit s = true → ∃ d, NilEmpty.string_of_uint d = s.
Proof.
  induction s as [|a s IH]; [by exists Nil|]. cbn [sforall]. intros [Ha Hs]%andb_true_iff.
  destruct (IH Hs) as [d <-].
  assert (∃ c : uint → uint, ∀ d, NilEmpty.string_of_uint (c d) = String a (NilEmpty.string_of_uint d)) as [c Hc]; [|by exists (c d)].
  clear -Ha. destruct a as [[] [] [] [] [] [] [] []]; try done;
    first [by exists D0|by exists D1|by exists D2|by exists D3|by exists D4|by exists D5|by exists D6|by exists D7|by exists D8|by exists D9].
Qed.

(** A text of digits that does not start with a zero is that of its value. *)
Lemma itoa_dnum a s :
  digit a = true → a ≠ "0"%char → sforall digit s = true → itoa (dnum 0 (String a s)) = String a s.
Proof.
  intros Ha Ha0 Hs. destruct (digits_uint (String a s)) as [d Hd].
  { cbn [sforall]. by rewrite Ha, Hs. }
  rewrite <- Hd, dnum_uint. unfold itoa.
  replace (Z.of_uint d) with (Z.of_int (Decimal.Pos d)) by done. rewrite DecimalZ.to_of.
  destruct d; cbn in Hd; simplify_eq; done.
Qed.

Lemma itoa_pos n : 0 < n → ∃ a s, itoa n = String a s ∧ digit a = true ∧ a ≠ "0"%char ∧ sforall digit s = true ∧ dnum 0 (itoa n) = n.
Proof.
  intros Hn. destruct n as [|p|p]; [lia| |lia].
  destruct (pos_text p) as (Hd & a & s & He & Ha & Hda). exists a, s.
  change (itoa (Z.pos p)) with (NilZero.string_of_uint (Pos.to_uint p)).
  rewrite He in Hd |- *. cbn [sforall] in Hd. apply andb_true_iff in Hd as [_ Hs].
  split_and!; [done..|]. apply (inj itoa). rewrite itoa_dnum by done. by rewrite <- He.
Qed.

(** ** Integers below [2 ^ 53] *)
Lemma exponent_int n : 0 < n < 2 ^ 53 → exponent n 1 = Z.log2 n - 52.
Proof.
  intros Hn. destruct (Z.log2_spec n) as [Hlo _]; [lia|].
  assert (Z.log2 n < 53) by (apply Z.log2_lt_pow2; lia). pose proof (Z.log2_nonneg n).
  unfold exponent, in_units. change (Z.log2 1) with 0. rewrite Z.sub_0_r.
  destruct (Z.ltb_spec (Z.log2 n - 52) 0) as [He|He].
  - assert (2 ^ 52 <= n * 2 ^ (- (Z.log2 n - 52))).
    { replace (2 ^ 52) with (2 ^ Z.log2 n * 2 ^ (- (Z.log2 n - 52))) by (rewrite <- Z.pow_add_r by lia; f_equal; lia).
      apply Z.mul_le_mono_nonneg_r; lia. }
    destruct (Z.ltb_spec (n * 2 ^ (- (Z.log2 n - 52))) (2 ^ 52 * 1)); lia.
  - replace (Z.log2 n) with 52 in * by lia. cbn [Z.sub]. change (2 ^ (52 - 52)) with 1.
    destruct (Z.ltb_spec n (2 ^ 52 * (1 * 1))); lia.
Qed.

Lemma nearest_1 a : nearest a 1 = a.
Proof. unfold nearest. by rewrite Z.div_1_r, Z.mod_1_r. Qed.

(** The unit is no more than one, and the number a multiple of it. *)
Lemma round64_int neg n :
  0 < n < 2 ^ 53 → round64 neg n 1 = Fin neg (n * 2 ^ (52 - Z.log2 n)) (Z.log2 n - 52) ∧ Z.log2 n <= 52.
Proof.
  intros Hn. destruct (Z.log2_spec n) as [Hlo Hhi]; [lia|].
  assert (Z.log2 n < 53) by (apply Z.log2_lt_pow2; lia). pose proof (Z.log2_nonneg n).
  split; [|lia]. unfold round64. rewrite exponent_int by done.
  replace (n =? 0) with false by lia.
  assert (in_units n 1 (Z.log2 n - 52) = (n * 2 ^ (52 - Z.log2 n), 1)) as ->.
  { unfold in_units. destruct (Z.ltb_spec (Z.log2 n - 52) 0); [do 2 f_equal; f_equal; lia|].
    replace (Z.log2 n) with 52 by lia. change (2 ^ (52 - 52)) with 1. f_equal; lia. }
  rewrite nearest_1. pose proof (Z.pow_pos_nonneg 2 (52 - Z.log2 n)).
  assert (n * 2 ^ (52 - Z.log2 n) < 2 ^ 53).
  { replace (2 ^ 53) with (2 ^ Z.succ (Z.log2 n) * 2 ^ (52 - Z.log2 n)) by (rewrite <- Z.pow_add_r by lia; f_equal; lia).
    apply Z.mul_lt_mono_pos_r; lia. }
  replace (n * 2 ^ (52 - Z.log2 n) =? 2 ^ 53) with false by lia.
  replace (n * 2 ^ (52 - Z.log2 n) =? 0) with false by nia.
  by replace (971 <? Z.log2 n - 52) with false by lia.
Qed.

Lemma round64_inj neg a b :
  0 < a < 2 ^ 53 → 0 < b < 2 ^ 53 → round64 neg a 1 = round64 neg b 1 → a = b.
Proof.
  intros Ha Hb. destruct (round64_int neg a Ha) as [-> ?]. destruct (round64_int neg b Hb) as [-> ?].
  intros [= Hm He]. replace (Z.log2 b) with (Z.log2 a) in Hm by lia.
  pose proof (Z.pow_pos_nonneg 2 (52 - Z.log2 a)). nia.
Qed.

(** ** Reading integers *)
Lemma scan_digits s rest dot v frac any :
  sforall digit s = true →
  scan false dot v frac any (s +:+ rest)%string =
  scan false dot (dnum v s) (if dot then frac + Z.of_nat (slen s) else frac)
    (any || negb (String.eqb s "")) rest.
Proof.
  revert v frac any. induction s as [|a s IH]; intros v frac any Hs.
  { cbn. rewrite orb_false_r. by destruct dot; rewrite ?Z.add_0_r. }
  cbn [sforall] in Hs. apply andb_true_iff in Hs as [Ha Hs].
  destruct (dec_val_digit a Ha) as [Hv _]. rewrite string_app_cons. cbn [scan digit_val dnum]. rewrite Hv.
  assert (Ascii.eqb a "_" = false ∧ Ascii.eqb a "." = false) as [-> ->]
    by (clear -Ha; destruct a as [[] [] [] [] [] [] [] []]; done).
  rewrite IH by done. rewrite orb_true_r. cbn [String.length]. rewrite Nat2Z.inj_succ.
  f_equal. destruct dot; lia.
Qed.

Lemma digits_lack c s : digit c = false → sforall digit s = true → lacks c s = true.
Proof.
  intros Hc. apply sforall_impl. intros a Ha. rewrite negb_true_iff, Ascii.eqb_neq. intros ->. congruence.
Qed.

Lemma digits_no_prefix s : sforall digit (stake 2 s) = true → hex_prefix s = false.
Proof.
  destruct s as [|a [|b [|c s]]]; try done. cbn [stake sforall hex_prefix].
  intros [_ [Hb _]%andb_true_iff]%andb_true_iff. apply andb_false_iff. right.
  clear -Hb. destruct b as [[] [] [] [] [] [] [] []]; done.
Qed.

Lemma stake_digits n s : sforall digit s = true → sforall digit (stake n s) = true.
Proof. rewrite <- (stake_sdrop n s) at 1. rewrite sforall_app. by intros [? _]%andb_true_iff. Qed.

Lemma read_digits neg s :
  s ≠ ""%string → sforall digit s = true → read_number neg s = Some (round64 neg (dnum 0 s) 1).
Proof.
  intros Hne Hs. unfold read_number. rewrite digits_no_prefix by by apply stake_digits.
  rewrite <- (string_app_nil_r s) at 1. rewrite scan_digits, digits_lack by done.
  destruct s as [|a s]; [done|]. cbn. by rewrite Z.mul_1_r.
Qed.

Lemma special_int z : special (itoa z) = None.
Proof.
  assert (∀ a s, digit a = true → special (String a s) = None ∧
    special (String "-" (String a s)) = None) as Hd.
  { intros a s Ha. destruct a as [[] [] [] [] [] [] [] []]; done. }
  destruct z as [|p|p]; [done|..]; destruct (pos_text p) as (_ & a & s & He & _ & Ha);
    unfold itoa; cbn [Z.to_int NilZero.string_of_int]; rewrite He; by apply Hd.
Qed.

Lemma itoa_neg n : 0 < n → itoa (- n) = String "-" (itoa n).
Proof. by destruct n. Qed.

Lemma ParseFloat_int z :
  0 < Z.abs z < 2 ^ 53 → ParseFloat (itoa z) = (round64 (z <? 0) (Z.abs z) 1, true).
Proof.
  intros Hz. unfold ParseFloat. rewrite special_int.
  destruct (itoa_pos (Z.abs z)) as (a & s & He & Ha & _ & Hs & Hv); [lia|].
  assert (sign (itoa z) = (z <? 0, itoa (Z.abs z))) as ->.
  { destruct (Z.ltb_spec z 0).
    - replace z with (- Z.abs z) at 1 by lia. by rewrite itoa_neg by lia.
    - replace z with (Z.abs z) at 1 by lia. rewrite He. unfold sign.
      clear -Ha. destruct a as [[] [] [] [] [] [] [] []]; done. }
  rewrite read_digits; [|by rewrite He|rewrite He; cbn [sforall]; by rewrite Ha].
  rewrite Hv. by destruct (round64_int (z <? 0) (Z.abs z) Hz) as [-> _].
Qed.

Lemma to_int64_int neg n :
  0 < n < 2 ^ 53 → to_int64 (round64 neg n 1) = if neg then - n else n.
Proof.
  intros Hn. destruct (round64_int neg n Hn) as [-> Hl]. unfold to_int64.
  assert ((if Z.log2 n - 52 <? 0 then n * 2 ^ (52 - Z.log2 n) / 2 ^ (- (Z.log2 n - 52))
           else n * 2 ^ (52 - Z.log2 n) * 2 ^ (Z.log2 n - 52)) = n) as ->.
  { destruct (Z.ltb_spec (Z.log2 n - 52) 0).
    - replace (- (Z.log2 n - 52)) with (52 - Z.log2 n) by lia. apply Z.div_mul. lia.
    - replace (Z.log2 n) with 52 by lia. change (2 ^ (52 - 52)) with 1. lia. }
  apply int64_of_f64_id. apply bool_decide_eq_true. unfold two63. destruct neg; lia.
Qed.

(** ** Printing integers *)
Lemma strip_pos fuel d x :
  0 < d → 0 <= x → (strip fuel d x).1 * 10 ^ (strip fuel d x).2 = d * 10 ^ x ∧
    0 < (strip fuel d x).1 ∧ 0 <= (strip fuel d x).2.
Proof.
  revert d x. induction fuel as [|fuel IH]; intros d x Hd Hx; cbn [strip]; [done|].
  destruct (Z.eqb_spec (d mod 10) 0) as [Hm|]; [|done].
  pose proof (Z.div_mod d 10 ltac:(lia)) as E.
  destruct (IH (d / 10) (x + 1)) as (-> & ? & ?); [lia|lia|]. split_and!; [|done..].
  rewrite Z.pow_add_r by lia. change (10 ^ 1) with 10. rewrite E at 2. rewrite Hm. ring.
Qed.

Lemma itoa_length n : 0 < n → 10 ^ (Z.of_nat (slen (itoa n)) - 1) <= n.
Proof.
  intros Hn. destruct (itoa_pos n Hn) as (a & s & He & Ha & Ha0 & Hs & Hv).
  rewrite He in Hv |- *. cbn [String.length dnum] in *. rewrite Nat2Z.inj_succ.
  replace (Z.succ _ - 1) with (Z.of_nat (slen s)) by lia.
  assert (1 <= code a - 48) by (clear -Ha Ha0; destruct a as [[] [] [] [] [] [] [] []]; done).
  pose proof (dnum_lower (0 * 10 + (code a - 48)) s ltac:(lia) Hs).
  pose proof (Z.pow_pos_nonneg 10 (Z.of_nat (slen s))). nia.
Qed.

Lemma zeros_digits n : sforall digit (zeros n) = true.
Proof. by induction n. Qed.

Lemma fixed_int d x : 0 < d → 0 <= x → fixed d x = itoa (d * 10 ^ x).
Proof.
  intros Hd Hx. destruct (itoa_pos d Hd) as (a & s & He & Ha & Ha0 & Hs & Hv).
  unfold fixed. replace (0 <=? x) with true by lia.
  rewrite He in Hv |- *. rewrite string_app_cons.
  rewrite <- itoa_dnum by (done || by rewrite sforall_app, Hs, zeros_digits).
  rewrite <- string_app_cons, dnum_app, Hv, dnum_zeros. f_equal. by rewrite Z2Nat.id.
Qed.

Lemma div_exact_bounds n u : 0 < u → u <= n → 0 < n / u ∧ n / u * u <= n < (n / u + 1) * u.
Proof.
  intros. split; [apply Z.div_str_pos; lia|].
  pose proof (Z.div_mod n u ltac:(lia)). pose proof (Z.mod_pos_bound n u). lia.
Qed.

(** The decimals that read back as an integer are that integer. *)
Lemma candidate_int n p q x d :
  0 < n < 10 ^ 15 → 0 <= x <= 15 → 10 ^ x <= n → 0 < q → p = n * q →
  candidate (round64 false n 1) p q x = Some d → 0 < d ∧ d * 10 ^ x = n.
Proof.
  intros Hn Hx Hxn Hq ->. unfold candidate, in_tens. replace (x <? 0) with false by lia.
  replace (n * q / (q * 10 ^ x)) with (n / 10 ^ x).
  2:{ rewrite Z.mul_comm, Z.div_mul_cancel_l; lia. }
  unfold decimal. replace (x <? 0) with false by lia. cbn [fst snd].
  destruct (div_exact_bounds n (10 ^ x)) as (Hd & Hlo & Hhi); [lia|done|].
  assert ((n / 10 ^ x + 1) * 10 ^ x <= 10 ^ 15).
  { assert (10 ^ 15 = 10 ^ (15 - x) * 10 ^ x) as E by (rewrite <- Z.pow_add_r by lia; f_equal; lia).
    rewrite E in Hn |- *. nia. }
  assert (∀ d, 0 < d → d * 10 ^ x <= 10 ^ 15 → round64 false (d * 10 ^ x) 1 = round64 false n 1 →
    d * 10 ^ x = n) as Hex.
  { intros d' ? ? Hr. apply round64_inj in Hr; lia. }
  case_bool_decide as H1; [apply Hex in H1; [|lia..]|]; (case_bool_decide as H2; [apply Hex in H2; [|lia..]|]);
    intros; simplify_eq; lia.
Qed.

Lemma candidate_last n p q :
  0 < n < 10 ^ 15 → 0 < q → p = n * q → candidate (round64 false n 1) p q 0 = Some n.
Proof.
  intros Hn Hq Hp. destruct (candidate (round64 false n 1) p q 0) as [d|] eqn:Hc.
  - apply (candidate_int n) in Hc; [|lia..|cbn; lia|done|done]. f_equal. cbn in Hc. lia.
  - exfalso. subst p. unfold candidate, in_tens in Hc. cbn -[round64 Z.mul Z.div Z.pow] in Hc.
    change (10 ^ 0) with 1 in Hc. rewrite !Z.mul_1_r, Z.div_mul in Hc by lia.
    rewrite bool_decide_true in Hc by done. by case_bool_decide.
Qed.

Lemma shortest_int fuel n p q x :
  0 < n < 10 ^ 15 → 0 <= x <= 15 → 10 ^ x <= n → 0 < q → p = n * q → x < Z.of_nat fuel →
  let r := shortest fuel (round64 false n 1) p q x in r.1 * 10 ^ r.2 = n ∧ 0 < r.1 ∧ 0 <= r.2.
Proof.
  intros Hn. revert x. induction fuel as [|fuel IH]; intros x Hx Hxn Hq Hp Hf; [lia|].
  cbn [shortest]. destruct (candidate _ _ _ _) as [d|] eqn:Hc.
  - apply (candidate_int n) in Hc; [cbn; lia|done..].
  - destruct (decide (x = 0)) as [->|]; [by rewrite candidate_last in Hc|].
    apply IH; [lia| |done|done|lia]. etransitivity; [|done]. apply Z.pow_le_mono_r; lia.
Qed.

Lemma decimal_exponent_int n q :
  0 < n → 0 < q → decimal_exponent (n * q) q = Z.of_nat (slen (itoa n)) - 1.
Proof.
  intros. unfold decimal_exponent. replace (n * q <? q) with false by nia. by rewrite Z.div_mul by lia.
Qed.

Lemma exponent_bound k n : 10 ^ k <= n → n < 10 ^ 15 → k < 15.
Proof. intros. apply (Z.pow_lt_mono_r_iff 10); lia. Qed.

Lemma itoa_nonzero_length n : 0 < Z.of_nat (slen (itoa n)).
Proof.
  unfold itoa. destruct n as [|p|p]; [cbn; lia| |cbn; lia].
  destruct (pos_text p) as (_ & a & s & He & _). cbn. rewrite He. cbn. lia.
Qed.

Lemma digits_of_int n m e :
  0 < n < 10 ^ 15 → round64 false n 1 = Fin false m e →
  let r := digits_of m e in r.1 * 10 ^ r.2 = n ∧ 0 < r.1 ∧ 0 <= r.2.
Proof.
  intros Hn Hr. pose proof (round64_int false n ltac:(lia)) as [Hi Hl]. rewrite Hi in Hr.
  injection Hr as Hm He. unfold digits_of, fraction.
  assert (∃ q, 0 < q ∧ (if e <? 0 then (m, 2 ^ (- e)) else (m * 2 ^ e, 1)) = (n * q, q)) as (q & Hq & ->).
  { destruct (Z.ltb_spec e 0).
    - exists (2 ^ (- e)). split; [lia|]. subst. f_equal. f_equal. f_equal. lia.
    - exists 1. split; [lia|]. replace e with 0 by lia. f_equal. subst.
      replace (52 - Z.log2 n) with 0 by lia. cbn; lia. }
  rewrite decimal_exponent_int, <- Hm, <- He, <- Hi by lia.
  pose proof (itoa_length n ltac:(lia)) as Hlen. pose proof (itoa_nonzero_length n).
  pose proof (exponent_bound _ _ Hlen ltac:(lia)).
  pose proof (shortest_int 17 n (n * q) q (Z.of_nat (slen (itoa n)) - 1) Hn ltac:(lia) ltac:(done) Hq eq_refl ltac:(lia)) as Hs.
  destruct (shortest _ _ _ _ _) as [d x]. cbn [fst snd] in Hs. destruct Hs as (<- & ? & ?).
  by apply strip_pos.
Qed.

Lemma json_float_int neg n :
  0 < n < 10 ^ 15 → json_float (round64 neg n 1) = Some ((if neg then "-" else "") +:+ itoa n)%string.
Proof.
  intros Hn. pose proof (round64_int neg n ltac:(lia)) as [-> _].
  pose proof (round64_int false n ltac:(lia)) as [Hi _].
  pose proof (digits_of_int n _ _ Hn Hi) as Hd. unfold json_float.
  assert (0 < 2 ^ (52 - Z.log2 n)).
  { apply Z.pow_pos_nonneg; [lia|]. pose proof (Z.log2_lt_pow2 n 53). lia. }
  replace (n * 2 ^ (52 - Z.log2 n) =? 0) with false by nia.
  destruct (digits_of _ _) as [d x]. cbn [fst snd] in Hd. destruct Hd as (Hv & Hd & Hx).
  pose proof (itoa_nonzero_length d). pose proof (itoa_length d Hd).
  assert (x + (Z.of_nat (slen (itoa d)) - 1) < 15).
  { apply (exponent_bound _ n); [|lia]. rewrite Z.pow_add_r, <- Hv by lia.
    rewrite (Z.mul_comm d). apply Z.mul_le_mono_nonneg_l; lia. }
  replace ((x + Z.of_nat (slen (itoa d)) <? -5) || (21 <? x + Z.of_nat (slen (itoa d)))) with false by lia.
  by rewrite fixed_int, Hv.
Qed.

(** An integer of up to fifteen digits keeps its text. *)
Lemma float_text_int z : Z.abs z < 10 ^ 15 → float_text (itoa z) = Some (itoa z).
Proof.
  intros Hz. destruct (decide (z = 0)) as [->|]; [by vm_compute|].
  unfold float_text. rewrite ParseFloat_int, json_float_int by lia. f_equal.
  destruct (Z.ltb_spec z 0).
  - replace z with (- Z.abs z) at 2 by lia. by rewrite itoa_neg by lia.
  - by replace (Z.abs z) with z by lia.
Qed.

(** ** Numbers with two decimals *)
Lemma nearest_error a b : 0 < b → - b <= 2 * (nearest a b * b - a) <= b.
Proof.
  intros Hb. pose proof (Z.div_mod a b ltac:(lia)) as E. pose proof (Z.mod_pos_bound a b Hb).
  unfold nearest. destruct (Z.ltb_spec (2 * (a mod b)) b); [nia|].
  destruct (Z.ltb_spec b (2 * (a mod b))); [nia|].
  pose proof (Z.mod_pos_bound (a / b) 2 ltac:(lia)).
  assert (a / b mod 2 = 0 ∨ a / b mod 2 = 1) as [->| ->] by lia; nia.
Qed.

(** A number of 53 bits and a power of two. *)
Lemma round64_exact neg m i j :
  2 ^ 52 <= m < 2 ^ 53 → 0 <= i → 0 <= j → -1074 <= j - i <= 971 →
  round64 neg (m * 2 ^ j) (2 ^ i) = Fin neg m (j - i).
Proof.
  intros Hm Hi Hj Hij. assert (Z.log2 m = 52) as Hl.
  { apply Z.log2_unique; [lia|]. change (Z.succ 52) with 53. lia. }
  assert (in_units (m * 2 ^ j) (2 ^ i) (j - i) = (m * 2 ^ Z.max i j, 2 ^ Z.max i j)) as Hu.
  { unfold in_units. destruct (Z.ltb_spec (j - i) 0).
    - rewrite <- Z.mul_assoc, <- Z.pow_add_r by lia. replace (j + - (j - i)) with i by lia.
      by replace (Z.max i j) with i by lia.
    - rewrite <- Z.pow_add_r by lia. replace (i + (j - i)) with j by lia.
      by replace (Z.max i j) with j by lia. }
  assert (0 < 2 ^ Z.max i j) by lia. assert (0 < 2 ^ j) by lia.
  assert (exponent (m * 2 ^ j) (2 ^ i) = j - i) as He.
  { unfold exponent. rewrite Z.log2_mul_pow2, Hl, Z.log2_pow2 by lia.
    replace (j + 52 - i - 52) with (j - i) by lia. rewrite Hu.
    replace (m * 2 ^ Z.max i j <? 2 ^ 52 * 2 ^ Z.max i j) with false by nia. lia. }
  unfold round64. rewrite He, Hu. replace (m * 2 ^ j =? 0) with false by nia.
  assert (nearest (m * 2 ^ Z.max i j) (2 ^ Z.max i j) = m) as ->.
  { unfold nearest. rewrite Z.mod_mul, Z.div_mul by lia. by replace (2 * 0 <? 2 ^ Z.max i j) with true by lia. }
  replace (m =? 2 ^ 53) with false by lia. replace (m =? 0) with false by lia.
  by replace (971 <? j - i) with false by lia.
Qed.

(** The [float64] of [h / 100] is closer to it than [2 ^ (e - 1)]. *)
Lemma round64_hundredths h :
  0 < h < 2 ^ 17 → ∃ m e, round64 false h 100 = Fin false m (- e) ∧ 2 ^ 52 <= m < 2 ^ 53 ∧
    41 <= e <= 60 ∧ - 100 <= 2 * (m * 100 - h * 2 ^ e) <= 100.
Proof.
  intros Hh. destruct (Z.log2_spec h) as [Hlo Hhi]; [lia|].
  assert (Z.log2 h < 17) by (apply Z.log2_lt_pow2; lia). pose proof (Z.log2_nonneg h).
  assert (∃ e, exponent h 100 = - e ∧ 42 <= e <= 60 ∧ 2 ^ 52 * 100 <= h * 2 ^ e < 2 ^ 53 * 100) as (e & He & Hb & Hn).
  { unfold exponent. change (Z.log2 100) with 6. set (k := 58 - Z.log2 h).
    replace (Z.log2 h - 6 - 52) with (- k) by lia. unfold in_units.
    replace (- k <? 0) with true by lia. rewrite Z.opp_involutive.
    assert (2 ^ 58 <= h * 2 ^ k < 2 ^ 59).
    { assert (2 ^ 58 = 2 ^ Z.log2 h * 2 ^ k) as E1 by (rewrite <- Z.pow_add_r by lia; f_equal; lia).
      assert (2 ^ 59 = 2 ^ Z.succ (Z.log2 h) * 2 ^ k) as E2 by (rewrite <- Z.pow_add_r by lia; f_equal; lia).
      rewrite E1, E2. pose proof (Z.pow_pos_nonneg 2 k). nia. }
    destruct (Z.ltb_spec (h * 2 ^ k) (2 ^ 52 * 100)).
    - exists (k + 1). rewrite Z.pow_add_r by lia. change (2 ^ 1) with 2. lia.
    - exists k. lia. }
  assert (in_units h 100 (- e) = (h * 2 ^ e, 100)) as Hu.
  { unfold in_units. replace (- e <? 0) with true by lia. by rewrite Z.opp_involutive. }
  pose proof (nearest_error (h * 2 ^ e) 100 ltac:(lia)) as Herr.
  unfold round64. rewrite He, Hu. replace (h =? 0) with false by lia.
  set (m := nearest (h * 2 ^ e) 100) in *. assert (2 ^ 52 <= m <= 2 ^ 53) by lia.
  destruct (Z.eqb_spec m (2 ^ 53)) as [E|E].
  - change (2 ^ 52 =? 0) with false. replace (971 <? - e + 1) with false by lia.
    exists (2 ^ 52), (e - 1). replace (- (e - 1)) with (- e + 1) by lia. split_and!; [done|lia..| |];
      assert (h * 2 ^ e = 2 * (h * 2 ^ (e - 1))) by (rewrite <- (Z.sub_add 1 e) at 1; rewrite Z.pow_add_r by lia; change (2 ^ 1) with 2; ring); lia.
  - replace (m =? 0) with false by lia. replace (971 <? - e) with false by lia.
    exists m, e. split_and!; [done|lia..].
Qed.

(** What [h / 100] units of [2 ^ k] bytes are read as: rounding never crosses
    an integer. *)
Lemma to_int64_hundredths h k :
  0 <= h < 2 ^ 17 → 2 <= k <= 30 →
  to_int64 (scale (round64 false h 100) (2 ^ k)) = h * 2 ^ k / 100.
Proof.
  intros Hh Hk. destruct (decide (h = 0)) as [->|Hh0].
  { cbn -[Z.pow]. by rewrite Z.mul_0_l. }
  destruct (round64_hundredths h ltac:(lia)) as (m & e & -> & Hm & He & Herr).
  unfold scale. replace (- e <? 0) with true by lia. rewrite Z.opp_involutive.
  rewrite round64_exact by lia. unfold to_int64. replace (k - e <? 0) with true by lia.
  replace (- (k - e)) with (e - k) by lia. set (D := 2 ^ (e - k)).
  assert (2 ^ 11 <= D) by (apply Z.pow_le_mono_r; lia).
  assert (h * 2 ^ e = (h * 2 ^ k) * D) as HN by (rewrite <- Z.mul_assoc; unfold D; rewrite <- Z.pow_add_r by lia; do 2 f_equal; lia).
  assert (∃ c, h * 2 ^ k = 4 * c) as [c Hc].
  { exists (h * 2 ^ (k - 2)). replace (2 ^ k) with (4 * 2 ^ (k - 2)); [ring|].
    change 4 with (2 ^ 2). rewrite <- Z.pow_add_r by lia. f_equal. lia. }
  assert (m / D = h * 2 ^ k / 100) as ->.
  { rewrite HN in Herr. set (N := h * 2 ^ k) in *.
    pose proof (Z.div_mod N 100 ltac:(lia)) as E. pose proof (Z.mod_pos_bound N 100 ltac:(lia)).
    set (n := N / 100) in *. set (r := N mod 100) in *.
    symmetry. apply (Z.div_unique_pos _ _ _ (m - D * n)); [|lia].
    assert (∃ r', r = 4 * r') as [r' Hr'] by (exists (c - 25 * n); lia).
    assert (N * D = 100 * (D * n) + 4 * (r' * D)) as E' by (rewrite E, Hr'; ring).
    destruct (decide (r' = 0)) as [->|].
    - lia.
    - assert (D <= r' * D <= 24 * D) by nia. lia. }
  apply int64_of_f64_id, bool_decide_eq_true. unfold two63.
  assert (0 <= h * 2 ^ k / 100 <= h * 2 ^ k).
  { split; [apply Z.div_pos; lia|]. apply Z.div_le_upper_bound; nia. }
  assert (h * 2 ^ k <= 2 ^ 17 * 2 ^ 30).
  { apply Z.mul_le_mono_nonneg; try lia. apply Z.pow_le_mono_r; lia. }
  lia.
Qed.

Lemma dnum_shift v s : dnum v s = v * 10 ^ Z.of_nat (slen s) + dnum 0 s.
Proof.
  revert v. induction s as [|a s IH]; intros v; [cbn; lia|]. cbn [dnum String.length].
  rewrite IH, (IH (0 * 10 + _)). rewrite Nat2Z.inj_succ, Z.pow_succ_r by lia. lia.
Qed.

(** [h / 100] with two decimals. *)
Definition hundredths (h : Z) : string := (itoa (h / 100) +:+ "." +:+ pad 2 (h mod 100))%string.

Lemma pad2 z : 0 <= z < 100 → sforall digit (pad 2 z) = true ∧ slen (pad 2 z) = 2%nat ∧ dnum 0 (pad 2 z) = z.
Proof.
  intros Hz.
  assert (forallb (λ n, let z := Z.of_nat n in
    sforall digit (pad 2 z) && (Nat.eqb (slen (pad 2 z)) 2 && (dnum 0 (pad 2 z) =? z))) (seq 0 100) = true)
    as H by by vm_compute.
  rewrite forallb_forall in H. specialize (H (Z.to_nat z)). rewrite Z2Nat.id in H by lia.
  rewrite !andb_true_iff, Nat.eqb_eq, Z.eqb_eq in H. apply H, in_seq. lia.
Qed.

Lemma itoa_digits n : 0 <= n → sforall digit (itoa n) = true ∧ dnum 0 (itoa n) = n ∧ itoa n ≠ ""%string.
Proof.
  intros Hn. destruct (decide (n = 0)) as [->|]; [done|].
  destruct (itoa_pos n ltac:(lia)) as (a & s & He & Ha & _ & Hs & Hv).
  rewrite He in *. cbn [sforall]. by rewrite Ha, Hs.
Qed.

Lemma ParseFloat_digit s t :
  sforall digit s = true → s ≠ ""%string → ParseFloat (s +:+ t)%string =
  match read_number false (s +:+ t)%string with
  | Some f => (f, match f with Inf _ => false | _ => true end)
  | None => (Fin false 0 0, false)
  end.
Proof.
  intros Hs Hne. destruct s as [|a s]; [done|]. cbn [sforall] in Hs. apply andb_true_iff in Hs as [Ha _].
  rewrite string_app_cons. unfold ParseFloat. generalize (s +:+ t)%string. clear -Ha. intros u.
  destruct a as [[] [] [] [] [] [] [] []]; done.
Qed.

Lemma digits_dot_no_prefix s u : sforall digit s = true → s ≠ ""%string → hex_prefix (s +:+ "." +:+ u)%string = false.
Proof.
  intros Hd Hne. destruct s as [|a [|b s]]; [done| |].
  - rewrite string_app_cons. destruct u; [done|apply andb_false_r].
  - rewrite !string_app_cons. apply digits_no_prefix. cbn [stake sforall] in *. by destruct (digit a), (digit b).
Qed.

Lemma read_hundredths h : 0 <= h → read_number false (hundredths h) = Some (round64 false h 100).
Proof.
  intros Hh. destruct (itoa_digits (h / 100)) as (Hd & Hv & Hne); [apply Z.div_pos; lia|].
  destruct (pad2 (h mod 100)) as (Hpd & Hpl & Hpv); [apply Z.mod_pos_bound; lia|].
  unfold read_number, hundredths.
  rewrite digits_dot_no_prefix by done.
  rewrite scan_digits by done. rewrite (string_app_cons "." "").
  change ("" +:+ pad 2 (h mod 100))%string with (pad 2 (h mod 100)). cbn [scan].
  change (Ascii.eqb "." "_") with false. change (Ascii.eqb "." ".") with true. cbn iota.
  rewrite <- (string_app_nil_r (pad 2 (h mod 100))) at 1. rewrite scan_digits by done.
  destruct (itoa (h / 100)) as [|a s] eqn:He; [done|]. rewrite <- He in *.
  replace (negb (String.eqb (itoa (h / 100)) "")) with true by by rewrite He. cbn [orb negb].
  cbn [scan exp_of mbind option_bind]. cbn [String.eqb negb orb andb].
  rewrite Hpl, dnum_shift, Hv, Hpl, Hpv.
  assert (lacks "_" (itoa (h / 100) +:+ String "." (pad 2 (h mod 100)))%string = true) as ->.
  { rewrite lacks_app, (digits_lack "_" (itoa (h / 100))) by done. cbn. by apply (digits_lack "_"). }
  cbn [negb andb orb]. cbn. do 2 f_equal. pose proof (Z.div_mod h 100). lia.
Qed.

Lemma ParseFloat_hundredths h :
  0 <= h < 2 ^ 17 → ParseFloat (hundredths h) = (round64 false h 100, true).
Proof.
  intros Hh. destruct (itoa_digits (h / 100)) as (Hd & _ & Hne); [apply Z.div_pos; lia|].
  unfold hundredths at 1. rewrite ParseFloat_digit by done. fold (hundredths h).
  rewrite read_hundredths by lia. destruct (decide (h = 0)) as [->|]; [done|].
  by destruct (round64_hundredths h ltac:(lia)) as (m & e & -> & _).
Qed.

(** A number with a word behind it is no number. *)
Lemma ParseFloat_word h w :
  0 <= h → ParseFloat (hundredths h +:+ " " +:+ w)%string = (Fin false 0 0, false).
Proof.
  intros Hh. destruct (itoa_digits (h / 100)) as (Hd & Hv & Hne); [apply Z.div_pos; lia|].
  destruct (pad2 (h mod 100)) as (Hpd & _); [apply Z.mod_pos_bound; lia|].
  unfold hundredths. rewrite <- string_app_assoc, ParseFloat_digit by done.
  unfold read_number. rewrite <- string_app_assoc, (digits_dot_no_prefix (itoa (h / 100))) by done.
  rewrite scan_digits by done. rewrite (string_app_cons "." "").
  change ("" +:+ pad 2 (h mod 100) +:+ " " +:+ w)%string with (pad 2 (h mod 100) +:+ " " +:+ w)%string. cbn [scan].
  change (Ascii.eqb "." "_") with false. change (Ascii.eqb "." ".") with true. cbn iota.
  rewrite scan_digits by done. rewrite (string_app_cons " " ""). cbn [scan].
  change (Ascii.eqb " " "_") with false. change (Ascii.eqb " " ".") with false.
  unfold digit_val. cbn -[dec_val]. change (dec_val " ") with (@None Z). cbn. by destruct (negb (_ || _)).
Qed.
End Floats.
