(* ===== verification/Shortest.v ===== *)
(** * Seventeen digits are enough to print a [float64]

    What lies closer to a number than half the distance to its neighbours is
    rounded to it, so that one of the two seventeen-digit decimals around a
    number reads back as that number: [Floats.shortest] always succeeds. *)

From S2P Require Import Prelude GoStrings Encoding Json Floats.
From Stdlib Require Import Ascii String.
From stdpp Require Import strings.
Set Default Goal Selector "!".
Open Scope stdpp_scope.

Module Shortest.
Import Floats.
Local Open Scope Z_scope.

Lemma in_units_log a b e :
  0 < a → 0 < b → let u := in_units a b e in
  0 < u.1 ∧ 0 < u.2 ∧ Z.log2 u.1 = Z.log2 a + Z.max (- e) 0 ∧ Z.log2 u.2 = Z.log2 b + Z.max e 0.
Proof.
  intros Ha Hb. unfold in_units.
  destruct (Z.ltb_spec e 0); cbn [fst snd]; rewrite Z.log2_mul_pow2 by lia; lia.
Qed.

Lemma in_units_half a b e :
  let u := in_units a b e in let u' := in_units a b (e - 1) in
  u'.1 = 2 * u.1 ∧ u'.2 = u.2 ∨ u'.1 = u.1 ∧ u.2 = 2 * u'.2.
Proof.
  unfold in_units. destruct (Z.ltb_spec e 0), (Z.ltb_spec (e - 1) 0); cbn [fst snd]; try lia.
  - left. replace (- (e - 1)) with (Z.succ (- e)) by lia. rewrite Z.pow_succ_r by lia. lia.
  - replace e with 0 by lia. cbn. lia.
  - right. replace e with (Z.succ (e - 1)) at 1 by lia. rewrite Z.pow_succ_r by lia. lia.
Qed.

Lemma log2_ratio A B k : 0 < A → 0 < B → 0 <= k →
  (2 ^ k * B <= A → k + Z.log2 B <= Z.log2 A) ∧ (A < 2 ^ k * B → Z.log2 A <= k + Z.log2 B).
Proof.
  intros. rewrite (Z.mul_comm (2 ^ k)). replace (k + Z.log2 B) with (Z.log2 (B * 2 ^ k)) by (rewrite Z.log2_mul_pow2; lia).
  split; intros; apply Z.log2_le_mono; lia.
Qed.

Lemma exponent_unique a b e :
  0 < a → 0 < b → -1074 <= e →
  let u := in_units a b e in 2 ^ 52 * u.2 <= u.1 → u.1 < 2 ^ 53 * u.2 → exponent a b = e.
Proof.
  intros Ha Hb He u Hlo Hhi. destruct (in_units_log a b e Ha Hb) as (HA & HB & HlA & HlB). fold u in HA, HB, HlA, HlB.
  destruct (log2_ratio u.1 u.2 52) as [Hl52 _]; [done..|]. destruct (log2_ratio u.1 u.2 53) as [_ Hl53]; [done..|].
  specialize (Hl52 Hlo). specialize (Hl53 Hhi). unfold exponent.
  assert (Z.log2 a - Z.log2 b - 52 = e ∨ Z.log2 a - Z.log2 b - 52 = e + 1) as [->| ->] by lia.
  - fold u. destruct u as [A B]. cbn [fst snd] in *. replace (A <? 2 ^ 52 * B) with false by lia. lia.
  - pose proof (in_units_half a b (e + 1)) as Hh. replace (e + 1 - 1) with e in Hh by lia. fold u in Hh.
    destruct (in_units_log a b (e + 1) Ha Hb) as (HA' & HB' & _).
    destruct (in_units a b (e + 1)) as [A B]. cbn [fst snd] in *.
    replace (A <? 2 ^ 52 * B) with true by lia. lia.
Qed.

Lemma exponent_least a b :
  0 < a → 0 < b → let u := in_units a b (-1074) in u.1 < 2 ^ 52 * u.2 → exponent a b = -1074.
Proof.
  intros Ha Hb u Hhi. destruct (in_units_log a b (-1074) Ha Hb) as (HA & HB & HlA & HlB). fold u in HA, HB, HlA, HlB.
  destruct (log2_ratio u.1 u.2 52) as [_ Hl52]; [done..|]. specialize (Hl52 Hhi).
  unfold exponent.
  destruct (in_units a b (Z.log2 a - Z.log2 b - 52)) as [A B]. destruct (A <? 2 ^ 52 * B); lia.
Qed.

Lemma nearest_unique A B m : 0 < B → - B < 2 * (A - m * B) < B → nearest A B = m.
Proof.
  intros HB Hm. pose proof (nearest_error A B HB) as Hn. revert Hn. generalize (nearest A B). intros n Hn.
  assert ((n - m) * B < 1 * B) as H1 by lia. assert (-1 * B < (n - m) * B) as H2 by lia.
  apply Z.mul_lt_mono_pos_r in H1, H2; lia.
Qed.

(** A finite number as [round64] gives it. *)
Definition canonical (m e : Z) : Prop :=
  0 < m < 2 ^ 53 ∧ -1074 <= e <= 971 ∧ (2 ^ 52 <= m ∨ e = -1074).

(** What is closer to a number than half the distance to its neighbours is
    rounded to it; below a power of two the neighbour is half as far. *)
Lemma round64_near neg a b m e :
  0 < a → 0 < b → canonical m e →
  let u := in_units a b e in - u.2 < 2 * (u.1 - m * u.2) < u.2 → (m = 2 ^ 52 → u.2 > 4 * (m * u.2 - u.1)) →
  round64 neg a b = Fin neg m e.
Proof.
  intros Ha Hb (Hm & He & Hc) u Hu Hpow. destruct (in_units_log a b e Ha Hb) as (HA & HB & _). fold u in HA, HB.
  unfold round64. replace (a =? 0) with false by lia.
  assert (exponent a b = e ∨ exponent a b = e - 1 ∧ m = 2 ^ 52 ∧ u.1 < 2 ^ 52 * u.2) as [Hx|(Hx & Hm52 & Hlow)].
  { destruct (decide (2 ^ 52 * u.2 <= u.1)).
    - left. apply exponent_unique; [done..|lia|done|fold u; nia].
    - destruct (decide (e = -1074)) as [->|]; [left; apply exponent_least; [done..|fold u; lia]|].
      destruct Hc as [Hc|]; [|lia]. assert (m = 2 ^ 52) as Hm52 by nia. right. split_and!; [|done|lia].
      specialize (Hpow Hm52). pose proof (in_units_half a b e) as Hh. fold u in Hh.
      apply exponent_unique; [done..|lia| |]; destruct (in_units a b (e - 1)); cbn [fst snd] in *; lia. }
  - rewrite Hx. fold u. destruct u as [A B]. cbn [fst snd] in *. rewrite (nearest_unique A B m) by lia.
    replace (m =? 2 ^ 53) with false by lia. replace (m =? 0) with false by lia.
    by replace (971 <? e) with false by lia.
  - rewrite Hx. specialize (Hpow Hm52). pose proof (in_units_half a b e) as Hh. fold u in Hh.
    destruct (in_units_log a b (e - 1) Ha Hb) as (HA' & HB' & _).
    destruct (in_units a b (e - 1)) as [A B]. cbn [fst snd] in *.
    rewrite (nearest_unique A B (2 ^ 53)) by lia. rewrite Z.eqb_refl.
    change (2 ^ 52 =? 0) with false. replace (971 <? e - 1 + 1) with false by lia. f_equal; lia.
Qed.

Lemma dnum_upper v s : sforall digit s = true → dnum v s < (v + 1) * 10 ^ Z.of_nat (slen s).
Proof.
  revert v. induction s as [|a s IH]; intros v Hs; [cbn; lia|]. cbn [sforall] in Hs.
  apply andb_true_iff in Hs as [Ha Hs]. destruct (dec_val_digit a Ha) as [_ Hd].
  cbn [dnum String.length]. rewrite Nat2Z.inj_succ, Z.pow_succ_r by lia.
  eapply Z.lt_le_trans; [by apply IH|]. pose proof (Z.pow_pos_nonneg 10 (Z.of_nat (slen s))). nia.
Qed.

Lemma decimal_exponent_le p q :
  0 < p → 0 < q → let u := in_tens p q (decimal_exponent p q) in u.2 <= u.1.
Proof.
  intros Hp Hq. unfold decimal_exponent. destruct (Z.ltb_spec p q) as [Hlt|Hge].
  - set (c := (q + p - 1) / p).
    assert (q <= p * c) as Hc by (pose proof (Z.div_mod (q + p - 1) p); pose proof (Z.mod_pos_bound (q + p - 1) p); lia).
    assert (2 <= c) by nia. destruct (itoa_digits (c - 1)) as (Hd & Hv & _); [lia|].
    pose proof (dnum_upper 0 (itoa (c - 1)) Hd) as Hu. rewrite Hv in Hu.
    pose proof (itoa_nonzero_length (c - 1)). unfold in_tens. set (k := Z.of_nat _) in *.
    replace (- k <? 0) with true by lia. rewrite Z.opp_involutive. cbn [fst snd]. nia.
  - assert (1 <= p / q) by (apply Z.div_le_lower_bound; lia).
    pose proof (itoa_length (p / q)). pose proof (itoa_nonzero_length (p / q)). pose proof (Z.mul_div_le p q Hq).
    unfold in_tens. set (k := Z.of_nat _) in *. replace (k - 1 <? 0) with false by lia. cbn [fst snd]. nia.
Qed.

Lemma in_tens_shift p q x k :
  0 < p → 0 < q → 0 <= k → let u := in_tens p q x in let u' := in_tens p q (x - k) in
  u.2 <= u.1 → 10 ^ k * u'.2 <= u'.1.
Proof.
  intros Hp Hq Hk. unfold in_tens. cbv zeta.
  assert (0 < 10 ^ k) by (apply Z.pow_pos_nonneg; lia).
  destruct (Z.ltb_spec x 0), (Z.ltb_spec (x - k) 0); cbn [fst snd]; intros Hu; [|lia| |].
  - replace (- (x - k)) with (- x + k) by lia. rewrite Z.pow_add_r by lia. nia.
  - assert (10 ^ k = 10 ^ x * 10 ^ (- (x - k))) as -> by (rewrite <- Z.pow_add_r by lia; f_equal; lia).
    pose proof (Z.pow_pos_nonneg 10 (- (x - k))). nia.
  - assert (10 ^ x = 10 ^ k * 10 ^ (x - k)) as E by (rewrite <- Z.pow_add_r by lia; f_equal; lia).
    rewrite E in Hu. lia.
Qed.

(** A decimal against a number in the units of both. *)
Lemma decimal_units m e x D :
  let u := in_tens (fraction m e).1 (fraction m e).2 x in
  ∃ B, 0 < B ∧ u.1 = m * B ∧ in_units (decimal D x).1 (decimal D x).2 e = (D * u.2, B).
Proof.
  unfold in_tens, fraction, decimal, in_units.
  assert (∀ c k, 0 < c → 0 <= k → 0 < c ^ k) by (intros; by apply Z.pow_pos_nonneg).
  destruct (Z.ltb_spec e 0), (Z.ltb_spec x 0); cbn [fst snd].
  - exists (10 ^ (- x)). split_and!; [auto with lia|lia|f_equal; lia].
  - exists 1. split_and!; [lia|lia|f_equal; lia].
  - exists (10 ^ (- x) * 2 ^ e). split_and!; [apply Z.mul_pos_pos; auto with lia|lia|f_equal; lia].
  - exists (1 * 2 ^ e). split_and!; [rewrite Z.mul_1_l; auto with lia|lia|f_equal; lia].
Qed.

(** A decimal within half a unit, when the number has seventeen digits in
    that unit, reads back. *)
Lemma near_decimal m e x D :
  canonical m e → let u := in_tens (fraction m e).1 (fraction m e).2 x in
  0 < D → 0 < u.2 → 10 ^ 16 * u.2 <= u.1 → - u.2 <= 2 * (D * u.2 - u.1) <= u.2 →
  round64 false (decimal D x).1 (decimal D x).2 = Fin false m e.
Proof.
  intros Hc u HD Hu Hbig Hnear. destruct (decimal_units m e x D) as (B & HB & Ha & Hin). fold u in Ha, Hin.
  pose proof Hc as [Hm _]. assert (u.2 < B) by nia.
  assert (0 < (decimal D x).1 ∧ 0 < (decimal D x).2) as [Hd1 Hd2].
  { unfold decimal. destruct (Z.ltb_spec x 0); cbn [fst snd]; split; try lia; apply Z.mul_pos_pos; lia. }
  apply round64_near; [done..| |]; rewrite Hin; cbn [fst snd]; [lia|].
  intros ->. lia.
Qed.

Lemma nearest_cases a b : nearest a b = a / b ∨ nearest a b = a / b + 1.
Proof.
  unfold nearest. destruct (2 * (a mod b) <? b); [by left|]. destruct (b <? 2 * (a mod b)); [by right|].
  pose proof (Z.mod_pos_bound (a / b) 2 ltac:(lia)). lia.
Qed.

Lemma candidate_reads_back f p q x d :
  candidate f p q x = Some d → round64 false (decimal d x).1 (decimal d x).2 = f.
Proof.
  unfold candidate. destruct (in_tens p q x) as [a b].
  case_bool_decide; case_bool_decide; intros; simplify_eq; try done.
  by destruct (nearest_cases a b) as [->| ->].
Qed.

Lemma candidate_some m e x :
  canonical m e → let u := in_tens (fraction m e).1 (fraction m e).2 x in
  0 < u.2 → 10 ^ 16 * u.2 <= u.1 → candidate (Fin false m e) (fraction m e).1 (fraction m e).2 x ≠ None.
Proof.
  intros Hc u Hu Hbig. pose proof (nearest_error u.1 u.2 Hu) as Herr.
  pose proof (near_decimal m e x (nearest u.1 u.2) Hc) as Hr. cbv zeta in Hr. fold u in Hr.
  specialize (Hr ltac:(nia) Hu Hbig ltac:(lia)). unfold candidate.
  fold u. destruct u as [a b]. cbn [fst snd] in *.
  destruct (nearest_cases a b) as [E|E]; rewrite E in Hr; rewrite (bool_decide_true _ Hr); by case_bool_decide.
Qed.

Lemma shortest_found fuel f p q x k :
  (k < fuel)%nat → candidate f p q (x - Z.of_nat k) ≠ None →
  let r := shortest fuel f p q x in candidate f p q r.2 = Some r.1.
Proof.
  revert x k. induction fuel as [|fuel IH]; intros x k Hk Hc; [lia|]. cbn [shortest].
  destruct (candidate f p q x) as [d|] eqn:Hd; [done|].
  destruct k as [|k]; [by rewrite Z.sub_0_r in Hc|].
  apply (IH (x - 1) k); [lia|]. by replace (x - 1 - Z.of_nat k) with (x - Z.of_nat (S k)) by lia.
Qed.

(** The digits that are found read back as the number. *)
Lemma shortest_reads_back m e :
  canonical m e → let p := (fraction m e).1 in let q := (fraction m e).2 in
  let r := shortest 17 (Fin false m e) p q (decimal_exponent p q) in
  round64 false (decimal r.1 r.2).1 (decimal r.1 r.2).2 = Fin false m e.
Proof.
  intros Hc p q r. pose proof Hc as [Hm _].
  assert (0 < p ∧ 0 < q) as [Hp Hq].
  { unfold p, q, fraction. destruct (Z.ltb_spec e 0); cbn [fst snd]; split; try lia; apply Z.mul_pos_pos; lia. }
  apply (candidate_reads_back _ p q), (shortest_found 17 _ _ _ _ 16); [lia|].
  apply (candidate_some m e _ Hc).
  - fold p q. unfold in_tens. destruct (Z.ltb_spec (decimal_exponent p q - Z.of_nat 16) 0); cbn [fst snd]; [done|].
    apply Z.mul_pos_pos; [done|]. apply Z.pow_pos_nonneg; lia.
  - apply in_tens_shift; [done|done|lia|by apply decimal_exponent_le].
Qed.
End Shortest.
