(* ===== verification/Crypto.v ===== *)
(** * Cryptographic primitives

    Signatures, hashes, password hashing and JSON web tokens, as the classes
    the components are parametric in.  The laws state the documented
    behaviour the code relies on; nothing assumes that forging is impossible.
    The instances at the end satisfy the laws and are used by the witnesses
    only. *)

From Stdlib Require Import Ascii String.
From stdpp Require Import strings.
From S2P Require Import Prelude GoStrings Encoding.
Set Default Goal Selector "!".
Open Scope stdpp_scope.

(** ** [crypto/sha256] *)
Class Sha256 := { sha256 : string → string }.

(** ** [crypto/ed25519] *)
Class Ed25519 := {
  ed_public : string → string;
  ed_sign : string → string → string;
  ed_verify : string → string → string → bool;
}.

Definition PublicKeySize : nat := 32.

Class Ed25519Laws `{Ed25519} := {
  ed_verify_sign sk msg : ed_verify (ed_public sk) msg (ed_sign sk msg) = true;
  ed_public_size sk : slen (ed_public sk) = PublicKeySize;
  ed_sign_nonempty sk msg : ed_sign sk msg ≠ "";
}.

(** ** [golang.org/x/crypto/bcrypt]

    [bcrypt_hash salt pw] fails on passwords longer than 72 bytes. *)
Class Bcrypt := {
  bcrypt_hash : string → string → option string;
  bcrypt_compare : string → string → bool;
}.

Class BcryptLaws `{Bcrypt} := {
  bcrypt_compare_hash salt pw h : bcrypt_hash salt pw = Some h → bcrypt_compare h pw = true;
  bcrypt_hash_nonempty salt pw h : bcrypt_hash salt pw = Some h → h ≠ "";
}.

(** ** [github.com/golang-jwt/jwt]

    [jwt.MapClaims]: a JSON object.  [CNum z] is a number whose integral part
    is [z]. *)
Inductive claim :=
| CStr (s : string)
| CNum (z : Z)
| COther.

Abbreviation MapClaims := (gmap string claim).

(** [claims[k].(string)] and [claims[k].(float64)] with the zero value when
    the assertion fails. *)
Definition claim_str (k : string) (c : MapClaims) : string :=
  match c !! k with Some (CStr s) => s | _ => "" end.
Definition claim_num (k : string) (c : MapClaims) : Z :=
  match c !! k with Some (CNum z) => z | _ => 0%Z end.

(** A claim after a JSON round trip: numbers come back as float64. *)
Definition json_claim (c : claim) : claim :=
  match c with CNum z => CNum (f64_round z) | _ => c end.

(** [jwt_sign key claims] with HS256; [jwt_parse key now token] with
    [WithValidMethods HS256]: the claims of a token with a valid signature
    that has not expired at [now]. *)
Class Jwt := {
  jwt_sign : string → MapClaims → option string;
  jwt_parse : string → Z → string → option MapClaims;
}.

(** Validity of the [exp] claim: [now.Before(exp)]. *)
Definition exp_ok (now : Z) (c : MapClaims) : bool :=
  match c !! "exp" with
  | Some (CNum e) => bool_decide (now < e * second)%Z
  | Some _ => false
  | None => true
  end.

Class JwtLaws `{Jwt} :=
  jwt_parse_sign key now c t :
    jwt_sign key c = Some t →
    jwt_parse key now t =
      if exp_ok now (json_claim <$> c) then Some (json_claim <$> c) else None.

(** ** Stand-ins *)
Definition pad32 (s : string) : string :=
  stake 32 (s +:+ "00000000000000000000000000000000").

Lemma slen_stake n s : n ≤ slen s → slen (stake n s) = n.
Proof. revert s. induction n as [|n IH]; intros [|a s]; simpl; try lia. intros. rewrite IH; lia. Qed.

Definition toy_ed25519 : Ed25519 := {|
  ed_public sk := pad32 sk;
  ed_sign sk msg := pad32 sk +:+ msg;
  ed_verify pk msg sig := bool_decide (sig = pk +:+ msg);
|}.

Lemma toy_ed25519_laws : @Ed25519Laws toy_ed25519.
Proof.
  assert (∀ sk, slen (pad32 sk) = 32) as Hp.
  { intros sk. apply slen_stake. rewrite slen_app. simpl. lia. }
  split; simpl; intros; [by apply bool_decide_eq_true_2|by apply Hp|].
  intros He. apply (f_equal slen) in He. rewrite slen_app, Hp in He. simpl in He. lia.
Qed.

Definition toy_bcrypt : Bcrypt := {|
  bcrypt_hash salt pw := if slen pw <=? 72 then Some ("$" +:+ pw) else None;
  bcrypt_compare h pw := bool_decide (h = "$" +:+ pw);
|}.

Lemma toy_bcrypt_laws : @BcryptLaws toy_bcrypt.
Proof.
  split; simpl; intros salt pw h; case_match; intros [= <-]; [|done].
  by apply bool_decide_eq_true_2.
Qed.

(** Hashing as the identity, cut to 32 bytes. *)
Definition toy_sha256 : Sha256 := {| sha256 := pad32 |}.

(** Tokens that spell out the key and the claims. *)
#[export] Instance claim_eq_dec : EqDecision claim.
Proof. solve_decision. Defined.

#[export] Instance claim_countable : Countable claim.
Proof.
  refine (inj_countable'
    (λ c, match c with CStr s => inl s | CNum z => inr (inl z) | COther => inr (inr tt) end)
    (λ x : string + (Z + unit),
       match x with inl s => CStr s | inr (inl z) => CNum z | inr (inr _) => COther end) _).
  by intros [].
Defined.

Fixpoint bits (p : positive) : string :=
  match p with
  | xH => ""
  | xO p => String "0" (bits p)
  | xI p => String "1" (bits p)
  end.

Fixpoint unbits (s : string) : positive :=
  match s with
  | "" => xH
  | String a s => if Ascii.eqb a "1" then xI (unbits s) else xO (unbits s)
  end.

Lemma unbits_bits p : unbits (bits p) = p.
Proof. induction p; simpl; congruence. Qed.

Definition toy_jwt : Jwt := {|
  jwt_sign key c := Some (bits (encode (key, c)));
  jwt_parse key now t :=
    match decode (unbits t) with
    | Some (key', c) =>
      if bool_decide (key' = key) && exp_ok now (json_claim <$> c)
      then Some (json_claim <$> c) else None
    | None => None
    end;
|}.

Lemma toy_jwt_laws : @JwtLaws toy_jwt.
Proof.
  intros key now c t [= <-]. simpl. rewrite unbits_bits, decode_encode.
  by rewrite bool_decide_eq_true_2.
Qed.
