(* ===== verification/Schema.v ===== *)
(** * The database schema

    The tables of [server/internal/db/migrations] that the modelled services
    use, with their keys, uniqueness and reference constraints, and the SQL
    idioms the services share.  A table is a finite map from its primary key
    (or from the unique key the code addresses it by) to its row; the message
    queue is a list in insertion order because its contents are read by
    [created_at].

    - [BIGSERIAL] keys are taken from a counter; values lost by rolled back
      transactions are not tracked (only freshness is observable).
    - A [SELECT] without [ORDER BY] yields the rows in the unspecified but
      fixed order of [map_to_list].
    - UUIDs are 128-bit integers, [uuid.Nil] is 0; times are nanoseconds. *)

From Stdlib Require Import Ascii String.
From stdpp Require Import strings.
From S2P Require Import Prelude GoStrings.
Set Default Goal Selector "!".
Open Scope stdpp_scope.

(** ** Code outside the repository *)

(** [github.com/google/uuid].  [uuid_parsed s] is the first result of
    [uuid.Parse(s)] also when the second one is an error. *)
Class UuidLib := {
  uuid_parse : string → option Z;
  uuid_parsed : string → Z;
  uuid_string : Z → string;
}.

(** Documented behaviour of the canonical form: it parses back, is made of
    hexadecimal digits and dashes, and identifies the UUID. *)
Class UuidLaws `{UuidLib} := {
  uuid_parse_string u : (0 ≤ u < 2 ^ 128)%Z → uuid_parse (uuid_string u) = Some u;
  uuid_parsed_parse s u : uuid_parse s = Some u → uuid_parsed s = u;
  uuid_string_nonempty u : uuid_string u ≠ "";
  uuid_string_lacks u : lacks ":" (uuid_string u) = true;
  uuid_string_inj u v : uuid_string u = uuid_string v → u = v;
}.

(** PostgreSQL's [LOWER], its reader of [timestamptz] literals, and Go's
    [Format(time.RFC3339Nano)] of a column in the server's time zone. *)
Class PgText := {
  pg_lower : string → string;
  pg_timestamptz : string → option Z;
  format_nano : Z → string;
}.

(** A formatted time is read back by the database. *)
Class PgLaws `{PgText} := {
  pg_timestamptz_format t : pg_timestamptz (format_nano t) = Some t;
  format_nano_nonempty t : format_nano t ≠ "";
}.

(** ** Rows *)
Record user_row := UserRow {
  u_username : string;
  u_domain : string;
  u_password : option string;
}.

Record device_row := DeviceRow {
  d_user : Z;
  d_identity_key : string;
  d_signed_prekey : string;
  d_signed_prekey_sig : string;
  d_signed_prekey_id : Z;
  d_name : option string;
  d_created_at : Z;
  d_updated_at : Z;
}.

(** Keyed by [(device_id, key_id)], which is [UNIQUE]. *)
Record prekey_row := PrekeyRow {
  p_prekey : string;
  p_consumed_at : option Z;
}.

(** Keyed by [jti]. *)
Record token_row := TokenRow {
  t_user : Z;
  t_device : Z;
  t_hash : string;
  t_expires_at : Z;
  t_revoked_at : option Z;
}.

Record queue_row := QueueRow {
  q_event_id : string;
  q_sender : string;
  q_recipient : string;
  q_sender_device : string;
  q_msg_type : string;
  q_ciphertext : string;
  q_ciphertexts : option (gmap string string);
  q_session_id : string;
  q_timestamp : Z;
  q_status : string;
  q_expires_at : Z;
  q_created_at : Z;
}.

Record room_row := RoomRow {
  r_name : string;
  r_domain : string;
  r_creator_id : Z;
  r_created_at : Z;
}.

Record member_row := MemberRow {
  m_role : string;
  m_joined_at : Z;
}.

Record proxy_row := ProxyRow {
  px_home_domain : string;
  px_home_token : string;
  px_user_id : string;
  px_device_id : string;
  px_expires_at : Z;
}.

Record peer_row := PeerRow {
  fp_endpoint : string;
  fp_allowed : bool;
  fp_updated_at : Z;
}.

(** Keyed by [(user_id, device_id, protocol)], which is [UNIQUE].  An [inet]
    column is written and read back in the one format the code uses. *)
Record vpn_peer_row := VpnPeerRow {
  vp_pubkey : option string;
  vp_address : option string;
  vp_created_at : Z;
  vp_expires_at : option Z;
  vp_limit : Z;
  vp_node : option Z;
  vp_client_id : option string;
  vp_password : option string;
}.

Record vpn_node_row := VpnNodeRow {
  vn_name : string;
  vn_region : string;
  vn_wireguard : string;
  vn_pubkey : string;
  vn_openvpn : string;
  vn_xray : string;
  vn_default : bool;
}.

(** Keyed by [endpoint], which is [UNIQUE]. *)
Record push_row := PushRow {
  ps_user : Z;
  ps_device : Z;
  ps_p256dh : string;
  ps_auth : string;
}.

#[export] Instance member_row_eq_dec : EqDecision member_row.
Proof. solve_decision. Defined.
#[export] Instance room_row_eq_dec : EqDecision room_row.
Proof. solve_decision. Defined.
#[export] Instance prekey_row_eq_dec : EqDecision prekey_row.
Proof. solve_decision. Defined.
#[export] Instance token_row_eq_dec : EqDecision token_row.
Proof. solve_decision. Defined.
#[export] Instance queue_row_eq_dec : EqDecision queue_row.
Proof. solve_decision. Defined.

(** ** The database *)
Record DB := mkDB {
  users : gmap Z user_row;
  users_seq : Z;
  devices : gmap Z device_row;
  prekeys : gmap (Z * Z) prekey_row;
  tokens : gmap Z token_row;
  queue : list queue_row;
  idempotency : gmap string string;
  cursors : gmap (Z * Z) string;
  receipts : gmap (string * string) Z;
  rooms : gmap Z room_row;
  members : gmap (Z * Z) member_row;
  salts : gmap Z string;
  backups : gmap Z string;
  proxies : gmap string proxy_row;
  peers : gmap string peer_row;
  vpn_peers : gmap (Z * Z * string) vpn_peer_row;
  vpn_nodes : gmap Z vpn_node_row;
  vpn_settings : gmap string string;
  wg_addr_seq : Z;
  pushes : gmap string push_row;
}.

(** The sequence of WireGuard addresses starts at 2. *)
Definition empty_db : DB := mkDB ∅ 1 ∅ ∅ ∅ [] ∅ ∅ ∅ ∅ ∅ ∅ ∅ ∅ ∅ ∅ ∅ ∅ 2 ∅.

(** Once migrated: a default node, and the settings of the VPN service. *)
Definition migrated_db (node : Z) : DB := mkDB ∅ 1 ∅ ∅ ∅ [] ∅ ∅ ∅ ∅ ∅ ∅ ∅ ∅ ∅ ∅
  {[ node := VpnNodeRow "Default" "" "" "" "" "" true ]}
  {[ "default_expiry_days" := "30"; "default_traffic_limit_mb" := "0" ]} 2 ∅.

(** Table updates. *)
Definition with_users (v : gmap Z user_row) (d : DB) : DB := mkDB
  v d.(users_seq) d.(devices) d.(prekeys) d.(tokens) d.(queue) d.(idempotency) d.(cursors)
  d.(receipts) d.(rooms) d.(members) d.(salts) d.(backups) d.(proxies) d.(peers) d.(vpn_peers)
  d.(vpn_nodes) d.(vpn_settings) d.(wg_addr_seq) d.(pushes).
Definition with_users_seq (v : Z) (d : DB) : DB := mkDB
  d.(users) v d.(devices) d.(prekeys) d.(tokens) d.(queue) d.(idempotency) d.(cursors)
  d.(receipts) d.(rooms) d.(members) d.(salts) d.(backups) d.(proxies) d.(peers) d.(vpn_peers)
  d.(vpn_nodes) d.(vpn_settings) d.(wg_addr_seq) d.(pushes).
Definition with_devices (v : gmap Z device_row) (d : DB) : DB := mkDB
  d.(users) d.(users_seq) v d.(prekeys) d.(tokens) d.(queue) d.(idempotency) d.(cursors)
  d.(receipts) d.(rooms) d.(members) d.(salts) d.(backups) d.(proxies) d.(peers) d.(vpn_peers)
  d.(vpn_nodes) d.(vpn_settings) d.(wg_addr_seq) d.(pushes).
Definition with_prekeys (v : gmap (Z * Z) prekey_row) (d : DB) : DB := mkDB
  d.(users) d.(users_seq) d.(devices) v d.(tokens) d.(queue) d.(idempotency) d.(cursors)
  d.(receipts) d.(rooms) d.(members) d.(salts) d.(backups) d.(proxies) d.(peers) d.(vpn_peers)
  d.(vpn_nodes) d.(vpn_settings) d.(wg_addr_seq) d.(pushes).
Definition with_tokens (v : gmap Z token_row) (d : DB) : DB := mkDB
  d.(users) d.(users_seq) d.(devices) d.(prekeys) v d.(queue) d.(idempotency) d.(cursors)
  d.(receipts) d.(rooms) d.(members) d.(salts) d.(backups) d.(proxies) d.(peers) d.(vpn_peers)
  d.(vpn_nodes) d.(vpn_settings) d.(wg_addr_seq) d.(pushes).
Definition with_queue (v : list queue_row) (d : DB) : DB := mkDB
  d.(users) d.(users_seq) d.(devices) d.(prekeys) d.(tokens) v d.(idempotency) d.(cursors)
  d.(receipts) d.(rooms) d.(members) d.(salts) d.(backups) d.(proxies) d.(peers) d.(vpn_peers)
  d.(vpn_nodes) d.(vpn_settings) d.(wg_addr_seq) d.(pushes).
Definition with_idempotency (v : gmap string string) (d : DB) : DB := mkDB
  d.(users) d.(users_seq) d.(devices) d.(prekeys) d.(tokens) d.(queue) v d.(cursors)
  d.(receipts) d.(rooms) d.(members) d.(salts) d.(backups) d.(proxies) d.(peers) d.(vpn_peers)
  d.(vpn_nodes) d.(vpn_settings) d.(wg_addr_seq) d.(pushes).
Definition with_cursors (v : gmap (Z * Z) string) (d : DB) : DB := mkDB
  d.(users) d.(users_seq) d.(devices) d.(prekeys) d.(tokens) d.(queue) d.(idempotency) v
  d.(receipts) d.(rooms) d.(members) d.(salts) d.(backups) d.(proxies) d.(peers) d.(vpn_peers)
  d.(vpn_nodes) d.(vpn_settings) d.(wg_addr_seq) d.(pushes).
Definition with_receipts (v : gmap (string * string) Z) (d : DB) : DB := mkDB
  d.(users) d.(users_seq) d.(devices) d.(prekeys) d.(tokens) d.(queue) d.(idempotency)
  d.(cursors) v d.(rooms) d.(members) d.(salts) d.(backups) d.(proxies) d.(peers) d.(vpn_peers)
  d.(vpn_nodes) d.(vpn_settings) d.(wg_addr_seq) d.(pushes).
Definition with_rooms (v : gmap Z room_row) (d : DB) : DB := mkDB
  d.(users) d.(users_seq) d.(devices) d.(prekeys) d.(tokens) d.(queue) d.(idempotency)
  d.(cursors) d.(receipts) v d.(members) d.(salts) d.(backups) d.(proxies) d.(peers)
  d.(vpn_peers) d.(vpn_nodes) d.(vpn_settings) d.(wg_addr_seq) d.(pushes).
Definition with_members (v : gmap (Z * Z) member_row) (d : DB) : DB := mkDB
  d.(users) d.(users_seq) d.(devices) d.(prekeys) d.(tokens) d.(queue) d.(idempotency)
  d.(cursors) d.(receipts) d.(rooms) v d.(salts) d.(backups) d.(proxies) d.(peers) d.(vpn_peers)
  d.(vpn_nodes) d.(vpn_settings) d.(wg_addr_seq) d.(pushes).
Definition with_salts (v : gmap Z string) (d : DB) : DB := mkDB
  d.(users) d.(users_seq) d.(devices) d.(prekeys) d.(tokens) d.(queue) d.(idempotency)
  d.(cursors) d.(receipts) d.(rooms) d.(members) v d.(backups) d.(proxies) d.(peers)
  d.(vpn_peers) d.(vpn_nodes) d.(vpn_settings) d.(wg_addr_seq) d.(pushes).
Definition with_backups (v : gmap Z string) (d : DB) : DB := mkDB
  d.(users) d.(users_seq) d.(devices) d.(prekeys) d.(tokens) d.(queue) d.(idempotency)
  d.(cursors) d.(receipts) d.(rooms) d.(members) d.(salts) v d.(proxies) d.(peers) d.(vpn_peers)
  d.(vpn_nodes) d.(vpn_settings) d.(wg_addr_seq) d.(pushes).
Definition with_proxies (v : gmap string proxy_row) (d : DB) : DB := mkDB
  d.(users) d.(users_seq) d.(devices) d.(prekeys) d.(tokens) d.(queue) d.(idempotency)
  d.(cursors) d.(receipts) d.(rooms) d.(members) d.(salts) d.(backups) v d.(peers) d.(vpn_peers)
  d.(vpn_nodes) d.(vpn_settings) d.(wg_addr_seq) d.(pushes).
Definition with_peers (v : gmap string peer_row) (d : DB) : DB := mkDB
  d.(users) d.(users_seq) d.(devices) d.(prekeys) d.(tokens) d.(queue) d.(idempotency)
  d.(cursors) d.(receipts) d.(rooms) d.(members) d.(salts) d.(backups) d.(proxies) v
  d.(vpn_peers) d.(vpn_nodes) d.(vpn_settings) d.(wg_addr_seq) d.(pushes).
Definition with_vpn_peers (v : gmap (Z * Z * string) vpn_peer_row) (d : DB) : DB := mkDB
  d.(users) d.(users_seq) d.(devices) d.(prekeys) d.(tokens) d.(queue) d.(idempotency)
  d.(cursors) d.(receipts) d.(rooms) d.(members) d.(salts) d.(backups) d.(proxies) d.(peers) v
  d.(vpn_nodes) d.(vpn_settings) d.(wg_addr_seq) d.(pushes).
Definition with_vpn_nodes (v : gmap Z vpn_node_row) (d : DB) : DB := mkDB
  d.(users) d.(users_seq) d.(devices) d.(prekeys) d.(tokens) d.(queue) d.(idempotency)
  d.(cursors) d.(receipts) d.(rooms) d.(members) d.(salts) d.(backups) d.(proxies) d.(peers)
  d.(vpn_peers) v d.(vpn_settings) d.(wg_addr_seq) d.(pushes).
Definition with_vpn_settings (v : gmap string string) (d : DB) : DB := mkDB
  d.(users) d.(users_seq) d.(devices) d.(prekeys) d.(tokens) d.(queue) d.(idempotency)
  d.(cursors) d.(receipts) d.(rooms) d.(members) d.(salts) d.(backups) d.(proxies) d.(peers)
  d.(vpn_peers) d.(vpn_nodes) v d.(wg_addr_seq) d.(pushes).
Definition with_wg_addr_seq (v : Z) (d : DB) : DB := mkDB
  d.(users) d.(users_seq) d.(devices) d.(prekeys) d.(tokens) d.(queue) d.(idempotency)
  d.(cursors) d.(receipts) d.(rooms) d.(members) d.(salts) d.(backups) d.(proxies) d.(peers)
  d.(vpn_peers) d.(vpn_nodes) d.(vpn_settings) v d.(pushes).
Definition with_pushes (v : gmap string push_row) (d : DB) : DB := mkDB
  d.(users) d.(users_seq) d.(devices) d.(prekeys) d.(tokens) d.(queue) d.(idempotency)
  d.(cursors) d.(receipts) d.(rooms) d.(members) d.(salts) d.(backups) d.(proxies) d.(peers)
  d.(vpn_peers) d.(vpn_nodes) d.(vpn_settings) d.(wg_addr_seq) v.

(** ** SQL idioms *)

(** [SELECT EXISTS (SELECT 1 FROM t WHERE P)] *)
Definition exists_row {K A} `{Countable K} (P : K → A → bool) (t : gmap K A) : bool :=
  existsb (λ kr, P kr.1 kr.2) (map_to_list t).

(** [SELECT ... FROM t WHERE P] *)
Definition select_rows {K A} `{Countable K} (P : K → A → bool) (t : gmap K A) : list (K * A) :=
  List.filter (λ kr, P kr.1 kr.2) (map_to_list t).

(** [QueryRow(...).Scan(...)]: the first row, or [pgx.ErrNoRows]. *)
Definition first_row {A} (l : list A) : option A := head l.

(** [UPDATE t SET ... WHERE P] *)
Definition update_where {K A} `{Countable K} (P : K → A → bool) (f : A → A)
    (t : gmap K A) : gmap K A :=
  map_imap (λ k r, Some (if P k r then f r else r)) t.

(** [DELETE FROM t WHERE P] *)
Definition delete_where {K A} `{Countable K} (P : K → A → bool)
    (t : gmap K A) : gmap K A :=
  map_imap (λ k r, if P k r then None else Some r) t.

(** [ORDER BY ... LIMIT 1] *)
Lemma first_row_sorted {A} (R : relation A) `{!RelDecision R, !PreOrder R, !Total R} l x :
  first_row (merge_sort R l) = Some x → x ∈ l ∧ ∀ y, y ∈ l → R x y.
Proof.
  intros Hx. pose proof (merge_sort_Permutation R l) as Hp.
  pose proof (StronglySorted_merge_sort R l) as Hs. unfold first_row in Hx.
  destruct (merge_sort R l) as [|x' l'] eqn:Hm; simplify_eq/=.
  split; [rewrite <- Hp; set_solver|]. intros y Hy. rewrite <- Hp in Hy.
  apply elem_of_cons in Hy as [->|Hy]; [reflexivity|].
  apply StronglySorted_inv in Hs as [_ Hall]. by eapply Forall_forall in Hall.
Qed.

Lemma first_row_sorted_None {A} (R : relation A) `{!RelDecision R} l :
  first_row (merge_sort R l) = None ↔ l = [].
Proof.
  pose proof (merge_sort_Permutation R l) as Hp. unfold first_row.
  destruct (merge_sort R l); simpl; split; intros Hl; try done.
  - by apply Permutation_nil_l in Hp.
  - subst. by apply Permutation_nil_r in Hp.
Qed.

Section idioms.
Context {K A : Type} `{Countable K}.
Implicit Types (t : gmap K A) (P : K → A → bool).

Lemma lookup_update_where P f t k :
  update_where P f t !! k = (λ r, if P k r then f r else r) <$> t !! k.
Proof. unfold update_where. rewrite map_lookup_imap. by destruct (t !! k). Qed.

Lemma lookup_delete_where P t k :
  delete_where P t !! k = (r ← t !! k; if P k r then None else Some r).
Proof. unfold delete_where. rewrite map_lookup_imap. by destruct (t !! k). Qed.

Lemma exists_row_true P t :
  exists_row P t = true ↔ ∃ k r, t !! k = Some r ∧ P k r = true.
Proof.
  unfold exists_row. rewrite existsb_exists. split.
  - intros ([k r] & Hin & HP). exists k, r. split; [|done].
    apply elem_of_map_to_list. by apply list_elem_of_In.
  - intros (k & r & Ht & HP). exists (k, r). split; [|done].
    apply list_elem_of_In. by apply elem_of_map_to_list.
Qed.

Lemma elem_of_select_rows P t k r :
  (k, r) ∈ select_rows P t ↔ t !! k = Some r ∧ P k r = true.
Proof.
  unfold select_rows. rewrite list_elem_of_In, filter_In, <- list_elem_of_In.
  by rewrite elem_of_map_to_list.
Qed.

Lemma NoDup_select_rows P t : NoDup (select_rows P t).*1.
Proof.
  unfold select_rows. pose proof (NoDup_fst_map_to_list t) as Hn.
  induction (map_to_list t) as [|[k r] l IH]; simpl; [constructor|].
  apply NoDup_cons in Hn as [Hk Hn]. destruct (P k r); simpl; [|auto].
  constructor; [|auto]. contradict Hk.
  apply list_elem_of_fmap in Hk as ([k' r'] & -> & Hin). simpl.
  apply list_elem_of_In, filter_In in Hin as [Hin _].
  apply list_elem_of_fmap. exists (k', r'). split; [done|]. by apply list_elem_of_In.
Qed.

Lemma first_row_select P t k r :
  first_row (select_rows P t) = Some (k, r) → t !! k = Some r ∧ P k r = true.
Proof.
  intros Hh. apply elem_of_select_rows. unfold first_row in Hh.
  destruct (select_rows P t); simplify_eq/=. set_solver.
Qed.

Lemma first_row_select_None P t :
  first_row (select_rows P t) = None ↔ ∀ k r, t !! k = Some r → P k r = false.
Proof.
  unfold first_row. split.
  - intros Hh k r Hk. apply not_true_is_false. intros HP.
    assert ((k, r) ∈ select_rows P t) by by apply elem_of_select_rows.
    destruct (select_rows P t); [set_solver|done].
  - intros Hn. destruct (select_rows P t) as [|[k r] l] eqn:Hs; [done|].
    assert ((k, r) ∈ select_rows P t) as Hin by (rewrite Hs; set_solver).
    apply elem_of_select_rows in Hin as [Hk HP]. by rewrite (Hn k r Hk) in HP.
Qed.

(** Counting rows: the keys that match afterwards matched before, up to
    [extra]. *)
Lemma length_select_rows_le P t t' (extra : list K) :
  (∀ k r', t' !! k = Some r' → P k r' = true →
     k ∈ extra ∨ ∃ r, t !! k = Some r ∧ P k r = true) →
  length (select_rows P t') ≤ length extra + length (select_rows P t).
Proof.
  intros Hk.
  rewrite <- (length_fmap fst (select_rows P t')), <- (length_fmap fst (select_rows P t)),
    <- length_app.
  apply submseteq_length, NoDup_submseteq; [apply NoDup_select_rows|].
  intros k ([k' r'] & -> & [Ht' HP]%elem_of_select_rows)%list_elem_of_fmap. simpl.
  apply elem_of_app. destruct (Hk _ _ Ht' HP) as [?|(r & Ht & HPr)]; [by left|right].
  apply list_elem_of_fmap. exists (k', r). split; [done|]. by apply elem_of_select_rows.
Qed.
End idioms.

(** [DELETE FROM devices WHERE P], with the [ON DELETE CASCADE] references of
    [one_time_prekeys], [access_tokens], [vpn_peers] and [push_subscriptions]. *)
Definition delete_devices (P : Z → device_row → bool) (d : DB) : DB :=
  let gone dev := match d.(devices) !! dev with Some r => P dev r | None => false end in
  with_devices (delete_where P d.(devices))
    (with_prekeys (delete_where (λ k _, gone k.1) d.(prekeys))
       (with_tokens (delete_where (λ _ r, gone r.(t_device)) d.(tokens))
          (with_vpn_peers (delete_where (λ k _, gone k.1.2) d.(vpn_peers))
             (with_pushes (delete_where (λ _ r, gone r.(ps_device)) d.(pushes)) d)))).
