(* ===== verification/Samples.v ===== *)
(** * Concrete instances of the parameters

    The development is parametric in the code outside the repository.  These
    instances satisfy the hypotheses made about it, so that the theorems can
    be evaluated on concrete inputs. *)

From Stdlib Require Import Ascii String.
From stdpp Require Import strings.
From S2P Require Import Prelude GoStrings Encoding Schema.
Set Default Goal Selector "!".
Open Scope stdpp_scope.

(** UUIDs printed in decimal. *)
#[export] Instance sample_uuid : UuidLib := {|
  uuid_parse := parse_digits;
  uuid_parsed s := default 0%Z (parse_digits s);
  uuid_string := itoa;
|}.

#[export] Instance sample_uuid_laws : UuidLaws.
Proof.
  split.
  - intros u Hu. destruct u as [|p|p]; [done| |lia]. simpl. unfold itoa.
    change (Z.to_int (Z.pos p)) with (Decimal.Pos (Pos.to_uint p)). simpl.
    rewrite parse_digits_of_uint by apply DecimalPos.Unsigned.to_uint_nonnil.
    f_equal. apply (DecimalZ.of_to (Z.pos p)).
  - intros s u Hs. simpl in *. by rewrite Hs.
  - intros u. simpl. destruct u; [done| |done]. unfold itoa. simpl.
    pose proof (DecimalPos.Unsigned.to_uint_nonnil p). by destruct (Pos.to_uint p).
  - intros u. simpl. by apply itoa_lacks.
  - intros u v. apply itoa_inj.
Defined.

#[export] Instance sample_pg : PgText := {|
  pg_lower := smap lower_byte;
  pg_timestamptz := parse_int;
  format_nano := itoa;
|}.

#[export] Instance sample_pg_laws : PgLaws.
Proof.
  split; [apply parse_int_itoa|]. intros t Ht. pose proof (parse_int_itoa t) as Hp.
  simpl in *. by rewrite Ht in Hp.
Defined.

#[export] Instance sample_unicode : GoUnicode := {|
  uni_to_lower := λ s, s;
  uni_equal_fold := String.eqb;
|}.
