(* ===== verification/GoPath.v ===== *)
(** * Paths and files ([path/filepath], [os])

    What the code uses of [filepath] on Unix: [Clean], [Join], [Base]; a file
    system without links; [os.MkdirAll], [os.Create], [os.Remove]. *)

From Stdlib Require Import Ascii String.
From stdpp Require Import strings.
From S2P Require Import Prelude GoStrings.
Set Default Goal Selector "!".
Open Scope stdpp_scope.

Module GoPath.

(** ** Lexical paths *)

(** Rooted, and the components. *)
Abbreviation path := (bool * list string)%type.

(** [acc]: the components so far, the last first. *)
Fixpoint clean_from (rooted : bool) (acc l : list string) : list string :=
  match l with
  | [] => reverse acc
  | c :: l =>
    if String.eqb c "" || String.eqb c "." then clean_from rooted acc l
    else if String.eqb c ".." then
      match acc with
      | x :: acc' => if String.eqb x ".." then clean_from rooted (c :: acc) l else clean_from rooted acc' l
      | [] => clean_from rooted (if rooted then [] else [c]) l
      end
    else clean_from rooted (c :: acc) l
  end.

(** What [filepath.Clean] makes of a text. *)
Definition parse (s : string) : path :=
  let rooted := has_prefix s "/" in (rooted, clean_from rooted [] (split_byte "/" s)).

Definition path_text (p : path) : string :=
  match p.2 with
  | [] => if p.1 then "/" else "."
  | l => (if p.1 then "/" else "") +:+ join "/" l
  end.

Definition Clean (s : string) : string := path_text (parse s).

(** [filepath.Join(a, b)] of texts that are not empty. *)
Definition Join (a b : string) : string := Clean (a +:+ "/" +:+ b).

Fixpoint drop_slashes (s : string) : string :=
  match s with String "/" s' => drop_slashes s' | _ => s end.
Definition drop_last_slashes (s : string) : string := srev (drop_slashes (srev s)).

Definition Base (s : string) : string :=
  if String.eqb s "" then "." else
  let s := drop_last_slashes s in
  let s := match last_index s "/" with Some i => sdrop (S i) s | None => s end in
  if String.eqb s "" then "/" else s.

(** ** Files *)
Inductive node := Dir | File (content : string).
Abbreviation fs := (gmap path node).

Definition is_dir (p : path) (d : fs) : bool :=
  match p.2 with [] => true | _ => match d !! p with Some Dir => true | _ => false end end.

(** The directories [base ++ rest] above [base], made as far as they are
    missing; [stop]: after how many the system refuses. *)
Fixpoint mkdirs (rooted : bool) (base rest : list string) (stop : option nat) (d : fs) : bool * fs :=
  match rest with
  | [] => (true, d)
  | c :: rest =>
    let p := (rooted, base ++ [c]) in
    match d !! p with
    | Some Dir => mkdirs rooted (base ++ [c]) rest stop d
    | Some (File _) => (false, d)
    | None =>
      match stop with
      | Some 0 => (false, d)
      | _ => mkdirs rooted (base ++ [c]) rest (pred <$> stop) (<[p := Dir]> d)
      end
    end
  end.

Definition MkdirAll (s : string) (stop : option nat) (d : fs) : bool * fs :=
  let p := parse s in mkdirs p.1 [] p.2 stop d.

(** An empty file, in place of an older one; [ok]: whether the system allows
    it. *)
Definition Create (s : string) (ok : bool) (d : fs) : option fs :=
  let p := parse s in
  if ok && negb (is_dir p d) && is_dir (p.1, removelast p.2) d then Some (<[p := File ""]> d) else None.

Definition write (s content : string) (d : fs) : fs := <[parse s := File content]> d.
Definition Remove (s : string) (ok : bool) (d : fs) : fs := if ok then delete (parse s) d else d.

Example clean_dots : Clean "/data//backups/./x/../y/" = "/data/backups/y".
Proof. done. Qed.
Example clean_up : Clean "a/../../b" = "../b".
Proof. done. Qed.
Example clean_root : Clean "/../.." = "/".
Proof. done. Qed.
Example base_of : Base "/a/b//" = "b" ∧ Base "//" = "/" ∧ Base "a/.." = "..".
Proof. done. Qed.

(** ** Properties *)

(** A component that means itself. *)
Definition ordinary (c : string) : Prop := c ≠ "" ∧ c ≠ "." ∧ c ≠ ".." ∧ lacks "/" c = true.

(** What cleaning leaves: a path that goes up at its beginning only, and never
    from the root. *)
Definition cleaned (rooted : bool) (l : list string) : Prop :=
  ∃ n m, l = replicate n ".." ++ m ∧ Forall ordinary m ∧ (rooted = true → n = 0).

Lemma ordinary_eqb c :
  ordinary c → String.eqb c "" = false ∧ String.eqb c "." = false ∧ String.eqb c ".." = false.
Proof. intros (?&?&?&?). by rewrite !(proj2 (String.eqb_neq _ _)). Qed.

Lemma cleaned_snoc rooted l c : cleaned rooted l → ordinary c → cleaned rooted (l ++ [c]).
Proof.
  intros (n & m & -> & Hm & Hr) Hc. exists n, (m ++ [c]). rewrite app_assoc. split; [done|].
  split; [|done]. apply Forall_app. auto.
Qed.

Lemma cleaned_last rooted l x : cleaned rooted (l ++ [x]) → cleaned rooted l.
Proof.
  intros (n & m & He & Hm & Hr). destruct m as [|c m _] using rev_ind.
  - rewrite app_nil_r in He. destruct n as [|n]; [by destruct l|].
    rewrite replicate_S_end in He. apply app_inj_tail in He as [-> ->].
    exists n, []. rewrite app_nil_r. split; [done|]. split; [done|]. intros H. by specialize (Hr H).
  - rewrite app_assoc in He. apply app_inj_tail in He as [-> ->]. apply Forall_app in Hm as [Hm _].
    by exists n, m.
Qed.

Lemma clean_from_cleaned rooted acc l :
  Forall (λ c, lacks "/" c = true) l → cleaned rooted (reverse acc) → cleaned rooted (clean_from rooted acc l).
Proof.
  revert acc. induction l as [|c l IH]; intros acc; [done|]. intros [Hc Hl]%Forall_cons Ha. simpl.
  destruct (String.eqb_spec c ""); [by apply IH|]. destruct (String.eqb_spec c "."); [by apply IH|]. simpl.
  destruct (String.eqb_spec c "..") as [->|].
  - destruct acc as [|x acc].
    + apply IH; [done|]. destruct rooted; [exists 0, []|exists 1, []]; done.
    + rewrite reverse_cons in Ha. destruct (String.eqb_spec x "..") as [->|].
      * apply IH; [done|]. rewrite !reverse_cons. destruct Ha as (k & m & He & Hm & Hr).
        destruct m as [|y m _] using rev_ind.
        -- rewrite app_nil_r in He. exists (S k), []. rewrite He, replicate_S_end, app_nil_r. split; [done|].
           split; [done|]. intros H. rewrite (Hr H) in He. by destruct (reverse acc).
        -- rewrite app_assoc in He. apply app_inj_tail in He as [_ <-].
           apply Forall_app in Hm as [_ [(_ & _ & ? & _) _]%Forall_cons]. done.
      * apply IH; [done|]. by eapply cleaned_last.
  - apply IH; [done|]. rewrite reverse_cons. by apply cleaned_snoc.
Qed.

(** A cleaned path is read as it is. *)
Lemma clean_from_ordinary rooted acc m l :
  Forall ordinary m → clean_from rooted acc (m ++ l) = clean_from rooted (reverse m ++ acc) l.
Proof.
  revert acc. induction m as [|c m IH]; intros acc; [done|]. intros [Hc Hm]%Forall_cons. simpl.
  destruct (ordinary_eqb _ Hc) as (-> & -> & ->). simpl. rewrite IH by done.
  by rewrite reverse_cons, <- app_assoc.
Qed.

Lemma clean_from_id rooted l rest :
  cleaned rooted l → clean_from rooted [] (l ++ rest) = clean_from rooted (reverse l) rest.
Proof.
  intros (n & m & -> & Hm & Hr).
  assert (∀ k, clean_from rooted (replicate k "..") (replicate n ".." ++ m ++ rest) =
    clean_from rooted (replicate (n + k) "..") (m ++ rest)) as Hups.
  { clear Hm. induction n as [|n IH]; intros k; [done|].
    assert (rooted = false) as -> by (destruct rooted; [by specialize (Hr eq_refl)|done]).
    specialize (IH ltac:(done) (S k)). destruct k; simpl in *; rewrite IH;
      (f_equal; rewrite <- ?replicate_S; f_equal; lia). }
  rewrite <- app_assoc. etrans; [apply (Hups 0)|]. rewrite clean_from_ordinary, Nat.add_0_r by done.
  by rewrite reverse_app, reverse_replicate.
Qed.

(** *** Texts of paths *)
Lemma cleaned_lacks rooted l : cleaned rooted l → Forall (λ c, c ≠ "" ∧ lacks "/" c = true) l.
Proof.
  intros (n & m & -> & Hm & _). apply Forall_app. split.
  - by apply Forall_replicate.
  - eapply Forall_impl; [done|]. intros c (?&_&_&?). done.
Qed.

Lemma has_prefix_first c a s : has_prefix (String a s) (String c "") = Ascii.eqb c a.
Proof.
  unfold has_prefix. cbn [String.prefix]. destruct (ascii_dec c a) as [->|Hne].
  - rewrite Ascii.eqb_refl. by destruct s.
  - symmetry. by apply Ascii.eqb_neq.
Qed.

Lemma join_first c l : c ≠ "" → ∃ a s, join "/" (c :: l) = String a s ∧ ∃ s', c = String a s'.
Proof. intros Hc. destruct c as [|a c]; [done|]. destruct l; simpl; eauto. Qed.

Lemma has_prefix_join c l s :
  c ≠ "" → lacks "/" c = true → has_prefix (join "/" (c :: l) +:+ s) "/" = false.
Proof.
  intros Hc Hs. destruct (join_first c l Hc) as (a & t & -> & s' & ->).
  apply lacks_cons_inv in Hs as [Ha _]. rewrite string_app_cons, has_prefix_first.
  apply Ascii.eqb_neq. congruence.
Qed.

(** Reading a path and then more of it. *)
Lemma parse_app p b :
  cleaned p.1 p.2 → parse (path_text p +:+ "/" +:+ b) = (p.1, clean_from p.1 (reverse p.2) (split_byte "/" b)).
Proof.
  destruct p as [rooted l]. simpl. intros Hc. pose proof (cleaned_lacks _ _ Hc) as Hl.
  assert (parse (path_text (rooted, l) +:+ "/" +:+ b) = (rooted, clean_from rooted [] (l ++ split_byte "/" b)))
    as ->; [|by rewrite clean_from_id].
  unfold parse, path_text. cbn [fst snd]. destruct l as [|c l]; [by destruct rooted|].
  assert (split_byte "/" (join "/" (c :: l)) = c :: l) as Hj.
  { apply split_byte_join; [|done]. eapply Forall_impl; [done|]. by intros ? []. }
  change ("/" +:+ b) with (String "/" b).
  destruct rooted; rewrite <- string_app_assoc.
  - set (t := join "/" (c :: l) +:+ String "/" b).
    change ("/" +:+ t) with (String "/" t). rewrite has_prefix_first.
    rewrite (split_byte_app "/" "" t : split_byte "/" (String "/" t) = _).
    unfold t. by rewrite split_byte_app, Hj.
  - change ("" +:+ (join "/" (c :: l) +:+ String "/" b)) with (join "/" (c :: l) +:+ String "/" b).
    rewrite split_byte_app, Hj.
    apply Forall_cons in Hl as [[? ?] _]. by rewrite has_prefix_join.
Qed.

Lemma clean_from_app rooted acc l1 l2 :
  clean_from rooted acc (l1 ++ l2) = clean_from rooted (reverse (clean_from rooted acc l1)) l2.
Proof.
  revert acc. induction l1 as [|c l1 IH]; intros acc; simpl; [by rewrite reverse_involutive|].
  repeat case_match; apply IH.
Qed.

Lemma split_byte_each c s : Forall (λ w, lacks c w = true) (split_byte c s).
Proof.
  induction s as [|a s IH]; [by repeat constructor|]. simpl. destruct (Ascii.eqb_spec a c) as [->|Hne].
  - by constructor.
  - pose proof (split_byte_nonempty c s). destruct (split_byte c s) as [|w ws]; [done|].
    apply Forall_cons in IH as [Hw Hws]. constructor; [|done]. unfold lacks in *. cbn [sforall].
    rewrite Hw. apply Ascii.eqb_neq in Hne. by rewrite Hne.
Qed.

Lemma parse_cleaned s : cleaned (parse s).1 (parse s).2.
Proof. apply clean_from_cleaned; [apply split_byte_each|]. by exists 0, []. Qed.

(** A component added to a path. *)
Lemma clean_from_one rooted l c :
  ordinary c → clean_from rooted (reverse l) (split_byte "/" c) = l ++ [c].
Proof.
  intros Hc. rewrite split_byte_lacks by apply Hc. simpl. destruct (ordinary_eqb _ Hc) as (-> & -> & ->). simpl.
  by rewrite reverse_cons, reverse_involutive.
Qed.

Lemma parse_text p : cleaned p.1 p.2 → parse (path_text p) = p.
Proof.
  destruct p as [rooted l]. intros Hc. pose proof (cleaned_lacks _ _ Hc) as Hl.
  unfold parse, path_text. cbn [fst snd] in *. destruct l as [|c l]; [by destruct rooted|].
  assert (split_byte "/" (join "/" (c :: l)) = c :: l) as Hj.
  { apply split_byte_join; [|done]. eapply Forall_impl; [done|]. by intros ? []. }
  assert (∀ r, cleaned r (c :: l) → clean_from r [] (c :: l) = c :: l) as Hid.
  { intros r Hr. pose proof (clean_from_id _ _ [] Hr) as He. rewrite app_nil_r in He. rewrite He. simpl.
    apply reverse_involutive. }
  destruct rooted.
  - set (t := join "/" (c :: l)). change ("/" +:+ t) with (String "/" t). rewrite has_prefix_first.
    rewrite (split_byte_app "/" "" t : split_byte "/" (String "/" t) = _). unfold t. rewrite Hj.
    cbn -[clean_from]. by rewrite (Hid _ Hc : clean_from true [] ("" :: c :: l) = _).
  - change ("" +:+ join "/" (c :: l)) with (join "/" (c :: l)). rewrite Hj. apply Forall_cons in Hl as [[Hn Hs] _].
    pose proof (has_prefix_join c l "" Hn Hs) as Hp. rewrite string_app_nil_r in Hp. by rewrite Hp, Hid.
Qed.

Lemma parse_Join a c :
  a ≠ "" → ordinary c → parse (Join a c) = ((parse a).1, (parse a).2 ++ [c]).
Proof.
  intros Ha Hc. unfold Join, Clean. rewrite parse_text by apply parse_cleaned.
  unfold parse at 1. destruct a as [|x a]; [done|].
  assert (has_prefix (String x a +:+ "/" +:+ c) "/" = has_prefix (String x a) "/") as ->
    by by rewrite string_app_cons, !has_prefix_first.
  change ("/" +:+ c) with (String "/" c). rewrite split_byte_app, clean_from_app.
  unfold parse. cbn [fst snd]. by rewrite clean_from_one.
Qed.

Lemma join_ne l c : c ≠ "" → join "/" (c :: l) ≠ "".
Proof. intros Hc. by destruct (join_first c l Hc) as (a & s & -> & _). Qed.

Lemma Clean_ne s : Clean s ≠ "".
Proof.
  unfold Clean, path_text. pose proof (cleaned_lacks _ _ (parse_cleaned s)) as Hl.
  destruct (parse s) as [r [|c l]]; cbn [fst snd] in *; [by destruct r|].
  apply Forall_cons in Hl as [[Hc _] _]. pose proof (join_ne l c Hc). destruct r; [done|]. done.
Qed.

Lemma parse_Clean s : parse (Clean s) = parse s.
Proof. apply parse_text, parse_cleaned. Qed.

(** What [Join] adds to a path that is clean. *)
Lemma parse_Join_Clean a b :
  parse (Join (Clean a) b) = ((parse a).1, clean_from (parse a).1 (reverse (parse a).2) (split_byte "/" b)).
Proof. unfold Join. rewrite parse_Clean. unfold Clean. apply parse_app, parse_cleaned. Qed.

(** *** [Base] *)

Lemma last_index_none s : last_index s "/" = None → lacks "/" s = true.
Proof.
  induction s as [|b s IH]; [done|]. cbn [last_index]. destruct (last_index s "/"); [done|].
  rewrite has_prefix_first. destruct (Ascii.eqb_spec "/" b) as [|Hne]; [done|].
  intros _. apply lacks_cons; [congruence|auto].
Qed.

Lemma last_index_after s i : last_index s "/" = Some i → lacks "/" (sdrop (S i) s) = true.
Proof.
  revert i. induction s as [|a s IH]; intros i; [done|]. cbn [last_index].
  destruct (last_index s "/") as [j|] eqn:Hj; [intros [= <-]; by apply IH|].
  case_match; [|done]. intros [= <-]. by apply last_index_none.
Qed.

Lemma Base_component s : Base s = "/" ∨ Base s ≠ "" ∧ lacks "/" (Base s) = true.
Proof.
  unfold Base. destruct (String.eqb s ""); [by right|]. set (t := drop_last_slashes s). clearbody t.
  destruct (last_index t "/") as [i|] eqn:Hi.
  - destruct (String.eqb_spec (sdrop (S i) t) ""); [by left|]. right. split; [done|]. by apply last_index_after.
  - destruct (String.eqb_spec t ""); [by left|]. right. split; [done|]. by apply last_index_none.
Qed.

(** *** Files *)
Section mkdirs.
Context (rooted : bool).

Lemma mkdirs_keeps base rest stop d p n :
  d !! p = Some n → (mkdirs rooted base rest stop d).2 !! p = Some n.
Proof.
  revert base stop d. induction rest as [|c rest IH]; intros base stop d Hp; [done|]. simpl.
  destruct (d !! (rooted, base ++ [c])) as [[]|] eqn:Hd; [by apply IH|done|].
  assert (∀ s, (mkdirs rooted (base ++ [c]) rest s (<[(rooted, base ++ [c]):=Dir]> d)).2 !! p = Some n) as Hn.
  { intros s. apply IH. rewrite lookup_insert_ne; [done|]. intros <-. by rewrite Hd in Hp. }
  destruct stop as [[]|]; [done|apply Hn..].
Qed.

(** Only directories on the way are made. *)
Lemma mkdirs_new base rest stop d p n :
  d !! p = None → (mkdirs rooted base rest stop d).2 !! p = Some n →
  n = Dir ∧ ∃ k, p = (rooted, base ++ take k rest).
Proof.
  revert base stop d. induction rest as [|c rest IH]; intros base stop d Hp; simpl; [congruence|].
  assert (∀ k, base ++ c :: take k rest = (base ++ [c]) ++ take k rest) as Htake.
  { intros k. by rewrite <- app_assoc. }
  destruct (d !! (rooted, base ++ [c])) as [[]|] eqn:Hd; [|simpl; congruence|].
  - intros [? [k ->]]%IH; [|done]. split; [done|]. exists (S k). by rewrite <- Htake.
  - assert (∀ s, (mkdirs rooted (base ++ [c]) rest s (<[(rooted, base ++ [c]):=Dir]> d)).2 !! p = Some n →
      n = Dir ∧ ∃ k, p = (rooted, base ++ take k (c :: rest))) as Hn.
    { intros s Hm. destruct (decide (p = (rooted, base ++ [c]))) as [->|Hne].
      - rewrite (mkdirs_keeps _ _ _ _ _ Dir) in Hm by apply lookup_insert_eq. injection Hm as <-. by split; [|exists 1].
      - apply IH in Hm as [? [k ->]]; [|by rewrite lookup_insert_ne]. split; [done|]. exists (S k). simpl.
        by rewrite Htake. }
    destruct stop as [[]|]; [simpl; congruence|apply Hn..].
Qed.

Lemma mkdirs_made base rest stop d :
  (mkdirs rooted base rest stop d).1 = true →
  ∀ k, 0 < k ≤ length rest → (mkdirs rooted base rest stop d).2 !! (rooted, base ++ take k rest) = Some Dir.
Proof.
  revert base stop d. induction rest as [|c rest IH]; intros base stop d; simpl; [lia|].
  assert (∀ s d1, d1 !! (rooted, base ++ [c]) = Some Dir → (mkdirs rooted (base ++ [c]) rest s d1).1 = true →
    ∀ k, 0 < k ≤ S (length rest) →
      (mkdirs rooted (base ++ [c]) rest s d1).2 !! (rooted, base ++ take k (c :: rest)) = Some Dir) as Hgo.
  { intros s d1 Hd Ht [|k] Hk; [lia|]. simpl. replace (base ++ c :: take k rest) with ((base ++ [c]) ++ take k rest)
      by by rewrite <- app_assoc.
    destruct k as [|k]; [|apply IH; [done|lia]]. rewrite take_0, app_nil_r. by apply mkdirs_keeps. }
  destruct (d !! (rooted, base ++ [c])) as [[]|] eqn:Hd; [by apply Hgo|done|].
  destruct stop as [[]|]; [done|apply Hgo, lookup_insert_eq..].
Qed.
End mkdirs.
End GoPath.
