(* ===== verification/Wire.v ===== *)
(** * The JSON of the federation protocol

    The structs of [server/internal/federation] that travel as JSON, with
    their [json.Marshal] and [json.Unmarshal] ([client.go], [server.go],
    [keys.go], [discovery.go]), and the round trips two servers rely on. *)

From Stdlib Require Import Ascii String.
From stdpp Require Import strings.
From S2P Require Import Prelude GoStrings Encoding Json Schema Samples.
Set Default Goal Selector "!".
Open Scope stdpp_scope.

(** ** Transactions *)
Record EventContent := { Ciphertext : string; SessionID : string }.

Record TransactionEvent := {
  EventID : string;
  Type_ : string;
  Sender : string;
  Recipient : string;
  Timestamp : Z;
  Content : EventContent;
}.

(** As they arrive ([server.go]) ... *)
Record TransactionRequest := {
  TransactionID : string;
  Origin : string;
  Destination : string;
  Events : list TransactionEvent;
}.

(** ... and as they are sent ([client.go]). *)
Record Transaction := {
  t_TransactionID : string;
  t_Origin : string;
  t_Destination : string;
  t_Events : list TransactionEvent;
}.

Definition event_json (e : TransactionEvent) : json :=
  JObj [("event_id", JStr (EventID e)); ("type", JStr (Type_ e)); ("sender", JStr (Sender e));
        ("recipient", JStr (Recipient e)); ("timestamp", JInt (Timestamp e));
        ("content", JObj [("ciphertext", JStr (Ciphertext (Content e)));
                          ("session_id", JStr (SessionID (Content e)))])].

(** [json.Marshal(txn)]; the backend never sends a nil [Events]. *)
Definition transaction_json (t : Transaction) : json :=
  JObj [("transaction_id", JStr (t_TransactionID t)); ("origin", JStr (t_Origin t));
        ("destination", JStr (t_Destination t)); ("events", JArr (event_json <$> t_Events t))].

Definition enc_transaction (t : Transaction) : string := marshal (transaction_json t).

Definition zero_content : EventContent := {| Ciphertext := ""; SessionID := "" |}.
Definition zero_event : TransactionEvent :=
  {| EventID := ""; Type_ := ""; Sender := ""; Recipient := ""; Timestamp := 0;
     Content := zero_content |}.

Section decoding.
Context `{HU : GoUnicode}.

Definition dec_content : Dec EventContent := dec_struct
  [("ciphertext", at_field Ciphertext
      (λ v c, {| Ciphertext := v; SessionID := SessionID c |}) dec_string);
   ("session_id", at_field SessionID
      (λ v c, {| Ciphertext := Ciphertext c; SessionID := v |}) dec_string)].

Definition dec_event : Dec TransactionEvent := dec_struct
  [("event_id", at_field EventID
      (λ v e, {| EventID := v; Type_ := Type_ e; Sender := Sender e; Recipient := Recipient e;
                 Timestamp := Timestamp e; Content := Content e |}) dec_string);
   ("type", at_field Type_
      (λ v e, {| EventID := EventID e; Type_ := v; Sender := Sender e; Recipient := Recipient e;
                 Timestamp := Timestamp e; Content := Content e |}) dec_string);
   ("sender", at_field Sender
      (λ v e, {| EventID := EventID e; Type_ := Type_ e; Sender := v; Recipient := Recipient e;
                 Timestamp := Timestamp e; Content := Content e |}) dec_string);
   ("recipient", at_field Recipient
      (λ v e, {| EventID := EventID e; Type_ := Type_ e; Sender := Sender e; Recipient := v;
                 Timestamp := Timestamp e; Content := Content e |}) dec_string);
   ("timestamp", at_field Timestamp
      (λ v e, {| EventID := EventID e; Type_ := Type_ e; Sender := Sender e;
                 Recipient := Recipient e; Timestamp := v; Content := Content e |}) dec_int64);
   ("content", at_field Content
      (λ v e, {| EventID := EventID e; Type_ := Type_ e; Sender := Sender e;
                 Recipient := Recipient e; Timestamp := Timestamp e; Content := v |}) dec_content)].

(** The request while it is decoded: its scalar fields and its slice. *)
Definition dec_request : Dec (TransactionRequest * slice TransactionEvent) := dec_struct
  [("transaction_id", at_field (TransactionID ∘ fst)
      (λ v r, ({| TransactionID := v; Origin := Origin r.1; Destination := Destination r.1;
                  Events := [] |}, r.2)) dec_string);
   ("origin", at_field (Origin ∘ fst)
      (λ v r, ({| TransactionID := TransactionID r.1; Origin := v;
                  Destination := Destination r.1; Events := [] |}, r.2)) dec_string);
   ("destination", at_field (Destination ∘ fst)
      (λ v r, ({| TransactionID := TransactionID r.1; Origin := Origin r.1; Destination := v;
                  Events := [] |}, r.2)) dec_string);
   ("events", at_field snd (λ v r, (r.1, v)) (dec_slice zero_event dec_event))].

Definition zero_request : TransactionRequest :=
  {| TransactionID := ""; Origin := ""; Destination := ""; Events := [] |}.

Definition dec_transaction (body : string) : option TransactionRequest :=
  j ← unmarshal body; r ← dec_request (zero_request, nil_slice) j;
  Some {| TransactionID := TransactionID r.1; Origin := Origin r.1;
          Destination := Destination r.1; Events := items r.2 |}.

(** ** The answers the client reads *)

(** [FederationConfig], from a stream and its endpoint. *)
Definition dec_endpoint (body : string) : option string :=
  j ← decode_first body;
  r ← dec_struct
        [("federation_endpoint", at_field fst (λ v r, (v, r.2)) dec_string);
         ("server_key", at_field snd (λ v r, (r.1, v)) dec_string)] ("", "") j;
  Some r.1.

(** The server key of the whole body. *)
Definition dec_server_key (body : string) : option string :=
  j ← unmarshal body; dec_struct [("server_key", dec_string)] "" j.

Definition dec_servers (body : string) : option (list string) :=
  j ← decode_first body;
  items <$> dec_struct [("servers", dec_slice "" dec_string)] nil_slice j.

Definition dec_devices (body : string) : option (list string) :=
  j ← decode_first body;
  items <$> dec_struct
    [("devices", dec_slice "" (dec_struct [("device_id", dec_string)]))] nil_slice j.

Record UserLookupResult := { ul_UserID : string; ul_HomeDomain : string }.

Definition dec_lookup (body : string) : option UserLookupResult :=
  j ← decode_first body;
  dec_struct
    [("user_id", at_field ul_UserID
        (λ v r, {| ul_UserID := v; ul_HomeDomain := ul_HomeDomain r |}) dec_string);
     ("home_domain", at_field ul_HomeDomain
        (λ v r, {| ul_UserID := ul_UserID r; ul_HomeDomain := v |}) dec_string)]
    {| ul_UserID := ""; ul_HomeDomain := "" |} j.

(** [KeysBackup]: a nil map is [None]. *)
Record AuthVerifyResult := {
  av_AccessToken : string;
  av_ExpiresIn : Z;
  av_UserID : string;
  av_DeviceID : string;
  av_KeysBackup : option (gmap string string);
}.

Definition dec_auth (body : string) : option AuthVerifyResult :=
  j ← unmarshal body;
  dec_struct
    [("access_token", at_field av_AccessToken
        (λ v r, {| av_AccessToken := v; av_ExpiresIn := av_ExpiresIn r; av_UserID := av_UserID r;
                   av_DeviceID := av_DeviceID r; av_KeysBackup := av_KeysBackup r |}) dec_string);
     ("expires_in", at_field av_ExpiresIn
        (λ v r, {| av_AccessToken := av_AccessToken r; av_ExpiresIn := v; av_UserID := av_UserID r;
                   av_DeviceID := av_DeviceID r; av_KeysBackup := av_KeysBackup r |}) dec_int64);
     ("user_id", at_field av_UserID
        (λ v r, {| av_AccessToken := av_AccessToken r; av_ExpiresIn := av_ExpiresIn r;
                   av_UserID := v; av_DeviceID := av_DeviceID r;
                   av_KeysBackup := av_KeysBackup r |}) dec_string);
     ("device_id", at_field av_DeviceID
        (λ v r, {| av_AccessToken := av_AccessToken r; av_ExpiresIn := av_ExpiresIn r;
                   av_UserID := av_UserID r; av_DeviceID := v;
                   av_KeysBackup := av_KeysBackup r |}) dec_string);
     ("keys_backup", at_field av_KeysBackup
        (λ v r, {| av_AccessToken := av_AccessToken r; av_ExpiresIn := av_ExpiresIn r;
                   av_UserID := av_UserID r; av_DeviceID := av_DeviceID r;
                   av_KeysBackup := v |}) (dec_ptr ∅ dec_map))]
    {| av_AccessToken := ""; av_ExpiresIn := 0; av_UserID := ""; av_DeviceID := "";
       av_KeysBackup := None |} j.

(** ** The key file: [map[string]string] is written with sorted keys *)
Definition enc_keys (pub priv : string) : string :=
  marshal (JObj [("private", JStr priv); ("public", JStr pub)]).

Definition dec_keys (body : string) : option (string * string) :=
  j ← unmarshal body;
  dec_struct
    [("public", at_field fst (λ v r, (v, r.2)) dec_string);
     ("private", at_field snd (λ v r, (r.1, v)) dec_string)] ("", "") j.
End decoding.

(** ** Round trips *)

(** A transaction as the receiver sees it: strings as valid UTF-8. *)
Definition clean_event (e : TransactionEvent) : TransactionEvent :=
  {| EventID := json_str (EventID e); Type_ := json_str (Type_ e); Sender := json_str (Sender e);
     Recipient := json_str (Recipient e); Timestamp := Timestamp e;
     Content := {| Ciphertext := json_str (Ciphertext (Content e));
                   SessionID := json_str (SessionID (Content e)) |} |}.

Definition received (t : Transaction) : TransactionRequest :=
  {| TransactionID := json_str (t_TransactionID t); Origin := json_str (t_Origin t);
     Destination := json_str (t_Destination t); Events := clean_event <$> t_Events t |}.

Ltac json_keys :=
  repeat match goal with
  | |- context [json_str ?s] => is_ground s; change (json_str s) with s
  end.

Ltac json_cbn :=
  cbn -[json_str itoa parse_int64 in_int64]; json_keys; cbn -[json_str itoa parse_int64 in_int64].

Section roundtrip.
Context `{HU : GoUnicode}.

Lemma dec_event_json e old :
  in_int64 (Timestamp e) = true →
  dec_event old (clean (event_json e)) = Some (clean_event e).
Proof.
  intros Ht. unfold event_json, dec_event, dec_content. json_cbn.
  unfold parse_int64. rewrite parse_int_itoa. cbn. by rewrite Ht.
Qed.

Lemma dec_events_json es :
  Forall (λ e, in_int64 (Timestamp e) = true) es →
  dec_items zero_event dec_event [] ((clean ∘ event_json) <$> es) = Some (clean_event <$> es).
Proof.
  induction 1 as [|e es He Hes IH]; [done|].
  cbn [fmap list_fmap dec_items head tail default from_option].
  change ((clean ∘ event_json) e) with (clean (event_json e)).
  rewrite dec_event_json by done. cbn [mbind option_bind]. by rewrite IH.
Qed.

Lemma transaction_json_ok t :
  json_ok (transaction_json t) ∧ (depth (transaction_json t) ≤ 4)%Z.
Proof.
  split.
  - cbn. split_and!; try done. induction (t_Events t) as [|e es IH]; [done|].
    cbn. split_and!; try done. apply num_ok_itoa.
  - cbn -[Z.max]. enough (foldr (λ x, Z.max (depth x)) 0 (event_json <$> t_Events t) ≤ 2)%Z by lia.
    induction (t_Events t) as [|e es IH]; cbn -[Z.max] in *; lia.
Qed.

Lemma dec_enc_transaction t :
  Forall (λ e, in_int64 (Timestamp e) = true) (t_Events t) →
  dec_transaction (enc_transaction t) = Some (received t).
Proof.
  intros Ht. destruct (transaction_json_ok t) as [Hok Hd].
  unfold dec_transaction, enc_transaction.
  rewrite unmarshal_marshal by (done || unfold maxNestingDepth; lia).
  assert (clean (transaction_json t) = JObj [("transaction_id", JStr (json_str (t_TransactionID t)));
    ("origin", JStr (json_str (t_Origin t))); ("destination", JStr (json_str (t_Destination t)));
    ("events", JArr ((clean ∘ event_json) <$> t_Events t))]) as ->
    by (rewrite list_fmap_compose; done).
  cbn [mbind option_bind]. unfold dec_request.
  assert (dec_slice zero_event dec_event nil_slice (JArr ((clean ∘ event_json) <$> t_Events t)) =
    Some (Slice (length (t_Events t)) (clean_event <$> t_Events t) true)) as Hs.
  { unfold dec_slice. cbn [sl_backing nil_slice]. rewrite dec_events_json by done.
    cbn. by rewrite length_fmap. }
  unfold dec_struct. cbn [foldl]. unfold dec_member, at_field. cbn [fst snd field_of].
  cbn -[json_str dec_slice clean_event]. rewrite Hs. cbn -[json_str].
  unfold received, items. cbn [sl_len sl_backing].
  by rewrite firstn_all2 by (rewrite length_fmap; lia).
Qed.

(** C22: A transaction is decoded by the receiver as it was encoded by the sender,
    up to bytes that are not UTF-8. *)
Theorem transaction_roundtrip t :
  Forall (λ e, in_int64 (Timestamp e) = true) (t_Events t) →
  dec_transaction (enc_transaction t) = Some (received t).
Proof. apply dec_enc_transaction. Qed.

Lemma dec_enc_keys p s : dec_keys (enc_keys p s) = Some (json_str p, json_str s).
Proof. unfold dec_keys, enc_keys. by rewrite unmarshal_marshal. Qed.
End roundtrip.

(** A transaction whose session is not UTF-8. *)
Lemma transaction_roundtrip_witness :
  dec_transaction (enc_transaction {| t_TransactionID := "t"; t_Origin := "a.org";
    t_Destination := "b.org"; t_Events := [
      {| EventID := "e"; Type_ := "m"; Sender := "@a:a.org"; Recipient := "@b:b.org";
         Timestamp := -7; Content := {| Ciphertext := "Y3Q="; SessionID := String "255" "s" |} |}] |}) =
  Some {| TransactionID := "t"; Origin := "a.org"; Destination := "b.org"; Events := [
      {| EventID := "e"; Type_ := "m"; Sender := "@a:a.org"; Recipient := "@b:b.org";
         Timestamp := -7;
         Content := {| Ciphertext := "Y3Q="; SessionID := "�" +:+ "s" |} |}] |}.
Proof. rewrite transaction_roundtrip; [by vm_compute|]. by repeat constructor. Defined.
