(* ===== verification/RoomChecker.v ===== *)
(** * The interface of the rooms service towards the relay

    [relay.RoomChecker] in [server/internal/relay/relay.go]: what the relay
    calls, and what it relies on.  The relay's theorems are proved against
    this interface; [Rooms.v] provides the instance. *)

From S2P Require Import Prelude GoStrings Schema.
Set Default Goal Selector "!".

(** The relay never looks at the error, only at whether there is one. *)
Class RoomChecker := {
  rc_IsMember : Z → Z → M DB unit bool;
  rc_GetRoomAddrsForUser : Z → M DB unit (list String.string);
}.

(** Membership is what the table says, the addresses are those of rooms of
    the user, all of them unless a statement fails, neither call writes, and a
    call fails only when one of its statements does. *)
Class RoomCheckerLaws (rc : RoomChecker) (addr : Z → String.string) := {
  rc_is_member F room user d :
    wp F (rc_IsMember room user) (λ r d', d' = d ∧
      match r with
      | Ok b => b = true ↔ is_Some (d.(members) !! (room, user))
      | Err _ => faulty F
      end) d;
  rc_room_addrs F user d :
    wp F (rc_GetRoomAddrsForUser user) (λ r d', d' = d ∧
      match r with
      | Ok l =>
        (∀ a, a ∈ l → ∃ room, a = addr room ∧ is_Some (d.(members) !! (room, user))) ∧
        (faulty F ∨ ∀ room, is_Some (d.(rooms) !! room) →
                      is_Some (d.(members) !! (room, user)) → addr room ∈ l)
      | Err _ => faulty F
      end) d;
}.
