(* ===== verification/Rooms.v ===== *)
(** * Rooms ([server/internal/rooms/rooms.go])

    Room addresses, membership and roles.  Each method of [rooms.Service] is
    a definition in the statement monad; [op] collects the methods that write,
    and [reachable] the databases they can produce, statement failures
    included. *)

From Stdlib Require Import Ascii String.
From stdpp Require Import strings.
From S2P Require Import Prelude GoStrings Encoding Schema Samples RoomChecker.
Set Default Goal Selector "!".
Open Scope stdpp_scope.

Module Rooms.

(** ** Errors *)
Inductive err :=
| ErrNotMember
| ErrForbidden
| ErrCreatorCannotLeave
| ErrUserNotFound
| ErrUsernameRequired
| ErrInvalidRole (role : string)
| ErrTransferToSelf
| ErrDb.

#[export] Instance err_eq_dec : EqDecision err.
Proof. solve_decision. Defined.

(** ** Data *)
Record Room := mkRoom {
  ID : Z; Name : string; Domain : string; CreatorID : Z; CreatedAt : Z;
}.

Record Member := mkMember {
  UserID : Z; Username : string; MDomain : string; Role : string; JoinedAt : Z;
}.

Definition room_of (kr : Z * room_row) : Room :=
  mkRoom kr.1 kr.2.(r_name) kr.2.(r_domain) kr.2.(r_creator_id) kr.2.(r_created_at).

(** ** Addresses *)
Definition RoomAddr `{UuidLib} (roomID : Z) (domain : string) : string :=
  "!" +:+ uuid_string roomID +:+ ":" +:+ domain.

Definition IsRoomAddr (addr : string) : bool := has_prefix addr "!".

Definition ParseRoomAddr (addr : string) : string * string * bool :=
  if negb (has_prefix addr "!") then ("", "", false)
  else
    let rest := sdrop 1 addr in
    match index rest ":" with
    | Some idx =>
      if bool_decide (idx + 1 < slen rest)
      then (stake idx rest, sdrop (idx + 1) rest, true)
      else ("", "", false)
    | None => ("", "", false)
    end.

(** Databases on which the theorems are instantiated. *)
Definition sample_db : DB :=
  with_users {[ 1%Z := UserRow "ann" "a.org" None; 2%Z := UserRow "bob" "a.org" None;
                3%Z := UserRow "cyd" "a.org" None ]}
  (with_rooms {[ 7%Z := RoomRow "r" "a.org" 1 0 ]}
  (with_members {[ (7, 1)%Z := MemberRow "creator" 0; (7, 2)%Z := MemberRow "admin" 1;
                   (7, 3)%Z := MemberRow "member" 2 ]} empty_db)).

Definition sample_users : DB :=
  with_users {[ 1%Z := UserRow "ann" "a.org" None; 2%Z := UserRow "bob" "a.org" None ]} empty_db.

Section service.
Context `{UuidLib, PgText} (domain : string).

(** ** SQL of the service *)
Definition insert_room (id : Z) (name : string) (creator now : Z) (d : DB) : option DB :=
  match d.(rooms) !! id, d.(users) !! creator with
  | None, Some _ => Some (with_rooms (<[id := RoomRow name domain creator now]> d.(rooms)) d)
  | _, _ => None
  end.

(** Reference constraints of [room_members]. *)
Definition member_refs (room user : Z) (d : DB) : bool :=
  match d.(rooms) !! room, d.(users) !! user with
  | Some _, Some _ => true
  | _, _ => false
  end.

Definition insert_member (room user : Z) (role : string) (now : Z) (d : DB) : option DB :=
  if member_refs room user d then
    match d.(members) !! (room, user) with
    | None => Some (with_members (<[(room, user) := MemberRow role now]> d.(members)) d)
    | Some _ => None
    end
  else None.

(** [... ON CONFLICT (room_id, user_id) DO NOTHING] *)
Definition insert_member_do_nothing (room user : Z) (role : string) (now : Z) (d : DB)
  : option DB :=
  match d.(members) !! (room, user) with
  | None => insert_member room user role now d
  | Some _ => Some d
  end.

Definition delete_member (room user : Z) (d : DB) : option DB :=
  Some (with_members (delete (room, user) d.(members)) d).

(** [UPDATE room_members SET role = ...], with the [CHECK] on [role]. *)
Definition update_role (room user : Z) (role : string) (d : DB) : option DB :=
  match d.(members) !! (room, user) with
  | None => Some d
  | Some m =>
    if bool_decide (role = "creator" ∨ role = "admin" ∨ role = "member") then
      Some (with_members (<[(room, user) := MemberRow role m.(m_joined_at)]> d.(members)) d)
    else None
  end.

Definition update_creator (room user : Z) (d : DB) : option DB :=
  match d.(rooms) !! room, d.(users) !! user with
  | Some r, Some _ =>
    Some (with_rooms (<[room := RoomRow r.(r_name) r.(r_domain) user r.(r_created_at)]>
            d.(rooms)) d)
  | Some _, None => None
  | None, _ => Some d
  end.

Definition select_role (room user : Z) (d : DB) : option string :=
  m_role <$> d.(members) !! (room, user).

(** [rooms JOIN room_members ON rm.room_id = r.id WHERE rm.user_id = $1] *)
Definition rooms_of_user (user : Z) (d : DB) : list (Z * room_row) :=
  select_rows (λ room _, match d.(members) !! (room, user) with
                         | Some _ => true | None => false end) d.(rooms).

(** [room_members JOIN users ON u.id = rm.user_id WHERE rm.room_id = $1] *)
Definition members_of_room (room : Z) (d : DB) : list Member :=
  omap (λ km, match d.(users) !! km.1.2 with
              | Some u => Some (mkMember km.1.2 u.(u_username) u.(u_domain)
                                  km.2.(m_role) km.2.(m_joined_at))
              | None => None
              end)
    (select_rows (λ k (_ : member_row), bool_decide (k.1 = room)) d.(members)).

Definition created_desc (a b : Z * room_row) : Prop :=
  (b.2.(r_created_at) ≤ a.2.(r_created_at))%Z.
#[local] Instance created_desc_dec : RelDecision created_desc.
Proof. intros a b. unfold created_desc. apply _. Defined.

(** [ORDER BY rm.role DESC, rm.joined_at] *)
Definition member_order (a b : Member) : Prop :=
  a.(Role) = b.(Role) ∧ (a.(JoinedAt) ≤ b.(JoinedAt))%Z ∨
  a.(Role) ≠ b.(Role) ∧ String.leb b.(Role) a.(Role) = true.
#[local] Instance member_order_dec : RelDecision member_order.
Proof. intros a b. unfold member_order. apply _. Defined.

(** ** Methods

    The methods that read rows return those read so far when the connection
    fails among them: [rows.Err()] is not checked. *)
Definition getMemberRole (room user : Z) : M DB err string :=
  r ← or_raise ErrDb (query (select_role room user));
  match r with
  | None => raise ErrNotMember
  | Some role => mret role
  end.

(** [roomID] is the fresh [uuid.New()], [now] the column default [NOW()]. *)
Definition Create (roomID : Z) (name : string) (creator now : Z) : M DB err Room :=
  _ ← or_raise ErrDb (exec (insert_room roomID name creator now));
  _ ← or_raise ErrDb (exec (insert_member roomID creator "creator" now));
  mret (mkRoom roomID name domain creator 0).

Definition List_ (user : Z) : M DB err (list Room) :=
  rows ← or_raise ErrDb (query (λ d, merge_sort created_desc (rooms_of_user user d)));
  rows ← fetch rows;
  mret (room_of <$> rows).

Definition Get (room user : Z) : M DB err Room :=
  r ← or_raise ErrDb (query (λ d,
        match d.(rooms) !! room, d.(members) !! (room, user) with
        | Some r, Some _ => Some (room_of (room, r))
        | _, _ => None
        end));
  match r with None => raise ErrNotMember | Some r => mret r end.

Definition IsMember (room user : Z) : M DB err bool :=
  r ← or_raise ErrDb (query (λ d, d.(members) !! (room, user)));
  match r with None => mret false | Some _ => mret true end.

Definition GetRoomAddrsForUser (user : Z) : M DB err (list string) :=
  rows ← or_raise ErrDb (query (rooms_of_user user));
  rows ← fetch rows;
  mret ((λ kr, RoomAddr kr.1 domain) <$> rows).

Definition ResolveUserID (username : string) : M DB err Z :=
  let username := trim_space (trim_prefix username "@") in
  if bool_decide (username = "") then raise ErrUsernameRequired
  else
    let username := match index username ":" with
                    | Some idx => stake idx username
                    | None => username
                    end in
    r ← or_raise ErrDb (query (λ d, first_row (select_rows (λ _ u,
           bool_decide (pg_lower u.(u_username) = pg_lower username) &&
           bool_decide (u.(u_domain) = domain)) d.(users))));
    match r with None => raise ErrUserNotFound | Some ku => mret ku.1 end.

Definition Invite (room inviter invitee now : Z) : M DB err unit :=
  role ← attempt (getMemberRole room inviter);
  match role with
  | Err _ => raise ErrForbidden
  | Ok role =>
    if negb (bool_decide (role = "creator")) && negb (bool_decide (role = "admin"))
    then raise ErrForbidden
    else or_raise ErrDb (exec (insert_member_do_nothing room invitee "member" now))
  end.

Definition Leave (room user : Z) : M DB err unit :=
  role ← getMemberRole room user;
  if bool_decide (role = "creator") then raise ErrCreatorCannotLeave
  else or_raise ErrDb (exec (delete_member room user)).

Definition Members (room requester : Z) : M DB err (list Member) :=
  _ ← Get room requester;
  rows ← or_raise ErrDb (query (λ d, merge_sort member_order (members_of_room room d)));
  fetch rows.

Definition SetRole (room actor target : Z) (newRole : string) : M DB err unit :=
  if negb (bool_decide (newRole = "admin")) && negb (bool_decide (newRole = "member"))
  then raise (ErrInvalidRole newRole)
  else
    actorRole ← attempt (getMemberRole room actor);
    match actorRole with
    | Err _ => raise ErrForbidden
    | Ok actorRole =>
      if negb (bool_decide (actorRole = "creator")) && negb (bool_decide (actorRole = "admin"))
      then raise ErrForbidden
      else if bool_decide (newRole = "admin") && negb (bool_decide (actorRole = "creator"))
      then raise ErrForbidden
      else or_raise ErrDb (exec (update_role room target newRole))
    end.

(** The error of [tx.Commit] is dropped: the method then returns [nil]. *)
Definition TransferCreator (room actor target : Z) : M DB err unit :=
  actorRole ← attempt (getMemberRole room actor);
  match actorRole with
  | Err _ => raise ErrForbidden
  | Ok actorRole =>
    if negb (bool_decide (actorRole = "creator")) then raise ErrForbidden
    else
      _ ← getMemberRole room target;
      if bool_decide (target = actor) then raise ErrTransferToSelf
      else with_tx ErrDb Ok
        (_ ← or_raise ErrDb (exec (update_role room target "creator"));
         _ ← or_raise ErrDb (exec (update_role room actor "member"));
         or_raise ErrDb (exec (update_creator room target)))
  end.

Definition Remove (room actor target : Z) : M DB err unit :=
  actorRole ← attempt (getMemberRole room actor);
  match actorRole with
  | Err _ => raise ErrForbidden
  | Ok actorRole =>
    if negb (bool_decide (actorRole = "creator")) && negb (bool_decide (actorRole = "admin"))
    then raise ErrForbidden
    else
      targetRole ← getMemberRole room target;
      if bool_decide (targetRole = "creator") ||
         (bool_decide (targetRole = "admin") && negb (bool_decide (actorRole = "creator")))
      then raise ErrForbidden
      else or_raise ErrDb (exec (delete_member room target))
  end.

Definition MemberAddresses (room : Z) : M DB err (list string) :=
  ms ← or_raise ErrDb (query (members_of_room room));
  ms ← fetch ms;
  mret ((λ m, "@" +:+ m.(Username) +:+ ":" +:+ m.(MDomain)) <$> ms).

(** ** The service as a state machine *)
Inductive op :=
| OpCreate (room : Z) (name : string) (creator now : Z)
| OpInvite (room actor invitee now : Z)
| OpLeave (room actor : Z)
| OpSetRole (room actor target : Z) (role : string)
| OpTransfer (room actor target : Z)
| OpRemove (room actor target : Z).

Definition run_op (o : op) : M DB err unit :=
  match o with
  | OpCreate r n c t => Create r n c t ≫= λ _, mret tt
  | OpInvite r a i t => Invite r a i t
  | OpLeave r a => Leave r a
  | OpSetRole r a t role => SetRole r a t role
  | OpTransfer r a t => TransferCreator r a t
  | OpRemove r a t => Remove r a t
  end.

Definition op_room (o : op) : Z :=
  match o with
  | OpCreate r _ _ _ | OpInvite r _ _ _ | OpLeave r _
  | OpSetRole r _ _ _ | OpTransfer r _ _ | OpRemove r _ _ => r
  end.

Definition op_actor (o : op) : Z :=
  match o with
  | OpCreate _ _ a _ | OpInvite _ a _ _ | OpLeave _ a
  | OpSetRole _ a _ _ | OpTransfer _ a _ | OpRemove _ a _ => a
  end.

(** Databases reachable from one without rooms; [reach_env] lets the other
    services change everything but the two tables of this one. *)
Inductive reachable : DB → Prop :=
| reach_init d : d.(rooms) = ∅ → d.(members) = ∅ → reachable d
| reach_op F o d r d' : reachable d → Exec F (run_op o) d r d' → reachable d'
| reach_env d d' : reachable d → d'.(rooms) = d.(rooms) →
                   d'.(members) = d.(members) → reachable d'.

(** ** Specification: who may change what

    [granted d o d'] is the access-control matrix of the service: the
    changes an operation is allowed to make, given the roles in [d]. *)
Definition has_role (room user : Z) (role : string) (d : DB) : Prop :=
  select_role room user d = Some role.

(** Roles that may manage a room. *)
Definition manages (room user : Z) (d : DB) : bool :=
  match select_role room user d with
  | Some role => bool_decide (role = "creator") || bool_decide (role = "admin")
  | None => false
  end.

Inductive granted (d : DB) : op → DB → Prop :=
| g_nothing o : granted d o d
| g_create_half r n c t d1 :
    insert_room r n c t d = Some d1 → granted d (OpCreate r n c t) d1
| g_create r n c t d1 d2 :
    insert_room r n c t d = Some d1 → insert_member r c "creator" t d1 = Some d2 →
    granted d (OpCreate r n c t) d2
| g_invite r a i t d1 :
    manages r a d = true → insert_member_do_nothing r i "member" t d = Some d1 →
    granted d (OpInvite r a i t) d1
| g_leave r a role :
    has_role r a role d → role ≠ "creator" →
    granted d (OpLeave r a) (with_members (delete (r, a) d.(members)) d)
| g_set_role r a t role d1 :
    manages r a d = true → role = "admin" ∨ role = "member" →
    (role = "admin" → has_role r a "creator" d) →
    update_role r t role d = Some d1 → granted d (OpSetRole r a t role) d1
| g_transfer r a t d1 d2 d3 :
    has_role r a "creator" d → is_Some (select_role r t d) → t ≠ a →
    update_role r t "creator" d = Some d1 → update_role r a "member" d1 = Some d2 →
    update_creator r t d2 = Some d3 → granted d (OpTransfer r a t) d3
| g_remove r a t trole :
    manages r a d = true → has_role r t trole d → trole ≠ "creator" →
    (trole = "admin" → has_role r a "creator" d) →
    granted d (OpRemove r a t) (with_members (delete (r, t) d.(members)) d).

(** ** Well-formedness: members belong to rooms, and the member with role
    [creator], if any, is the one [rooms.creator_id] names. *)
Definition member_fk (d : DB) : Prop :=
  ∀ room user m, d.(members) !! (room, user) = Some m → is_Some (d.(rooms) !! room).

Definition creator_matches (d : DB) : Prop :=
  ∀ room user m, d.(members) !! (room, user) = Some m → m.(m_role) = "creator" →
    ∃ r, d.(rooms) !! room = Some r ∧ r.(r_creator_id) = user.

Definition rooms_inv (d : DB) : Prop := member_fk d ∧ creator_matches d.

(** ** Lemmas *)
Implicit Types d : DB.

Lemma rooms_of_user_member user d room r :
  (room, r) ∈ rooms_of_user user d → is_Some (d.(members) !! (room, user)).
Proof.
  intros [_ Hm]%elem_of_select_rows. cbn [fst] in Hm.
  by destruct (members d !! (room, user)).
Qed.

Lemma wp_getMemberRole F room user (Q : result err string → DB → Prop) d :
  Q (Err ErrDb) d →
  (select_role room user d = None → Q (Err ErrNotMember) d) →
  (∀ role, has_role room user role d → Q (Ok role) d) →
  wp F (getMemberRole room user) Q d.
Proof. intros H1 H2 H3. unfold getMemberRole. wp_go; auto. Qed.

Lemma select_role_lookup room user d :
  select_role room user d = None ↔ d.(members) !! (room, user) = None.
Proof. unfold select_role. by destruct (_ !! _). Qed.

Lemma guard_admin (x y a b : string) :
  bool_decide (x = a) && negb (bool_decide (y = b)) = false → x = a → y = b.
Proof. repeat case_bool_decide; naive_solver. Qed.

Lemma privileged_manages room user role d :
  has_role room user role d →
  negb (bool_decide (role = "creator")) && negb (bool_decide (role = "admin")) = false →
  manages room user d = true.
Proof.
  unfold has_role, manages. intros ->.
  by destruct (bool_decide _), (bool_decide _).
Qed.

Ltac role_step :=
  first [ apply wp_attempt
        | apply wp_getMemberRole; [|intros ?Hnone|intros ?role ?Hrole]
        | wp_step ]; cbn beta iota.
Ltac role_go := repeat role_step.

#[local] Hint Constructors granted : wp_db.
#[local] Hint Resolve privileged_manages : wp_db.

Lemma Create_granted F r n c t d :
  wp F (Create r n c t) (λ _ d', granted d (OpCreate r n c t) d') d.
Proof. unfold Create. role_go; eauto with wp_db. Qed.

Lemma Invite_granted F r a i t d :
  wp F (Invite r a i t) (λ _ d', granted d (OpInvite r a i t) d') d.
Proof. unfold Invite. role_go; eauto with wp_db. Qed.

Lemma Leave_granted F r a d :
  wp F (Leave r a) (λ _ d', granted d (OpLeave r a) d') d.
Proof.
  unfold Leave. role_go; eauto with wp_db.
  unfold delete_member in *. simplify_eq.
  eapply g_leave; [done|]. by eapply bool_decide_eq_false.
Qed.

Lemma SetRole_granted F r a t role d :
  wp F (SetRole r a t role) (λ _ d', granted d (OpSetRole r a t role) d') d.
Proof.
  unfold SetRole. role_go; eauto with wp_db.
  eapply g_set_role; eauto with wp_db; [by apply guard_passed|].
  intros ?. match goal with H : _ && negb _ = false |- _ =>
    apply guard_admin in H; [by subst|done] end.
Qed.

Lemma TransferCreator_granted F r a t d :
  wp F (TransferCreator r a t) (λ _ d', granted d (OpTransfer r a t) d') d.
Proof.
  unfold TransferCreator. role_go; eauto with wp_db.
  repeat match goal with H : negb (bool_decide _) = false |- _ =>
    apply negb_false_iff, bool_decide_eq_true in H; subst
  | H : bool_decide _ = false |- _ => apply bool_decide_eq_false in H
  end.
  all: split; [eapply g_transfer; eauto; by eexists|constructor].
Qed.

Lemma Remove_granted F r a t d :
  wp F (Remove r a t) (λ _ d', granted d (OpRemove r a t) d') d.
Proof.
  unfold Remove. role_go; eauto with wp_db.
  unfold delete_member in *. simplify_eq.
  match goal with H : _ || _ = false |- _ => apply orb_false_iff in H as [Hc Ha] end.
  eapply g_remove; eauto with wp_db; [by eapply bool_decide_eq_false|].
  intros ?. apply guard_admin in Ha; [by subst|done].
Qed.

Lemma run_op_granted F o d :
  wp F (run_op o) (λ _ d', granted d o d') d.
Proof.
  destruct o; simpl.
  - apply wp_bind. eapply wp_mono; [apply Create_granted|].
    intros [] d' ?; [by apply wp_ret|done].
  - apply Invite_granted.
  - apply Leave_granted.
  - apply SetRole_granted.
  - apply TransferCreator_granted.
  - apply Remove_granted.
Qed.

(** Lookups in the tables written by the statements. *)
Lemma insert_room_inv r n c t d d' :
  insert_room r n c t d = Some d' →
  d.(rooms) !! r = None ∧ d'.(members) = d.(members) ∧
  d'.(rooms) = <[r := RoomRow n domain c t]> d.(rooms).
Proof. unfold insert_room. intros. by repeat case_match; simplify_eq/=. Qed.

Lemma insert_member_inv r u role t d d' :
  insert_member r u role t d = Some d' →
  is_Some (d.(rooms) !! r) ∧ d'.(rooms) = d.(rooms) ∧
  d'.(members) = <[(r, u) := MemberRow role t]> d.(members).
Proof.
  unfold insert_member, member_refs. intros.
  by repeat case_match; simplify_eq/=.
Qed.

Lemma insert_member_dn_inv r u role t d d' :
  insert_member_do_nothing r u role t d = Some d' →
  d' = d ∨ (d.(members) !! (r, u) = None ∧ is_Some (d.(rooms) !! r) ∧
            d'.(rooms) = d.(rooms) ∧
            d'.(members) = <[(r, u) := MemberRow role t]> d.(members)).
Proof.
  unfold insert_member_do_nothing. intros.
  case_match; simplify_eq; [by left|right]. by apply insert_member_inv in H1.
Qed.

Lemma update_role_inv r u role d d' :
  update_role r u role d = Some d' →
  d'.(rooms) = d.(rooms) ∧
  d'.(members) = alter (λ m, MemberRow role m.(m_joined_at)) (r, u) d.(members).
Proof.
  unfold update_role. destruct (d.(members) !! (r, u)) as [m|] eqn:Hl.
  - case_bool_decide; [|done]. intros [= <-]. split; [done|]. simpl.
    by rewrite (alter_alt_Some _ _ _ m).
  - intros [= <-]. split; [done|]. by rewrite alter_id'.
Qed.

Lemma update_creator_inv r u d d' :
  update_creator r u d = Some d' →
  d'.(members) = d.(members) ∧
  d'.(rooms) = alter (λ x, RoomRow x.(r_name) x.(r_domain) u x.(r_created_at)) r d.(rooms).
Proof.
  unfold update_creator. destruct (d.(rooms) !! r) as [x|] eqn:Hl.
  - destruct (d.(users) !! u); [|done]. intros [= <-]. split; [done|]. simpl.
    by rewrite (alter_alt_Some _ _ _ x).
  - intros [= <-]. split; [done|]. by rewrite alter_id'.
Qed.

Ltac invert_sql :=
  repeat match goal with
  | H : insert_room _ _ _ _ _ = Some _ |- _ =>
    apply insert_room_inv in H as (? & ?Hm & ?Hr)
  | H : insert_member _ _ _ _ _ = Some _ |- _ =>
    apply insert_member_inv in H as (? & ?Hr & ?Hm)
  | H : insert_member_do_nothing _ _ _ _ _ = Some _ |- _ =>
    apply insert_member_dn_inv in H as [->|(? & ? & ?Hr & ?Hm)]
  | H : update_role _ _ _ _ = Some _ |- _ => apply update_role_inv in H as (?Hr & ?Hm)
  | H : update_creator _ _ _ = Some _ |- _ => apply update_creator_inv in H as (?Hm & ?Hr)
  end.

(** Reads the members and rooms a chain of statements leaves. *)
Ltac lookups :=
  repeat (progress (
    repeat match goal with
    | Hm : members _ = _ |- context [members _] => rewrite Hm
    | Hr : rooms _ = _ |- context [rooms _] => rewrite Hr
    | Hm : members ?x = _, H : context [members ?x] |- _ =>
      lazymatch type of H with members x = _ => fail | _ => rewrite Hm in H end
    | Hr : rooms ?x = _, H : context [rooms ?x] |- _ =>
      lazymatch type of H with rooms x = _ => fail | _ => rewrite Hr in H end
    end;
    rewrite ?lookup_insert, ?lookup_alter, ?lookup_delete, ?fmap_Some, ?fmap_is_Some in *;
    repeat case_decide; destruct_and?;
    repeat match goal with H : ∃ _, _ |- _ => destruct H end;
    destruct_and?; simplify_eq/=)).

(** An operation changes memberships of its room only, and those of other
    users only when its actor manages the room. *)
Lemma granted_members o d d' room user :
  granted d o d' →
  d'.(members) !! (room, user) = d.(members) !! (room, user) ∨
  room = op_room o ∧ (user = op_actor o ∨ manages room (op_actor o) d = true).
Proof.
  assert (∀ r a, has_role r a "creator" d → manages r a d = true) as Hc.
  { unfold has_role, manages. by intros ?? ->. }
  destruct 1; invert_sql; simpl; lookups; auto 6.
Qed.

Lemma rooms_inv_granted o d d' : rooms_inv d → granted d o d' → rooms_inv d'.
Proof.
  intros [Hfk Hcr] Hg. unfold rooms_inv, member_fk, creator_matches in *.
  destruct Hg; invert_sql; simpl in *; [by eauto|..]; split; intros room user m Hl.
  all: try (lookups; eauto; fail).
  all: intros Hc; try (lookups; eauto; fail).
  - lookups; destruct (Hcr _ _ _ Hl Hc) as (x & ? & <-); simplify_eq; eauto.
  - lookups; eauto; destruct (Hcr _ _ _ Hl Hc) as (x & ? & <-); simplify_eq; eauto.
  - destruct H2; lookups; eauto.
  - unfold has_role, select_role in *.
    apply fmap_Some in H1 as (ma & Hma & Hra).
    destruct (Hcr _ _ _ Hma (eq_sym Hra)) as (x & Hx & Ha).
    lookups; rewrite ?Hx; simpl; eauto.
    destruct (Hcr _ _ _ Hl Hc) as (y & ? & <-); by simplify_eq.
Qed.

Lemma Exec_granted F o d r d' : Exec F (run_op o) d r d' → granted d o d'.
Proof. intros H1. eapply wp_Exec in H1; [|apply run_op_granted]. done. Qed.

(** ** Properties *)

(** C8: every run of a method, whatever statements fail, only makes changes
    the access-control matrix [granted] allows to its caller. *)
Theorem run_op_refines F o d r d' :
  Exec F (run_op o) d r d' → granted d o d'.
Proof. apply Exec_granted. Qed.

(** In every reachable database, members belong to existing rooms and a
    room has at most one creator, the one [rooms.creator_id] names. *)
Theorem reachable_one_creator d :
  reachable d →
  member_fk d ∧
  ∀ room u1 u2, has_role room u1 "creator" d → has_role room u2 "creator" d → u1 = u2.
Proof.
  intros Hr. enough (rooms_inv d) as [Hfk Hcr].
  { split; [done|]. unfold has_role, select_role.
    intros room u1 u2 (m1 & Hl1 & Hm1)%fmap_Some (m2 & Hl2 & Hm2)%fmap_Some.
    destruct (Hcr _ _ _ Hl1) as (? & ? & <-); [done|].
    destruct (Hcr _ _ _ Hl2) as (? & ? & <-); [done|]. by simplify_eq. }
  induction Hr as [d Hr Hm|F o d r d' _ IH He|d d' _ [Hfk Hcr] Hr Hm].
  - split; [intros room u m|intros room u m]; by rewrite Hm.
  - eapply rooms_inv_granted; [done|]. by eapply Exec_granted.
  - unfold rooms_inv, member_fk, creator_matches. by rewrite Hr, Hm.
Qed.

(** A caller who is neither creator nor admin of the room cannot change
    anybody else's membership or role, in any room. *)
Theorem unprivileged_frame F o d r d' room user :
  Exec F (run_op o) d r d' → manages (op_room o) (op_actor o) d = false →
  user ≠ op_actor o →
  d'.(members) !! (room, user) = d.(members) !! (room, user).
Proof.
  intros He Hp Hu. apply Exec_granted in He.
  destruct (granted_members _ _ _ room user He) as [?|(-> & [?|?])]; congruence.
Qed.

(** Only [SetRole] can leave a room without its creator: under every
    fault schedule the other methods keep a creator where there was one. *)
Theorem creator_retained F o d r d' room :
  Exec F (run_op o) d r d' →
  (∀ room' a t role, o = OpSetRole room' a t role → ¬ has_role room' t "creator" d) →
  (∃ u, has_role room u "creator" d) → ∃ u, has_role room u "creator" d'.
Proof.
  intros He Hs [u Hu]. apply Exec_granted in He.
  unfold has_role, select_role in *. apply fmap_Some in Hu as (mu & Hmu & Hru).
  enough (∃ u' m', d'.(members) !! (room, u') = Some m' ∧ "creator" = m'.(m_role)) as (u' & m' & Hl & ?).
  { exists u'. apply fmap_Some. eauto. }
  destruct He; invert_sql; unfold has_role, select_role in *.
  all: try (exists u, mu; lookups; eauto; congruence).
  - exists u. lookups; eauto.
  - exists u, mu. lookups; [|by eauto].
    destruct (Hs _ _ _ _ eq_refl). by rewrite Hmu, Hru.
  - destruct H2 as [tr Ht]. apply fmap_Some in Ht as (mt & Hmt & _).
    destruct (decide (room = r0)) as [->|]; [|exists u, mu; lookups; eauto].
    exists t, (MemberRow "creator" mt.(m_joined_at)). lookups; eauto.
Qed.

(** Ownership transfer is all or nothing.  Whatever fails, either the
    database is unchanged, or the call returned [nil], the caller was the
    creator, the target now is, the caller is a plain member, the room
    record names the target, and nothing else changed. *)
Theorem TransferCreator_atomic F r a t d res d' :
  Exec F (TransferCreator r a t) d res d' →
  d' = d ∨
  res = Ok tt ∧ has_role r a "creator" d ∧ t ≠ a ∧
  has_role r t "creator" d' ∧ has_role r a "member" d' ∧
  (∀ room user, (room, user) ≠ (r, t) → (room, user) ≠ (r, a) →
     d'.(members) !! (room, user) = d.(members) !! (room, user)) ∧
  d'.(rooms) = alter (λ x, RoomRow x.(r_name) x.(r_domain) t x.(r_created_at)) r d.(rooms).
Proof.
  revert res d'. apply wp_Exec_all. unfold TransferCreator. role_go; auto.
  all: repeat match goal with
  | H : negb (bool_decide _) = false |- _ =>
    apply negb_false_iff, bool_decide_eq_true in H; subst
  | H : bool_decide _ = false |- _ => apply bool_decide_eq_false in H
  end.
  split; [right|by left]. invert_sql. unfold has_role, select_role in *.
  apply fmap_Some in Hrole0 as (mt & Hmt & _). apply fmap_Some in Hrole as (ma & Hma & Hra).
  repeat split; auto.
  - by rewrite Hma, Hra.
  - apply fmap_Some. lookups; rewrite ?Hmt; simpl; eauto.
  - apply fmap_Some. lookups; rewrite ?Hma; simpl; eauto.
  - intros. by lookups.
  - by lookups.
Qed.

(** The error of [tx.Commit] is dropped: whenever a transfer is possible
    there is a run that returns [nil] and has transferred nothing. *)
Theorem TransferCreator_hides_commit_failure r a t d tr u :
  has_role r a "creator" d → has_role r t tr d → t ≠ a →
  d.(users) !! t = Some u →
  ∃ F, Exec F (TransferCreator r a t) d (Ok tt) d.
Proof.
  unfold has_role, select_role. intros Ha Ht Hne Hu.
  apply fmap_Some in Ha as (ma & Hma & Hra). apply fmap_Some in Ht as (mt & Hmt & Hrt).
  exists (λ n, n =? 6). exists 0, 7.
  unfold TransferCreator, getMemberRole, attempt, or_raise, with_tx, query, exec, stmt,
    mbind, M_bind, mret, M_ret, raise, select_role, update_role, update_creator.
  simpl. rewrite Hma. simpl. rewrite <- Hra. simpl. rewrite Hmt. simpl.
  rewrite (bool_decide_eq_false_2 (t = a)) by done. simpl. rewrite Hmt. simpl.
  rewrite lookup_insert_ne by (intros ?; simplify_eq). rewrite Hma. simpl.
  rewrite Hu. by destruct (d.(rooms) !! r).
Qed.

(** [SetRole] lets an admin demote the creator, after which the room
    has no creator at all: nobody can name admins or transfer it any more. *)
Theorem SetRole_demotes_creator r a c d :
  rooms_inv d → has_role r a "admin" d → has_role r c "creator" d →
  (run (SetRole r a c "member") d).1 = Ok tt ∧
  ∀ u, ¬ has_role r u "creator" (run (SetRole r a c "member") d).2.
Proof.
  intros [_ Hcr]. unfold has_role, select_role. intros Ha Hc.
  apply fmap_Some in Ha as (ma & Hma & Hra). apply fmap_Some in Hc as (mc & Hmc & Hrc).
  unfold SetRole, getMemberRole, attempt, or_raise, query, exec, stmt, run,
    mbind, M_bind, mret, M_ret, raise, select_role, update_role.
  simpl. rewrite Hma. simpl. rewrite <- Hra. simpl. rewrite Hmc. simpl.
  split; [done|]. intros u. rewrite fmap_Some. intros (m & Hl & Hm). lookups.
  destruct (Hcr _ _ _ Hmc) as (x & ? & <-); [done|].
  destruct (Hcr _ _ _ Hl) as (y & ? & <-); [done|]. by simplify_eq.
Qed.

(** Parsing a printed room address gives back the id and the domain. *)
Theorem ParseRoomAddr_RoomAddr `{!UuidLaws} roomID dom :
  dom ≠ "" →
  ParseRoomAddr (RoomAddr roomID dom) = (uuid_string roomID, dom, true).
Proof.
  intros Hd. unfold ParseRoomAddr, RoomAddr. rewrite has_prefix_app. cbn [negb].
  change (sdrop 1 ("!" +:+ uuid_string roomID +:+ ":" +:+ dom))
    with (uuid_string roomID +:+ String ":" dom).
  rewrite index_char_app by apply uuid_string_lacks.
  rewrite bool_decide_eq_true_2.
  - rewrite stake_app, (string_cons_app ":" dom), string_app_assoc.
    replace (slen (uuid_string roomID) + 1) with (slen (uuid_string roomID +:+ ":"))
      by (rewrite slen_app; simpl; lia).
    by rewrite sdrop_app.
  - rewrite slen_app. destruct dom; [done|]. simpl. lia.
Qed.
End service.

(** ** The service as the relay's [RoomChecker] *)
Definition rooms_checker `{UuidLib} (domain : string) : RoomChecker := {|
  rc_IsMember room user := map_err (λ _, tt) (IsMember room user);
  rc_GetRoomAddrsForUser user := map_err (λ _, tt) (GetRoomAddrsForUser domain user);
|}.

#[export] Instance rooms_checker_laws `{UuidLib} domain :
  RoomCheckerLaws (rooms_checker domain) (λ room, RoomAddr room domain).
Proof.
  split; simpl.
  - intros F room user d. apply wp_map_err, wp_bind, wp_or_raise, wp_query_fault; [done|].
    cbn beta iota. destruct (members d !! (room, user)); apply wp_ret;
      (split; [done|]); split; (done || by intros []).
  - intros F user d. apply wp_map_err, wp_bind, wp_or_raise, wp_query_fault; [done|].
    cbn beta iota. apply wp_bind, wp_fetch. intros rows Hpre Hall. apply wp_ret.
    split; [done|]. split.
    + intros a ([room r] & -> & Hin)%list_elem_of_fmap. exists room. split; [done|].
      by eapply rooms_of_user_member, elem_of_prefix.
    + destruct Hall as [?| ->]; [by left|right]. intros room [r Hr] [m Hm].
      apply list_elem_of_fmap. exists (room, r). split; [done|].
      apply elem_of_select_rows. by rewrite Hm.
Qed.

(** ** Witnesses *)
Lemma sample_db_inv : rooms_inv sample_db.
Proof.
  split.
  - intros room user m Hl. unfold sample_db in *; simpl in *.
    repeat (rewrite lookup_insert in Hl || rewrite lookup_singleton in Hl).
    repeat case_decide; simplify_eq; by eexists.
  - intros room user m Hl Hm. unfold sample_db in *; simpl in *.
    repeat (rewrite lookup_insert in Hl || rewrite lookup_singleton in Hl).
    repeat case_decide; simplify_eq/=; by eexists.
Qed.

Lemma run_op_refines_witness :
  granted "a.org" sample_db (OpRemove 7 2 3)
    (run (run_op "a.org" (OpRemove 7 2 3)) sample_db).2.
Proof. eapply run_op_refines. apply Exec_run. apply surjective_pairing. Defined.

Lemma reachable_one_creator_witness :
  let d := (run (run_op "a.org" (OpCreate 7 "r" 1 0)) sample_users).2 in
  member_fk d ∧
  ∀ room u1 u2, has_role room u1 "creator" d → has_role room u2 "creator" d → u1 = u2.
Proof.
  intros d. apply (reachable_one_creator "a.org").
  apply (reach_op "a.org" no_faults (OpCreate 7 "r" 1 0) sample_users
           (run (run_op "a.org" (OpCreate 7 "r" 1 0)) sample_users).1).
  - by apply reach_init.
  - apply Exec_run. apply surjective_pairing.
Defined.

Lemma unprivileged_frame_witness :
  (run (run_op "a.org" (OpRemove 7 3 2)) sample_db).2.(members) !! (7, 2)%Z
  = sample_db.(members) !! (7, 2)%Z.
Proof.
  eapply (unprivileged_frame "a.org" no_faults (OpRemove 7 3 2)).
  - apply Exec_run. apply surjective_pairing.
  - by vm_compute.
  - done.
Defined.

Lemma creator_retained_witness :
  ∃ u, has_role 7 u "creator" (run (run_op "a.org" (OpTransfer 7 1 3)) sample_db).2.
Proof.
  eapply (creator_retained "a.org" no_faults (OpTransfer 7 1 3) sample_db).
  - apply Exec_run. apply surjective_pairing.
  - done.
  - by exists 1%Z.
Defined.

Lemma TransferCreator_atomic_witness :
  let d' := (run (TransferCreator 7 1 3) sample_db).2 in
  d' = sample_db ∨
  (run (TransferCreator 7 1 3) sample_db).1 = Ok tt ∧
  has_role 7 1 "creator" sample_db ∧ (3 ≠ 1)%Z ∧
  has_role 7 3 "creator" d' ∧ has_role 7 1 "member" d' ∧
  (∀ room user, (room, user) ≠ (7, 3)%Z → (room, user) ≠ (7, 1)%Z →
     d'.(members) !! (room, user) = sample_db.(members) !! (room, user)) ∧
  d'.(rooms) = alter (λ x, RoomRow x.(r_name) x.(r_domain) 3 x.(r_created_at)) 7%Z
                 sample_db.(rooms).
Proof.
  intros d'. apply (TransferCreator_atomic no_faults). apply Exec_run. apply surjective_pairing.
Defined.

Lemma TransferCreator_hides_commit_failure_witness :
  ∃ F, Exec F (TransferCreator 7 1 3) sample_db (Ok tt) sample_db.
Proof.
  apply (TransferCreator_hides_commit_failure 7 1 3 sample_db "member"
           (UserRow "cyd" "a.org" None)); by vm_compute.
Defined.

Lemma SetRole_demotes_creator_witness :
  (run (SetRole 7 2 1 "member") sample_db).1 = Ok tt ∧
  ∀ u, ¬ has_role 7 u "creator" (run (SetRole 7 2 1 "member") sample_db).2.
Proof.
  apply (SetRole_demotes_creator 7 2 1 sample_db sample_db_inv); by vm_compute.
Defined.

Lemma ParseRoomAddr_RoomAddr_witness :
  ParseRoomAddr (RoomAddr 5 "a.org") = (uuid_string 5, "a.org", true).
Proof. by apply ParseRoomAddr_RoomAddr. Defined.

End Rooms.
