(* ===== verification/RoomsRace.v ===== *)
(** * Rooms under requests that run at the same time

    The methods of [rooms/rooms.go] that write, cut at their statements
    ([code], which alone does what [Rooms.run_op] does), run together by
    [Interleave.step]. *)

From Stdlib Require Import Ascii String.
From stdpp Require Import strings.
From S2P Require Import Prelude Interleave GoStrings Encoding Schema Samples RoomChecker Rooms.
Set Default Goal Selector "!".
Open Scope stdpp_scope.

Module RoomsRace.
Import Interleave Rooms.

Section service.
Context (domain : string).

Implicit Types (o : op) (d : DB) (seen : list DB).

(** ** The methods *)
Definition roleOf (room user : Z) : prog DB err string :=
  r ← or_throw ErrDb (asks (select_role room user));
  match r with
  | None => throw ErrNotMember
  | Some role => mret role
  end.

Definition create (roomID : Z) (name : string) (creator now : Z) : prog DB err Room :=
  _ ← or_throw ErrDb (does (insert_room domain roomID name creator now));
  _ ← or_throw ErrDb (does (insert_member roomID creator "creator" now));
  mret (mkRoom roomID name domain creator 0).

Definition invite (room inviter invitee now : Z) : prog DB err unit :=
  role ← try_ (roleOf room inviter);
  match role with
  | Err _ => throw ErrForbidden
  | Ok role =>
    if negb (bool_decide (role = "creator")) && negb (bool_decide (role = "admin"))
    then throw ErrForbidden
    else or_throw ErrDb (does (insert_member_do_nothing room invitee "member" now))
  end.

Definition leave (room user : Z) : prog DB err unit :=
  role ← roleOf room user;
  if bool_decide (role = "creator") then throw ErrCreatorCannotLeave
  else or_throw ErrDb (does (delete_member room user)).

Definition setRole (room actor target : Z) (newRole : string) : prog DB err unit :=
  if negb (bool_decide (newRole = "admin")) && negb (bool_decide (newRole = "member"))
  then throw (ErrInvalidRole newRole)
  else
    actorRole ← try_ (roleOf room actor);
    match actorRole with
    | Err _ => throw ErrForbidden
    | Ok actorRole =>
      if negb (bool_decide (actorRole = "creator")) && negb (bool_decide (actorRole = "admin"))
      then throw ErrForbidden
      else if bool_decide (newRole = "admin") && negb (bool_decide (actorRole = "creator"))
      then throw ErrForbidden
      else or_throw ErrDb (does (update_role room target newRole))
    end.

Definition transfer_tx (room actor target : Z) : M DB err unit :=
  with_tx ErrDb Ok
    (_ ← or_raise ErrDb (exec (update_role room target "creator"));
     _ ← or_raise ErrDb (exec (update_role room actor "member"));
     or_raise ErrDb (exec (update_creator room target))).

Definition transferCreator (room actor target : Z) : prog DB err unit :=
  actorRole ← try_ (roleOf room actor);
  match actorRole with
  | Err _ => throw ErrForbidden
  | Ok actorRole =>
    if negb (bool_decide (actorRole = "creator")) then throw ErrForbidden
    else
      _ ← roleOf room target;
      if bool_decide (target = actor) then throw ErrTransferToSelf
      else whole (transfer_tx room actor target)
  end.

Definition remove (room actor target : Z) : prog DB err unit :=
  actorRole ← try_ (roleOf room actor);
  match actorRole with
  | Err _ => throw ErrForbidden
  | Ok actorRole =>
    if negb (bool_decide (actorRole = "creator")) && negb (bool_decide (actorRole = "admin"))
    then throw ErrForbidden
    else
      targetRole ← roleOf room target;
      if bool_decide (targetRole = "creator") ||
         (bool_decide (targetRole = "admin") && negb (bool_decide (actorRole = "creator")))
      then throw ErrForbidden
      else or_throw ErrDb (does (delete_member room target))
  end.

Definition code (o : op) : prog DB err unit :=
  match o with
  | OpCreate r n c t => _ ← create r n c t; mret tt
  | OpInvite r a i t => invite r a i t
  | OpLeave r a => leave r a
  | OpSetRole r a t role => setRole r a t role
  | OpTransfer r a t => transferCreator r a t
  | OpRemove r a t => remove r a t
  end.

(** Alone they are the methods. *)
Lemma rooms_code_alone o : is_code (code o) (run_op domain o).
Proof.
  destruct o; cbn [code run_op];
    unfold create, Create, invite, Invite, leave, Leave, setRole, SetRole, transferCreator, TransferCreator,
      remove, Remove, roleOf, getMemberRole, transfer_tx; repeat ic_step.
Qed.

(** ** Who may change what, at what time

    The matrix of [Rooms.granted], with each role read at some time since the
    request arrived. *)
Inductive authorised seen d : op → DB → Prop :=
| au_room r n c t d' : insert_room domain r n c t d = Some d' → authorised seen d (OpCreate r n c t) d'
| au_creator r n c t d0 d1 d' :
    d0 ∈ seen → insert_room domain r n c t d0 = Some d1 → d1 ∈ seen →
    insert_member r c "creator" t d = Some d' → authorised seen d (OpCreate r n c t) d'
| au_invite r a i t d0 d' :
    d0 ∈ seen → manages r a d0 = true →
    insert_member_do_nothing r i "member" t d = Some d' → authorised seen d (OpInvite r a i t) d'
| au_leave r a role d0 d' :
    d0 ∈ seen → has_role r a role d0 → role ≠ "creator" →
    delete_member r a d = Some d' → authorised seen d (OpLeave r a) d'
| au_set_role r a t role d0 d' :
    d0 ∈ seen → manages r a d0 = true → role = "admin" ∨ role = "member" →
    (role = "admin" → has_role r a "creator" d0) →
    update_role r t role d = Some d' → authorised seen d (OpSetRole r a t role) d'
| au_transfer r a t d0 d1 e1 e2 d' :
    d0 ∈ seen → has_role r a "creator" d0 → d1 ∈ seen → is_Some (select_role r t d1) → t ≠ a →
    update_role r t "creator" d = Some e1 → update_role r a "member" e1 = Some e2 →
    update_creator r t e2 = Some d' → authorised seen d (OpTransfer r a t) d'
| au_remove r a t trole d0 d1 d' :
    d0 ∈ seen → manages r a d0 = true → d1 ∈ seen → has_role r t trole d1 → trole ≠ "creator" →
    (trole = "admin" → has_role r a "creator" d0) →
    delete_member r t d = Some d' → authorised seen d (OpRemove r a t) d'.

Section rules.
Context {B : Type} (ok : list DB → DB → DB → Prop) (post : list DB → result err B → Prop).
Context (post_err : ∀ l e, post l (Err e)).
Implicit Types (k : result err string → prog DB err B).

(** Reading a role. *)
Lemma safe_try_role seen room user k :
  (∀ d l role, d ∈ l ++ seen → has_role room user role d → safe ok post (d :: l ++ seen) (k (Ok role))) →
  (∀ l e, safe ok post (l ++ seen) (k (Err e))) →
  safe ok post seen (r ← try_ (roleOf room user); k r).
Proof.
  intros Hk He l d Hd%head_elem. split; [|apply (He (d :: l))]. intros x d' [= <- <-]. split; [by left|].
  destruct (select_role room user d) as [role|] eqn:Hr; [by apply Hk|apply (He (d :: l))].
Qed.

Lemma safe_role seen room user (k : string → prog DB err B) :
  (∀ d l role, d ∈ l ++ seen → has_role room user role d → safe ok post (d :: l ++ seen) (k role)) →
  safe ok post seen (r ← roleOf room user; k r).
Proof.
  intros Hk l d Hd%head_elem. split; [|by intros l']. intros x d' [= <- <-]. split; [by left|].
  destruct (select_role room user d) as [role|] eqn:Hr; [by apply Hk|by intros l'].
Qed.

End rules.

Lemma transfer_tx_exec F r a t d res d' :
  Exec F (transfer_tx r a t) d res d' → d' = d ∨
  ∃ e1 e2, update_role r t "creator" d = Some e1 ∧ update_role r a "member" e1 = Some e2 ∧
           update_creator r t e2 = Some d'.
Proof.
  apply (wp_Exec F (transfer_tx r a t) (λ _ d', d' = d ∨ ∃ e1 e2, update_role r t "creator" d = Some e1 ∧
    update_role r a "member" e1 = Some e2 ∧ update_creator r t e2 = Some d')).
  unfold transfer_tx. wp_go; try split; eauto 8.
Qed.

Ltac seen := set_solver.
Ltac role_tests := repeat match goal with
  | H : _ || _ = false |- _ => apply orb_false_iff in H as [? ?]
  | H : negb (bool_decide _) = false |- _ => apply negb_false_iff, bool_decide_eq_true in H; subst
  | H : bool_decide _ = false |- _ => apply bool_decide_eq_false in H
  end.

Lemma rooms_code_safe o d : safe (λ l d d', authorised l d o d') (λ _ _, True) [d] (code o).
Proof.
  destruct o; cbn [code].
  - apply (safe_bind _ _ (λ _ _, True)); [|done..].
    apply safe_throws_then; [done|]. intros d0 l d1 H0 Hi. split; [by eapply au_room|].
    apply safe_throws_then; [done|]. intros d2 l2 d3 H2 Hm. split; [|done].
    eapply (au_creator _ _ _ name _ _ d0 d1); [seen|done|seen|done].
  - apply safe_try_role; [|done]. intros d0 l role H0 Hr. cbn beta iota. case_match; [done|].
    apply safe_throws_does; [done..|]. intros d1 l1 d2 _ Hi. eapply au_invite; [|by eapply privileged_manages|done]. seen.
  - apply safe_role; [done|]. intros d0 l role H0 Hr. cbn beta iota. case_match; [done|]. role_tests.
    apply safe_throws_does; [done..|]. intros d1 l1 d2 _ Hi. eapply au_leave; [|done|done|done]. seen.
  - unfold setRole. destruct (negb _ && negb _) eqn:Hg; [done|].
    apply safe_try_role; [|done]. intros d0 l role1 H0 Hr. cbn beta iota. case_match; [done|]. case_match eqn:Ha; [done|].
    apply safe_throws_does; [done..|]. intros d1 l1 d2 _ Hi. eapply (au_set_role _ _ _ _ _ _ d0); [seen|by eapply privileged_manages| |..|done].
    + by apply guard_passed.
    + intros ->. apply guard_admin in Ha; [by subst|done].
  - apply safe_try_role; [|done]. intros d0 l role1 H0 Hr. cbn beta iota. case_match; [done|]. role_tests.
    apply safe_role; [done|]. intros d1 l1 role2 H1 Ht. case_match; [done|]. role_tests.
    intros l2 d2 _ F res d3 He. split; [|done].
    apply transfer_tx_exec in He as [->|(e1 & e2 & ? & ? & ?)]; [by left|right].
    eapply (au_transfer _ _ _ _ _ d0 d1); [seen|done|seen|by eexists|done..].
  - apply safe_try_role; [|done]. intros d0 l role1 H0 Hr. cbn beta iota. case_match eqn:Hm; [done|].
    apply safe_role; [done|]. intros d1 l1 role2 H1 Ht. case_match eqn:Hx; [done|].
    apply orb_false_iff in Hx as [Hc Ha]. apply bool_decide_eq_false in Hc.
    apply safe_throws_does; [done..|]. intros d2 l2 d3 _ Hi.
    eapply (au_remove _ _ _ _ _ _ d0 d1); [seen|by eapply privileged_manages|seen|done|done| |done].
    intros ->. apply guard_admin in Ha; [by subst|done].
Qed.

(** C9: However the statements of concurrent requests are interleaved, a
    request to the rooms service changes the database only in the way its
    method is for, and only when the roles that the method demands were held
    at some time since the request arrived. *)
Theorem rooms_authorised_together d0 s i t p d :
  reach code d0 s → sys_threads s !! i = Some t → pstep (th_prog t) (sys_db s) p d →
  d = sys_db s ∨ authorised (th_seen t) (sys_db s) (th_op t) d.
Proof.
  intros Hr Hi Hp. apply (safe_reach code (λ o l d d', authorised l d o d') (λ _ _ _, True) (λ o d, rooms_code_safe o d) d0 s i t p d); done.
Qed.

(** ** What every order of statements keeps

    Members belong to rooms, and have one of the three roles. *)
Definition known_roles d : Prop :=
  ∀ k m, d.(members) !! k = Some m → m.(m_role) = "creator" ∨ m.(m_role) = "admin" ∨ m.(m_role) = "member".

Definition sound d : Prop := member_fk d ∧ known_roles d.

Lemma sound_insert_room r n c t d d' : sound d → insert_room domain r n c t d = Some d' → sound d'.
Proof.
  intros [Hf Hr] (Hn & Hm & Hd)%insert_room_inv. split.
  - intros room user m. rewrite Hm, Hd. intros Hl%Hf. destruct (decide (room = r)) as [->|].
    + by rewrite lookup_insert_eq.
    + by rewrite lookup_insert_ne.
  - intros k m. rewrite Hm. apply Hr.
Qed.

Lemma sound_members d d' k role t :
  sound d → d'.(rooms) = d.(rooms) → d'.(members) = <[k := MemberRow role t]> d.(members) →
  is_Some (d.(rooms) !! k.1) → role = "creator" ∨ role = "admin" ∨ role = "member" → sound d'.
Proof.
  intros [Hf Hr] Hd Hm Hk Hrole. split.
  - intros room user m. rewrite Hm, Hd. destruct (decide ((room, user) = k)) as [<-|].
    + by intros _.
    + rewrite lookup_insert_ne by done. apply Hf.
  - intros k' m. rewrite Hm. destruct (decide (k' = k)) as [->|].
    + rewrite lookup_insert_eq. by intros [= <-].
    + rewrite lookup_insert_ne by done. apply Hr.
Qed.

Lemma sound_insert_member r u role t d d' :
  role = "creator" ∨ role = "admin" ∨ role = "member" →
  sound d → insert_member r u role t d = Some d' → sound d'.
Proof.
  unfold insert_member, member_refs. intros Hrole Hs Hi.
  destruct (rooms d !! r) as [ro|] eqn:Hro; [|done]. destruct (users d !! u); [|done].
  destruct (members d !! (r, u)); [done|]. injection Hi as <-.
  by eapply (sound_members d _ (r, u)).
Qed.

Lemma sound_update_role r u role d d' : sound d → update_role r u role d = Some d' → sound d'.
Proof.
  unfold update_role. intros Hs Hu. destruct (members d !! (r, u)) as [m|] eqn:Hm; [|by simplify_eq].
  case_bool_decide; [|done]. injection Hu as <-. eapply (sound_members d _ (r, u)); [done..| |done].
  by eapply (proj1 Hs).
Qed.

Lemma sound_delete r u d d' : sound d → delete_member r u d = Some d' → sound d'.
Proof.
  intros [Hf Hr] [= <-]. split; [intros room user m|intros k m]; cbn; intros [_ Hl]%lookup_delete_Some; eauto.
Qed.

Lemma sound_update_creator r u d d' : sound d → update_creator r u d = Some d' → sound d'.
Proof.
  unfold update_creator. intros [Hf Hr] Hu. destruct (rooms d !! r) as [ro|] eqn:Hro; [|by simplify_eq].
  destruct (users d !! u); [|done]. injection Hu as <-. split; [|exact Hr].
  intros room user m Hl%Hf. cbn. destruct (decide (room = r)) as [->|].
  - by rewrite lookup_insert_eq.
  - by rewrite lookup_insert_ne.
Qed.

Create HintDb rooms_race.
#[local] Hint Resolve sound_insert_room sound_insert_member sound_update_role sound_delete sound_update_creator : rooms_race.

Lemma sound_transfer_tx F r a t d res d' : sound d → Exec F (transfer_tx r a t) d res d' → sound d'.
Proof. intros Hs [->|(e1 & e2 & ? & ? & ?)]%transfer_tx_exec; eauto with rooms_race. Qed.

(** Programs whose statements keep an invariant. *)
Lemma every_role {B} I room user (k : string → prog DB err B) :
  (∀ role, every I (k role)) → every I (r ← roleOf room user; k r).
Proof.
  intros Hk. cbn. split; [by intros ? ? ? ? [= <- <-]|]. intros [[role|]|]; [apply Hk|done|done].
Qed.

Lemma every_try_role {B} I room user (k : result err string → prog DB err B) :
  (∀ role, every I (k role)) → every I (r ← try_ (roleOf room user); k r).
Proof.
  intros Hk. cbn. split; [by intros ? ? ? ? [= <- <-]|]. intros [[role|]|]; apply Hk.
Qed.

Lemma rooms_every_code o : every sound (code o).
Proof.
  destruct o; cbn [code].
  - apply every_bind; [|done]. do 2 (apply every_bind; [apply every_throws, every_does; eauto with rooms_race|intros _]). done.
  - apply every_try_role. intros [role|e]; [|done]. case_match; [done|].
    apply every_throws, every_does. unfold insert_member_do_nothing. intros d d' Hd Hi.
    destruct (members d !! (room, invitee)); [by simplify_eq|]. eauto with rooms_race.
  - apply every_role. intros role. case_match; [done|]. apply every_throws, every_does. eauto with rooms_race.
  - unfold setRole. case_match; [done|]. apply every_try_role. intros [role1|e]; [|done].
    do 2 (case_match; [done|]). apply every_throws, every_does. eauto with rooms_race.
  - apply every_try_role. intros [role1|e]; [|done]. case_match; [done|].
    apply every_role. intros role2. case_match; [done|]. split; [|done]. intros F d r d' Hd He.
    by eapply sound_transfer_tx.
  - apply every_try_role. intros [role1|e]; [|done]. case_match; [done|].
    apply every_role. intros role2. case_match; [done|]. apply every_throws, every_does. eauto with rooms_race.
Qed.

(** However concurrent requests are interleaved, members belong to rooms and
    have one of the three roles. *)
Theorem rooms_sound_together d0 s : sound d0 → reach code d0 s → sound (sys_db s).
Proof. intros Hd Hr. by eapply (every_reach code sound); [apply rooms_every_code| |]. Qed.
End service.

(** ** Races

    The roles are read before the statement that they allow: what
    [Rooms.run_op_refines] shows of methods one after the other fails when
    they overlap. *)
Module Sample.

Definition after (us : list (turn (O:=op))) : system op DB err unit :=
  foldl (take_turn (code "a.org")) (System sample_db []) us.

Lemma after_reach us : reach (code "a.org") sample_db (after us).
Proof. apply turns_reach. constructor. Qed.

Definition roles (s : system op DB err unit) : list (option string) :=
  (λ u, select_role 7 u (sys_db s)) <$> [1%Z; 2%Z; 3%Z].

(** The creator hands the room over twice at the same time: to 2 and to 3. *)
Definition handed_twice : system op DB err unit := after
  [Arrives (OpTransfer 7 1 2); Arrives (OpTransfer 7 1 3); Runs 0; Runs 0; Runs 1; Runs 1; Runs 0; Runs 1].

Lemma two_creators :
  reach (code "a.org") sample_db handed_twice ∧ th_prog <$> sys_threads handed_twice = [Stop (Ok tt); Stop (Ok tt)] ∧
  roles handed_twice = [Some "member"; Some "creator"; Some "creator"] ∧ ¬ creator_matches (sys_db handed_twice).
Proof.
  split; [apply after_reach|]. split; [by vm_compute|]. split; [by vm_compute|]. intros Hc.
  destruct (Hc 7%Z 2%Z (MemberRow "creator" 1)) as (r & Hr & Hu); [by vm_compute|done|].
  vm_compute in Hr. injection Hr as <-. by vm_compute in Hu.
Qed.

(** 2 leaves while the room is handed over to him. *)
Definition left_behind : system op DB err unit := after
  [Arrives (OpTransfer 7 1 2); Arrives (OpLeave 7 2); Runs 0; Runs 0; Runs 1; Runs 0; Runs 1].

Lemma no_creator :
  reach (code "a.org") sample_db left_behind ∧ th_prog <$> sys_threads left_behind = [Stop (Ok tt); Stop (Ok tt)] ∧
  roles left_behind = [Some "member"; None; Some "member"].
Proof. split; [apply after_reach|]. split; by vm_compute. Qed.

(** 2, an admin, removes 3 after 1 has removed him: his role was read
    before. *)
Definition outdated : system op DB err unit := after
  [Arrives (OpRemove 7 2 3); Runs 0; Arrives (OpRemove 7 1 2); Runs 1; Runs 1; Runs 1; Runs 0].

Definition outdated_thread : thread op DB err unit := default (Thread (OpLeave 0 0) [] (Stop (Ok tt))) (sys_threads outdated !! 0).

Lemma rooms_authorised_together_witness :
  let d := (advance (th_prog outdated_thread) (sys_db outdated)).2 in
  roles outdated = [Some "creator"; None; Some "member"] ∧ select_role 7 3 d = None ∧
  authorised "a.org" (th_seen outdated_thread) (sys_db outdated) (th_op outdated_thread) d.
Proof.
  intros d. split; [by vm_compute|]. split; [by vm_compute|].
  assert (pstep (th_prog outdated_thread) (sys_db outdated) (advance (th_prog outdated_thread) (sys_db outdated)).1 d)
    as Hp by (apply advance_pstep; intros r Hr; by vm_compute in Hr).
  destruct (rooms_authorised_together "a.org" sample_db outdated 0 outdated_thread _ d (after_reach _)
    ltac:(by vm_compute) Hp) as [He|Ha]; [|exact Ha].
  apply (f_equal (select_role 7 3)) in He. by vm_compute in He.
Defined.

Lemma rooms_sound_together_witness : sound sample_db ∧ sound (sys_db handed_twice).
Proof.
  assert (sound sample_db) as Hs.
  { split.
    - intros room user m Hl. cbn in Hl.
      repeat (apply lookup_insert_Some in Hl as [[[= <- <-] _]|[_ Hl]]; [by eexists|]).
      apply lookup_singleton_Some in Hl as [[= <- <-] _]. by eexists.
    - intros k m Hl. cbn in Hl.
      repeat (apply lookup_insert_Some in Hl as [[_ <-]|[_ Hl]]; [cbn; tauto|]).
      apply lookup_singleton_Some in Hl as [_ <-]. cbn. tauto. }
  split; [exact Hs|]. by apply (rooms_sound_together "a.org" sample_db handed_twice Hs (after_reach _)).
Defined.
End Sample.
End RoomsRace.
