(* ===== verification/Dbenc.v ===== *)
(** * Column encryption ([server/internal/dbenc])

    The cipher that wraps sensitive columns ([dbenc.go]) and the start-up
    migration that encrypts the rows written before it was enabled
    ([migrate.go]).  AES-GCM itself is a parameter: the class [Aead]. *)

From Stdlib Require Import Ascii String.
From stdpp Require Import strings.
From S2P Require Import Prelude GoStrings Encoding Schema.
Set Default Goal Selector "!".
Open Scope stdpp_scope.

(** ** AES-256-GCM ([crypto/cipher]) *)
Class Aead := {
  aead_seal : string → string → string → string;
  aead_open : string → string → string → option string;
}.

(** Opening what was sealed under the same key and nonce. *)
Class AeadLaws `{Aead} :=
  aead_open_seal key nonce p : aead_open key nonce (aead_seal key nonce p) = Some p.

(** A stand-in used by the witnesses. *)
Definition toy_aead : Aead := {|
  aead_seal key nonce p := key +:+ p;
  aead_open key nonce c := if has_prefix c key then Some (sdrop (slen key) c) else None;
|}.

Lemma toy_aead_laws : @AeadLaws toy_aead.
Proof. intros key nonce p. simpl. by rewrite has_prefix_app, sdrop_app. Qed.

Module Dbenc.

Inductive err :=
| ErrInvalidKey
| ErrDecrypt
| ErrRand
| ErrDb
| ErrTable (name : string).

Definition magicPrefix : string := "DBE1".

(** [cipher.AEAD.NonceSize] of [cipher.NewGCM]. *)
Definition NonceSize : nat := 12.

(** [*Cipher]: [None] is the nil pointer, which disables encryption.  The
    AEAD is determined by its key. *)
Definition Cipher : Type := option string.

Definition New (keyB64 : string) : result err Cipher :=
  if bool_decide (keyB64 = "") then Ok None
  else match b64_decode keyB64 with
       | None => Err ErrInvalidKey
       | Some key => if negb (slen key =? 32) then Err ErrInvalidKey else Ok (Some key)
       end.

(** What [rand.Reader] yields when read: [None] when it fails. *)
Definition fresh_nonce (r : option string) : Prop :=
  ∀ nonce, r = Some nonce → slen nonce = NonceSize.

Definition Enabled (c : Cipher) : bool := match c with Some _ => true | None => false end.

Definition GenerateKey (r : option string) : result err string :=
  match r with None => Err ErrRand | Some b => Ok (b64_encode b) end.

Definition IsEncrypted (data : string) : bool :=
  (slen magicPrefix <=? slen data) && bool_decide (magicPrefix = stake (slen magicPrefix) data).

(** Inputs of the witnesses. *)
Definition sample_key : Cipher := Some "0123456789abcdef0123456789abcdef".

Definition sample_rand (t : string) (k : Z * Z) (i : nat) : option string := Some "nonce-012345".

Definition sample_db : DB :=
  with_users {[ 1%Z := UserRow "ann" "a.org" (Some "secret-hash") ]}
  (with_salts {[ 1%Z := "salt" ]} empty_db).

Section cipher.
Context `{Aead}.

Definition Encrypt (c : Cipher) (rand : option string) (plain : string) : result err string :=
  match c with
  | None => Ok plain
  | Some key =>
    match rand with
    | None => Err ErrRand
    | Some nonce => Ok (magicPrefix +:+ nonce +:+ aead_seal key nonce plain)
    end
  end.

Definition Decrypt (c : Cipher) (data : string) : result err string :=
  match c with
  | None => Ok data
  | Some key =>
    if (slen data <? slen magicPrefix) ||
       negb (bool_decide (stake (slen magicPrefix) data = magicPrefix))
    then Ok data
    else
      let data := sdrop (slen magicPrefix) data in
      if slen data <? NonceSize then Err ErrDecrypt
      else
        match aead_open key (stake NonceSize data) (sdrop NonceSize data) with
        | None => Err ErrDecrypt
        | Some plain => Ok plain
        end
  end.

(** ** [EncryptExisting]

    [rand table row column] is what the random source yields when that
    value is encrypted. *)
Context (rand : string → Z * Z → nat → option string).

(** [if !IsEncrypted(v) { v, err = c.Encrypt(v) }] *)
Definition seal_plain (c : Cipher) (r : option string) (v : string) : result err string :=
  if IsEncrypted v then Ok v else Encrypt c r v.

Definition set_password (id : Z) (v : string) (d : DB) : DB :=
  with_users (alter (λ u, UserRow u.(u_username) u.(u_domain) (Some v)) id d.(users)) d.

Definition set_device_keys (id : Z) (ik spk sig : string) (d : DB) : DB :=
  with_devices (alter (λ r, DeviceRow r.(d_user) ik spk sig r.(d_signed_prekey_id)
                   r.(d_name) r.(d_created_at) r.(d_updated_at)) id d.(devices)) d.

Definition set_prekey (k : Z * Z) (v : string) (d : DB) : DB :=
  with_prekeys (alter (λ p, PrekeyRow v p.(p_consumed_at)) k d.(prekeys)) d.

Definition set_token_hash (jti : Z) (v : string) (d : DB) : DB :=
  with_tokens (alter (λ t, TokenRow t.(t_user) t.(t_device) v t.(t_expires_at)
                   t.(t_revoked_at)) jti d.(tokens)) d.

Definition set_salt (id : Z) (v : string) (d : DB) : DB :=
  with_salts (alter (λ _, v) id d.(salts)) d.

Definition encrypt_users (c : Cipher) : M DB err unit :=
  rows ← or_raise (ErrTable "users") (query (λ d,
    omap (λ ku, match ku.2.(u_password) with
                | Some ph => if 0 <? slen ph then Some (ku.1, ph) else None
                | None => None
                end) (map_to_list d.(users))));
  for_rows (λ row,
    if IsEncrypted row.2 then mret tt
    else enc ← of_result (Encrypt c (rand "users" (row.1, 0%Z) 0) row.2);
         or_raise ErrDb (exec (λ d, Some (set_password row.1 enc d)))) rows.

Definition encrypt_devices (c : Cipher) : M DB err unit :=
  rows ← or_raise (ErrTable "devices") (query (λ d, map_to_list d.(devices)));
  for_rows (λ row,
    let ik := row.2.(d_identity_key) in
    let spk := row.2.(d_signed_prekey) in
    let spkSig := row.2.(d_signed_prekey_sig) in
    if negb (negb (IsEncrypted ik) || negb (IsEncrypted spk) || negb (IsEncrypted spkSig))
    then mret tt
    else
      let r := rand "devices" (row.1, 0%Z) in
      ikEnc ← of_result (seal_plain c (r 0) ik);
      spkEnc ← of_result (seal_plain c (r 1) spk);
      spkSigEnc ← of_result (seal_plain c (r 2) spkSig);
      or_raise ErrDb (exec (λ d, Some (set_device_keys row.1 ikEnc spkEnc spkSigEnc d)))) rows.

Definition encrypt_prekeys (c : Cipher) : M DB err unit :=
  rows ← or_raise (ErrTable "one_time_prekeys") (query (λ d, map_to_list d.(prekeys)));
  for_rows (λ row,
    if IsEncrypted row.2.(p_prekey) then mret tt
    else enc ← of_result (Encrypt c (rand "one_time_prekeys" row.1 0) row.2.(p_prekey));
         or_raise ErrDb (exec (λ d, Some (set_prekey row.1 enc d)))) rows.

Definition encrypt_tokens (c : Cipher) : M DB err unit :=
  rows ← or_raise (ErrTable "access_tokens") (query (λ d, map_to_list d.(tokens)));
  for_rows (λ row,
    if IsEncrypted row.2.(t_hash) then mret tt
    else enc ← of_result (Encrypt c (rand "access_tokens" (row.1, 0%Z) 0) row.2.(t_hash));
         or_raise ErrDb (exec (λ d, Some (set_token_hash row.1 enc d)))) rows.

(** A failing query of [backup_salts] is not an error. *)
Definition encrypt_salts (c : Cipher) : M DB err unit :=
  rows ← query (λ d, map_to_list d.(salts));
  match rows with
  | None => mret tt
  | Some rows =>
    for_rows (λ row,
      if IsEncrypted row.2 then mret tt
      else enc ← of_result (Encrypt c (rand "backup_salts" (row.1, 0%Z) 0) row.2);
           or_raise ErrDb (exec (λ d, Some (set_salt row.1 enc d)))) rows
  end.

Definition EncryptExisting (c : Cipher) : M DB err unit :=
  if negb (Enabled c) then mret tt
  else _ ← encrypt_users c;
       _ ← encrypt_devices c;
       _ ← encrypt_prekeys c;
       _ ← encrypt_tokens c;
       encrypt_salts c.

(** What the updates of the pass keep, the pass keeps. *)
Record statements_keep (I : DB → Prop) : Prop := {
  sk_password id v d : I d → I (set_password id v d);
  sk_device id ik spk sig d : I d → I (set_device_keys id ik spk sig d);
  sk_prekey k v d : I d → I (set_prekey k v d);
  sk_token jti v d : I d → I (set_token_hash jti v d);
  sk_salt id v d : I d → I (set_salt id v d)
}.

Lemma keeps_for_rows {R} (I : DB → Prop) (f : R → M DB err unit) l :
  (∀ a, keeps I (f a)) → keeps I (for_rows f l).
Proof.
  intros Hf. induction l as [|a l IH]; cbn [for_rows]; keeps_go; simplify_eq; eauto.
Qed.

Lemma EncryptExisting_keeps I c : statements_keep I → keeps I (EncryptExisting c).
Proof.
  intros [Hu Hd Hp Ht Hs]. unfold EncryptExisting, encrypt_users, encrypt_devices, encrypt_prekeys,
    encrypt_tokens, encrypt_salts.
  repeat first [apply keeps_for_rows; intros ?row|keeps_step; cbn beta iota zeta]; simplify_eq; auto.
Qed.

(** ** What the services read: the database with its columns decrypted *)
Definition view_user (c : Cipher) (u : user_row) :=
  (u.(u_username), u.(u_domain), Decrypt c <$> u.(u_password)).
Definition view_device (c : Cipher) (r : device_row) :=
  (r.(d_user), Decrypt c r.(d_identity_key), Decrypt c r.(d_signed_prekey),
   Decrypt c r.(d_signed_prekey_sig), r.(d_signed_prekey_id), r.(d_name),
   r.(d_created_at), r.(d_updated_at)).
Definition view_prekey (c : Cipher) (p : prekey_row) :=
  (Decrypt c p.(p_prekey), p.(p_consumed_at)).
Definition view_token (c : Cipher) (t : token_row) :=
  (t.(t_user), t.(t_device), Decrypt c t.(t_hash), t.(t_expires_at), t.(t_revoked_at)).

Definition view (c : Cipher) (d : DB) :=
  (view_user c <$> d.(users), view_device c <$> d.(devices),
   view_prekey c <$> d.(prekeys), view_token c <$> d.(tokens),
   Decrypt c <$> d.(salts),
   (d.(users_seq), d.(queue), d.(idempotency), d.(cursors), d.(receipts), d.(rooms),
    d.(members), d.(backups), d.(proxies), d.(peers), d.(vpn_peers), d.(vpn_nodes),
    d.(vpn_settings), d.(wg_addr_seq), d.(pushes))).

(** ** The columns the pass visits are marked as encrypted

    The pass does not visit [key_backups.encrypted_bundle], which
    [StoreKeyBackup] stores encrypted too. *)
Definition users_sealed (d : DB) : Prop :=
  ∀ id u ph, d.(users) !! id = Some u → u.(u_password) = Some ph → ph ≠ "" →
    IsEncrypted ph = true.
Definition devices_sealed (d : DB) : Prop :=
  ∀ id r, d.(devices) !! id = Some r →
    IsEncrypted r.(d_identity_key) = true ∧ IsEncrypted r.(d_signed_prekey) = true ∧
    IsEncrypted r.(d_signed_prekey_sig) = true.
Definition prekeys_sealed (d : DB) : Prop :=
  ∀ k p, d.(prekeys) !! k = Some p → IsEncrypted p.(p_prekey) = true.
Definition tokens_sealed (d : DB) : Prop :=
  ∀ k t, d.(tokens) !! k = Some t → IsEncrypted t.(t_hash) = true.
Definition salts_sealed (d : DB) : Prop :=
  ∀ k s, d.(salts) !! k = Some s → IsEncrypted s = true.
Definition visited_sealed (d : DB) : Prop :=
  users_sealed d ∧ devices_sealed d ∧ prekeys_sealed d ∧ tokens_sealed d ∧ salts_sealed d.

(** ** Lemmas *)
Lemma IsEncrypted_spec s :
  IsEncrypted s = true ↔ ∃ rest, s = magicPrefix +:+ rest.
Proof.
  unfold IsEncrypted. split.
  - intros [_ Hp]%andb_true_iff. apply bool_decide_eq_true in Hp.
    exists (sdrop (slen magicPrefix) s). by rewrite Hp, stake_sdrop at 1.
  - intros [rest ->]. rewrite stake_app, bool_decide_eq_true_2 by done.
    rewrite slen_app, andb_true_r. apply Nat.leb_le. lia.
Qed.

Lemma Decrypt_plain c s : IsEncrypted s = false → Decrypt c s = Ok s.
Proof.
  intros Hs. destruct c as [key|]; [|done]. unfold Decrypt.
  destruct (_ || _) eqn:Hc; [done|]. apply orb_false_iff in Hc as [H1 H2].
  apply negb_false_iff, bool_decide_eq_true in H2.
  assert (IsEncrypted s = true); [|congruence].
  apply IsEncrypted_spec. exists (sdrop (slen magicPrefix) s). by rewrite <- H2, stake_sdrop at 1.
Qed.

Lemma Encrypt_IsEncrypted c r p w :
  Enabled c = true → Encrypt c r p = Ok w → IsEncrypted w = true.
Proof.
  unfold Encrypt. destruct c; [|done]. intros _. destruct r; [|done]. intros [= <-].
  apply IsEncrypted_spec. eauto.
Qed.

Lemma Encrypt_total c nonce p : is_ok (Encrypt c (Some nonce) p) = true.
Proof. by destruct c. Qed.

Lemma Decrypt_Encrypt `{!AeadLaws} c r p w :
  fresh_nonce r → Encrypt c r p = Ok w → Decrypt c w = Ok p.
Proof.
  intros Hr He. destruct c as [key|]; [|by simplify_eq/=]. unfold Encrypt in He.
  destruct r as [nonce|]; [|done]. injection He as <-.
  specialize (Hr nonce eq_refl). unfold Decrypt.
  rewrite stake_app, sdrop_app, bool_decide_eq_true_2, orb_false_r by done.
  rewrite !slen_app, Hr.
  rewrite !(proj2 (Nat.ltb_ge _ _)) by lia.
  by rewrite <- Hr, stake_app, sdrop_app, aead_open_seal.
Qed.

Lemma Decrypt_seal_plain `{!AeadLaws} c r v w :
  fresh_nonce r → seal_plain c r v = Ok w → Decrypt c w = Decrypt c v.
Proof.
  unfold seal_plain. destruct (IsEncrypted v) eqn:Hv; [by intros _ [= <-]|].
  intros Hr Hw. by rewrite (Decrypt_Encrypt c r v), (Decrypt_plain c v).
Qed.

Lemma Decrypt_sealed `{!AeadLaws} c r v w :
  fresh_nonce r → IsEncrypted v = false → Encrypt c r v = Ok w → Decrypt c w = Decrypt c v.
Proof. intros Hr Hv Hw. apply (Decrypt_seal_plain c r); [done|]. unfold seal_plain. by rewrite Hv. Qed.

Lemma seal_plain_IsEncrypted c r v w :
  Enabled c = true → seal_plain c r v = Ok w → IsEncrypted w = true.
Proof.
  unfold seal_plain. destruct (IsEncrypted v) eqn:Hv; [by intros _ [= <-]|].
  apply Encrypt_IsEncrypted.
Qed.

Lemma seal_plain_total c r v : is_Some r → ∃ w, seal_plain c r v = Ok w.
Proof.
  intros [nonce ->]. unfold seal_plain, Encrypt. destruct (IsEncrypted v); [by eexists|].
  destruct c; by eexists.
Qed.

(** The random source never fails and yields nonces of the right length. *)
Definition good_rand : Prop := ∀ t k i, is_Some (rand t k i).
Definition sized_rand : Prop := ∀ t k i, fresh_nonce (rand t k i).

(** One table of a single sealed column. *)
Lemma wp_seal_rows {R} F c (rows : list R) (val : R → string) (rnd : R → option string)
    (upd : R → string → DB → DB) (I : list R → DB → Prop) (Q : result err unit → DB → Prop) d :
  I rows d →
  (∀ row rest d', row ∈ rows → I (row :: rest) d' → IsEncrypted (val row) = true → I rest d') →
  (∀ row rest d' w, row ∈ rows → I (row :: rest) d' → IsEncrypted (val row) = false →
     Encrypt c (rnd row) (val row) = Ok w → I rest (upd row w d')) →
  (∀ rest d' e, I rest d' → faulty F ∨ (∃ row, rnd row = None) → Q (Err e) d') →
  (∀ rest d', I rest d' → faulty F ∨ rest = [] → Q (Ok tt) d') →
  wp F (for_rows (λ row,
      if IsEncrypted (val row) then mret tt
      else enc ← of_result (Encrypt c (rnd row) (val row));
           or_raise ErrDb (exec (λ d, Some (upd row enc d)))) rows) Q d.
Proof.
  intros Hd Hskip Hupd Herr Hend.
  apply (wp_for_rows F _ I); [done| |done].
  intros row rest d' (l0 & Hl) HI.
  assert (row ∈ rows) by (rewrite Hl; set_solver).
  destruct (IsEncrypted (val row)) eqn:Hv; [apply wp_ret; by eapply Hskip|].
  apply wp_bind, wp_of_result. destruct (Encrypt c (rnd row) (val row)) as [w|e] eqn:He.
  - apply wp_or_raise, wp_exec_some; eauto.
  - eapply Herr; [done|]. right. exists row.
    unfold Encrypt in He. destruct c, (rnd row); done.
Qed.

Section view_preserved.
Context `{!AeadLaws} (Hsized : sized_rand) (F : nat → bool) (c : Cipher) (d0 : DB).

Let same (d : DB) : Prop := view c d = view c d0.

Ltac view_step HI :=
  unfold same, view in HI |- *; injection HI as ?HI; simpl;
  rewrite fmap_alter_same; [congruence|]; intros ?x ?Hx.

Lemma same_set_password d id u ph w :
  same d → d0.(users) !! id = Some u → u.(u_password) = Some ph →
  Decrypt c w = Decrypt c ph → same (set_password id w d).
Proof.
  intros HI Hu Hph Hw. view_step HI.
  assert (view_user c x = view_user c u) as Hv by (by eapply fmap_eq_lookup).
  unfold view_user in *. simpl. rewrite Hph in Hv. simpl in Hv. congruence.
Qed.

Lemma same_set_device_keys d id r ik spk sig :
  same d → d0.(devices) !! id = Some r →
  Decrypt c ik = Decrypt c r.(d_identity_key) →
  Decrypt c spk = Decrypt c r.(d_signed_prekey) →
  Decrypt c sig = Decrypt c r.(d_signed_prekey_sig) →
  same (set_device_keys id ik spk sig d).
Proof.
  intros HI Hr H1 H2 H3. view_step HI.
  assert (view_device c x = view_device c r) as Hv by (by eapply fmap_eq_lookup).
  unfold view_device in *. simpl. congruence.
Qed.

Lemma same_set_prekey d k p w :
  same d → d0.(prekeys) !! k = Some p → Decrypt c w = Decrypt c p.(p_prekey) →
  same (set_prekey k w d).
Proof.
  intros HI Hp Hw. view_step HI.
  assert (view_prekey c x = view_prekey c p) as Hv by (by eapply fmap_eq_lookup).
  unfold view_prekey in *. simpl. congruence.
Qed.

Lemma same_set_token_hash d k t w :
  same d → d0.(tokens) !! k = Some t → Decrypt c w = Decrypt c t.(t_hash) →
  same (set_token_hash k w d).
Proof.
  intros HI Ht Hw. view_step HI.
  assert (view_token c x = view_token c t) as Hv by (by eapply fmap_eq_lookup).
  unfold view_token in *. simpl. congruence.
Qed.

Lemma same_set_salt d k s w :
  same d → d0.(salts) !! k = Some s → Decrypt c w = Decrypt c s →
  same (set_salt k w d).
Proof.
  intros HI Hs Hw. view_step HI.
  assert (Decrypt c x = Decrypt c s) by (by eapply fmap_eq_lookup). congruence.
Qed.

(** Each table's pass keeps the view of the database it starts on. *)
Ltac view_pass step :=
  intros ->; apply wp_bind, wp_or_raise, wp_query; [done|];
  apply wp_seal_rows with (I := λ _, same); try done;
  intros [?id ?r] rest d' w Hin HI ? ?; simpl in *;
  apply elem_of_map_to_list in Hin; eapply step; eauto using Decrypt_sealed.

Lemma view_encrypt_users d : d = d0 → wp F (encrypt_users c) (λ _ d', same d') d.
Proof.
  intros ->. apply wp_bind, wp_or_raise, wp_query; [done|].
  apply wp_seal_rows with (I := λ _, same); try done.
  intros [id ph] rest d' w ((id' & u) & Hin & Hsel)%list_elem_of_omap HI ? ?.
  apply elem_of_map_to_list in Hin. simpl in *.
  destruct (u_password u) as [ph'|] eqn:Hph; [|done]. case_match; simplify_eq.
  eapply same_set_password; eauto using Decrypt_sealed.
Qed.

Lemma view_encrypt_devices d : d = d0 → wp F (encrypt_devices c) (λ _ d', same d') d.
Proof.
  intros ->. apply wp_bind, wp_or_raise, wp_query; [done|].
  apply wp_for_rows with (I := λ _, same); try done.
  intros [id r] rest d' (l0 & Hl) HI; cbn [fst snd].
  assert ((id, r) ∈ map_to_list (devices d0)) as Hin by (rewrite Hl; set_solver).
  apply elem_of_map_to_list in Hin.
  destruct (negb _); [by apply wp_ret|].
  do 3 (apply wp_bind, wp_of_result;
        lazymatch goal with |- match ?x with _ => _ end => destruct x eqn:? end; [|done]).
  apply wp_or_raise, wp_exec_some; [done|].
  eapply same_set_device_keys; eauto using Decrypt_seal_plain.
Qed.

Lemma view_encrypt_prekeys d : d = d0 → wp F (encrypt_prekeys c) (λ _ d', same d') d.
Proof. view_pass same_set_prekey. Qed.

Lemma view_encrypt_tokens d : d = d0 → wp F (encrypt_tokens c) (λ _ d', same d') d.
Proof. view_pass same_set_token_hash. Qed.

Lemma view_encrypt_salts d : d = d0 → wp F (encrypt_salts c) (λ _ d', same d') d.
Proof.
  intros ->. apply wp_bind, wp_query; [by apply wp_ret|]. cbn beta iota.
  apply wp_seal_rows with (I := λ _, same); try done.
  intros [id r] rest d' w Hin HI ? ?. apply elem_of_map_to_list in Hin.
  eapply same_set_salt; eauto using Decrypt_sealed.
Qed.
End view_preserved.


(** *** Sealing: without faults each pass leaves its table sealed, and keeps
    any [P] its own updates keep *)
Section sealing.
Context (c : Cipher) (P : DB → Prop) (Hc : Enabled c = true) (Hr : good_rand).

Lemma no_error_run {R} (t : string) (k : R → Z * Z) (i : nat) :
  ¬ (faulty no_faults ∨ ∃ row, rand t (k row) i = None).
Proof. intros [[n Hn]|[row Hn]]; [done|]. destruct (Hr t (k row) i). congruence. Qed.

Ltac no_error := intros ? ? ? _ Hf; exfalso; revert Hf; apply no_error_run.
Ltac at_end := intros ? ? [HP' HI] [[? ?]| ->]; [done|]; split; [done|]; split; [done|].

Lemma seal_encrypt_users d :
  (∀ id w d, P d → P (set_password id w d)) → P d →
  wp no_faults (encrypt_users c) (λ r d', r = Ok tt ∧ P d' ∧ users_sealed d') d.
Proof.
  intros Hupd HP. apply wp_bind, wp_or_raise, wp_query_nf.
  apply wp_seal_rows with (I := λ rest d', P d' ∧ ∀ id u ph,
    d'.(users) !! id = Some u → u.(u_password) = Some ph → ph ≠ "" →
    IsEncrypted ph = true ∨ (id, ph) ∈ rest).
  - split; [done|]. intros id u ph Hu Hph Hne. right.
    apply list_elem_of_omap. exists (id, u). split; [by apply elem_of_map_to_list|].
    simpl. rewrite Hph. by destruct ph.
  - intros [id ph] rest d' _ [HP' HI] He. split; [done|]. intros id' u' ph' Hu Hp Hne.
    destruct (HI _ _ _ Hu Hp Hne) as [?|[?|?]%elem_of_cons]; simplify_eq; auto.
  - intros [id ph] rest d' w _ [HP' HI] _ He. split; [by apply Hupd|].
    intros id' u' ph'. simpl. rewrite lookup_alter. case_decide; subst.
    + intros (u & ? & ->)%fmap_Some [= ->] _. left. by eapply Encrypt_IsEncrypted.
    + intros Hu Hp Hne.
      destruct (HI _ _ _ Hu Hp Hne) as [?|[?|?]%elem_of_cons]; simplify_eq; auto.
  - no_error.
  - at_end. intros id u ph Hu Hp Hne. destruct (HI _ _ _ Hu Hp Hne) as [?|?]; [done|set_solver].
Qed.

(** The tables whose rows are read whole. *)
Lemma wp_seal_table {K A} `{Countable K} (tbl : DB → gmap K A) (val : A → string)
    (setv : string → A → A) (upd : K → string → DB → DB)
    (t : string) (loc : K * A → Z * Z) d :
  (∀ k w d', tbl (upd k w d') = alter (setv w) k (tbl d')) →
  (∀ w r, val (setv w r) = w) →
  (∀ k w d', P d' → P (upd k w d')) → P d →
  wp no_faults (for_rows (λ row : K * A,
      if IsEncrypted (val row.2) then mret tt
      else enc ← of_result (Encrypt c (rand t (loc row) 0) (val row.2));
           or_raise ErrDb (exec (λ d, Some (upd row.1 enc d)))) (map_to_list (tbl d)))
    (λ r d', r = Ok tt ∧ P d' ∧ ∀ k r, tbl d' !! k = Some r → IsEncrypted (val r) = true) d.
Proof.
  intros Htbl Hval Hupd HP.
  apply (wp_seal_rows _ c _ (λ row : K * A, val row.2) _ (λ row : K * A, upd row.1))
    with (I := λ rest d', P d' ∧ ∀ k r,
      tbl d' !! k = Some r → IsEncrypted (val r) = true ∨ (k, r) ∈ rest).
  - split; [done|]. intros k r ?. right. by apply elem_of_map_to_list.
  - intros [k r] rest d' _ [HP' HI] He. split; [done|]. intros k' r' Hk.
    destruct (HI _ _ Hk) as [?|[?|?]%elem_of_cons]; simplify_eq; auto.
  - intros [k r] rest d' w _ [HP' HI] _ He. split; [by apply Hupd|]. intros k' r'.
    rewrite Htbl, lookup_alter. case_decide; subst.
    + intros (r0 & ? & ->)%fmap_Some. left. rewrite Hval. by eapply Encrypt_IsEncrypted.
    + intros Hk. destruct (HI _ _ Hk) as [?|[?|?]%elem_of_cons]; simplify_eq; auto.
  - no_error.
  - at_end. intros k r Hk. destruct (HI _ _ Hk) as [?|?]; [done|set_solver].
Qed.

Lemma seal_encrypt_prekeys d :
  (∀ k w d', P d' → P (set_prekey k w d')) → P d →
  wp no_faults (encrypt_prekeys c) (λ r d', r = Ok tt ∧ P d' ∧ prekeys_sealed d') d.
Proof.
  intros. apply wp_bind, wp_or_raise, wp_query_nf.
  by apply (wp_seal_table prekeys p_prekey (λ w p, PrekeyRow w p.(p_consumed_at))).
Qed.

Lemma seal_encrypt_tokens d :
  (∀ k w d', P d' → P (set_token_hash k w d')) → P d →
  wp no_faults (encrypt_tokens c) (λ r d', r = Ok tt ∧ P d' ∧ tokens_sealed d') d.
Proof.
  intros. apply wp_bind, wp_or_raise, wp_query_nf.
  by apply (wp_seal_table tokens t_hash (λ w t, TokenRow t.(t_user) t.(t_device) w
              t.(t_expires_at) t.(t_revoked_at)) _ _ (λ row, (row.1, 0%Z))).
Qed.

Lemma seal_encrypt_salts d :
  (∀ k w d', P d' → P (set_salt k w d')) → P d →
  wp no_faults (encrypt_salts c) (λ r d', r = Ok tt ∧ P d' ∧ salts_sealed d') d.
Proof.
  intros. apply wp_bind, wp_query_nf; cbn beta iota.
  by apply (wp_seal_table salts (λ s, s) (λ w _, w) _ _ (λ row, (row.1, 0%Z))).
Qed.

Lemma seal_encrypt_devices d :
  (∀ id a b s d', P d' → P (set_device_keys id a b s d')) → P d →
  wp no_faults (encrypt_devices c) (λ r d', r = Ok tt ∧ P d' ∧ devices_sealed d') d.
Proof.
  intros Hupd HP. apply wp_bind, wp_or_raise, wp_query_nf.
  apply wp_for_rows with (I := λ rest d', P d' ∧ ∀ id r, d'.(devices) !! id = Some r →
    IsEncrypted r.(d_identity_key) = true ∧ IsEncrypted r.(d_signed_prekey) = true ∧
    IsEncrypted r.(d_signed_prekey_sig) = true ∨ (id, r) ∈ rest).
  - split; [done|]. intros id r ?. right. by apply elem_of_map_to_list.
  - intros [id r] rest d' _ [HP' HI]. cbn [fst snd].
    destruct (negb _) eqn:Hneg.
    { apply wp_ret. split; [done|]. intros id' r' Hk.
      apply negb_true_iff in Hneg. rewrite !orb_false_iff, !negb_false_iff in Hneg.
      destruct (HI _ _ Hk) as [?|[?|?]%elem_of_cons]; simplify_eq; tauto. }
    do 3 (apply wp_bind, wp_of_result;
          lazymatch goal with |- match seal_plain _ (rand ?t ?k ?i) ?v with _ => _ end =>
            let Hw := fresh "Hw" in destruct (seal_plain_total c _ v (Hr t k i)) as [? Hw]; rewrite Hw end).
    apply wp_or_raise, wp_exec_nf; cbn beta iota. split; [by apply Hupd|].
    intros id' r'. simpl. rewrite lookup_alter. case_decide; subst.
    + intros (r0 & ? & ->)%fmap_Some. left. repeat split; by eapply seal_plain_IsEncrypted.
    + intros Hk. destruct (HI _ _ Hk) as [?|[?|?]%elem_of_cons]; simplify_eq; auto.
  - at_end. intros k r Hk. destruct (HI _ _ Hk) as [?|?]; [done|set_solver].
Qed.
End sealing.

(** Sequencing two passes that keep the view. *)
Lemma view_bind F c (m1 m2 : M DB err unit) d :
  (∀ d, wp F m1 (λ _ d', view c d' = view c d) d) →
  (∀ d, wp F m2 (λ _ d', view c d' = view c d) d) →
  wp F (m1 ≫= λ _, m2) (λ _ d', view c d' = view c d) d.
Proof.
  intros H1 H2. apply wp_bind. eapply wp_mono; [apply H1|].
  intros [?|e] d' Hd'; [|done]. rewrite <- Hd'. apply H2.
Qed.

Lemma wp_EncryptExisting c d :
  Enabled c = true → good_rand →
  wp no_faults (EncryptExisting c) (λ r d', r = Ok tt ∧ visited_sealed d') d.
Proof.
  intros Hc Hr. unfold EncryptExisting. rewrite Hc. cbn [negb].
  apply wp_bind. eapply wp_mono; [by apply (seal_encrypt_users c (λ _, True))|].
  intros r1 d1 (-> & _ & S1). apply wp_bind.
  eapply wp_mono; [by apply (seal_encrypt_devices c users_sealed)|].
  intros r2 d2 (-> & S1' & S2). apply wp_bind.
  eapply wp_mono; [by apply (seal_encrypt_prekeys c (λ d, users_sealed d ∧ devices_sealed d))|].
  intros r3 d3 (-> & [S1'' S2'] & S3). apply wp_bind.
  eapply wp_mono; [by apply (seal_encrypt_tokens c
    (λ d, users_sealed d ∧ devices_sealed d ∧ prekeys_sealed d))|].
  intros r4 d4 (-> & (? & ? & ?) & S4).
  eapply wp_mono; [by apply (seal_encrypt_salts c
    (λ d, users_sealed d ∧ devices_sealed d ∧ prekeys_sealed d ∧ tokens_sealed d))|].
  intros r5 d5 (-> & (? & ? & ? & ?) & ?). by repeat split_and.
Qed.

(** On a sealed database every row is skipped. *)
Lemma wp_skip_rows {R} F (rows : list R) (f : R → M DB err unit) d0 :
  (∀ row, row ∈ rows → f row = mret tt) →
  wp F (for_rows f rows) (λ _ d, d = d0) d0.
Proof.
  intros Hf. apply wp_for_rows with (I := λ _ d, d = d0); try done.
  intros row rest d (l0 & Hl) ->. rewrite Hf by (rewrite Hl; set_solver). by apply wp_ret.
Qed.

Lemma EncryptExisting_sealed F c d :
  visited_sealed d → wp F (EncryptExisting c) (λ _ d', d' = d) d.
Proof.
  intros (Hu & Hd & Hp & Ht & Hs). unfold EncryptExisting. destruct (negb _); [by apply wp_ret|].
  assert (∀ m1 m2 : M DB err unit, wp F m1 (λ _ d', d' = d) d → wp F m2 (λ _ d', d' = d) d →
    wp F (m1 ≫= λ _, m2) (λ _ d', d' = d) d) as Hseq.
  { intros m1 m2 H1 H2. apply wp_bind. eapply wp_mono; [exact H1|]. by intros [] ? ->. }
  repeat apply Hseq; apply wp_bind; try apply wp_or_raise; apply wp_query; cbn beta iota;
    try done; try (by apply wp_ret); apply wp_skip_rows.
  - intros [id ph] ((id' & u) & Hin & Hsel)%list_elem_of_omap.
    apply elem_of_map_to_list in Hin. simpl in *.
    destruct (u_password u) as [ph'|] eqn:Hph; [|done]. case_match; simplify_eq.
    rewrite (Hu _ _ _ Hin Hph); [done|]. by intros ->.
  - intros [id r] Hin%elem_of_map_to_list. destruct (Hd _ _ Hin) as (H1 & H2 & H3).
    cbn [fst snd]. by rewrite H1, H2, H3.
  - intros [k p] Hin%elem_of_map_to_list. cbn [fst snd]. by rewrite (Hp _ _ Hin).
  - intros [k t] Hin%elem_of_map_to_list. cbn [fst snd]. by rewrite (Ht _ _ Hin).
  - intros [k s] Hin%elem_of_map_to_list. cbn [fst snd]. by rewrite (Hs _ _ Hin).
Qed.

Lemma wp_EncryptExisting_view `{!AeadLaws} F c d :
  sized_rand → wp F (EncryptExisting c) (λ _ d', view c d' = view c d) d.
Proof.
  intros Hs. unfold EncryptExisting. destruct (negb _); [by apply wp_ret|].
  repeat (apply view_bind; intros); [by apply view_encrypt_users|by apply view_encrypt_devices
    |by apply view_encrypt_prekeys|by apply view_encrypt_tokens|by apply view_encrypt_salts].
Qed.

(** The statements of the pass leave the backups alone. *)
Lemma EncryptExisting_backups F c d :
  wp F (EncryptExisting c) (λ _ d', d'.(backups) = d.(backups)) d.
Proof. by apply (EncryptExisting_keeps (λ d', d'.(backups) = d.(backups))). Qed.

(** C24: whatever fails while it runs, the encryption of existing rows never
    changes what the services read: every column decrypts to the value it
    decrypted to before, and everything else is untouched. *)
Theorem EncryptExisting_view `{!AeadLaws} F c d r d' :
  sized_rand → Exec F (EncryptExisting c) d r d' → view c d' = view c d.
Proof.
  intros Hs. apply (wp_Exec _ _ (λ _ d', view c d' = view c d)). by apply wp_EncryptExisting_view.
Qed.

(** C25: with a working database and random source the pass succeeds, and
    every password hash that is not empty, every identity key, signed prekey
    and its signature, every one-time prekey, token hash and backup salt then
    carries the mark of an encrypted value and, when the nonces have the
    length of AES-GCM, decrypts to what it decrypted to before.  The bundles
    of [key_backups] are left as they were, in plaintext when they were: the
    pass does not visit them.  A second pass, whatever fails in it, changes
    nothing. *)
Theorem EncryptExisting_seals c d :
  Enabled c = true → good_rand →
  let d1 := (run (EncryptExisting c) d).2 in
  (run (EncryptExisting c) d).1 = Ok tt ∧ visited_sealed d1 ∧
  (AeadLaws → sized_rand → view c d1 = view c d) ∧ d1.(backups) = d.(backups) ∧
  ∀ F r d', Exec F (EncryptExisting c) d1 r d' → d' = d1.
Proof.
  intros Hc Hr d1. pose proof (wp_run _ _ _ (wp_EncryptExisting c d Hc Hr)) as [Hok Hs].
  split; [done|]. split; [done|].
  split; [intros HL Hsz; exact (wp_run _ _ _ (wp_EncryptExisting_view no_faults c d Hsz))|].
  split; [exact (wp_run _ _ _ (EncryptExisting_backups no_faults c d))|].
  intros F. apply wp_Exec_all. by apply EncryptExisting_sealed.
Qed.

(** Encryption round trip: for every plaintext and every 12-byte nonce
    encryption succeeds, decryption gives the plaintext back, and the result
    is recognised as encrypted when a key is set; a value without the magic
    prefix is passed through by decryption as legacy plaintext. *)
Theorem Encrypt_roundtrip `{!AeadLaws} c nonce p :
  slen nonce = NonceSize →
  ∃ w, Encrypt c (Some nonce) p = Ok w ∧ Decrypt c w = Ok p ∧
       (Enabled c = true → IsEncrypted w = true) ∧
       (IsEncrypted p = false → Decrypt c p = Ok p).
Proof.
  intros Hn. destruct (Encrypt c (Some nonce) p) as [w|e] eqn:He.
  - exists w. split; [done|]. split.
    + eapply Decrypt_Encrypt; [|done]. by intros ? [= <-].
    + split; [|apply Decrypt_plain]. intros. by eapply Encrypt_IsEncrypted.
  - by destruct c.
Qed.
End cipher.

(** ** Witnesses *)
#[local] Existing Instance toy_aead.

Lemma EncryptExisting_view_witness :
  view sample_key (run (EncryptExisting sample_rand sample_key) sample_db).2
  = view sample_key sample_db.
Proof.
  eapply (@EncryptExisting_view toy_aead sample_rand toy_aead_laws no_faults).
  - by intros t k i nonce [= <-].
  - apply Exec_run. apply surjective_pairing.
Defined.

Lemma EncryptExisting_seals_witness :
  let d1 := (run (EncryptExisting sample_rand sample_key) sample_db).2 in
  (run (EncryptExisting sample_rand sample_key) sample_db).1 = Ok tt ∧ visited_sealed d1 ∧
  view sample_key d1 = view sample_key sample_db.
Proof.
  intros d1. destruct (EncryptExisting_seals sample_rand sample_key sample_db) as (Hok & Hs & Hv & _).
  - done.
  - intros t k i. by eexists.
  - split; [exact Hok|]. split; [exact Hs|]. apply (Hv toy_aead_laws). by intros t k i nonce [= <-].
Defined.

(** The bundle of a key backup stays in plaintext. *)
Example backup_not_sealed :
  let d := with_backups {[ 1%Z := ("secret" : string) ]} sample_db in
  IsEncrypted <$> (run (EncryptExisting sample_rand sample_key) d).2.(backups) !! 1%Z = Some false.
Proof. by vm_compute. Qed.

Lemma Encrypt_roundtrip_witness :
  ∃ w, Encrypt sample_key (Some "nonce-012345") "hello" = Ok w ∧ Decrypt sample_key w = Ok "hello" ∧
       (Enabled sample_key = true → IsEncrypted w = true) ∧
       (IsEncrypted "hello" = false → Decrypt sample_key "hello" = Ok "hello").
Proof. apply (@Encrypt_roundtrip toy_aead toy_aead_laws). done. Defined.

End Dbenc.
