(* ===== verification/Keydir.v ===== *)
(** * Key directory ([server/internal/keydir/keydir.go])

    Publication of prekey bundles and issue of one-time prekeys.  [step] is
    the service as a transition system over the database; the theorems are
    about the life of a one-time prekey: uploaded under a quota, handed out at
    most once, deleted thirty days later.  Operations run one after the other
    here; [KeydirRace] interleaves their statements. *)

From Stdlib Require Import Ascii String.
From stdpp Require Import strings.
From S2P Require Import Prelude GoStrings Encoding Crypto Schema Samples Dbenc.
Set Default Goal Selector "!".
Open Scope stdpp_scope.

Module Keydir.

Inductive err :=
| ErrInvalidUserID
| ErrInvalidDeviceID
| ErrRemoteUser
| ErrNotFound
| ErrInvalidSignature
| ErrPrekeyQuotaExceeded
| ErrEnc (e : Dbenc.err)
| ErrDb.

#[export] Instance dbenc_err_eq_dec : EqDecision Dbenc.err.
Proof. solve_decision. Defined.
#[export] Instance err_eq_dec : EqDecision err.
Proof. solve_decision. Defined.

Record PrekeyItem := mkPrekeyItem { Key : string; KeyID : Z }.

Record Bundle := mkBundle {
  IdentityKey : string;
  SignedPrekey : string;
  SignedPrekeySig : string;
  SignedPrekeyID : Z;
  OneTimePrekey : option PrekeyItem;
}.

Record KeyStatus := mkKeyStatus {
  UnconsumedPrekeys : Z;
  SignedPrekeyUpdatedAt : string;
  NextOneTimePrekeyKeyID : Z;
}.

Definition MaxOneTimePrekeysPerDevice : nat := 500.

(** [id[:4]], big endian, of a 128-bit id. *)
Definition UUIDToSignalDeviceID (id : Z) : Z :=
  if bool_decide (id = 0)%Z then 1
  else ((Z.shiftr id 96 mod 2 ^ 32) mod 16383 + 1)%Z.

(** The database of the witnesses: one user, one device, three prekeys of
    which one is consumed. *)
Definition sample_db : DB :=
  with_users {[ 1%Z := UserRow "ann" "a.org" None ]}
  (with_devices {[ 9%Z := DeviceRow 1 "ik" "spk" "sig" 1 None 0 0 ]}
  (with_prekeys {[ (9, 1)%Z := PrekeyRow "k1" None; (9, 2)%Z := PrekeyRow "k2" None;
                   (9, 3)%Z := PrekeyRow "k3" (Some 5%Z) ]} empty_db)).

Section service.
Context `{UuidLib, PgText, GoUnicode, Aead, Ed25519}.
Context (dom : string) (enc : Dbenc.Cipher).

(** [normDomain]; lower-casing comes before trimming here. *)
Definition normDomain (s : string) : string :=
  let s := trim_space (to_lower s) in
  if bool_decide (s = "127.0.0.1") || has_prefix s "127." || bool_decide (s = "localhost")
     || bool_decide (s = "")
  then "local" else s.

(** [if s.enc != nil { v, err = s.enc.Decrypt(v) }] *)
Definition decrypt_col (v : string) : M DB err string :=
  match enc with
  | None => mret v
  | Some _ => of_result match Dbenc.Decrypt enc v with
                        | Ok p => Ok p
                        | Err e => Err (ErrEnc e)
                        end
  end.

Definition encrypt_col (r : option string) (v : string) : M DB err string :=
  match enc with
  | None => mret v
  | Some _ => of_result match Dbenc.Encrypt enc r v with
                        | Ok p => Ok p
                        | Err e => Err (ErrEnc e)
                        end
  end.

(** ** SQL *)
Definition local_name (s : string) : bool :=
  bool_decide (s = "localhost") || bool_decide (s = "127.0.0.1").

(** [devices JOIN users], restricted by [P device user]. *)
Definition devices_of (P : Z → user_row → bool) (d : DB) : list (Z * device_row) :=
  select_rows (λ dev r, match d.(users) !! r.(d_user) with
                        | Some u => P dev u
                        | None => false
                        end) d.(devices).

Definition created_asc (a b : Z * device_row) : Prop :=
  (a.2.(d_created_at) ≤ b.2.(d_created_at))%Z.
#[export] Instance created_asc_dec : RelDecision created_asc.
Proof. intros a b. unfold created_asc. apply _. Defined.

Definition unconsumed (dev : Z) (k : Z * Z) (p : prekey_row) : bool :=
  bool_decide (k.1 = dev) && bool_decide (p.(p_consumed_at) = None).

Definition key_id_le (a b : Z * Z * prekey_row) : Prop := (a.1.2 ≤ b.1.2)%Z.
#[local] Instance key_id_le_dec : RelDecision key_id_le.
Proof. intros a b. unfold key_id_le. apply _. Defined.

(** [SELECT id ... WHERE device_id = $1 AND consumed_at IS NULL ORDER BY key_id LIMIT 1] *)
Definition next_prekey (dev : Z) (d : DB) : option (Z * Z * prekey_row) :=
  first_row (merge_sort key_id_le (select_rows (unconsumed dev) d.(prekeys))).

(** [UPDATE one_time_prekeys SET consumed_at = NOW() WHERE id = (...) RETURNING prekey, key_id] *)
Definition claim_prekey (dev now : Z) (d : DB) : option (option (string * Z) * DB) :=
  match next_prekey dev d with
  | None => Some (None, d)
  | Some (k, p) =>
    Some (Some (p.(p_prekey), k.2),
          with_prekeys (<[k := PrekeyRow p.(p_prekey) (Some now)]> d.(prekeys)) d)
  end.

Definition count_unconsumed (dev : Z) (d : DB) : nat :=
  length (select_rows (unconsumed dev) d.(prekeys)).

(** [SELECT COALESCE(MAX(key_id), 0)] *)
Definition max_key_id (dev : Z) (d : DB) : Z :=
  match (λ kp : Z * Z * prekey_row, kp.1.2) <$>
          select_rows (λ k _, bool_decide (k.1 = dev)) d.(prekeys) with
  | [] => 0
  | k :: ks => foldr Z.max k ks
  end.

Definition update_signed_prekey (user dev : Z) (spk sig : string) (id now : Z) (d : DB) : DB :=
  with_devices (update_where
    (λ k r, bool_decide (r.(d_user) = user) && bool_decide (k = dev))
    (λ r, DeviceRow r.(d_user) r.(d_identity_key) spk sig id r.(d_name) r.(d_created_at) now)
    d.(devices)) d.

(** [INSERT ... ON CONFLICT (device_id, key_id) DO NOTHING] *)
Definition insert_prekey_do_nothing (dev keyid : Z) (pk : string) (d : DB) : option DB :=
  match d.(prekeys) !! (dev, keyid), d.(devices) !! dev with
  | Some _, _ => Some d
  | None, Some _ => Some (with_prekeys (<[(dev, keyid) := PrekeyRow pk None]> d.(prekeys)) d)
  | None, None => None
  end.

Definition delete_consumed_before (t : Z) (d : DB) : option (Z * DB) :=
  let gone (_ : Z * Z) p := match p.(p_consumed_at) with
                | Some c => bool_decide (c < t)%Z
                | None => false
                end in
  Some (Z.of_nat (length (select_rows gone d.(prekeys))),
        with_prekeys (delete_where gone d.(prekeys)) d).

(** ** Operations *)

(** The common second half of [GetBundle] and [GetBundleForUser]. *)
Definition decrypt_device (r : device_row) : M DB err Bundle :=
  ik ← decrypt_col r.(d_identity_key);
  spk ← decrypt_col r.(d_signed_prekey);
  sig ← decrypt_col r.(d_signed_prekey_sig);
  mret (mkBundle ik spk sig r.(d_signed_prekey_id) None).

Definition attach_prekey (dev now : Z) (b : Bundle) : M DB err Bundle :=
  row ← stmt (claim_prekey dev now);
  match row with
  | Some (Some (pk, id)) =>
    key ← decrypt_col pk;
    mret (mkBundle b.(IdentityKey) b.(SignedPrekey) b.(SignedPrekeySig) b.(SignedPrekeyID)
            (Some (mkPrekeyItem key id)))
  | _ => mret b
  end.

Definition GetBundle (userID deviceID : string) (now : Z) : M DB err Bundle :=
  match sscanf user_id_format userID 2 with
  | Some [username; domain] =>
    if negb (bool_decide (normDomain domain = normDomain dom)) then raise ErrRemoteUser
    else
      match uuid_parse deviceID with
      | None => raise ErrInvalidDeviceID
      | Some dev =>
        row ← or_raise ErrDb (query (λ d, first_row (devices_of (λ k u,
          bool_decide (pg_lower u.(u_username) = pg_lower username) &&
          (bool_decide (u.(u_domain) = domain) || bool_decide (u.(u_domain) = dom) ||
           local_name u.(u_domain) && (local_name domain || local_name dom)) &&
          bool_decide (k = dev)) d)));
        match row with
        | None => raise ErrNotFound
        | Some (_, r) => b ← decrypt_device r; attach_prekey dev now b
        end
      end
  | _ => raise ErrInvalidUserID
  end.

(** [@user:domain] or [user] to the bare name. *)
Definition bare_username (userID : string) : string :=
  let userID := trim_space userID in
  let username := trim_prefix userID "@" in
  let username := match index username ":" with
                  | Some idx => stake idx username
                  | None => username
                  end in
  trim_space username.

Definition ListDevicesForUser (userID : string) : M DB err (list string) :=
  let username := bare_username userID in
  if bool_decide (username = "") then raise ErrInvalidUserID
  else
    rows ← or_raise ErrDb (query (λ d, merge_sort created_asc (devices_of (λ _ u,
      bool_decide (pg_lower u.(u_username) = pg_lower username) &&
      (bool_decide (u.(u_domain) = dom) || local_name u.(u_domain) && local_name dom)) d)));
    mret ((λ kr : Z * device_row, uuid_string kr.1) <$> rows).

Definition GetBundleForUser (userID : string) (now : Z) : M DB err (Bundle * string) :=
  let username := bare_username userID in
  if bool_decide (username = "") then raise ErrInvalidUserID
  else
    row ← or_raise ErrDb (query (λ d, first_row (merge_sort created_asc (devices_of (λ _ u,
      bool_decide (pg_lower u.(u_username) = pg_lower username)) d))));
    match row with
    | None => raise ErrNotFound
    | Some (dev, r) =>
      b ← decrypt_device r;
      b ← attach_prekey dev now b;
      mret (b, uuid_string dev)
    end.

(** The error of the second query is dropped: [maxKeyID] is then 0. *)
Definition GetKeyStatus (dev : Z) : M DB err KeyStatus :=
  n ← or_raise ErrDb (query (count_unconsumed dev));
  m ← query (max_key_id dev);
  let maxKeyID := match m with Some m => m | None => 0%Z end in
  let nextKeyID := wrap64 (maxKeyID + 1) in
  let nextKeyID := if bool_decide (nextKeyID < 1)%Z then 1%Z else nextKeyID in
  row ← or_raise ErrDb (query (λ d, d.(devices) !! dev));
  match row with
  | None => mret (mkKeyStatus (Z.of_nat n) "" nextKeyID)
  | Some r => mret (mkKeyStatus (Z.of_nat n) (rfc3339 r.(d_updated_at)) nextKeyID)
  end.

(** [rand] is the random source: [rand 0] and [rand 1] encrypt the signed
    prekey and its signature, [rand (2 + i)] the [i]-th one-time prekey. *)
Definition store_signed_prekey (rand : nat → option string) (user dev : Z)
    (spk sig : string) (id : Z) (signing : string) (now : Z) : M DB err unit :=
  if 0 <? slen spk then
    if (slen signing =? PublicKeySize) && (0 <? slen sig) &&
       negb (ed_verify signing (b64_encode spk) sig)
    then raise ErrInvalidSignature
    else
      spk ← encrypt_col (rand 0) spk;
      sig ← encrypt_col (rand 1) sig;
      or_raise ErrDb (exec (λ d, Some (update_signed_prekey user dev spk sig id now d)))
  else mret tt.

Definition store_one_time_prekeys (rand : nat → option string) (dev : Z)
    (otks : list PrekeyItem) : M DB err unit :=
  if 0 <? length otks then
    n ← or_raise ErrDb (query (count_unconsumed dev));
    if MaxOneTimePrekeysPerDevice <? n + length otks then raise ErrPrekeyQuotaExceeded
    else for_each (λ ip : nat * PrekeyItem,
           pk ← encrypt_col (rand (2 + ip.1)) ip.2.(Key);
           or_raise ErrDb (exec (insert_prekey_do_nothing dev ip.2.(KeyID) pk)))
           (imap pair otks)
  else mret tt.

Definition UpdateKeys (rand : nat → option string) (user dev : Z) (spk sig : string)
    (spkid : Z) (otks : list PrekeyItem) (signing : string) (now : Z) : M DB err unit :=
  _ ← store_signed_prekey rand user dev spk sig spkid signing now;
  store_one_time_prekeys rand dev otks.

Definition CleanupOldConsumedPrekeys (now : Z) : M DB err Z :=
  or_raise ErrDb (stmt (delete_consumed_before (now - 30 * day))).

(** ** The service as a transition system *)
Inductive op :=
| OpGetBundle (userID deviceID : string) (now : Z)
| OpGetBundleForUser (userID : string) (now : Z)
| OpUpdateKeys (rand : nat → option string) (user dev : Z) (spk sig : string) (spkid : Z)
    (otks : list PrekeyItem) (signing : string) (now : Z)
| OpCleanup (now : Z).

Definition run_op (o : op) : M DB err unit :=
  match o with
  | OpGetBundle u d t => GetBundle u d t ≫= λ _, mret tt
  | OpGetBundleForUser u t => GetBundleForUser u t ≫= λ _, mret tt
  | OpUpdateKeys rand u dev spk sig id otks signing t =>
    UpdateKeys rand u dev spk sig id otks signing t
  | OpCleanup t => CleanupOldConsumedPrekeys t ≫= λ _, mret tt
  end.

(** Abstract life of the one-time prekey [k]: absent, available, consumed
    and absent again, each move made by one kind of operation. *)
Inductive life (d d' : DB) (k : Z * Z) : op → Prop :=
| life_same o : d'.(prekeys) !! k = d.(prekeys) !! k → life d d' k o
| life_upload rand u spk sig id otks signing t pk :
    d.(prekeys) !! k = None → k.2 ∈ KeyID <$> otks →
    d'.(prekeys) !! k = Some (PrekeyRow pk None) →
    life d d' k (OpUpdateKeys rand u k.1 spk sig id otks signing t)
| life_issue u t p :
    d.(prekeys) !! k = Some p → p.(p_consumed_at) = None →
    d'.(prekeys) !! k = Some (PrekeyRow p.(p_prekey) (Some t)) →
    life d d' k (OpGetBundleForUser u t)
| life_purge t p c :
    d.(prekeys) !! k = Some p → p.(p_consumed_at) = Some c → (c < t - 30 * day)%Z →
    d'.(prekeys) !! k = None → life d d' k (OpCleanup t).

(** [k] was claimed: it was the available prekey of its device with the
    smallest id, and nothing else changed. *)
Definition takes (dev now k : Z) (pk : string) (d d' : DB) : Prop :=
  d.(prekeys) !! (dev, k) = Some (PrekeyRow pk None) ∧
  (∀ k' p, d.(prekeys) !! (dev, k') = Some p → p.(p_consumed_at) = None → (k ≤ k')%Z) ∧
  d' = with_prekeys (<[(dev, k) := PrekeyRow pk (Some now)]> d.(prekeys)) d.

Definition exhausted (dev : Z) (d : DB) : Prop :=
  ∀ k p, d.(prekeys) !! (dev, k) = Some p → is_Some p.(p_consumed_at).

(** One operation of a run in which [CleanupOldConsumedPrekeys] is not
    called after [horizon]. *)
Definition step (horizon : Z) (d d' : DB) : Prop :=
  ∃ F o r, Exec F (run_op o) d r d' ∧ ∀ t, o = OpCleanup t → (t ≤ horizon)%Z.

(** ** Lemmas *)
#[local] Instance key_id_le_total : PreOrder key_id_le.
Proof. split; [intros a|intros a b c]; unfold key_id_le; lia. Qed.
#[local] Instance key_id_le_tot : Total key_id_le.
Proof. intros a b. unfold key_id_le. lia. Qed.
#[local] Instance created_asc_pre : PreOrder created_asc.
Proof. split; [intros a|intros a b c]; unfold created_asc; lia. Qed.
#[local] Instance created_asc_tot : Total created_asc.
Proof. intros a b. unfold created_asc. lia. Qed.

Lemma unconsumed_true dev k p :
  unconsumed dev k p = true ↔ k.1 = dev ∧ p.(p_consumed_at) = None.
Proof. unfold unconsumed. by rewrite andb_true_iff, !bool_decide_eq_true. Qed.

Lemma next_prekey_Some dev k p d :
  next_prekey dev d = Some (k, p) →
  k.1 = dev ∧ d.(prekeys) !! k = Some p ∧ p.(p_consumed_at) = None ∧
  ∀ k' p', d.(prekeys) !! (dev, k') = Some p' → p'.(p_consumed_at) = None → (k.2 ≤ k')%Z.
Proof.
  intros Hn. apply first_row_sorted in Hn as [Hin Hmin]; [|apply _..].
  apply elem_of_select_rows in Hin as [Hk [Hd Hc]%unconsumed_true].
  do 3 (split; [done|]). intros k' p' Hk' Hp. apply (Hmin (dev, k', p')). apply elem_of_select_rows.
  split; [done|]. by apply unconsumed_true.
Qed.

Lemma claim_prekey_Some dev now pk k d d' :
  claim_prekey dev now d = Some (Some (pk, k), d') → takes dev now k pk d d'.
Proof.
  unfold claim_prekey. destruct (next_prekey dev d) as [[[dev' k0] p]|] eqn:Hn; [|done].
  intros [= <- <- <-]. apply next_prekey_Some in Hn as (Hd & Hk & Hc & Hmin).
  destruct p as [pk c]; simpl in *; subst. by repeat split.
Qed.

Lemma claim_prekey_row dev now x d d' :
  claim_prekey dev now d = Some (x, d') →
  d' = d ∨ ∃ k p, d.(prekeys) !! k = Some p ∧
    d' = with_prekeys (<[k := PrekeyRow p.(p_prekey) (Some now)]> d.(prekeys)) d.
Proof.
  unfold claim_prekey. destruct (next_prekey dev d) as [[k p]|] eqn:Hn; intros [= <- <-]; [|by left].
  right. exists k, p. apply first_row_sorted in Hn as [Hin _]; [|apply _..].
  by apply elem_of_select_rows in Hin as [? _].
Qed.

Lemma claim_prekey_None dev now d d' :
  claim_prekey dev now d = Some (None, d') → d' = d ∧ exhausted dev d.
Proof.
  unfold claim_prekey. destruct (next_prekey dev d) as [[k0 p]|] eqn:Hn; [done|].
  intros [= <-]. split; [done|]. apply first_row_sorted_None in Hn.
  intros k p Hk. destruct (p_consumed_at p) eqn:Hp; [by eexists|].
  assert ((dev, k, p) ∈ select_rows (unconsumed dev) (prekeys d)) as Hin; [|by rewrite Hn in Hin; set_solver].
  apply elem_of_select_rows. split; [done|]. by apply unconsumed_true.
Qed.

(** What the statements of the service keep, its operations keep. *)
Record statements_keep (I : DB → Prop) : Prop := {
  sk_claim dev now x d d' : claim_prekey dev now d = Some (x, d') → I d → I d';
  sk_signed user dev spk sig id now d : I d → I (update_signed_prekey user dev spk sig id now d);
  sk_one_time dev k pk d d' : insert_prekey_do_nothing dev k pk d = Some d' → I d → I d';
  sk_cleanup t n d d' : delete_consumed_before t d = Some (n, d') → I d → I d'
}.

Lemma keydir_keeps I o : statements_keep I → keeps I (run_op o).
Proof.
  intros [Hclaim Hsigned Hotk Hclean].
  destruct o as [u d t|u t|rand u dev spk sig id otks signing t|t]; simpl.
  - unfold GetBundle, attach_prekey, decrypt_device, decrypt_col. keeps_go; eauto.
  - unfold GetBundleForUser, attach_prekey, decrypt_device, decrypt_col. keeps_go; eauto.
  - unfold UpdateKeys, store_signed_prekey, store_one_time_prekeys, encrypt_col. keeps_go;
      simplify_eq; eauto.
  - unfold CleanupOldConsumedPrekeys. keeps_go; eauto.
Qed.

Lemma keeps_ListDevicesForUser I u : keeps I (ListDevicesForUser u).
Proof. unfold ListDevicesForUser. keeps_go. Qed.

Lemma keeps_GetKeyStatus I dev : keeps I (GetKeyStatus dev).
Proof. unfold GetKeyStatus. keeps_go. Qed.

Lemma wp_decrypt_col F v (Q : result err string → DB → Prop) d :
  Q (match Dbenc.Decrypt enc v with Ok p => Ok p | Err e => Err (ErrEnc e) end) d →
  wp F (decrypt_col v) Q d.
Proof. unfold decrypt_col. destruct enc; [by apply wp_of_result|by apply wp_ret]. Qed.

Lemma wp_encrypt_col F r v (Q : result err string → DB → Prop) d :
  Q (match Dbenc.Encrypt enc r v with Ok p => Ok p | Err e => Err (ErrEnc e) end) d →
  wp F (encrypt_col r v) Q d.
Proof. unfold encrypt_col. destruct enc; [by apply wp_of_result|by apply wp_ret]. Qed.

Definition with_prekey (b : Bundle) (it : option PrekeyItem) : Bundle :=
  mkBundle b.(IdentityKey) b.(SignedPrekey) b.(SignedPrekeySig) b.(SignedPrekeyID) it.

(** The keys of a device row, decrypted. *)
Definition row_bundle (r : device_row) (b : Bundle) : Prop :=
  Dbenc.Decrypt enc r.(d_identity_key) = Ok b.(IdentityKey) ∧
  Dbenc.Decrypt enc r.(d_signed_prekey) = Ok b.(SignedPrekey) ∧
  Dbenc.Decrypt enc r.(d_signed_prekey_sig) = Ok b.(SignedPrekeySig) ∧
  b.(SignedPrekeyID) = r.(d_signed_prekey_id).

Lemma wp_decrypt_device F r (Q : result err Bundle → DB → Prop) d :
  (∀ b, row_bundle r b → b.(OneTimePrekey) = None → Q (Ok b) d) →
  (∀ e, Q (Err (ErrEnc e)) d) → wp F (decrypt_device r) Q d.
Proof.
  intros HQ He. unfold decrypt_device.
  do 3 (apply wp_bind, wp_decrypt_col;
        lazymatch goal with |- match match ?x with _ => _ end with _ => _ end =>
          destruct x eqn:?; [|by apply He] end).
  apply wp_ret, HQ; [|done]. by repeat split.
Qed.

Lemma wp_attach_prekey F dev now b (Q : result err Bundle → DB → Prop) d :
  b.(OneTimePrekey) = None →
  (faulty F ∨ exhausted dev d → Q (Ok b) d) →
  (∀ k pk d', takes dev now k pk d d' →
     Q match Dbenc.Decrypt enc pk with
       | Ok key => Ok (with_prekey b (Some (mkPrekeyItem key k)))
       | Err e => Err (ErrEnc e)
       end d') →
  wp F (attach_prekey dev now b) Q d.
Proof.
  intros Hb Hnone Htake. unfold attach_prekey. apply wp_bind.
  intros n. unfold stmt. destruct (F n) eqn:HF; [apply wp_ret, Hnone; left; by exists n|].
  destruct (claim_prekey dev now d) as [[[[pk k]|] d']|] eqn:Hc.
  - apply wp_bind, wp_decrypt_col. apply claim_prekey_Some in Hc.
    specialize (Htake _ _ _ Hc). destruct (Dbenc.Decrypt enc pk); [|done]. by apply wp_ret.
  - apply claim_prekey_None in Hc as [-> Hex]. apply wp_ret, Hnone. by right.
  - unfold claim_prekey in Hc. by destruct (next_prekey dev d) as [[]|].
Qed.

(** The oldest device of a user, by case-insensitive name. *)
Definition oldest_device (username : string) (d : DB) (dev : Z) (r : device_row) : Prop :=
  let owned r' := ∃ u, d.(users) !! r'.(d_user) = Some u ∧
                       pg_lower u.(u_username) = pg_lower username in
  d.(devices) !! dev = Some r ∧ owned r ∧
  ∀ dev' r', d.(devices) !! dev' = Some r' → owned r' →
    (r.(d_created_at) ≤ r'.(d_created_at))%Z.

Lemma oldest_row username d dev r :
  first_row (merge_sort created_asc (devices_of (λ _ u,
    bool_decide (pg_lower u.(u_username) = pg_lower username)) d)) = Some (dev, r) →
  oldest_device username d dev r.
Proof.
  intros Hrow. apply first_row_sorted in Hrow as [Hin Hmin]; [|apply _..].
  unfold devices_of in *. apply elem_of_select_rows in Hin as [Hd Hu].
  destruct (users d !! d_user r) as [u|] eqn:Hur; [|done].
  apply bool_decide_eq_true in Hu. split; [done|]. split; [by exists u|].
  intros dev' r' Hd' (u' & Hur' & Hn'). apply (Hmin (dev', r')).
  apply elem_of_select_rows. split; [done|]. rewrite Hur'. by apply bool_decide_eq_true_2.
Qed.

(** Nobody of that name has a device. *)
Definition no_device (username : string) (d : DB) : Prop :=
  ∀ dev r u, d.(devices) !! dev = Some r → d.(users) !! r.(d_user) = Some u →
    pg_lower u.(u_username) ≠ pg_lower username.

Lemma oldest_row_none username d :
  first_row (merge_sort created_asc (devices_of (λ _ u,
    bool_decide (pg_lower u.(u_username) = pg_lower username)) d)) = None →
  no_device username d.
Proof.
  intros Hn%first_row_sorted_None dev r u Hd Hu Hl. unfold devices_of in Hn.
  match type of Hn with ?l = [] => assert ((dev, r) ∈ l) as Hin end; [|rewrite Hn in Hin; set_solver].
  apply elem_of_select_rows. split; [done|]. rewrite Hu. by apply bool_decide_eq_true_2.
Qed.

(** Why a bundle request fails before a prekey is claimed. *)
Definition bundle_error (F : nat → bool) (userID : string) (d : DB) (e : err) : Prop :=
  match e with
  | ErrInvalidUserID => bare_username userID = ""
  | ErrNotFound => no_device (bare_username userID) d
  | ErrDb => faulty F
  | ErrEnc _ => True
  | _ => False
  end.

Lemma wp_GetBundleForUser F userID now (Q : result err (Bundle * string) → DB → Prop) d :
  (∀ e, bundle_error F userID d e → Q (Err e) d) →
  (∀ dev r b, oldest_device (bare_username userID) d dev r → row_bundle r b →
     (b.(OneTimePrekey) = None → faulty F ∨ exhausted dev d → Q (Ok (b, uuid_string dev)) d) ∧
     (∀ k pk d' key, takes dev now k pk d d' → Dbenc.Decrypt enc pk = Ok key →
        b.(OneTimePrekey) = Some (mkPrekeyItem key k) → Q (Ok (b, uuid_string dev)) d') ∧
     (∀ k pk d' e, takes dev now k pk d d' → Q (Err (ErrEnc e)) d')) →
  wp F (GetBundleForUser userID now) Q d.
Proof.
  intros He Hok. unfold GetBundleForUser. case_bool_decide; [by apply wp_raise, He|].
  apply wp_bind, wp_or_raise, wp_query_fault; [by intros; apply He|]. cbn beta iota.
  destruct (first_row _) as [[dev r]|] eqn:Hrow; [|by apply wp_raise, He, oldest_row_none].
  apply oldest_row in Hrow as Hold.
  apply wp_bind, wp_decrypt_device; [|by intros; apply He]. intros b Hb Hn.
  apply wp_bind, wp_attach_prekey; [done|..].
  - intros Hex. apply wp_ret. by apply Hok with r.
  - intros k pk d' Ht. destruct (Dbenc.Decrypt enc pk) eqn:Hdec.
    + apply wp_ret. eapply (Hok dev r (with_prekey b _)); eauto.
    + by eapply (Hok dev r b).
Qed.

(** Only new rows of [dev], available and with ids of [otks], were added. *)
Definition grows (dev : Z) (otks : list PrekeyItem) (d d' : DB) : Prop :=
  ∀ k, d'.(prekeys) !! k = d.(prekeys) !! k ∨
       k.1 = dev ∧ k.2 ∈ KeyID <$> otks ∧ d.(prekeys) !! k = None ∧
       ∃ pk, d'.(prekeys) !! k = Some (PrekeyRow pk None).

Lemma grows_insert dev otks it pk d d1 d2 :
  grows dev otks d d1 → it ∈ otks →
  insert_prekey_do_nothing dev it.(KeyID) pk d1 = Some d2 → grows dev otks d d2.
Proof.
  intros Hg Hit. unfold insert_prekey_do_nothing.
  destruct (prekeys d1 !! (dev, KeyID it)) eqn:Hk; [by intros [= <-]|].
  destruct (devices d1 !! dev); [|done]. intros [= <-] k. simpl.
  rewrite lookup_insert. case_decide; [subst k|by apply Hg]. right.
  split; [done|]. split; [apply list_elem_of_fmap; by exists it|].
  split; [|by eexists]. destruct (Hg (dev, KeyID it)) as [<-|(_ & _ & ? & _)]; done.
Qed.

Lemma wp_store_signed_prekey F rand user dev spk sig id signing now
    (Q : result err unit → DB → Prop) d :
  (∀ e, Q (Err e) d) →
  (slen spk = 0 → Q (Ok tt) d) →
  (∀ spk' sig', 0 < slen spk →
     ((slen signing =? PublicKeySize) && (0 <? slen sig) = true →
      ed_verify signing (b64_encode spk) sig = true) →
     Q (Ok tt) (update_signed_prekey user dev spk' sig' id now d)) →
  wp F (store_signed_prekey rand user dev spk sig id signing now) Q d.
Proof.
  intros He Hz Hok. unfold store_signed_prekey.
  destruct (0 <? slen spk) eqn:Hs; [apply Nat.ltb_lt in Hs|apply wp_ret, Hz; apply Nat.ltb_ge in Hs; lia].
  destruct (_ && negb _) eqn:Hv; [by apply wp_raise|].
  do 2 (apply wp_bind, wp_encrypt_col;
        lazymatch goal with |- match match ?x with _ => _ end with _ => _ end =>
          destruct x eqn:?; [|by apply He] end).
  apply wp_or_raise, wp_exec_some; [auto|]. apply Hok; [done|]. intros Hg.
  rewrite Hg in Hv. by destruct (ed_verify _ _ _).
Qed.

Lemma wp_UpdateKeys F rand user dev spk sig id otks signing now d :
  wp F (UpdateKeys rand user dev spk sig id otks signing now) (λ r d',
    d'.(prekeys) = d.(prekeys) ∨
    count_unconsumed dev d + length otks ≤ MaxOneTimePrekeysPerDevice ∧ grows dev otks d d') d.
Proof.
  assert (∀ d1, d1.(prekeys) = d.(prekeys) →
    wp F (store_one_time_prekeys rand dev otks) (λ r d', d'.(prekeys) = d.(prekeys) ∨
      count_unconsumed dev d + length otks ≤ MaxOneTimePrekeysPerDevice ∧ grows dev otks d d') d1)
    as Hstore.
  { intros d1 Hd1. unfold store_one_time_prekeys.
    destruct (0 <? length otks); [|apply wp_ret; by left].
    apply wp_bind, wp_or_raise, wp_query; [by left|]. cbn beta iota.
    destruct (_ <? _) eqn:Hq; [apply wp_raise; by left|].
    apply Nat.ltb_ge in Hq. unfold count_unconsumed in Hq. rewrite Hd1 in Hq.
    apply wp_for_each with (I := grows dev otks d).
    - intros k. left. by rewrite Hd1.
    - intros [i it] d2 Hin Hg. apply wp_bind, wp_encrypt_col.
      destruct (Dbenc.Encrypt _ _ _) as [pk|]; [|by right].
      assert (it ∈ otks) as Hit.
      { apply elem_of_lookup_imap in Hin as (j & x & [= <- <-] & Hx).
        by eapply list_elem_of_lookup_2. }
      apply wp_or_raise, wp_exec; [by right|]. intros d3 Hins. simpl in Hins.
      by eapply grows_insert.
    - by right. }
  unfold UpdateKeys. apply wp_bind, wp_store_signed_prekey; intros; try by left.
  - by apply Hstore.
  - by apply Hstore.
Qed.

Lemma wp_GetBundle F userID deviceID now (Q : result err Bundle → DB → Prop) d :
  Q (Err ErrInvalidUserID) d → wp F (GetBundle userID deviceID now) Q d.
Proof. intros HQ. unfold GetBundle. rewrite sscanf_user_id_fails. by apply wp_raise. Qed.

Lemma wp_Cleanup F now (Q : result err Z → DB → Prop) d :
  Q (Err ErrDb) d →
  (∀ n d', delete_consumed_before (now - 30 * day) d = Some (n, d') → Q (Ok n) d') →
  wp F (CleanupOldConsumedPrekeys now) Q d.
Proof. intros. unfold CleanupOldConsumedPrekeys. by apply wp_or_raise, wp_stmt. Qed.

Lemma life_takes dev now k pk d d' k' u :
  takes dev now k pk d d' → life d d' k' (OpGetBundleForUser u now).
Proof.
  intros (Hk & _ & ->). destruct (decide (k' = (dev, k))) as [->|Hne].
  - eapply life_issue; [done|done|]. simpl. by rewrite lookup_insert_eq.
  - apply life_same. simpl. by rewrite lookup_insert_ne.
Qed.

Lemma wp_life F o d k : wp F (run_op o) (λ _ d', life d d' k o) d.
Proof.
  destruct o as [u dev t|u t|rand u dev spk sig id otks signing t|t]; simpl.
  - apply wp_bind, wp_GetBundle. by apply life_same.
  - apply wp_bind, wp_GetBundleForUser; [by constructor|].
    intros dev r b _ _. split; [|split].
    + intros. apply wp_ret. by apply life_same.
    + intros. apply wp_ret. by eapply life_takes.
    + intros. by eapply life_takes.
  - eapply wp_mono; [apply wp_UpdateKeys|]. intros r d' [Hd|[_ Hg]].
    { apply life_same. by rewrite Hd. }
    destruct (Hg k) as [?|(<- & ? & ? & pk & ?)]; [by apply life_same|by eapply life_upload].
  - apply wp_bind, wp_Cleanup; [by apply life_same|]. intros n d' [= _ <-].
    apply wp_ret. destruct (prekeys d !! k) as [p|] eqn:Hk.
    + destruct (p_consumed_at p) as [c|] eqn:Hc; [destruct (decide (c < t - 30 * day)%Z)|].
      * eapply life_purge; [done..|]. simpl. rewrite lookup_delete_where, Hk. simpl.
        by rewrite Hc, bool_decide_eq_true_2.
      * apply life_same. simpl. rewrite lookup_delete_where, Hk. simpl.
        by rewrite Hc, bool_decide_eq_false_2.
      * apply life_same. simpl. rewrite lookup_delete_where, Hk. simpl. by rewrite Hc.
    + apply life_same. simpl. by rewrite lookup_delete_where, Hk.
Qed.

Definition bundle_post (F : nat → bool) (userID : string) (now : Z) (d : DB)
    (r : result err (Bundle * string)) (d' : DB) : Prop :=
  match r with
  | Ok (b, s) => ∃ dev r, oldest_device (bare_username userID) d dev r ∧ s = uuid_string dev ∧
      row_bundle r b ∧
      match b.(OneTimePrekey) with
      | None => d' = d ∧ (faulty F ∨ exhausted dev d)
      | Some it => ∃ pk, takes dev now it.(KeyID) pk d d' ∧
                         Dbenc.Decrypt enc pk = Ok it.(Key)
      end
  | Err _ => True
  end.

Lemma wp_bundle_post F userID now d :
  wp F (GetBundleForUser userID now) (bundle_post F userID now d) d.
Proof.
  apply wp_GetBundleForUser; [done|]. intros dev r b Hold Hb. split; [|split; [|done]].
  - intros Hn Hex. exists dev, r. by rewrite Hn.
  - intros k pk d' key Ht Hdec Hsome. exists dev, r. rewrite Hsome.
    do 3 (split; [done|]). by exists pk.
Qed.

Lemma bundle_issue F userID now d b s d' it :
  Exec F (GetBundleForUser userID now) d (Ok (b, s)) d' → b.(OneTimePrekey) = Some it →
  ∃ dev pk, s = uuid_string dev ∧ takes dev now it.(KeyID) pk d d'.
Proof.
  intros He Hit. eapply wp_Exec in He; [|apply wp_bundle_post].
  destruct He as (dev & r & _ & -> & _ & Hp). rewrite Hit in Hp.
  destruct Hp as (pk & Ht & _). by exists dev, pk.
Qed.

Lemma steps_consumed k pk t d d' :
  d.(prekeys) !! k = Some (PrekeyRow pk (Some t)) → rtc (step (t + 30 * day)) d d' →
  d'.(prekeys) !! k = Some (PrekeyRow pk (Some t)).
Proof.
  intros Hk. induction 1 as [d|d d1 d' (F & o & r & He & Hc) _ IH]; [done|]. apply IH.
  eapply wp_Exec in He; [|apply (wp_life _ _ _ k)]. clear IH.
  destruct He as [o' Hs|rand u spk sig id otks sg t' pk' Hn|u t' p Hp Hn|t' p c Hp Hpc Hlt];
    [congruence|congruence|by simplify_eq/=|].
  specialize (Hc _ eq_refl). rewrite Hk in Hp. simplify_eq/=. lia.
Qed.

Lemma foldr_max_ge k ks : Forall (λ x, x ≤ foldr Z.max k ks)%Z (k :: ks).
Proof.
  constructor; [induction ks; simpl; lia|].
  induction ks as [|x ks IH]; simpl; constructor; [lia|].
  eapply Forall_impl; [exact IH|]. simpl. lia.
Qed.

Lemma foldr_max_in k ks : foldr Z.max k ks ∈ k :: ks.
Proof.
  induction ks as [|x ks IH]; simpl; [set_solver|].
  destruct (Z.max_spec x (foldr Z.max k ks)) as [[_ ->]|[_ ->]];
    rewrite !elem_of_cons in *; tauto.
Qed.

Lemma max_key_id_spec dev d :
  (∀ k p, d.(prekeys) !! (dev, k) = Some p → (k ≤ max_key_id dev d)%Z) ∧
  (max_key_id dev d = 0%Z ∨ is_Some (d.(prekeys) !! (dev, max_key_id dev d))).
Proof.
  unfold max_key_id. set (l := _ <$> _).
  assert (∀ k, k ∈ l ↔ is_Some (d.(prekeys) !! (dev, k))) as Hl.
  { intros k. unfold l. rewrite list_elem_of_fmap. split.
    - intros ([[dev' k'] p] & -> & [Hk Hd]%elem_of_select_rows).
      apply bool_decide_eq_true in Hd. simpl in *. subst. by eexists.
    - intros [p Hk]. exists (dev, k, p). split; [done|]. apply elem_of_select_rows.
      split; [done|]. by apply bool_decide_eq_true_2. }
  clearbody l. destruct l as [|k ks].
  - split; [|by left]. intros k p Hk. assert (k ∈ @nil Z) by (apply Hl; eauto). set_solver.
  - split; [|right; apply Hl, foldr_max_in]. intros k' p Hk.
    assert (k' ∈ k :: ks) as Hin by (apply Hl; eauto).
    by eapply Forall_forall in Hin; [|apply foldr_max_ge].
Qed.

Lemma wp_GetKeyStatus dev d :
  (∀ k p, d.(prekeys) !! (dev, k) = Some p → (- two63 ≤ k < two63 - 1)%Z) →
  wp no_faults (GetKeyStatus dev) (λ r d', d' = d ∧ ∀ st, r = Ok st →
    st.(UnconsumedPrekeys) = Z.of_nat (count_unconsumed dev d) ∧
    (1 ≤ st.(NextOneTimePrekeyKeyID))%Z ∧
    ∀ k, (st.(NextOneTimePrekeyKeyID) ≤ k)%Z → d.(prekeys) !! (dev, k) = None) d.
Proof.
  intros Hb. unfold GetKeyStatus.
  destruct (max_key_id_spec dev d) as [Hmax Hin].
  assert (- two63 ≤ max_key_id dev d < two63 - 1)%Z as Hr.
  { destruct Hin as [->|[p Hp]]; [unfold two63; lia|eauto]. }
  apply wp_bind, wp_or_raise, wp_query_nf, wp_bind, wp_query_nf. cbn beta iota zeta.
  rewrite wrap64_id by (unfold two63 in *; lia).
  set (next := if bool_decide _ then _ else _).
  assert (1 ≤ next ∧ max_key_id dev d < next)%Z as [Hn1 Hn2].
  { unfold next. case_bool_decide; lia. }
  assert (∀ k, (next ≤ k)%Z → d.(prekeys) !! (dev, k) = None) as Hfree.
  { intros k Hk. apply eq_None_not_Some. intros [p Hp]. apply Hmax in Hp. lia. }
  apply wp_bind, wp_or_raise, wp_query_nf. cbn beta iota.
  destruct (devices d !! dev); apply wp_ret; split; try done; by intros st [= <-].
Qed.

(** ** Properties *)

(** The prekeys an operation brings for [dev]. *)
Definition upload_to (dev : Z) (o : op) : option (list PrekeyItem) :=
  match o with
  | OpUpdateKeys _ _ dev' _ _ _ otks _ _ => if decide (dev' = dev) then Some otks else None
  | _ => None
  end.

(** Every operation, whatever fails, moves each one-time prekey along
    its life: only an upload creates it, only a bundle request consumes it,
    keeping its key, and only the clean-up deletes it, when it was consumed
    more than thirty days ago. *)
Theorem prekey_lifecycle F o d r d' k : Exec F (run_op o) d r d' → life d d' k o.
Proof. apply (wp_Exec _ _ (λ _ d', life d d' k o)), wp_life. Qed.

(** A one-time prekey is handed out at most once: two bundle requests,
    separated by any operations that fail or not, in which the clean-up does
    not run more than thirty days after the first request, never return the
    same prekey of the same device. *)
Theorem prekey_issued_once `{!UuidLaws} F1 F2 u1 u2 t1 t2 d0 d1 d2 d3 b1 b2 s1 s2 i1 i2 :
  Exec F1 (GetBundleForUser u1 t1) d0 (Ok (b1, s1)) d1 → b1.(OneTimePrekey) = Some i1 →
  rtc (step (t1 + 30 * day)) d1 d2 →
  Exec F2 (GetBundleForUser u2 t2) d2 (Ok (b2, s2)) d3 → b2.(OneTimePrekey) = Some i2 →
  (s1, i1.(KeyID)) ≠ (s2, i2.(KeyID)).
Proof.
  intros He1 Hi1 Hsteps He2 Hi2.
  destruct (bundle_issue _ _ _ _ _ _ _ _ He1 Hi1) as (dev1 & pk1 & -> & _ & _ & ->).
  destruct (bundle_issue _ _ _ _ _ _ _ _ He2 Hi2) as (dev2 & pk2 & -> & Hk2 & _).
  intros [= Heq Hid]. apply uuid_string_inj in Heq as ->. rewrite <- Hid in Hk2.
  assert (d2.(prekeys) !! (dev2, KeyID i1) = Some (PrekeyRow pk1 (Some t1))) as Hc.
  { eapply steps_consumed; [|exact Hsteps]. simpl. by rewrite lookup_insert_eq. }
  by rewrite Hc in Hk2.
Qed.

(** What [GetBundleForUser] returns: the decrypted keys of the oldest
    device of the user, with the available one-time prekey of the smallest
    id, which is then consumed; without one only when the device has none
    left (or the claiming statement failed).  Nothing else is changed. *)
Theorem GetBundleForUser_spec F userID now d b s d' :
  Exec F (GetBundleForUser userID now) d (Ok (b, s)) d' →
  ∃ dev r, oldest_device (bare_username userID) d dev r ∧ s = uuid_string dev ∧
    row_bundle r b ∧
    match b.(OneTimePrekey) with
    | None => d' = d ∧ (faulty F ∨ exhausted dev d)
    | Some it => ∃ pk, takes dev now it.(KeyID) pk d d' ∧
                       Dbenc.Decrypt enc pk = Ok it.(Key)
    end.
Proof. apply (wp_Exec _ _ (bundle_post F userID now d)), wp_bundle_post. Qed.

(** The quota: no operation takes a device above 500 available one-time
    prekeys, whatever statements fail. *)
Theorem prekey_quota F o d r d' dev :
  Exec F (run_op o) d r d' →
  count_unconsumed dev d ≤ MaxOneTimePrekeysPerDevice →
  count_unconsumed dev d' ≤ MaxOneTimePrekeysPerDevice.
Proof.
  intros He Hq. unfold count_unconsumed in *.
  destruct (upload_to dev o) as [otks|] eqn:Hup.
  - destruct o; simplify_eq/=. case_decide; simplify_eq.
    eapply wp_Exec in He; [|apply wp_UpdateKeys].
    destruct He as [He|[Hle Hg]]; [by rewrite He|]. etrans; [|exact Hle].
    rewrite Nat.add_comm, <- (length_fmap (λ it, (dev, KeyID it)) otks).
    apply length_select_rows_le. intros k p Hk Hu.
    destruct (Hg k) as [Hs|(Hd & Hin & _)]; [right; exists p; by rewrite <- Hs|left].
    destruct k as [dev' k]; simpl in *; subst.
    apply list_elem_of_fmap in Hin as (it & -> & ?). apply list_elem_of_fmap. eauto.
  - etrans; [|exact Hq]. apply (length_select_rows_le _ _ _ []).
    intros k p Hk Hu. right. pose proof Hu as [<- Hp]%unconsumed_true.
    eapply wp_Exec in He; [|apply (wp_life _ _ _ k)].
    destruct He as [o' Hs|rand u spk sig id otks sg t pk|u t p' H1' H2' H3'|t p' c H1' H2' H3' H4'].
    + exists p. by rewrite <- Hs.
    + simpl in Hup. by case_decide.
    + by simplify_eq.
    + by simplify_eq.
Qed.

(** [GetBundle], the only lookup that respects domains and device ids,
    never succeeds: Go's [Sscanf] has no scan sets, so every user id is
    rejected as malformed, whatever the database holds. *)
Theorem GetBundle_rejects_all F userID deviceID now d r d' :
  Exec F (GetBundle userID deviceID now) d r d' → r = Err ErrInvalidUserID ∧ d' = d.
Proof. apply (wp_Exec _ _ (λ r d', r = Err ErrInvalidUserID ∧ d' = d)), wp_GetBundle. done. Qed.

(** The key status of a device tells the truth: the number of available
    prekeys, and an id from which to continue that is positive and free. *)
Theorem GetKeyStatus_next_free dev d st :
  (∀ k p, d.(prekeys) !! (dev, k) = Some p → (- two63 ≤ k < two63 - 1)%Z) →
  (run (GetKeyStatus dev) d).1 = Ok st →
  (run (GetKeyStatus dev) d).2 = d ∧
  st.(UnconsumedPrekeys) = Z.of_nat (count_unconsumed dev d) ∧
  (1 ≤ st.(NextOneTimePrekeyKeyID))%Z ∧
  ∀ k, (st.(NextOneTimePrekeyKeyID) ≤ k)%Z → d.(prekeys) !! (dev, k) = None.
Proof.
  intros Hb Hr. pose proof (wp_run _ _ _ (wp_GetKeyStatus dev d Hb)) as Hw.
  destruct Hw as [Hd Hst]. split; [done|]. by apply Hst.
Qed.

(** A signed prekey whose Ed25519 signature does not verify under the
    identity key sent with it is refused, and nothing is stored. *)
Theorem UpdateKeys_bad_signature F rand user dev spk sig id otks signing now d r d' :
  Exec F (UpdateKeys rand user dev spk sig id otks signing now) d r d' →
  0 < slen spk → slen signing = PublicKeySize → 0 < slen sig →
  ed_verify signing (b64_encode spk) sig = false →
  r = Err ErrInvalidSignature ∧ d' = d.
Proof.
  intros He H1' H2' H3' Hv. revert r d' He. apply wp_Exec_all. unfold UpdateKeys, store_signed_prekey.
  rewrite (proj2 (Nat.ltb_lt _ _) H1'), (proj2 (Nat.ltb_lt _ _) H3'), (proj2 (Nat.eqb_eq _ _) H2'), Hv.
  by apply wp_bind, wp_raise.
Qed.
End service.

(** ** Witnesses *)
#[local] Existing Instance toy_aead.
#[local] Existing Instance toy_ed25519.

Abbreviation get_bundle d := (run (GetBundleForUser None "@Ann:a.org" 100) d).

Lemma prekey_lifecycle_witness :
  life sample_db (run (run_op "a.org" None (OpGetBundleForUser "@Ann:a.org" 100)) sample_db).2
    (9, 1)%Z (OpGetBundleForUser "@Ann:a.org" 100).
Proof.
  eapply (prekey_lifecycle "a.org" None no_faults). apply Exec_run. apply surjective_pairing.
Defined.

Lemma prekey_issued_once_witness :
  ("9", 1%Z) ≠ ("9", 2%Z).
Proof.
  apply (prekey_issued_once "a.org" None no_faults no_faults "@Ann:a.org" "ann" 100 200
    sample_db (get_bundle sample_db).2 (get_bundle sample_db).2
    (run (GetBundleForUser None "ann" 200) (get_bundle sample_db).2).2
    (mkBundle "ik" "spk" "sig" 1 (Some (mkPrekeyItem "k1" 1)))
    (mkBundle "ik" "spk" "sig" 1 (Some (mkPrekeyItem "k2" 2)))
    "9" "9" (mkPrekeyItem "k1" 1) (mkPrekeyItem "k2" 2)).
  - apply Exec_run. by vm_compute.
  - done.
  - apply rtc_refl.
  - apply Exec_run. by vm_compute.
  - done.
Defined.

Lemma GetBundleForUser_spec_witness :
  ∃ dev r, oldest_device (bare_username "@Ann:a.org") sample_db dev r ∧ "9" = uuid_string dev ∧
    row_bundle None r (mkBundle "ik" "spk" "sig" 1 (Some (mkPrekeyItem "k1" 1))) ∧
    ∃ pk, takes dev 100 1 pk sample_db (get_bundle sample_db).2 ∧ Dbenc.Decrypt None pk = Ok "k1".
Proof.
  apply (GetBundleForUser_spec None no_faults "@Ann:a.org" 100 sample_db
    (mkBundle "ik" "spk" "sig" 1 (Some (mkPrekeyItem "k1" 1))) "9").
  apply Exec_run. by vm_compute.
Defined.

Lemma prekey_quota_witness :
  count_unconsumed 9 (run (run_op "a.org" None (OpCleanup (50 * day))) sample_db).2
    ≤ MaxOneTimePrekeysPerDevice.
Proof.
  eapply (prekey_quota "a.org" None no_faults (OpCleanup (50 * day)) sample_db).
  - apply Exec_run. apply surjective_pairing.
  - apply Nat.leb_le. by vm_compute.
Defined.

Lemma GetBundle_rejects_all_witness :
  (run (GetBundle "a.org" None "@ann:a.org" "9" 100) sample_db).1 = Err ErrInvalidUserID ∧
  (run (GetBundle "a.org" None "@ann:a.org" "9" 100) sample_db).2 = sample_db.
Proof.
  apply (GetBundle_rejects_all "a.org" None no_faults "@ann:a.org" "9" 100).
  apply Exec_run. apply surjective_pairing.
Defined.

Lemma GetKeyStatus_next_free_witness :
  let st := mkKeyStatus 2 "1970-01-01T00:00:00Z" 4 in
  (run (GetKeyStatus 9) sample_db).2 = sample_db ∧
  st.(UnconsumedPrekeys) = Z.of_nat (count_unconsumed 9 sample_db) ∧
  (1 ≤ st.(NextOneTimePrekeyKeyID))%Z ∧
  ∀ k, (st.(NextOneTimePrekeyKeyID) ≤ k)%Z → sample_db.(prekeys) !! (9%Z, k) = None.
Proof.
  apply (GetKeyStatus_next_free 9 sample_db (mkKeyStatus 2 "1970-01-01T00:00:00Z" 4)).
  - intros k p Hk. unfold sample_db, two63 in *. simpl in Hk.
    repeat (rewrite lookup_insert in Hk || rewrite lookup_singleton in Hk).
    repeat case_decide; simplify_eq; lia.
  - by vm_compute.
Defined.

Lemma UpdateKeys_bad_signature_witness :
  let m := UpdateKeys None (λ _, None) 1 9 "spk" "bad" 2 [] (pad32 "id") 100 in
  (run m sample_db).1 = Err ErrInvalidSignature ∧ (run m sample_db).2 = sample_db.
Proof.
  intros m. apply (UpdateKeys_bad_signature None no_faults (λ _, None) 1 9 "spk" "bad" 2 []
    (pad32 "id") 100 sample_db); [apply Exec_run, surjective_pairing|..]; vm_compute; try done; lia.
Defined.

End Keydir.
