(* ===== verification/KeydirRace.v ===== *)
(** * The key directory under requests that run at the same time

    The methods of [keydir/keydir.go] that write, cut at their statements
    ([code]) and run together by [Interleave.step].  The statement that claims
    a one-time prekey is two steps: its subquery is evaluated before the row
    is locked, and PostgreSQL's default isolation level, READ COMMITTED, checks
    again only [WHERE id = ...] once it has the lock. *)

From Stdlib Require Import Ascii String.
From stdpp Require Import strings.
From S2P Require Import Prelude Interleave GoStrings Encoding Crypto Schema Samples Dbenc Keydir.
Set Default Goal Selector "!".
Open Scope stdpp_scope.

Module KeydirRace.
Import Interleave Keydir.

(** What a request answers. *)
Inductive answer := Bundled (b : Bundle) | BundledFor (b : Bundle) (dev : string) | Stored | Purged (n : Z).

Section service.
Context `{UuidLib, PgText, GoUnicode, Aead, Ed25519}.
Context (dom : string) (enc : Dbenc.Cipher).

Implicit Types (o : op) (d : DB) (seen : list DB).

(** The methods of [Keydir]. *)
Definition method (o : op) : M DB err answer :=
  match o with
  | OpGetBundle u dev t => b ← GetBundle dom enc u dev t; mret (Bundled b)
  | OpGetBundleForUser u t => bs ← GetBundleForUser enc u t; mret (BundledFor bs.1 bs.2)
  | OpUpdateKeys rand u dev spk sig id otks signing t =>
    _ ← UpdateKeys enc rand u dev spk sig id otks signing t; mret Stored
  | OpCleanup t => n ← CleanupOldConsumedPrekeys t; mret (Purged n)
  end.

(** ** The methods, cut *)
Definition decrypted (v : string) : result err string :=
  match enc with
  | None => Ok v
  | Some _ => match Dbenc.Decrypt enc v with Ok p => Ok p | Err e => Err (ErrEnc e) end
  end.

Definition encrypted (r : option string) (v : string) : result err string :=
  match enc with
  | None => Ok v
  | Some _ => match Dbenc.Encrypt enc r v with Ok p => Ok p | Err e => Err (ErrEnc e) end
  end.

Definition decrypt_row (r : device_row) : prog DB err Bundle :=
  ik ← Stop (decrypted r.(d_identity_key));
  spk ← Stop (decrypted r.(d_signed_prekey));
  sig ← Stop (decrypted r.(d_signed_prekey_sig));
  mret (mkBundle ik spk sig r.(d_signed_prekey_id) None).

(** [UPDATE one_time_prekeys SET consumed_at = NOW() WHERE id = k RETURNING prekey, key_id] *)
Definition update_by_id (k : Z * Z) (now : Z) (d : DB) : option (option (string * Z) * DB) :=
  Some match d.(prekeys) !! k with
       | None => (None, d)
       | Some p => (Some (p.(p_prekey), k.2),
                    with_prekeys (<[k := PrekeyRow p.(p_prekey) (Some now)]> d.(prekeys)) d)
       end.

Definition claim (dev now : Z) : prog DB err (option (option (string * Z))) :=
  row ← asks (next_prekey dev);
  match row with
  | None => mret None
  | Some None => mret (Some None)
  | Some (Some (k, _)) => Stmt (update_by_id k now) mret
  end.

(** As it is when no other request runs. *)
Definition claim_at_once (dev now : Z) : prog DB err (option (option (string * Z))) :=
  Stmt (claim_prekey dev now) mret.

Section claiming.
Context (claim : Z → Z → prog DB err (option (option (string * Z)))).

Definition attach (dev now : Z) (b : Bundle) : prog DB err Bundle :=
  row ← claim dev now;
  match row with
  | Some (Some (pk, id)) =>
    key ← Stop (decrypted pk);
    mret (mkBundle b.(IdentityKey) b.(SignedPrekey) b.(SignedPrekeySig) b.(SignedPrekeyID)
            (Some (mkPrekeyItem key id)))
  | _ => mret b
  end.

Definition getBundle (userID deviceID : string) (now : Z) : prog DB err Bundle :=
  match sscanf user_id_format userID 2 with
  | Some [username; domain] =>
    if negb (bool_decide (normDomain domain = normDomain dom)) then throw ErrRemoteUser
    else
      match uuid_parse deviceID with
      | None => throw ErrInvalidDeviceID
      | Some dev =>
        row ← or_throw ErrDb (asks (λ d, first_row (devices_of (λ k u,
          bool_decide (pg_lower u.(u_username) = pg_lower username) &&
          (bool_decide (u.(u_domain) = domain) || bool_decide (u.(u_domain) = dom) ||
           local_name u.(u_domain) && (local_name domain || local_name dom)) &&
          bool_decide (k = dev)) d)));
        match row with
        | None => throw ErrNotFound
        | Some (_, r) => b ← decrypt_row r; attach dev now b
        end
      end
  | _ => throw ErrInvalidUserID
  end.

Definition getBundleForUser (userID : string) (now : Z) : prog DB err (Bundle * string) :=
  let username := bare_username userID in
  if bool_decide (username = "") then throw ErrInvalidUserID
  else
    row ← or_throw ErrDb (asks (λ d, first_row (merge_sort created_asc (devices_of (λ _ u,
      bool_decide (pg_lower u.(u_username) = pg_lower username)) d))));
    match row with
    | None => throw ErrNotFound
    | Some (dev, r) =>
      b ← decrypt_row r;
      b ← attach dev now b;
      mret (b, uuid_string dev)
    end.

Definition put_signed_prekey (rand : nat → option string) (user dev : Z)
    (spk sig : string) (id : Z) (signing : string) (now : Z) : prog DB err unit :=
  if 0 <? slen spk then
    if (slen signing =? PublicKeySize) && (0 <? slen sig) &&
       negb (ed_verify signing (b64_encode spk) sig)
    then throw ErrInvalidSignature
    else
      spk ← Stop (encrypted (rand 0) spk);
      sig ← Stop (encrypted (rand 1) sig);
      or_throw ErrDb (does (λ d, Some (update_signed_prekey user dev spk sig id now d)))
  else mret tt.

Definition put_one_time_prekeys (rand : nat → option string) (dev : Z)
    (otks : list PrekeyItem) : prog DB err unit :=
  if 0 <? length otks then
    n ← or_throw ErrDb (asks (count_unconsumed dev));
    if MaxOneTimePrekeysPerDevice <? n + length otks then throw ErrPrekeyQuotaExceeded
    else each (λ ip : nat * PrekeyItem,
           pk ← Stop (encrypted (rand (2 + ip.1)) ip.2.(Key));
           or_throw ErrDb (does (insert_prekey_do_nothing dev ip.2.(KeyID) pk)))
           (imap pair otks)
  else mret tt.

Definition updateKeys (rand : nat → option string) (user dev : Z) (spk sig : string)
    (spkid : Z) (otks : list PrekeyItem) (signing : string) (now : Z) : prog DB err unit :=
  _ ← put_signed_prekey rand user dev spk sig spkid signing now;
  put_one_time_prekeys rand dev otks.

Definition cleanup (now : Z) : prog DB err Z :=
  or_throw ErrDb (Stmt (delete_consumed_before (now - 30 * day)) mret).

Definition code_with (o : op) : prog DB err answer :=
  match o with
  | OpGetBundle u dev t => b ← getBundle u dev t; mret (Bundled b)
  | OpGetBundleForUser u t => bs ← getBundleForUser u t; mret (BundledFor bs.1 bs.2)
  | OpUpdateKeys rand u dev spk sig id otks signing t =>
    _ ← updateKeys rand u dev spk sig id otks signing t; mret Stored
  | OpCleanup t => n ← cleanup t; mret (Purged n)
  end.
End claiming.

Definition code : op → prog DB err answer := code_with claim.

(** ** Alone they are the methods *)
#[local] Hint Extern 1 (is_code _ _) => apply ic_bind : is_code.

Lemma ic_decrypted v : is_code (Stop (decrypted v)) (decrypt_col enc v).
Proof. unfold decrypt_col, decrypted. by destruct enc. Qed.

Lemma ic_encrypted r v : is_code (Stop (encrypted r v)) (encrypt_col enc r v).
Proof. unfold encrypt_col, encrypted. by destruct enc. Qed.

Lemma ic_decrypt_row r : is_code (decrypt_row r) (decrypt_device enc r).
Proof. repeat (apply ic_bind; [apply ic_decrypted|intros ?]). apply ic_ret. Qed.

Lemma ic_attach dev now b : is_code (attach claim_at_once dev now b) (attach_prekey enc dev now b).
Proof.
  apply ic_bind; [apply ic_stmt|]. intros [[[pk id]|]|]; [|apply ic_ret..].
  apply ic_bind; [apply ic_decrypted|]. intros. apply ic_ret.
Qed.

Lemma ic_getBundle u dev now : is_code (getBundle claim_at_once u dev now) (GetBundle dom enc u dev now).
Proof. unfold getBundle, GetBundle. rewrite sscanf_user_id_fails. apply ic_throw. Qed.

Lemma ic_getBundleForUser u now : is_code (getBundleForUser claim_at_once u now) (GetBundleForUser enc u now).
Proof.
  unfold getBundleForUser, GetBundleForUser. case_bool_decide; [apply ic_throw|].
  apply ic_bind; [auto with is_code|]. intros [[dev r]|]; [|apply ic_throw].
  apply ic_bind; [apply ic_decrypt_row|]. intros b. apply ic_bind; [apply ic_attach|]. intros. apply ic_ret.
Qed.

Lemma ic_put_signed_prekey rand user dev spk sig id signing now :
  is_code (put_signed_prekey rand user dev spk sig id signing now)
    (store_signed_prekey enc rand user dev spk sig id signing now).
Proof.
  unfold put_signed_prekey, store_signed_prekey. case_match; [|apply ic_ret]. case_match; [apply ic_throw|].
  do 2 (apply ic_bind; [apply ic_encrypted|intros ?]). auto with is_code.
Qed.

Lemma ic_put_one_time_prekeys rand dev otks :
  is_code (put_one_time_prekeys rand dev otks) (store_one_time_prekeys enc rand dev otks).
Proof.
  unfold put_one_time_prekeys, store_one_time_prekeys. case_match; [|apply ic_ret].
  apply ic_bind; [auto with is_code|]. intros n. case_match; [apply ic_throw|].
  apply ic_each. intros ip. apply ic_bind; [apply ic_encrypted|]. auto with is_code.
Qed.

Lemma keydir_ic_code o : is_code (code_with claim_at_once o) (method o).
Proof.
  destruct o; (apply ic_bind; [|intros ?; apply ic_ret]).
  - apply ic_getBundle.
  - apply ic_getBundleForUser.
  - apply ic_bind; [apply ic_put_signed_prekey|]. intros _. apply ic_put_one_time_prekeys.
  - apply ic_throws, ic_stmt.
Qed.

Lemma refines_claim dev now : refines (claim_at_once dev now) (claim dev now).
Proof.
  intros d r d' Ha. pose proof (alone_inv (claim_at_once dev now) _ _ _ Ha) as [Ha1|(x & d1 & Hc & Ha1)]; clear Ha.
  - eapply al_step; [apply ps_fail|exact Ha1].
  - unfold claim_prekey in Hc. destruct (next_prekey dev d) as [[k p]|] eqn:Hn; injection Hc as <- <-.
    + eapply al_step; [by apply ps_stmt|]. cbn. rewrite Hn. eapply al_step; [apply ps_stmt|exact Ha1].
      apply next_prekey_Some in Hn as (_ & Hk & _). unfold update_by_id. by rewrite Hk.
    + eapply al_step; [by apply ps_stmt|]. cbn. by rewrite Hn.
Qed.

Lemma refines_code o : refines (code_with claim_at_once o) (code o).
Proof.
  assert (∀ dev now b, refines (attach claim_at_once dev now b) (attach claim dev now b)) as Hat.
  { intros dev now b. apply refines_bind; [apply refines_claim|]. intros x. apply refines_refl. }
  destruct o; try apply refines_refl; (apply refines_bind; [|intros ?; apply refines_refl]).
  - unfold getBundle. rewrite sscanf_user_id_fails. apply refines_refl.
  - unfold getBundleForUser. case_match; [apply refines_refl|].
    apply refines_bind; [apply refines_refl|]. intros [[dev r]|]; [|apply refines_refl].
    apply refines_bind; [apply refines_refl|]. intros b. apply refines_bind; [apply Hat|intros ?; apply refines_refl].
Qed.

(** What a method does when it runs alone are steps of its code. *)
Theorem keydir_code_alone F o d r d' : Exec F (method o) d r d' → alone (code o) d r d'.
Proof.
  intros (n & n' & He). rewrite <- keydir_ic_code in He. eapply refines_code, interp_alone. by exists n, n'.
Qed.

(** ** What a request may change, and what it answers

    Everything was seen at some time since the request arrived. *)
Definition offered (dev k : Z) (pk : string) (d : DB) : Prop :=
  d.(prekeys) !! (dev, k) = Some (PrekeyRow pk None) ∧
  ∀ k' p, d.(prekeys) !! (dev, k') = Some p → p.(p_consumed_at) = None → (k ≤ k')%Z.

Definition spent (dev k now : Z) (d d' : DB) : Prop :=
  ∃ p, d.(prekeys) !! (dev, k) = Some p ∧
    d' = with_prekeys (<[(dev, k) := PrekeyRow p.(p_prekey) (Some now)]> d.(prekeys)) d.

Inductive authorised seen d : op → DB → Prop :=
| au_issue u t d0 dev r d1 k pk d' :
    d0 ∈ seen → oldest_device (bare_username u) d0 dev r → d1 ∈ seen → offered dev k pk d1 →
    spent dev k t d d' → authorised seen d (OpGetBundleForUser u t) d'
| au_signed rand user dev spk sig id otks signing t spk' sig' :
    0 < slen spk →
    ((slen signing =? PublicKeySize) && (0 <? slen sig) = true → ed_verify signing (b64_encode spk) sig = true) →
    encrypted (rand 0) spk = Ok spk' → encrypted (rand 1) sig = Ok sig' →
    authorised seen d (OpUpdateKeys rand user dev spk sig id otks signing t)
      (update_signed_prekey user dev spk' sig' id t d)
| au_one_time rand user dev spk sig id otks signing t d0 i it pk d' :
    d0 ∈ seen → count_unconsumed dev d0 + length otks ≤ MaxOneTimePrekeysPerDevice →
    otks !! i = Some it → encrypted (rand (2 + i)) it.(Key) = Ok pk →
    insert_prekey_do_nothing dev it.(KeyID) pk d = Some d' →
    authorised seen d (OpUpdateKeys rand user dev spk sig id otks signing t) d'
| au_purge t n d' :
    delete_consumed_before (t - 30 * day) d = Some (n, d') → authorised seen d (OpCleanup t) d'.

(** A one-time prekey in an answer was available, and then consumed. *)
Definition was_issued seen (dev k : Z) (pk : string) : Prop :=
  ∃ d0 d1 pk0 p, d0 ∈ seen ∧ offered dev k pk0 d0 ∧ d1 ∈ seen ∧
    d1.(prekeys) !! (dev, k) = Some p ∧ is_Some p.(p_consumed_at) ∧ p.(p_prekey) = pk.

Definition answers seen (r : result err answer) : Prop :=
  match r with
  | Ok (BundledFor b s) =>
    match b.(OneTimePrekey) with
    | None => True
    | Some it => ∃ dev pk, s = uuid_string dev ∧ was_issued seen dev it.(KeyID) pk ∧ decrypted pk = Ok it.(Key)
    end
  | _ => True
  end.

Lemma was_issued_more l seen dev k pk : was_issued seen dev k pk → was_issued (l ++ seen) dev k pk.
Proof.
  intros (d0 & d1 & pk0 & p & Hd0 & Ho & Hd1 & Hr). exists d0, d1, pk0, p.
  rewrite !elem_of_app. split; [by right|]. split; [done|]. split; [by right|done].
Qed.

Lemma next_offered dev k p d :
  next_prekey dev d = Some (k, p) → k = (dev, k.2) ∧ offered dev k.2 p.(p_prekey) d.
Proof.
  intros (<- & Hk & Hc & Hmin)%next_prekey_Some. destruct k as [dev k], p as [pk c]. cbn in *.
  by rewrite Hc in Hk.
Qed.

Section rules.
Context (ok : list DB → DB → DB → Prop).

Lemma safe_decrypt_row seen (post : list DB → result err Bundle → Prop) r :
  (∀ l e, post l (Err e)) → (∀ l b, b.(OneTimePrekey) = None → post (l ++ seen) (Ok b)) →
  safe ok post seen (decrypt_row r).
Proof.
  intros He Hb. unfold decrypt_row.
  destruct (decrypted (d_identity_key r)); [|by intros l]. destruct (decrypted (d_signed_prekey r)); [|by intros l].
  destruct (decrypted (d_signed_prekey_sig r)); [|by intros l]. intros l. by apply Hb.
Qed.

Lemma safe_claim {B} (post : list DB → result err B → Prop) seen dev now k :
  (∀ l d d' id pk d1, d1 ∈ l ++ seen → offered dev id pk d1 → spent dev id now d d' → ok (l ++ seen) d d') →
  (∀ l id pk, was_issued (l ++ seen) dev id pk → safe ok post (l ++ seen) (k (Some (Some (pk, id))))) →
  (∀ l x, x = None ∨ x = Some None → safe ok post (l ++ seen) (k x)) →
  safe ok post seen (x ← claim dev now; k x).
Proof.
  intros Hok Hk Hn. apply safe_asks.
  - intros d l Hd. destruct (next_prekey dev d) as [[key p]|] eqn:Hp; [|apply (Hn (d :: l)); auto].
    apply next_offered in Hp as [Heq Ho]. rewrite Heq. intros l1 d1 Hd1%head_elem. split.
    + unfold update_by_id. destruct (prekeys d1 !! (dev, key.2)) as [p1|] eqn:Hp1; intros x d2 [= <- <-].
      * rewrite app_comm_cons, app_assoc. split; [right; eapply Hok; [|done|by exists p1]; set_solver|].
        apply (Hk (_ :: l1 ++ d :: l)). eexists d, _, _, _. cbn. rewrite <- app_assoc.
        split; [set_solver|]. split; [done|]. split; [by left|]. cbn. by rewrite lookup_insert_eq.
      * split; [by left|]. change (d :: l ++ seen) with ((d :: l) ++ seen). rewrite app_assoc.
        apply (Hn (d1 :: l1 ++ d :: l)). by right.
    + change (d :: l ++ seen) with ((d :: l) ++ seen). rewrite app_assoc. apply (Hn (d1 :: l1 ++ d :: l)). by left.
  - intros d l. apply (Hn (d :: l)). by left.
Qed.

End rules.

(** The one-time prekey of a bundle for [dev]. *)
Definition item_issued seen (dev : Z) (b : Bundle) : Prop :=
  match b.(OneTimePrekey) with
  | None => True
  | Some it => ∃ pk, was_issued seen dev it.(KeyID) pk ∧ decrypted pk = Ok it.(Key)
  end.

Definition ok_answer {A} (P : list DB → A → Prop) (l : list DB) (r : result err A) : Prop :=
  match r with Ok a => P l a | Err _ => True end.

Lemma safe_attach u t dev seen b :
  b.(OneTimePrekey) = None → (∃ d r, d ∈ seen ∧ oldest_device (bare_username u) d dev r) →
  safe (λ l d d', authorised l d (OpGetBundleForUser u t) d') (ok_answer (λ l, item_issued l dev)) seen
    (attach claim dev t b).
Proof.
  intros Hb (d0 & r & Hd0 & Hold). apply safe_claim.
  - intros l d d' id pk d1 Hd1 Ho Hs. by eapply (au_issue _ _ _ _ d0 dev r d1 id pk); [set_solver|..].
  - intros l id pk Hi. cbn beta iota. destruct (decrypted pk) eqn:Hp; [|done]. intros l1.
    exists pk. split; [by apply was_issued_more|done].
  - intros l x [->| ->] l1; cbn; unfold item_issued; by rewrite Hb.
Qed.

Lemma safe_bundle u t d :
  safe (λ l d d', authorised l d (OpGetBundleForUser u t) d') answers [d]
    (code (OpGetBundleForUser u t)).
Proof.
  apply (safe_bind _ _ (ok_answer (λ l bs, ∃ dev, bs.2 = uuid_string dev ∧ item_issued l dev bs.1))); [|intros l [b s]|done].
  - unfold getBundleForUser. case_match; [done|]. apply safe_throws_asks; [done|]. intros d0 l Hd0.
    destruct (first_row _) as [[dev r]|] eqn:Hrow; [|done]. apply oldest_row in Hrow.
    apply (safe_bind _ _ (ok_answer (λ l b, b.(OneTimePrekey) = None ∧ d0 ∈ l))); [|intros l1 b [Hb Hin]|done].
    + apply safe_decrypt_row; [done|]. intros l1 b Hb. split; [done|]. set_solver.
    + apply (safe_bind _ _ (ok_answer (λ l, item_issued l dev))); [|intros l2 b2 Hi|done].
      * apply safe_attach; [done|]. by exists d0, r.
      * intros l3. exists dev. split; [done|]. cbn in *. unfold item_issued in *.
        destruct (OneTimePrekey b2); [|done]. destruct Hi as (pk & Hi & Hk). exists pk.
        split; [by apply was_issued_more|done].
  - intros (dev & -> & Hi) l1. cbn in *. unfold item_issued in Hi. destruct (OneTimePrekey b); [|done].
    destruct Hi as (pk & Hi & Hk). exists dev, pk. split; [done|]. split; [by apply was_issued_more|done].
Qed.

Lemma safe_signed rand user dev spk sig id otks signing t d :
  let o := OpUpdateKeys rand user dev spk sig id otks signing t in
  safe (λ l d d', authorised l d o d') (λ _ _, True) [d] (put_signed_prekey rand user dev spk sig id signing t).
Proof.
  intros o. unfold put_signed_prekey. destruct (0 <? slen spk) eqn:Hs; [|done]. apply Nat.ltb_lt in Hs.
  destruct (_ && negb _) eqn:Hv; [done|].
  destruct (encrypted (rand 0) spk) eqn:He1; [|done]. destruct (encrypted (rand 1) sig) eqn:He2; [|done].
  apply safe_throws_does; [done..|]. intros d1 l d' _ [= <-]. apply au_signed; [done| |done..].
  intros Hg. rewrite Hg in Hv. by destruct (ed_verify _ _ _).
Qed.

Lemma safe_one_time rand user dev spk sig id otks signing t seen :
  let o := OpUpdateKeys rand user dev spk sig id otks signing t in
  safe (λ l d d', authorised l d o d') (λ _ _, True) seen (put_one_time_prekeys rand dev otks).
Proof.
  intros o. unfold put_one_time_prekeys. case_match; [|done]. apply safe_throws_asks; [done|]. intros d l Hd. cbn beta iota.
  destruct (MaxOneTimePrekeysPerDevice <? _) eqn:Hq; [by intros ?|]. apply Nat.ltb_ge in Hq.
  apply (safe_each _ _ (λ l, d ∈ l)); [set_solver|done|by left|].
  intros [i it] l1 (j & x & [= <- <-] & Hx)%elem_of_lookup_imap Hl. cbn.
  destruct (encrypted (rand (2 + i)) (Key it)) eqn:Hp; cbn in Hp.
  2: { rewrite Hp. by intros l2. }
  rewrite Hp. apply safe_throws_does; [done|set_solver|].
  intros d1 l2 d' _ Hi. eapply (au_one_time _ _ _ _ _ _ _ _ _ _ _ d i it); [set_solver|done..].
Qed.

Lemma keydir_code_safe o d : safe (λ l d d', authorised l d o d') answers [d] (code o).
Proof.
  destruct o.
  - unfold code, code_with, getBundle. by rewrite sscanf_user_id_fails.
  - apply safe_bundle.
  - apply (safe_bind _ _ (λ _ _, True)); [|done..].
    apply (safe_bind _ _ (λ _ _, True)); [apply safe_signed| |done]. intros l [] _. apply safe_one_time.
  - apply (safe_bind _ _ (λ _ _, True)); [|done..]. intros l d0 _. split; [|done].
    intros n d' Hd. split; [right; by eapply au_purge|done].
Qed.

(** However the statements of concurrent requests are interleaved, a
    request to the key directory changes the database only in the way its
    method is for: a bundle request spends one prekey, which it had seen
    available for the oldest device of the user; an upload stores a signed
    prekey that its signature confirms, and one-time prekeys when it had seen
    room for them under the quota; the clean-up deletes old consumed ones. *)
Theorem prekeys_authorised_together d0 s i t p d :
  reach code d0 s → sys_threads s !! i = Some t → pstep (th_prog t) (sys_db s) p d →
  d = sys_db s ∨ authorised (th_seen t) (sys_db s) (th_op t) d.
Proof.
  intros Hr Hi Hp.
  by apply (safe_reach code (λ o l d d', authorised l d o d') (λ _, answers) keydir_code_safe d0 s i t p d).
Qed.

(** *** Requests that do not overlap *)
Definition consumed (k : Z * Z) (d : DB) : Prop := ∃ p, d.(prekeys) !! k = Some p ∧ is_Some p.(p_consumed_at).

Definition purges (o : op) : bool := if o is OpCleanup _ then true else false.

Lemma consumed_claim k dev now : every (consumed k) (claim dev now).
Proof.
  split; [by intros d x d' Hd [= <- <-]|]. intros [[[key p]|]|]; [|done..]. split; [|done].
  intros d x d' (p0 & Hk & Hc). unfold update_by_id. destruct (prekeys d !! key) as [p1|] eqn:Hk1; intros [= <- <-].
  - unfold consumed. cbn. destruct (decide (k = key)) as [->|]; [rewrite lookup_insert_eq|rewrite lookup_insert_ne by done]; eauto.
  - by exists p0.
Qed.

Lemma consumed_insert k dev id pk d d' : consumed k d → insert_prekey_do_nothing dev id pk d = Some d' → consumed k d'.
Proof.
  intros (p & Hk & Hp). unfold insert_prekey_do_nothing.
  destruct (prekeys d !! (dev, id)) eqn:Hid; [intros [= <-]; by exists p|].
  destruct (devices d !! dev); [|done]. intros [= <-]. exists p. cbn. rewrite lookup_insert_ne; [done|].
  intros Heq. rewrite Heq in Hid. by rewrite Hid in Hk.
Qed.

Lemma keydir_every_code k o : purges o = false → every (consumed k) (code o).
Proof.
  destruct o as [u dev t|u t|rand u dev spk sig id otks signing t|t]; intros Ho; [..|done]; cbn [code code_with].
  - unfold getBundle. by rewrite sscanf_user_id_fails.
  - apply every_bind; [|done]. unfold getBundleForUser. case_match; [done|]. apply every_bind; [auto with every|].
    intros [[dev r]|]; [|done]. apply every_bind; [by do 3 (apply every_pure; intros ?)|].
    intros b. apply every_bind; [|done]. apply every_bind; [apply consumed_claim|].
    intros [[[pk id]|]|]; [by apply every_pure; intros ?|done..].
  - apply every_bind; [|done]. apply every_bind.
    + unfold put_signed_prekey. case_match; [|done]. case_match; [done|].
      do 2 (apply every_pure; intros ?). apply every_throws, every_does. intros d d' (p & Hk & Hp) [= <-]. by exists p.
    + intros _. unfold put_one_time_prekeys. case_match; [|done].
      apply every_bind; [auto with every|]. intros n. case_match; [done|]. apply every_each. intros ip.
      apply every_pure. intros pk. apply every_throws, every_does. eauto using consumed_insert.
Qed.

(** C23: Two bundle requests of which one arrived after the answer to the
    other, with any requests but clean-ups running at the same time and their
    statements in any order, never answer with the same one-time prekey of
    the same device. *)
Theorem prekey_not_reissued `{!UuidLaws} d0 s1 s2 i j o1 o2 l1 l2 b1 b2 dev1 dev2 it1 it2 :
  reach code d0 s1 → rtc (Interleave.step code) s1 s2 →
  sys_threads s1 !! i = Some (Thread o1 l1 (Stop (Ok (BundledFor b1 dev1)))) → b1.(OneTimePrekey) = Some it1 →
  length (sys_threads s1) ≤ j →
  sys_threads s2 !! j = Some (Thread o2 l2 (Stop (Ok (BundledFor b2 dev2)))) → b2.(OneTimePrekey) = Some it2 →
  Forall (λ o, purges o = false) (th_op <$> sys_threads s2) →
  (dev1, it1.(KeyID)) ≠ (dev2, it2.(KeyID)).
Proof.
  intros Hr Hs Hi Hb1 Hj Hl Hb2 Hg [= Hdev Hid].
  assert (reach code d0 s2) as Hr2 by (by eapply reach_steps).
  pose proof (safe_result code _ (λ _, answers) keydir_code_safe _ _ _ _ _ _ Hr Hi) as Ha1.
  pose proof (safe_result code _ (λ _, answers) keydir_code_safe _ _ _ _ _ _ Hr2 Hl) as Ha2.
  cbn in Ha1, Ha2. rewrite Hb1 in Ha1. rewrite Hb2 in Ha2.
  destruct Ha1 as (k1 & pk1 & -> & (_ & d1 & _ & p & _ & _ & Hd1 & Hp & Hc & _) & _).
  destruct Ha2 as (k2 & pk2 & -> & (d2 & _ & pk0 & _ & Hd2 & [Ho _] & _) & _).
  apply uuid_string_inj in Hdev as <-. rewrite <- Hid in Ho.
  assert (consumed (k1, KeyID it1) (sys_db s1)) as Hnow.
  { assert (all_good (λ o, purges o = false) s1) as Hg1.
    { destruct (steps_ops code _ _ Hs) as [l Heq]. rewrite Heq in Hg. by apply Forall_app in Hg as [? _]. }
    pose proof (seen_stable code _ _ (keydir_every_code (k1, KeyID it1)) _ _ Hr Hg1) as Hst.
    apply (Forall_lookup_1 _ _ _ _ Hst Hi d1); [done|]. by exists p. }
  destruct (later_seen code _ _ (keydir_every_code (k1, KeyID it1)) _ _ _ Hr Hs Hg Hnow) as [_ Hlater].
  specialize (Hlater _ _ Hj Hl). rewrite Forall_forall in Hlater.
  destruct (Hlater d2 Hd2) as (p2 & Hp2 & Hc2). rewrite Ho in Hp2. simplify_eq. by destruct Hc2.
Qed.
End service.

(** ** Races

    The statement that claims a prekey does not lock the row that its
    subquery chose, and the quota is counted before the keys are stored. *)
Module Sample.
#[local] Existing Instance toy_aead.
#[local] Existing Instance toy_ed25519.

Abbreviation sys := (system op DB err answer).
Abbreviation sample_code := (code "a.org" None).

Definition after (s : sys) (us : list (turn (O:=op))) : sys := foldl (take_turn sample_code) s us.

Definition bundle_request (t : Z) : op := OpGetBundleForUser "@Ann:a.org" t.
Definition upload (id : Z) : op := OpUpdateKeys (λ _, None) 1 9 "" "" 0 [mkPrekeyItem "k" id] "" 0.

Definition results (s : sys) : list (option (result err answer)) :=
  (λ t, match th_prog t with Stop r => Some r | _ => None end) <$> sys_threads s.

Definition with_item (it : PrekeyItem) : option (result err answer) :=
  Some (Ok (BundledFor (mkBundle "ik" "spk" "sig" 1 (Some it)) "9")).

(** Two requests receive the same one-time prekey. *)
Definition overlapping : sys := after (System sample_db [])
  [Arrives (bundle_request 100); Arrives (bundle_request 101); Runs 0; Runs 1; Runs 0; Runs 1; Runs 0; Runs 1].

Lemma issued_twice :
  reach sample_code sample_db overlapping ∧
  results overlapping = [with_item (mkPrekeyItem "k1" 1); with_item (mkPrekeyItem "k1" 1)].
Proof. split; [apply turns_reach; constructor|by vm_compute]. Qed.

(** One after the other. *)
Definition answered : sys := after (System sample_db []) [Arrives (bundle_request 100); Runs 0; Runs 0; Runs 0].
Definition answered_again : sys := after answered [Arrives (bundle_request 101); Runs 1; Runs 1; Runs 1].

Definition seen_by (s : sys) (i : nat) : list DB := default [] (th_seen <$> sys_threads s !! i).

Lemma prekey_not_reissued_witness : ("9", 1%Z) ≠ ("9", 2%Z).
Proof.
  apply (prekey_not_reissued "a.org" None sample_db answered answered_again 0 1
    (bundle_request 100) (bundle_request 101) (seen_by answered 0) (seen_by answered_again 1)
    (mkBundle "ik" "spk" "sig" 1 (Some (mkPrekeyItem "k1" 1))) (mkBundle "ik" "spk" "sig" 1 (Some (mkPrekeyItem "k2" 2)))
    "9" "9" (mkPrekeyItem "k1" 1) (mkPrekeyItem "k2" 2)).
  - apply turns_reach. constructor.
  - apply turns_steps.
  - by vm_compute.
  - done.
  - by vm_compute.
  - by vm_compute.
  - done.
  - vm_compute. by repeat constructor.
Defined.

(** Two uploads of one key each take a device with 499 available prekeys
    beyond the quota of 500. *)
Definition nearly_full : DB :=
  with_prekeys (list_to_map ((λ n, ((9, Z.of_nat n)%Z, PrekeyRow "k" None)) <$> seq 1 499)) sample_db.

Definition overfull : sys := after (System nearly_full [])
  [Arrives (upload 1000); Arrives (upload 1001); Runs 0; Runs 1; Runs 0; Runs 1].

Lemma quota_exceeded :
  reach sample_code nearly_full overfull ∧ results overfull = [Some (Ok Stored); Some (Ok Stored)] ∧
  MaxOneTimePrekeysPerDevice < count_unconsumed 9 (sys_db overfull).
Proof.
  split; [apply turns_reach; constructor|]. split; [by vm_compute|].
  apply Nat.ltb_lt. by vm_compute.
Qed.

(** The second of the overlapping requests spends the prekey again. *)
Definition half_way : sys := after (System sample_db [])
  [Arrives (bundle_request 100); Arrives (bundle_request 101); Runs 0; Runs 1; Runs 0; Runs 1; Runs 0].

Definition second : thread op DB err answer := default (Thread (OpCleanup 0) [] (Stop (Ok Stored))) (sys_threads half_way !! 1).

Lemma prekeys_authorised_together_witness :
  let d := (advance (th_prog second) (sys_db half_way)).2 in
  (sys_db half_way).(prekeys) !! (9, 1)%Z = Some (PrekeyRow "k1" (Some 100%Z)) ∧
  d.(prekeys) !! (9, 1)%Z = Some (PrekeyRow "k1" (Some 101%Z)) ∧
  authorised None (th_seen second) (sys_db half_way) (th_op second) d.
Proof.
  intros d. split; [by vm_compute|]. split; [by vm_compute|].
  assert (pstep (th_prog second) (sys_db half_way) (advance (th_prog second) (sys_db half_way)).1 d)
    as Hp by (apply advance_pstep; intros r Hr; by vm_compute in Hr).
  destruct (prekeys_authorised_together "a.org" None sample_db half_way 1 second _ d
    ltac:(apply turns_reach; constructor) ltac:(by vm_compute) Hp) as [He|Ha]; [|exact Ha].
  apply (f_equal (λ d, d.(prekeys) !! (9, 1)%Z)) in He. by vm_compute in He.
Defined.
End Sample.
End KeydirRace.
