(* ===== verification/Auth.v ===== *)
(** * Accounts, devices and tokens ([server/internal/auth/auth.go])

    Registration, login, access and WebSocket tokens, device management, key
    backups and proxy sessions.  [op] collects the methods that write; the
    invariant [auth_inv] holds of every database they can reach. *)

From Stdlib Require Import Ascii String.
From stdpp Require Import strings.
From S2P Require Import Prelude GoStrings Encoding Crypto Schema Samples Dbenc Keydir.
Set Default Goal Selector "!".
Open Scope stdpp_scope.

Module Auth.

Inductive err :=
| ErrUsernameTaken
| ErrInvalidToken
| ErrInvalidCredentials
| ErrHash
| ErrTooManyPrekeys
| ErrDeviceKeysRequired
| ErrSign
| ErrNoRows
| ErrRand
| ErrEnc (e : Dbenc.err)
| ErrTokenEnc (e : Dbenc.err)
| ErrDb.

Definition tokenExpiryHours : Z := 24.
Definition wsTokenExpirySec : Z := 60.
Definition tokenAudience : string := "api".

Record RegisterInput := mkRegisterInput {
  Username : string;
  Password : string;
  DeviceID : Z;
  IdentityKey : string;
  SignedPrekey : string;
  SignedPrekeySig : string;
  SignedPrekeyID : Z;
  OneTimePrekeys : list Keydir.PrekeyItem;
  KeysBackupSalt : string;
  KeysBackupBlob : string;
}.

Record LoginInput := mkLoginInput {
  LUsername : string;
  LPassword : string;
  LDeviceID : Z;
  LRequestKeysRestore : bool;
  LIdentityKey : string;
  LSignedPrekey : string;
  LSignedPrekeySig : string;
  LSignedPrekeyID : Z;
  LOneTimePrekeys : list Keydir.PrekeyItem;
}.

Record LoginResult := mkLoginResult {
  LRUserID : string;
  LRDeviceID : Z;
  LRToken : string;
  LRKeysBackup : option (string * string);
}.

Record DeviceInfo := mkDeviceInfo {
  DIDeviceID : string;
  DIName : string;
  DICreatedAt : Z;
  DIIsCurrent : bool;
}.

Record ProxySession := mkProxySession {
  HomeDomain : string;
  HomeToken : string;
  PUserID : string;
  PDeviceID : string;
}.

(** The places at which the random source is read to encrypt a column. *)
Inductive slot :=
| SPassword | SIdentity | SSigned | SSig | SPrekey (i : nat) | SSalt | SBundle | SToken.

(** ** [sanitizeDeviceName] *)
Fixpoint sanitize_runes (rs : list Z) (buf : string) : string :=
  match rs with
  | [] => buf
  | r :: rs =>
    if bool_decide (r = 9 ∨ r = 10 ∨ r = 13 ∨ r < 32)%Z then sanitize_runes rs buf
    else if 64 <=? slen buf then buf
    else sanitize_runes rs (buf +:+ encode_rune r)
  end.

Definition sanitizeDeviceName (s : string) : string :=
  sanitize_runes (runes (trim_space s)) "".

(** Inputs of the witnesses. *)
Definition sample_input : RegisterInput :=
  mkRegisterInput "ann" "secret" 9 "ik" "spk" "sig" 1
    [Keydir.mkPrekeyItem "k1" 1; Keydir.mkPrekeyItem "k2" 2] "salt" "blob".

Definition sample_login : LoginInput := mkLoginInput "ann" "secret" 9 false "" "" "" 0 [].

Definition no_rand (s : slot) : option string := None.

Section service.
Context `{UuidLib, Aead, Bcrypt, Jwt, Sha256}.
Context (domain jwt_key : string) (enc : Dbenc.Cipher).

(** ** Columns *)
Definition encrypt_col (wrap : Dbenc.err → err) (r : option string) (v : string)
  : M DB err string :=
  match enc with
  | None => mret v
  | Some _ => of_result match Dbenc.Encrypt enc r v with
                        | Ok p => Ok p
                        | Err e => Err (wrap e)
                        end
  end.

Definition decrypt_col (wrap : Dbenc.err → err) (v : string) : M DB err string :=
  match enc with
  | None => mret v
  | Some _ => of_result match Dbenc.Decrypt enc v with
                        | Ok p => Ok p
                        | Err e => Err (wrap e)
                        end
  end.

(** ** SQL *)
Definition username_taken (dom name : string) (d : DB) : bool :=
  exists_row (λ _ u, bool_decide (u.(u_domain) = dom) && bool_decide (u.(u_username) = name))
    d.(users).

(** [INSERT INTO users ... RETURNING id], [UNIQUE (domain, username)] *)
Definition insert_user (name hash : string) (d : DB) : option (Z * DB) :=
  if username_taken domain name d then None
  else match d.(users) !! d.(users_seq) with
       | Some _ => None
       | None =>
         Some (d.(users_seq),
               with_users_seq (d.(users_seq) + 1)
                 (with_users (<[d.(users_seq) := UserRow name domain (Some hash)]> d.(users)) d))
       end.

Definition insert_device (dev user : Z) (ik spk sig : string) (spkid now : Z) (d : DB)
  : option DB :=
  match d.(devices) !! dev, d.(users) !! user with
  | None, Some _ =>
    Some (with_devices (<[dev := DeviceRow user ik spk sig spkid None now now]> d.(devices)) d)
  | _, _ => None
  end.

Definition insert_prekey (dev keyid : Z) (pk : string) (d : DB) : option DB :=
  match d.(prekeys) !! (dev, keyid), d.(devices) !! dev with
  | None, Some _ =>
    Some (with_prekeys (<[(dev, keyid) := PrekeyRow pk None]> d.(prekeys)) d)
  | _, _ => None
  end.

Definition insert_token (user dev : Z) (hash : string) (jti now : Z) (d : DB) : option DB :=
  match d.(tokens) !! jti, d.(users) !! user, d.(devices) !! dev with
  | None, Some _, Some _ =>
    Some (with_tokens (<[jti := TokenRow user dev hash (now + 24 * hour) None]> d.(tokens)) d)
  | _, _, _ => None
  end.

(** [INSERT ... ON CONFLICT (user_id) DO UPDATE] *)
Definition upsert_salt (user : Z) (salt : string) (d : DB) : option DB :=
  match d.(users) !! user with
  | Some _ => Some (with_salts (<[user := salt]> d.(salts)) d)
  | None => None
  end.
Definition upsert_backup (user : Z) (blob : string) (d : DB) : option DB :=
  match d.(users) !! user with
  | Some _ => Some (with_backups (<[user := blob]> d.(backups)) d)
  | None => None
  end.

Definition token_alive (now : Z) (t : token_row) : bool :=
  bool_decide (t.(t_revoked_at) = None) && bool_decide (now < t.(t_expires_at))%Z.

Definition live_token (jti now : Z) (d : DB) : bool :=
  match d.(tokens) !! jti with Some t => token_alive now t | None => false end.

Definition set_revoked (now : Z) (t : token_row) : token_row :=
  TokenRow t.(t_user) t.(t_device) t.(t_hash) t.(t_expires_at) (Some now).

(** [UPDATE access_tokens SET revoked_at = NOW() WHERE P AND revoked_at IS NULL] *)
Definition revoke_tokens (P : Z → token_row → bool) (now : Z) (d : DB) : DB :=
  with_tokens (update_where (λ j t, P j t && bool_decide (t.(t_revoked_at) = None))
                 (set_revoked now) d.(tokens)) d.

Definition rename_device (user dev : Z) (name : string) (now : Z) (d : DB) : DB :=
  with_devices (update_where
    (λ k r, bool_decide (k = dev) && bool_decide (r.(d_user) = user))
    (λ r, DeviceRow r.(d_user) r.(d_identity_key) r.(d_signed_prekey) r.(d_signed_prekey_sig)
            r.(d_signed_prekey_id) (Some name) r.(d_created_at) now) d.(devices)) d.

Definition owned (user dev : Z) (k : Z) (r : device_row) : bool :=
  bool_decide (k = dev) && bool_decide (r.(d_user) = user).

Definition stale_token (now : Z) (_ : Z) (t : token_row) : bool :=
  bool_decide (t.(t_expires_at) < now)%Z ||
  match t.(t_revoked_at) with Some r => bool_decide (r < now - 7 * day)%Z | None => false end.

Definition delete_stale_tokens (now : Z) (d : DB) : option (Z * DB) :=
  Some (Z.of_nat (length (select_rows (stale_token now) d.(tokens))),
        with_tokens (delete_where (stale_token now) d.(tokens)) d).

Definition insert_proxy (h : string) (row : proxy_row) (d : DB) : option DB :=
  match d.(proxies) !! h with
  | None => Some (with_proxies (<[h := row]> d.(proxies)) d)
  | Some _ => None
  end.

Definition created_desc (a b : Z * device_row) : Prop :=
  (b.2.(d_created_at) ≤ a.2.(d_created_at))%Z.
#[local] Instance created_desc_dec : RelDecision created_desc.
Proof. intros a b. unfold created_desc. apply _. Defined.

(** ** Tokens *)
Definition access_claims (user dev jti now : Z) : MapClaims :=
  <["user_id" := CNum user]> (<["device_id" := CStr (uuid_string dev)]>
  (<["jti" := CStr (uuid_string jti)]> (<["typ" := CStr "access"]>
  (<["iss" := CStr domain]> (<["aud" := CStr tokenAudience]>
  {["exp" := CNum (unix (now + tokenExpiryHours * hour))]}))))).

Definition issueToken (user dev jti now : Z) : result err (string * Z) :=
  match jwt_sign jwt_key (access_claims user dev jti now) with
  | None => Err ErrSign
  | Some signed => Ok (signed, jti)
  end.

(** The checks on [typ], [iss] and [aud] shared by both validators. *)
Definition iss_aud_ok (c : MapClaims) : bool :=
  negb (negb (bool_decide (claim_str "iss" c = "")) &&
        negb (bool_decide (claim_str "iss" c = domain))) &&
  negb (negb (bool_decide (claim_str "aud" c = "")) &&
        negb (bool_decide (claim_str "aud" c = tokenAudience))).

Definition token_identity (c : MapClaims) : Z * Z :=
  (int64_of_f64 (claim_num "user_id" c), uuid_parsed (claim_str "device_id" c)).

Definition ValidateToken (now : Z) (tok : string) : M DB err (Z * Z) :=
  match jwt_parse jwt_key now tok with
  | None => raise ErrInvalidToken
  | Some claims =>
    if bool_decide (claim_str "jti" claims = "") then raise ErrInvalidToken
    else
      match uuid_parse (claim_str "jti" claims) with
      | None => raise ErrInvalidToken
      | Some jti =>
        ex ← query (live_token jti now);
        match ex with
        | Some true =>
          let typ := claim_str "typ" claims in
          if negb (bool_decide (typ = "")) && negb (bool_decide (typ = "access"))
          then raise ErrInvalidToken
          else if negb (iss_aud_ok claims) then raise ErrInvalidToken
          else mret (token_identity claims)
        | _ => raise ErrInvalidToken
        end
      end
  end.

Definition IssueWSToken (user dev now : Z) : result err string :=
  match jwt_sign jwt_key
    (<["user_id" := CNum user]> (<["device_id" := CStr (uuid_string dev)]>
    (<["typ" := CStr "ws"]> (<["iss" := CStr domain]> (<["aud" := CStr tokenAudience]>
    {["exp" := CNum (unix (now + wsTokenExpirySec * second))]}))))) with
  | None => Err ErrSign
  | Some t => Ok t
  end.

Definition ValidateWSToken (now : Z) (tok : string) : result err (Z * Z) :=
  match jwt_parse jwt_key now tok with
  | None => Err ErrInvalidToken
  | Some claims =>
    if negb (bool_decide (claim_str "typ" claims = "ws")) then Err ErrInvalidToken
    else if negb (iss_aud_ok claims) then Err ErrInvalidToken
    else Ok (token_identity claims)
  end.

Definition RevokeToken (now : Z) (tok : string) : M DB err unit :=
  id ← ValidateToken now tok;
  match jwt_parse jwt_key now tok with
  | None => raise ErrInvalidToken
  | Some claims =>
    if bool_decide (claim_str "jti" claims = "") then raise ErrInvalidToken
    else
      match uuid_parse (claim_str "jti" claims) with
      | None => raise ErrInvalidToken
      | Some jti =>
        or_raise ErrDb (exec (λ d, Some (revoke_tokens
          (λ j t, bool_decide (j = jti) && bool_decide (t.(t_user) = id.1)) now d)))
      end
  end.

(** ** Key backups *)
Definition StoreKeyBackup (rand : slot → option string) (user : Z) (salt blob : string)
  : M DB err unit :=
  with_tx ErrDb (λ _, Err ErrDb)
    (salt ← encrypt_col ErrEnc (rand SSalt) salt;
     blob ← encrypt_col ErrEnc (rand SBundle) blob;
     _ ← or_raise ErrDb (exec (upsert_salt user salt));
     or_raise ErrDb (exec (upsert_backup user blob))).

Definition GetKeyBackup (user : Z) : M DB err (string * string) :=
  row ← or_raise ErrDb (query (λ d,
    match d.(salts) !! user, d.(backups) !! user with
    | Some s, Some b => Some (s, b)
    | _, _ => None
    end));
  match row with
  | None => raise ErrNoRows
  | Some (salt, blob) =>
    salt ← decrypt_col ErrEnc salt;
    blob ← decrypt_col ErrEnc blob;
    mret (salt, blob)
  end.

(** ** Accounts *)
Definition user_address (name : string) : string := "@" +:+ name +:+ ":" +:+ domain.

(** [sha256(tok)], encrypted, is stored beside the token's [jti]; a failing
    insert is ignored. *)
Definition store_token (rand : slot → option string) (user dev : Z) (tok : string)
    (jti now : Z) : M DB err unit :=
  th ← encrypt_col ErrTokenEnc (rand SToken) (sha256 tok);
  _ ← exec (insert_token user dev th jti now);
  mret tt.

(** [salt] is bcrypt's, [jti] the fresh [uuid.New()]. *)
Definition register_tx (rand : slot → option string) (i : RegisterInput) (salt : string)
    (now : Z) : M DB err Z :=
  hash ← of_result match bcrypt_hash salt i.(Password) with
                   | None => Err ErrHash
                   | Some h => Ok h
                   end;
  ph ← encrypt_col ErrEnc (rand SPassword) hash;
  uid ← or_raise ErrDb (stmt (insert_user i.(Username) ph));
  ikey ← encrypt_col ErrEnc (rand SIdentity) i.(IdentityKey);
  spk ← encrypt_col ErrEnc (rand SSigned) i.(SignedPrekey);
  spkSig ← encrypt_col ErrEnc (rand SSig) i.(SignedPrekeySig);
  _ ← or_raise ErrDb (exec (insert_device i.(DeviceID) uid ikey spk spkSig
                              i.(SignedPrekeyID) now));
  _ ← (if Keydir.MaxOneTimePrekeysPerDevice <? length i.(OneTimePrekeys)
       then raise ErrTooManyPrekeys
       else for_each (λ ip : nat * Keydir.PrekeyItem,
              pk ← encrypt_col ErrEnc (rand (SPrekey ip.1)) ip.2.(Keydir.Key);
              or_raise ErrDb (exec (insert_prekey i.(DeviceID) ip.2.(Keydir.KeyID) pk)))
              (imap pair i.(OneTimePrekeys)));
  mret uid.

Definition Register (rand : slot → option string) (i : RegisterInput) (salt : string)
    (jti now : Z) : M DB err (string * Z * string) :=
  taken ← or_raise ErrDb (query (username_taken domain i.(Username)));
  if (taken : bool) then raise ErrUsernameTaken
  else
    uid ← with_tx ErrDb (λ _, Err ErrDb) (register_tx rand i salt now);
    _ ← (if (0 <? slen i.(KeysBackupSalt)) && (0 <? slen i.(KeysBackupBlob))
         then (_ ← attempt (E' := err) (StoreKeyBackup rand uid i.(KeysBackupSalt) i.(KeysBackupBlob));
               mret tt)
         else mret tt);
    tj ← of_result (issueToken uid i.(DeviceID) jti now);
    _ ← store_token rand uid i.(DeviceID) tj.1 tj.2 now;
    mret (user_address i.(Username), i.(DeviceID), tj.1).

(** The keys a new device starts with: its own, or with
    [RequestKeysRestore] those of another device of the user. *)
Definition login_keys (rand : slot → option string) (i : LoginInput) (uid : Z)
  : M DB err (string * string * string * Z) :=
  if 0 <? slen i.(LIdentityKey) then
    ik ← encrypt_col ErrEnc (rand SIdentity) i.(LIdentityKey);
    spk ← encrypt_col ErrEnc (rand SSigned) i.(LSignedPrekey);
    sig ← encrypt_col ErrEnc (rand SSig) i.(LSignedPrekeySig);
    mret (ik, spk, sig, i.(LSignedPrekeyID))
  else if i.(LRequestKeysRestore) then
    row ← query (λ d, first_row (select_rows (λ _ r, bool_decide (r.(d_user) = uid)) d.(devices)));
    match row with
    | Some (Some (_, r)) =>
      mret (r.(d_identity_key), r.(d_signed_prekey), r.(d_signed_prekey_sig),
            r.(d_signed_prekey_id))
    | _ => mret ("", "", "", i.(LSignedPrekeyID))
    end
  else mret ("", "", "", i.(LSignedPrekeyID)).

Definition add_device (rand : slot → option string) (i : LoginInput) (uid now : Z)
  : M DB err unit :=
  '(ik, spk, sig, spkid) ← login_keys rand i uid;
  if slen ik =? 0 then raise ErrDeviceKeysRequired
  else
    _ ← or_raise ErrDb (exec (insert_device i.(LDeviceID) uid ik spk sig spkid now));
    if Keydir.MaxOneTimePrekeysPerDevice <? length i.(LOneTimePrekeys)
    then raise ErrTooManyPrekeys
    else for_each (λ ip : nat * Keydir.PrekeyItem,
           pk ← encrypt_col ErrEnc (rand (SPrekey ip.1)) ip.2.(Keydir.Key);
           _ ← exec (insert_prekey i.(LDeviceID) ip.2.(Keydir.KeyID) pk);
           mret tt)
           (imap pair i.(LOneTimePrekeys)).

(** An empty stored hash admits the empty password only. *)
Definition password_ok (hash pw : string) : bool :=
  if 0 <? slen hash then bcrypt_compare hash pw else bool_decide (pw = "").

Definition Login (rand : slot → option string) (i : LoginInput) (jti now : Z)
  : M DB err LoginResult :=
  row ← or_raise ErrDb (query (λ d, first_row (select_rows (λ _ u,
    bool_decide (u.(u_username) = i.(LUsername)) && bool_decide (u.(u_domain) = domain))
    d.(users))));
  match row with
  | None => raise ErrInvalidCredentials
  | Some (uid, u) =>
    hash ← decrypt_col (λ _, ErrInvalidCredentials) (default "" u.(u_password));
    if negb (password_ok hash i.(LPassword)) then raise ErrInvalidCredentials
    else
      ex ← or_raise ErrDb (query (λ d, exists_row (owned uid i.(LDeviceID)) d.(devices)));
      _ ← (if (ex : bool) then mret tt else add_device rand i uid now);
      tj ← of_result (issueToken uid i.(LDeviceID) jti now);
      _ ← store_token rand uid i.(LDeviceID) tj.1 tj.2 now;
      backup ← (if i.(LRequestKeysRestore)
                then (b ← attempt (GetKeyBackup uid);
                      mret match b with Ok sb => Some sb | Err _ => None end)
                else mret None);
      mret (mkLoginResult (user_address i.(LUsername)) i.(LDeviceID) tj.1 backup)
  end.

Definition GetUsername (user : Z) : M DB err string :=
  row ← or_raise ErrDb (query (λ d, d.(users) !! user));
  match row with
  | Some u => if bool_decide (u.(u_domain) = domain) then mret u.(u_username)
              else raise ErrNoRows
  | None => raise ErrNoRows
  end.

(** ** Devices *)
Definition ListDevices (user current : Z) : M DB err (list DeviceInfo) :=
  rows ← or_raise ErrDb (query (λ d, merge_sort created_desc
    (select_rows (λ _ r, bool_decide (r.(d_user) = user)) d.(devices))));
  mret ((λ kr : Z * device_row, mkDeviceInfo (uuid_string kr.1) (default "" kr.2.(d_name))
            kr.2.(d_created_at) (bool_decide (kr.1 = current))) <$> rows).

Definition RenameDevice (user dev : Z) (name : string) (now : Z) : M DB err unit :=
  or_raise ErrDb (exec (λ d, Some (rename_device user dev (sanitizeDeviceName name) now d))).

Definition RevokeDevice (user dev now : Z) : M DB err unit :=
  _ ← or_raise ErrDb (exec (λ d, Some (revoke_tokens
    (λ _ t, bool_decide (t.(t_user) = user) && bool_decide (t.(t_device) = dev)) now d)));
  or_raise ErrDb (exec (λ d, Some (delete_devices (owned user dev) d))).

Definition CleanupExpiredTokens (now : Z) : M DB err Z :=
  or_raise ErrDb (stmt (delete_stale_tokens now)).

(** ** Proxy sessions *)

(** [b] is what [rand.Read] puts in the 32-byte buffer. *)
Definition CreateProxySession (b : option string) (homeDomain homeToken userID deviceID : string)
    (expiresIn now : Z) : M DB err string :=
  match b with
  | None => raise ErrRand
  | Some b =>
    _ ← or_raise ErrDb (exec (insert_proxy (sha256 b)
          (ProxyRow homeDomain homeToken userID deviceID (now + expiresIn))));
    mret (hex_encode b)
  end.

Definition GetProxySessionByToken (now : Z) (token : string) : M DB err ProxySession :=
  match hex_decode token with
  | None => raise ErrInvalidToken
  | Some tokBytes =>
    if negb (slen tokBytes =? 32) then raise ErrInvalidToken
    else
      let h := sha256 tokBytes in
      row ← or_raise ErrDb (query (λ d, d.(proxies) !! h));
      match row with
      | None => raise ErrInvalidToken
      | Some px =>
        if bool_decide (px.(px_expires_at) < now)%Z then
          _ ← exec (λ d, Some (with_proxies (delete h d.(proxies)) d));
          raise ErrInvalidToken
        else mret (mkProxySession px.(px_home_domain) px.(px_home_token) px.(px_user_id)
                     px.(px_device_id))
      end
  end.

(** ** The service as a transition system *)
Inductive op :=
| OpRegister (rand : slot → option string) (i : RegisterInput) (salt : string) (jti now : Z)
| OpLogin (rand : slot → option string) (i : LoginInput) (jti now : Z)
| OpRevokeToken (now : Z) (tok : string)
| OpStoreKeyBackup (rand : slot → option string) (user : Z) (salt blob : string)
| OpRenameDevice (user dev : Z) (name : string) (now : Z)
| OpRevokeDevice (user dev now : Z)
| OpCleanup (now : Z)
| OpCreateProxy (b : option string) (hd ht u dev : string) (ttl now : Z)
| OpGetProxy (now : Z) (token : string).

Definition run_op (o : op) : M DB err unit :=
  match o with
  | OpRegister rand i salt jti t => Register rand i salt jti t ≫= λ _, mret tt
  | OpLogin rand i jti t => Login rand i jti t ≫= λ _, mret tt
  | OpRevokeToken t tok => RevokeToken t tok
  | OpStoreKeyBackup rand u salt blob => StoreKeyBackup rand u salt blob
  | OpRenameDevice u dev name t => RenameDevice u dev name t
  | OpRevokeDevice u dev t => RevokeDevice u dev t
  | OpCleanup t => CleanupExpiredTokens t ≫= λ _, mret tt
  | OpCreateProxy b hd ht u dev ttl t => CreateProxySession b hd ht u dev ttl t ≫= λ _, mret tt
  | OpGetProxy t token => GetProxySessionByToken t token ≫= λ _, mret tt
  end.

(** The token id an operation issues. *)
Definition op_jti (o : op) : option Z :=
  match o with
  | OpRegister _ _ _ jti _ | OpLogin _ _ jti _ => Some jti
  | _ => None
  end.

Definition owns (user dev : Z) (d : DB) : Prop :=
  ∃ r, d.(devices) !! dev = Some r ∧ r.(d_user) = user.

(** The changes a single statement of the service makes; a token is only
    ever stored for a device of its user. *)
Inductive sql (J : option Z) (d : DB) : DB → Prop :=
| sql_user name hash id d' : insert_user name hash d = Some (id, d') → sql J d d'
| sql_device dev user ik spk sig id t d' :
    insert_device dev user ik spk sig id t d = Some d' → sql J d d'
| sql_prekey dev k pk d' : insert_prekey dev k pk d = Some d' → sql J d d'
| sql_token user dev th jti t d' :
    J = Some jti → owns user dev d → insert_token user dev th jti t d = Some d' → sql J d d'
| sql_salt user v d' : upsert_salt user v d = Some d' → sql J d d'
| sql_backup user v d' : upsert_backup user v d = Some d' → sql J d d'
| sql_revoke P t : sql J d (revoke_tokens P t d)
| sql_rename user dev name t : sql J d (rename_device user dev name t d)
| sql_delete user dev : sql J d (delete_devices (owned user dev) d)
| sql_stale t n d' : delete_stale_tokens t d = Some (n, d') → sql J d d'
| sql_proxies v : sql J d (with_proxies v d).

(** Operations one after the other, each under its own fault schedule. *)
Inductive runs : list op → DB → DB → Prop :=
| runs_nil d : runs [] d d
| runs_cons o os F r d d1 d2 :
    Exec F (run_op o) d r d1 → runs os d1 d2 → runs (o :: os) d d2.

(** ** Invariant: names are unique, ids come from the sequence, every
    reference resolves, and a token belongs to the owner of its device *)
Definition users_unique (d : DB) : Prop :=
  ∀ i j u v, d.(users) !! i = Some u → d.(users) !! j = Some v →
    u.(u_domain) = v.(u_domain) → u.(u_username) = v.(u_username) → i = j.
Definition users_below (d : DB) : Prop :=
  ∀ i u, d.(users) !! i = Some u → (i < d.(users_seq))%Z.
Definition device_fk (d : DB) : Prop :=
  ∀ k r, d.(devices) !! k = Some r → is_Some (d.(users) !! r.(d_user)).
Definition prekey_fk (d : DB) : Prop :=
  ∀ k p, d.(prekeys) !! k = Some p → is_Some (d.(devices) !! k.1).
Definition token_owner (d : DB) : Prop :=
  ∀ j t, d.(tokens) !! j = Some t → owns t.(t_user) t.(t_device) d.
Definition backup_fk (d : DB) : Prop :=
  (∀ u s, d.(salts) !! u = Some s → is_Some (d.(users) !! u)) ∧
  (∀ u s, d.(backups) !! u = Some s → is_Some (d.(users) !! u)).

Definition auth_inv (d : DB) : Prop :=
  users_unique d ∧ users_below d ∧ device_fk d ∧ prekey_fk d ∧ token_owner d ∧ backup_fk d.

(** ** Lemmas: statements preserve the invariant *)
Lemma insert_user_inv name hash id d d' :
  insert_user name hash d = Some (id, d') →
  username_taken domain name d = false ∧ id = d.(users_seq) ∧ d.(users) !! id = None ∧
  d' = with_users_seq (id + 1) (with_users (<[id := UserRow name domain (Some hash)]> d.(users)) d).
Proof.
  unfold insert_user. destruct (username_taken _ _ _); [done|].
  destruct (users d !! users_seq d) eqn:?; [done|]. by intros [= <- <-].
Qed.

Lemma insert_device_inv dev user ik spk sig id t d d' :
  insert_device dev user ik spk sig id t d = Some d' →
  d.(devices) !! dev = None ∧ is_Some (d.(users) !! user) ∧
  d' = with_devices (<[dev := DeviceRow user ik spk sig id None t t]> d.(devices)) d.
Proof.
  unfold insert_device. destruct (devices d !! dev); [done|].
  destruct (users d !! user) eqn:?; [|done]. intros [= <-]. by eauto.
Qed.

Lemma insert_prekey_inv dev k pk d d' :
  insert_prekey dev k pk d = Some d' →
  d.(prekeys) !! (dev, k) = None ∧ is_Some (d.(devices) !! dev) ∧
  d' = with_prekeys (<[(dev, k) := PrekeyRow pk None]> d.(prekeys)) d.
Proof.
  unfold insert_prekey. destruct (prekeys d !! (dev, k)); [done|].
  destruct (devices d !! dev) eqn:?; [|done]. intros [= <-]. by eauto.
Qed.

Lemma insert_token_inv user dev th jti t d d' :
  insert_token user dev th jti t d = Some d' →
  d.(tokens) !! jti = None ∧
  d' = with_tokens (<[jti := TokenRow user dev th (t + 24 * hour) None]> d.(tokens)) d.
Proof.
  unfold insert_token. destruct (tokens d !! jti); [done|].
  destruct (users d !! user); [|done]. destruct (devices d !! dev); [|done].
  by intros [= <-].
Qed.

Lemma upsert_salt_inv user v d d' :
  upsert_salt user v d = Some d' →
  is_Some (d.(users) !! user) ∧ d' = with_salts (<[user := v]> d.(salts)) d.
Proof. unfold upsert_salt. destruct (users d !! user); [|done]. intros [= <-]. by eauto. Qed.

Lemma upsert_backup_inv user v d d' :
  upsert_backup user v d = Some d' →
  is_Some (d.(users) !! user) ∧ d' = with_backups (<[user := v]> d.(backups)) d.
Proof. unfold upsert_backup. destruct (users d !! user); [|done]. intros [= <-]. by eauto. Qed.

Lemma username_taken_false dom name d i u :
  username_taken dom name d = false → d.(users) !! i = Some u → u.(u_domain) = dom →
  u.(u_username) ≠ name.
Proof.
  intros Ht Hu Hd Hn. assert (username_taken dom name d = true) as Ht'; [|congruence].
  apply exists_row_true. exists i, u. split; [done|].
  by rewrite !bool_decide_eq_true_2.
Qed.

Lemma owns_insert_device user dev dev' r d :
  d.(devices) !! dev' = None → owns user dev d →
  owns user dev (with_devices (<[dev' := r]> d.(devices)) d).
Proof.
  intros Hn (r0 & Hr & Ho). exists r0. split; [|done]. simpl.
  rewrite lookup_insert_ne; [done|]. intros ->. congruence.
Qed.

Lemma owns_update_devices user dev P f d :
  (∀ r, (f r).(d_user) = r.(d_user)) → owns user dev d →
  owns user dev (with_devices (update_where P f d.(devices)) d).
Proof.
  intros Hf (r & Hr & Ho). exists (if P dev r then f r else r). simpl.
  rewrite lookup_update_where, Hr. split; [done|]. case_match; [by rewrite Hf|done].
Qed.

Lemma is_Some_insert_keep {K A} `{Countable K} (m : gmap K A) i j x :
  is_Some (m !! i) → is_Some (<[j := x]> m !! i).
Proof. rewrite lookup_insert_is_Some'. by right. Qed.

(** One lemma for each kind of statement that is more than one new row. *)
Lemma auth_inv_insert_user name hash d id d' :
  auth_inv d → insert_user name hash d = Some (id, d') → auth_inv d'.
Proof.
  intros (Hu & Hb & Hd & Hp & Ht & Hs & Hbk) (Hfree & -> & Hn & ->)%insert_user_inv.
  repeat split; unfold users_unique, users_below, device_fk, prekey_fk, token_owner, owns;
    simpl; eauto using is_Some_insert_keep.
  - intros i j u v. rewrite !lookup_insert. repeat case_decide; subst; intros; simplify_eq/=; try done; eauto;
      by edestruct username_taken_false.
  - intros i u. rewrite lookup_insert. case_decide; subst; [lia|]. intros Hi%Hb. lia.
Qed.

Lemma auth_inv_insert_device dev user ik spk sig id t d d' :
  auth_inv d → insert_device dev user ik spk sig id t d = Some d' → auth_inv d'.
Proof.
  intros (Hu & Hb & Hd & Hp & Ht & Hs & Hbk) (Hn & Huser & ->)%insert_device_inv. split_and!; try done.
  - intros k r. simpl. rewrite lookup_insert. case_decide; [by intros; simplify_eq|apply Hd].
  - intros k p Hk. simpl. by eapply is_Some_insert_keep, Hp.
  - intros j t' Hj. apply owns_insert_device; [done|by eapply Ht].
Qed.

Lemma auth_inv_rename user dev name t d : auth_inv d → auth_inv (rename_device user dev name t d).
Proof.
  intros (Hu & Hb & Hd & Hp & Ht & Hs & Hbk). split_and!; try done.
  - intros k r. simpl. rewrite lookup_update_where. intros (r0 & Hk & ->)%fmap_Some. case_match; exact (Hd k r0 Hk).
  - intros k p Hk. simpl. rewrite lookup_update_where. by eapply fmap_is_Some, Hp.
  - intros j t' Hj. apply owns_update_devices; [done|by eapply Ht].
Qed.

Lemma auth_inv_delete P d : auth_inv d → auth_inv (delete_devices P d).
Proof.
  intros (Hu & Hb & Hd & Hp & Ht & Hs & Hbk). split_and!; try done.
  - intros k r. simpl. rewrite lookup_delete_where. destruct (devices d !! k) eqn:Hk; [|done]. simpl.
    case_match; [done|]. intros [= <-]. by eapply Hd.
  - intros k p. simpl. rewrite lookup_delete_where. destruct (prekeys d !! k) eqn:Hk; [|done].
    destruct (Hp _ _ Hk) as [r Hr]. simpl. rewrite Hr, lookup_delete_where, Hr. simpl. by case_match.
  - intros j t'. simpl. rewrite lookup_delete_where. destruct (tokens d !! j) as [t0|] eqn:Hj; [|done]. simpl.
    destruct (Ht _ _ Hj) as (r & Hr & Ho). rewrite Hr. case_match; [done|]. intros [= <-].
    exists r. split; [|done]. simpl. rewrite lookup_delete_where, Hr. simpl. by case_match.
Qed.

Lemma sql_inv J d d' : auth_inv d → sql J d d' → auth_inv d'.
Proof.
  intros Hi. pose proof Hi as (Hu & Hb & Hd & Hp & Ht & Hs & Hbk).
  assert (∀ tbl : gmap Z string, (∀ u s, tbl !! u = Some s → is_Some (d.(users) !! u)) →
    ∀ user v, is_Some (d.(users) !! user) →
    ∀ u s, <[user := v]> tbl !! u = Some s → is_Some (d.(users) !! u)) as Hins.
  { intros tbl Htbl user v Huser u s. rewrite lookup_insert. case_decide; [by subst|apply Htbl]. }
  destruct 1 as [name hash id d' H'|dev user ik spk sig id t d' H'|dev k pk d' H'
    |user dev th jti t d' _ Ho H'|user v d' H'|user v d' H'|P t|user dev name t|user dev
    |t n d' H'|v].
  - by eapply auth_inv_insert_user.
  - by eapply auth_inv_insert_device.
  - apply insert_prekey_inv in H' as (Hn & Hdev & ->). split_and!; try done.
    intros k' p. simpl. rewrite lookup_insert. case_decide; [by subst|apply Hp].
  - apply insert_token_inv in H' as (Hn & ->). split_and!; try done.
    intros j t'. simpl. rewrite lookup_insert. case_decide; [by intros; simplify_eq|apply Ht].
  - apply upsert_salt_inv in H' as (Hn & ->). split_and!; try done. split; simpl; [by apply Hins|done].
  - apply upsert_backup_inv in H' as (Hn & ->). split_and!; try done. split; simpl; [done|by apply Hins].
  - split_and!; try done. intros j t'. simpl. rewrite lookup_update_where.
    intros (t0 & Hj & ->)%fmap_Some. case_match; exact (Ht j t0 Hj).
  - by apply auth_inv_rename.
  - by apply auth_inv_delete.
  - injection H' as _ <-. split_and!; try done. intros j t'. simpl.
    rewrite lookup_delete_where. destruct (tokens d !! j) eqn:Hj; [|done]. simpl.
    case_match; [done|]. intros [= <-]. by eapply Ht.
  - by split_and!.
Qed.

(** ** Lemmas: the methods are sequences of these statements *)
Definition reaches (J : option Z) (d0 d : DB) : Prop := rtc (sql J) d0 d.

Lemma reaches_step J d0 d d' : reaches J d0 d → sql J d d' → reaches J d0 d'.
Proof. apply rtc_r. Qed.

Lemma keeps_encrypt_col I wrap r v : keeps I (encrypt_col wrap r v).
Proof. unfold encrypt_col. keeps_go. Qed.
Lemma keeps_decrypt_col I wrap v : keeps I (decrypt_col wrap v).
Proof. unfold decrypt_col. keeps_go. Qed.
#[local] Hint Resolve keeps_encrypt_col keeps_decrypt_col : wp_db.

Lemma keeps_ValidateToken I t tok : keeps I (ValidateToken t tok).
Proof. unfold ValidateToken. keeps_go. Qed.
Lemma keeps_GetKeyBackup I u : keeps I (GetKeyBackup u).
Proof. unfold GetKeyBackup. keeps_go. Qed.
#[local] Hint Resolve keeps_ValidateToken keeps_GetKeyBackup : wp_db.

#[local] Hint Constructors sql : core.

Lemma keeps_StoreKeyBackup J d0 rand u salt blob :
  keeps (reaches J d0) (StoreKeyBackup rand u salt blob).
Proof. unfold StoreKeyBackup. keeps_go; eauto using reaches_step. Qed.

Lemma keeps_register_tx J d0 rand i salt t :
  keeps (reaches J d0) (register_tx rand i salt t).
Proof. unfold register_tx. keeps_go; eauto using reaches_step. Qed.

(** [col v w]: the column value [w] holds [v]. *)
Definition col (v w : string) : Prop := ∃ r, Dbenc.Encrypt enc r v = Ok w.

Lemma wp_seal_col F wrap r v (Q : result err string → DB → Prop) d :
  (∀ w, Dbenc.Encrypt enc r v = Ok w → Q (Ok w) d) → (∀ e, Q (Err (wrap e)) d) →
  wp F (encrypt_col wrap r v) Q d.
Proof.
  intros H1' H2'. unfold encrypt_col. destruct enc as [k|]; [|by apply wp_ret, H1'].
  apply wp_of_result. destruct (Dbenc.Encrypt (Some k) r v) eqn:?; auto.
Qed.

Lemma wp_open_col F wrap v (Q : result err string → DB → Prop) d :
  (∀ w, Dbenc.Decrypt enc v = Ok w → Q (Ok w) d) → (∀ e, Q (Err (wrap e)) d) →
  wp F (decrypt_col wrap v) Q d.
Proof.
  intros H1' H2'. unfold decrypt_col. destruct enc as [k|]; [|by apply wp_ret, H1'].
  apply wp_of_result. destruct (Dbenc.Decrypt (Some k) v) eqn:?; auto.
Qed.

(** The account a registration creates, [uid] being its user id: the tables
    [users], [devices] and [prekeys] of [d'] are those of [d] and its rows. *)
Definition created (i : RegisterInput) (salt : string) (t : Z) (d : DB) (uid : Z) (d' : DB)
  : Prop :=
  uid = d.(users_seq) ∧ d.(users) !! uid = None ∧ d.(devices) !! i.(DeviceID) = None ∧
  (∃ h ph, bcrypt_hash salt i.(Password) = Some h ∧ col h ph ∧
     d'.(users) = <[uid := UserRow i.(Username) domain (Some ph)]> d.(users)) ∧
  (∃ ik spk sg, col i.(IdentityKey) ik ∧ col i.(SignedPrekey) spk ∧
     col i.(SignedPrekeySig) sg ∧
     d'.(devices) = <[i.(DeviceID) :=
       DeviceRow uid ik spk sg i.(SignedPrekeyID) None t t]> d.(devices)) ∧
  length i.(OneTimePrekeys) ≤ Keydir.MaxOneTimePrekeysPerDevice ∧
  (∀ it, it ∈ i.(OneTimePrekeys) → ∃ pk, col it.(Keydir.Key) pk ∧
     d'.(prekeys) !! (i.(DeviceID), it.(Keydir.KeyID)) = Some (PrekeyRow pk None)) ∧
  (∀ k, k.1 ≠ i.(DeviceID) → d'.(prekeys) !! k = d.(prekeys) !! k).

Lemma created_owns i salt t d uid d' : created i salt t d uid d' → owns uid i.(DeviceID) d'.
Proof.
  intros (_ & _ & _ & _ & (ik & spk & sg & _ & _ & _ & Hd) & _).
  eexists. rewrite Hd, lookup_insert_eq. by split.
Qed.

(** The loop that uploads the first prekeys. *)
Lemma wp_insert_prekeys F (slot_of : nat → option string) dev otks d0
    (Q : result err unit → DB → Prop) d :
  d.(prekeys) = d0.(prekeys) → (∀ e d', Q (Err e) d') →
  (∀ pks, (∀ it, it ∈ otks → ∃ pk, col it.(Keydir.Key) pk ∧
             pks !! (dev, it.(Keydir.KeyID)) = Some (PrekeyRow pk None)) →
          (∀ k, k.1 ≠ dev → pks !! k = d0.(prekeys) !! k) →
          Q (Ok tt) (with_prekeys pks d)) →
  wp F (for_each (λ ip : nat * Keydir.PrekeyItem,
              pk ← encrypt_col ErrEnc (slot_of ip.1) ip.2.(Keydir.Key);
              or_raise ErrDb (exec (insert_prekey dev ip.2.(Keydir.KeyID) pk)))
              (imap pair otks)) Q d.
Proof.
  intros Hd He Hok.
  apply wp_for_each_rest with (I := λ rest d', ∃ pks, d' = with_prekeys pks d ∧
    (∀ k, k.1 ≠ dev → pks !! k = d0.(prekeys) !! k) ∧
    ∀ n it, (n, it) ∈ imap pair otks → (n, it) ∈ rest ∨ ∃ pk, col it.(Keydir.Key) pk ∧
      pks !! (dev, it.(Keydir.KeyID)) = Some (PrekeyRow pk None)).
  - exists (prekeys d). split; [by destruct d|]. split; [by rewrite Hd|]. by left.
  - intros [n it] rest d' _ (pks & -> & Hoth & Hin). apply wp_bind, wp_seal_col; [|by auto].
    intros w Hw. apply wp_or_raise, wp_exec; [by auto|]. intros d' Hins.
    apply insert_prekey_inv in Hins as (Hn & _ & ->). simpl in *.
    eexists. split; [done|]. split.
    + intros k Hk. rewrite lookup_insert_ne; [by apply Hoth|]. by intros <-.
    + intros m it' Hm.
      destruct (Hin m it' Hm) as [[?|?]%elem_of_cons|(pk & Hc & Hl)]; simplify_eq; [|by left|].
      * right. exists w. rewrite lookup_insert_eq. split; [by eexists|done].
      * right. exists pk. split; [done|]. rewrite lookup_insert_ne; [done|]. intros Heq.
        rewrite Heq in Hn. congruence.
  - intros d' (pks & -> & Hoth & Hin). apply Hok; [|done]. intros it Hit.
    apply list_elem_of_lookup in Hit as [n Hn].
    destruct (Hin n it) as [?|?]; [|set_solver|done].
    apply elem_of_lookup_imap. by exists n, it.
Qed.

Lemma wp_register_tx F rand i salt t (Q : result err Z → DB → Prop) d :
  (∀ e d', Q (Err e) d') →
  (∀ uid d', created i salt t d uid d' → d'.(tokens) = d.(tokens) →
     username_taken domain i.(Username) d = false → Q (Ok uid) d') →
  wp F (register_tx rand i salt t) Q d.
Proof.
  intros He Hok. unfold register_tx. apply wp_bind, wp_of_result.
  destruct (bcrypt_hash salt (Password i)) as [h|] eqn:Hh; [|by apply He].
  apply wp_bind, wp_seal_col; [|by auto]. intros ph Hph.
  apply wp_bind, wp_or_raise, wp_stmt; [by auto|]. intros uid d1 Hu.
  apply insert_user_inv in Hu as (Hfree & -> & Hnone & ->).
  apply wp_bind, wp_seal_col; [|by auto]. intros ik Hik.
  apply wp_bind, wp_seal_col; [|by auto]. intros spk Hspk.
  apply wp_bind, wp_seal_col; [|by auto]. intros sg Hsg.
  apply wp_bind, wp_or_raise, wp_exec; [by auto|]. intros d2 Hdev.
  apply insert_device_inv in Hdev as (Hdn & _ & ->). simpl in Hdn.
  apply wp_bind. destruct (_ <? _) eqn:Hlen; [by apply wp_raise|].
  apply Nat.ltb_ge in Hlen.
  apply (wp_insert_prekeys _ (λ n, rand (SPrekey n)) _ _ d); [done|by auto|].
  intros pks Hpk Hoth. apply wp_ret, Hok; [|done|done].
  unfold created, col. simpl. split_and!; eauto 10.
Qed.

(** What remains of a registration after its transaction. *)
Lemma keeps_created_backup i salt t d uid rand u sa bl :
  keeps (λ d', created i salt t d uid d' ∧ d'.(tokens) = d.(tokens))
    (StoreKeyBackup rand u sa bl).
Proof.
  unfold StoreKeyBackup. keeps_go.
  - by apply upsert_salt_inv in Hf as (_ & ->).
  - by apply upsert_backup_inv in Hf as (_ & ->).
Qed.

Lemma wp_store_token F rand user dev tok jti t (Q : result err unit → DB → Prop) d :
  (∀ e, Q (Err e) d) →
  (faulty F ∨ insert_token user dev "" jti t d = None → Q (Ok tt) d) →
  (∀ th d', insert_token user dev th jti t d = Some d' → Q (Ok tt) d') →
  wp F (store_token rand user dev tok jti t) Q d.
Proof.
  intros He Hf Hok. unfold store_token. apply wp_bind, wp_seal_col; [|by auto].
  intros th _. apply wp_bind, wp_exec_full.
  - intros Hn. apply wp_ret, Hf. destruct Hn as [?|Hn]; [by left|right].
    unfold insert_token in *. by repeat case_match.
  - intros d' Hd'. by eapply wp_ret, Hok.
Qed.

(** Outcome of a registration. *)
Definition register_post (F : nat → bool) (i : RegisterInput) (salt : string) (jti t : Z)
    (d : DB) (r : result err (string * Z * string)) (d' : DB) : Prop :=
  match r with
  | Err _ => d' = d ∨ ∃ uid, created i salt t d uid d'
  | Ok (ua, dev, tok) => ∃ uid,
      ua = user_address i.(Username) ∧ dev = i.(DeviceID) ∧ created i salt t d uid d' ∧
      username_taken domain i.(Username) d = false ∧
      jwt_sign jwt_key (access_claims uid i.(DeviceID) jti t) = Some tok ∧
      (¬ faulty F → d.(tokens) !! jti = None →
       ∃ th, d'.(tokens) !! jti = Some (TokenRow uid i.(DeviceID) th (t + 24 * hour) None))
  end.

Lemma wp_Register F rand i salt jti t d :
  wp F (Register rand i salt jti t) (register_post F i salt jti t d) d.
Proof.
  unfold Register. apply wp_bind, wp_or_raise, wp_query; [by left|]. cbn beta iota.
  destruct (username_taken domain (Username i) d) eqn:Htaken; [apply wp_raise; by left|].
  apply wp_bind, wp_with_tx; [by left|]. apply wp_register_tx; [by left|].
  intros uid d1 Hc Htok _. split; [|by left].
  apply wp_bind. eapply wp_mono with
    (Q := λ _ d', created i salt t d uid d' ∧ d'.(tokens) = d.(tokens)).
  { destruct (_ && _); [|by apply wp_ret]. apply wp_bind, wp_attempt.
    eapply wp_mono; [by apply keeps_created_backup|]. intros. by apply wp_ret. }
  intros [[]|e] d2 [Hc2 Htok2]; [|right; by eexists].
  apply wp_bind, wp_of_result. unfold issueToken.
  destruct (jwt_sign _ _) as [tok|] eqn:Hs; [|right; by eexists]. cbn [fst snd].
  apply wp_bind, wp_store_token.
  - right; by eexists.
  - intros Hn. apply wp_ret. exists uid. split_and!; try done. intros HF Hj.
    destruct Hn as [?|Hn]; [done|]. unfold insert_token in Hn.
    destruct Hc2 as (_ & _ & _ & (? & ? & _ & _ & Hu) & (? & ? & ? & _ & _ & _ & Hd) & _).
    rewrite Htok2, Hj, Hu, Hd, !lookup_insert_eq in Hn. done.
  - intros th d3 Hins. apply insert_token_inv in Hins as (Hj & ->). apply wp_ret.
    exists uid. split_and!; try done. intros _ _. exists th. simpl. by rewrite lookup_insert_eq.
Qed.

(** ** Lemmas: tokens *)

(** A token of this service and its identity, within the ranges in which
    the JSON encoding is exact. *)
Definition issued (user dev jti t : Z) (tok : string) : Prop :=
  jwt_sign jwt_key (access_claims user dev jti t) = Some tok ∧
  (0 ≤ user ≤ 2 ^ 53)%Z ∧ (0 ≤ dev < 2 ^ 128)%Z ∧ (0 ≤ jti < 2 ^ 128)%Z ∧
  (0 ≤ unix (t + tokenExpiryHours * hour) ≤ 2 ^ 53)%Z.

(** Access tokens expire 24 hours after issue, to the second. *)
Definition unexpired (t now : Z) : Prop :=
  (now < unix (t + tokenExpiryHours * hour) * second)%Z.

#[local] Instance unexpired_dec t now : Decision (unexpired t now).
Proof. unfold unexpired. apply _. Defined.

Ltac claims := repeat (rewrite lookup_fmap || rewrite lookup_insert_eq
  || rewrite lookup_insert_ne by done || rewrite lookup_singleton_eq || rewrite lookup_empty
  || rewrite lookup_singleton_ne by done).

Lemma access_claims_read user dev jti t :
  let c := json_claim <$> access_claims user dev jti t in
  claim_str "jti" c = uuid_string jti ∧ claim_str "typ" c = "access" ∧
  claim_str "iss" c = domain ∧ claim_str "aud" c = tokenAudience ∧
  claim_str "device_id" c = uuid_string dev ∧ claim_num "user_id" c = f64_round user ∧
  c !! "exp" = Some (CNum (f64_round (unix (t + tokenExpiryHours * hour)))).
Proof. unfold access_claims, claim_str, claim_num. split_and!; by claims. Qed.

Lemma parse_issued `{!JwtLaws} user dev jti t tok now :
  issued user dev jti t tok →
  jwt_parse jwt_key now tok =
    if bool_decide (unexpired t now) then Some (json_claim <$> access_claims user dev jti t)
    else None.
Proof.
  intros (Hs & _ & _ & _ & He). rewrite (jwt_parse_sign _ _ _ _ Hs). unfold exp_ok.
  destruct (access_claims_read user dev jti t) as (_ & _ & _ & _ & _ & _ & ->).
  rewrite f64_round_exact by lia. done.
Qed.

(** *** Who a bearer token stands for *)
Definition accepts_token (now : Z) (tok : string) (d : DB) (user dev : Z) : Prop :=
  ∃ claims jti, jwt_parse jwt_key now tok = Some claims ∧
    uuid_parse (claim_str "jti" claims) = Some jti ∧ live_token jti now d = true ∧
    (claim_str "typ" claims = "" ∨ claim_str "typ" claims = "access") ∧
    iss_aud_ok claims = true ∧ token_identity claims = (user, dev).

Definition accepts_proxy (now : Z) (token : string) (d : DB) (ps : ProxySession) : Prop :=
  ∃ bytes px, hex_decode token = Some bytes ∧ slen bytes = 32 ∧
    d.(proxies) !! sha256 bytes = Some px ∧ (now ≤ px.(px_expires_at))%Z ∧
    ps = mkProxySession px.(px_home_domain) px.(px_home_token) px.(px_user_id) px.(px_device_id).

(** An expired proxy session is forgotten when it is looked up. *)
Definition forgets_expired (now : Z) (d d' : DB) : Prop :=
  d' = d ∨ ∃ h px, d.(proxies) !! h = Some px ∧ (px.(px_expires_at) < now)%Z ∧
                   d' = with_proxies (delete h d.(proxies)) d.

Lemma wp_ValidateToken F now tok (Q : result err (Z * Z) → DB → Prop) d :
  (∀ user dev, accepts_token now tok d user dev → Q (Ok (user, dev)) d) →
  (∀ e, Q (Err e) d) → wp F (ValidateToken now tok) Q d.
Proof.
  intros Hok Herr. unfold ValidateToken.
  destruct (jwt_parse jwt_key now tok) as [claims|] eqn:Hp; [|by apply wp_raise].
  case_bool_decide; [by apply wp_raise|].
  destruct (uuid_parse _) as [jti|] eqn:Hj; [|by apply wp_raise].
  apply wp_bind, wp_query; [by apply wp_raise|].
  destruct (live_token jti now d) eqn:Hl; [|by apply wp_raise].
  destruct (negb _ && negb _) eqn:Ht; [by apply wp_raise|].
  destruct (iss_aud_ok claims) eqn:Hi; [|by apply wp_raise].
  destruct (token_identity claims) as [user dev] eqn:Hid. apply wp_ret, Hok.
  exists claims, jti. split_and!; try done. by apply guard_passed.
Qed.

Lemma wp_GetProxySession F now token (Q : result err ProxySession → DB → Prop) d :
  (∀ ps, accepts_proxy now token d ps → Q (Ok ps) d) →
  (∀ e d', forgets_expired now d d' → Q (Err e) d') → wp F (GetProxySessionByToken now token) Q d.
Proof.
  intros Hok Herr. assert (∀ e, Q (Err e) d) as Hsame by (intros; apply Herr; by left).
  unfold GetProxySessionByToken. destruct (hex_decode token) as [b|] eqn:Hb; [|by apply wp_raise].
  destruct (slen b =? 32) eqn:Hlen; [|by apply wp_raise]. apply Nat.eqb_eq in Hlen. cbn [negb].
  apply wp_bind, wp_or_raise, wp_query; [done|]. cbn beta iota.
  destruct (proxies d !! sha256 b) as [px|] eqn:Hpx; [|by apply wp_raise].
  case_bool_decide as Hx.
  - apply wp_bind, wp_exec_some; [intros _; by apply wp_raise|].
    apply wp_raise, Herr. right. by exists (sha256 b), px.
  - apply wp_ret, Hok. exists b, px. split_and!; try done. lia.
Qed.

Lemma wp_ValidateToken_issued `{!JwtLaws, !UuidLaws} F user dev jti t tok now
    (Q : result err (Z * Z) → DB → Prop) d :
  issued user dev jti t tok →
  (faulty F ∨ ¬ unexpired t now ∨ live_token jti now d = false → Q (Err ErrInvalidToken) d) →
  (unexpired t now → live_token jti now d = true → Q (Ok (user, dev)) d) →
  wp F (ValidateToken now tok) Q d.
Proof.
  intros Hi Herr Hok. unfold ValidateToken. rewrite (parse_issued _ _ _ _ _ _ Hi).
  case_bool_decide as Hx; [|apply wp_raise; auto].
  destruct (access_claims_read user dev jti t) as (Hj & Ht & Hiss & Haud & Hd & Hu & _).
  destruct Hi as (_ & Hur & Hdr & Hjr & _).
  rewrite Hj, (bool_decide_eq_false_2 _ (uuid_string_nonempty jti)).
  rewrite uuid_parse_string by done.
  apply wp_bind, wp_query_fault; [intros; apply wp_raise; auto|].
  destruct (live_token jti now d) eqn:Hl; [|apply wp_raise; auto].
  rewrite Ht. change (negb (bool_decide ("access" = "")) && negb (bool_decide ("access" = "access")))
    with false. cbn iota beta.
  assert (iss_aud_ok (json_claim <$> access_claims user dev jti t) = true) as ->.
  { unfold iss_aud_ok. rewrite Hiss, Haud. by rewrite (bool_decide_eq_true_2 (domain = domain)),
      andb_false_r. }
  apply wp_ret. unfold token_identity. rewrite Hu, Hd, f64_round_exact by lia.
  rewrite int64_of_f64_id by (apply bool_decide_eq_true; unfold two63; lia).
  erewrite uuid_parsed_parse by (by apply uuid_parse_string). auto.
Qed.

Definition dead (jti : Z) (d : DB) : Prop :=
  ∀ row, d.(tokens) !! jti = Some row → is_Some row.(t_revoked_at).

Lemma dead_not_live jti now d : dead jti d → live_token jti now d = false.
Proof.
  unfold dead, live_token, token_alive. intros Hd.
  destruct (tokens d !! jti) as [row|]; [|done]. destruct (Hd _ eq_refl) as [r ->].
  by rewrite bool_decide_eq_false_2.
Qed.

Lemma sql_dead J jti d d' : J ≠ Some jti → dead jti d → sql J d d' → dead jti d'.
Proof.
  intros HJ Hd Hs. unfold dead in *.
  destruct Hs as [name hash id d' H'|dev user ik spk sig id t d' H'|dev k pk d' H'
    |user dev th jti' t d' HJ' Ho H'|user v d' H'|user v d' H'|P t|user dev name t|user dev
    |t n d' H'|v].
  - by apply insert_user_inv in H' as (_ & _ & _ & ->).
  - by apply insert_device_inv in H' as (_ & _ & ->).
  - by apply insert_prekey_inv in H' as (_ & _ & ->).
  - apply insert_token_inv in H' as (_ & ->). simpl. intros row.
    rewrite lookup_insert_ne; [apply Hd|]. congruence.
  - by apply upsert_salt_inv in H' as (_ & ->).
  - by apply upsert_backup_inv in H' as (_ & ->).
  - intros row. simpl. rewrite lookup_update_where. intros (r0 & Hr & ->)%fmap_Some.
    case_match; [by eexists|by apply Hd].
  - done.
  - intros row. simpl. rewrite lookup_delete_where.
    destruct (tokens d !! jti) eqn:Hj; [|done]. simpl. case_match; [done|]. intros [= <-]. by apply Hd.
  - injection H' as _ <-. intros row. simpl. rewrite lookup_delete_where.
    destruct (tokens d !! jti) eqn:Hj; [|done]. simpl. case_match; [done|]. intros [= <-]. by apply Hd.
  - done.
Qed.

(** ** Lemmas: every operation is a sequence of statements *)
Lemma keeps_store_token J d0 rand u dev tok jti t :
  J = Some jti →
  keeps (λ d, reaches J d0 d ∧ owns u dev d) (store_token rand u dev tok jti t).
Proof.
  intros ->. unfold store_token. keeps_go. destruct HI as [Hr Ho]. split.
  - eapply reaches_step; [done|]. by eapply sql_token.
  - by apply insert_token_inv in Hf as (_ & ->).
Qed.

Lemma keeps_owned_backup J d0 rand u dev u' sa bl :
  keeps (λ d, reaches J d0 d ∧ owns u dev d) (StoreKeyBackup rand u' sa bl).
Proof.
  unfold StoreKeyBackup. keeps_go; destruct HI as [Hr Ho].
  - split; [eapply reaches_step; eauto|]. by apply upsert_salt_inv in Hf as (_ & ->).
  - split; [eapply reaches_step; eauto|]. by apply upsert_backup_inv in Hf as (_ & ->).
Qed.

Lemma wp_register_reaches F rand i salt jti t d0 d :
  reaches (Some jti) d0 d →
  wp F (Register rand i salt jti t) (λ _ d', reaches (Some jti) d0 d') d.
Proof.
  intros Hd. unfold Register. apply wp_bind, wp_or_raise, wp_query; [done|]. cbn beta iota.
  destruct (username_taken _ _ _); [by apply wp_raise|].
  apply wp_bind, wp_with_tx; [done|].
  eapply wp_mono; [apply wp_conj; [by apply (keeps_register_tx (Some jti) d0)|];
    apply (wp_register_tx _ _ _ _ _ (λ r d', ∀ uid, r = Ok uid → owns uid (DeviceID i) d'))|].
  { done. }
  { intros uid d' Hc _ _ uid' [= <-]. by eapply created_owns. }
  intros [uid|e] d1 [H1' H2']; [|done]. split; [|done].
  assert (reaches (Some jti) d0 d1 ∧ owns uid (DeviceID i) d1) as HI by auto.
  apply wp_bind. eapply wp_mono with
    (Q := λ _ d', reaches (Some jti) d0 d' ∧ owns uid (DeviceID i) d').
  { destruct (_ && _); [|by apply wp_ret]. apply wp_bind, wp_attempt.
    eapply wp_mono; [by apply keeps_owned_backup|]. intros. by apply wp_ret. }
  intros [[]|e] d2 [H3' H4']; [|done]. apply wp_bind, wp_of_result. unfold issueToken.
  destruct (jwt_sign _ _); [|done]. apply wp_bind.
  eapply wp_mono; [by apply keeps_store_token|]. intros [[]|e] d3 [? ?]; [by apply wp_ret|done].
Qed.

Lemma keeps_login_keys I rand i uid : keeps I (login_keys rand i uid).
Proof. unfold login_keys. keeps_go. Qed.

(** A device added at login belongs to the user. *)
Lemma wp_add_device F rand i uid t J d0 d :
  reaches J d0 d →
  wp F (add_device rand i uid t)
    (λ r d', reaches J d0 d' ∧ (r = Ok tt → owns uid (LDeviceID i) d')) d.
Proof.
  intros Hd. unfold add_device. apply wp_bind.
  eapply wp_mono; [by apply (keeps_login_keys (reaches J d0))|].
  intros [[[[ik spk] sg] spkid]|e] d1 H1'; [|done].
  destruct (slen ik =? 0); [by apply wp_raise|].
  apply wp_bind, wp_or_raise, wp_exec; [done|]. intros d2 Hins.
  assert (reaches J d0 d2 ∧ owns uid (LDeviceID i) d2) as [H2' H3'].
  { split; [eapply reaches_step; eauto|].
    apply insert_device_inv in Hins as (_ & _ & ->). eexists. simpl.
    by rewrite lookup_insert_eq. }
  destruct (_ <? _); [by apply wp_raise|].
  eapply wp_mono; [apply (keeps_for_each (λ d, reaches J d0 d ∧ owns uid (LDeviceID i) d));
                   [intros a; keeps_go|done]|].
  - destruct HI as [Hr Ho]. split; [eapply reaches_step; eauto|].
    by apply insert_prekey_inv in Hf as (_ & _ & ->).
  - by intros r d3 [? ?].
Qed.

(** A stored hash accepts a password; an empty one, of an account without a
    password, the empty password only. *)
Definition accepts_password (hash pw : string) : Prop :=
  hash ≠ "" ∧ bcrypt_compare hash pw = true ∨ hash = "" ∧ pw = "".

Lemma password_ok_true hash pw : password_ok hash pw = true → accepts_password hash pw.
Proof.
  unfold password_ok. destruct hash; simpl; [|by left; split].
  intros ->%bool_decide_eq_true. by right.
Qed.

(** What a login checks before it issues a token. *)
Definition credentials_ok (i : LoginInput) (d : DB) (uid : Z) : Prop :=
  ∃ u hash, d.(users) !! uid = Some u ∧ u.(u_username) = i.(LUsername) ∧
    u.(u_domain) = domain ∧ Dbenc.Decrypt enc (default "" u.(u_password)) = Ok hash ∧
    accepts_password hash i.(LPassword).

Lemma wp_Login F rand i jti t d0 d :
  reaches (Some jti) d0 d →
  wp F (Login rand i jti t) (λ r d', reaches (Some jti) d0 d' ∧
    ∀ res, r = Ok res → ∃ uid, credentials_ok i d uid ∧ owns uid i.(LDeviceID) d' ∧
      res.(LRUserID) = user_address i.(LUsername) ∧ res.(LRDeviceID) = i.(LDeviceID) ∧
      jwt_sign jwt_key (access_claims uid i.(LDeviceID) jti t) = Some res.(LRToken)) d.
Proof.
  intros Hd. unfold Login. apply wp_bind, wp_or_raise, wp_query; [done|]. cbn beta iota.
  destruct (first_row _) as [[uid u]|] eqn:Hrow; [|by apply wp_raise].
  apply first_row_select in Hrow as [Hu Hn]. apply andb_true_iff in Hn as [Hn Hdom].
  apply bool_decide_eq_true in Hn, Hdom.
  apply wp_bind, wp_open_col; [|done]. intros hash Hhash.
  destruct (password_ok hash (LPassword i)) eqn:Hpw; [|by apply wp_raise]. cbn [negb].
  apply password_ok_true in Hpw.
  assert (credentials_ok i d uid) as Hcred by (by exists u, hash).
  apply wp_bind, wp_or_raise, wp_query; [done|]. cbn beta iota.
  apply wp_bind. eapply wp_mono with (Q := λ r d', reaches (Some jti) d0 d' ∧
    (r = Ok tt → owns uid (LDeviceID i) d')).
  { destruct (exists_row _ _) eqn:Hex; [apply wp_ret|by apply wp_add_device].
    split; [done|]. intros _. apply exists_row_true in Hex as (k & r & Hk & Ho).
    apply andb_true_iff in Ho as [Ho1 Ho2]. apply bool_decide_eq_true in Ho1, Ho2. subst.
    by exists r. }
  intros [[]|e] d1 [H1' H2']; [|done].
  apply wp_bind, wp_of_result. unfold issueToken.
  destruct (jwt_sign _ _) as [tok|] eqn:Hs; [|done]. cbn [fst snd]. apply wp_bind.
  eapply wp_mono; [apply (keeps_store_token (Some jti) d0); [done|by auto]|].
  intros [[]|e] d3 [H3' H4']; [|done]. apply wp_bind.
  eapply wp_mono with (Q := λ r d', d' = d3).
  { destruct (LRequestKeysRestore i); [|by apply wp_ret].
    apply wp_bind, wp_attempt.
    eapply wp_mono; [by apply (keeps_GetKeyBackup (λ d, d = d3))|]. intros. by apply wp_ret. }
  intros [b|e] d4 ->; [|done]. apply wp_ret. split; [done|].
  intros res [= <-]. by exists uid.
Qed.

Lemma wp_reaches F o d0 d :
  reaches (op_jti o) d0 d → wp F (run_op o) (λ _ d', reaches (op_jti o) d0 d') d.
Proof.
  destruct o; simpl; intros Hd.
  - apply wp_bind. eapply wp_mono; [by apply wp_register_reaches|].
    intros [] ? ?; [by apply wp_ret|done].
  - apply wp_bind. eapply wp_mono; [by apply wp_Login|].
    intros [] ? [? _]; [by apply wp_ret|done].
  - revert F d Hd. change (keeps (reaches None d0) (RevokeToken now tok)).
    unfold RevokeToken. keeps_go. simplify_eq/=. eauto using reaches_step.
  - by apply keeps_StoreKeyBackup.
  - revert F d Hd. change (keeps (reaches None d0) (RenameDevice user dev name now)).
    unfold RenameDevice. keeps_go. simplify_eq/=. eauto using reaches_step.
  - revert F d Hd. change (keeps (reaches None d0) (RevokeDevice user dev now)).
    unfold RevokeDevice. keeps_go; simplify_eq/=; eauto using reaches_step.
  - revert F d Hd. change (keeps (reaches None d0) (CleanupExpiredTokens now ≫= λ _, mret tt)).
    unfold CleanupExpiredTokens. keeps_go. eauto using reaches_step.
  - revert F d Hd.
    change (keeps (reaches None d0) (CreateProxySession b hd ht u dev ttl now ≫= λ _, mret tt)).
    unfold CreateProxySession. keeps_go. unfold insert_proxy in Hf. case_match; simplify_eq/=.
    eauto using reaches_step.
  - revert F d Hd.
    change (keeps (reaches None d0) (GetProxySessionByToken now token ≫= λ _, mret tt)).
    unfold GetProxySessionByToken. keeps_go. simplify_eq/=. eauto using reaches_step.
Qed.

Lemma live_until_expiry jti now t user dev th d :
  d.(tokens) !! jti = Some (TokenRow user dev th (t + 24 * hour) None) →
  unexpired t now → live_token jti now d = true.
Proof.
  intros Hj Hx. unfold live_token, token_alive. rewrite Hj. simpl.
  apply bool_decide_eq_true_2. unfold unexpired, unix, tokenExpiryHours, hour, second in *.
  pose proof (Z.mul_div_le (t + 24 * (3600 * 1000000000)) 1000000000). lia.
Qed.

(** [RevokeToken] marks the row of the token. *)
Lemma wp_RevokeToken_issued `{!JwtLaws, !UuidLaws} F user dev jti t tok now d :
  issued user dev jti t tok →
  (∀ row, d.(tokens) !! jti = Some row → row.(t_user) = user) →
  wp F (RevokeToken now tok) (λ r d', r = Ok tt → dead jti d') d.
Proof.
  intros Hi Hrow. unfold RevokeToken. apply wp_bind.
  eapply wp_ValidateToken_issued; [done|done|]. intros Hx _.
  rewrite (parse_issued _ _ _ _ _ _ Hi), bool_decide_eq_true_2 by done.
  destruct (access_claims_read user dev jti t) as (Hj & _).
  rewrite Hj, (bool_decide_eq_false_2 _ (uuid_string_nonempty jti)).
  destruct Hi as (_ & _ & _ & Hjr & _). rewrite uuid_parse_string by done.
  apply wp_or_raise, wp_exec_some; [done|]. intros _ row. simpl.
  rewrite lookup_update_where. intros (row0 & Hr0 & ->)%fmap_Some.
  rewrite (Hrow _ Hr0). rewrite !(bool_decide_eq_true_2 (_ = _)) by done. simpl.
  case_bool_decide; [by eexists|]. by destruct (t_revoked_at row0); [eexists|].
Qed.

Lemma reaches_dead J jti d d' : J ≠ Some jti → dead jti d → reaches J d d' → dead jti d'.
Proof. intros HJ Hd. induction 1; [done|]. eauto using sql_dead. Qed.

(** ** Properties *)

(** C18: what a registration does under every fault schedule.  An error
    leaves the database as it was, or with the complete account (the token
    is issued after the commit); success means that the name was free, that
    the account, its device and all its prekeys are stored under the
    password, and that the answer is the address and a signed access token;
    without faults the token's row is stored too. *)
Theorem Register_outcome F rand i salt jti t d r d' :
  Exec F (Register rand i salt jti t) d r d' → register_post F i salt jti t d r d'.
Proof. apply (wp_Exec _ _ (register_post F i salt jti t d)), wp_Register. Qed.

(** A registered user can use the token: after a registration without
    faults, validation accepts it for 24 hours (to the second) and returns
    the new user and the device. *)
Theorem Register_then_validate `{!JwtLaws, !UuidLaws} rand i salt jti t now d ua dev tok d' :
  run (Register rand i salt jti t) d = (Ok (ua, dev, tok), d') →
  d.(tokens) !! jti = None → (0 ≤ d.(users_seq) ≤ 2 ^ 53)%Z →
  (0 ≤ i.(DeviceID) < 2 ^ 128)%Z → (0 ≤ jti < 2 ^ 128)%Z →
  (0 ≤ unix (t + tokenExpiryHours * hour) ≤ 2 ^ 53)%Z → unexpired t now →
  run (ValidateToken now tok) d' = (Ok (d.(users_seq), i.(DeviceID)), d').
Proof.
  intros Hr Hj Hu Hd Hjr He Hx. apply Exec_run in Hr.
  eapply wp_Exec in Hr; [|apply wp_Register].
  destruct Hr as (uid & _ & _ & Hc & _ & Hs & Hrow).
  destruct (Hrow not_faulty Hj) as [th Hth]. destruct Hc as (-> & _).
  assert (issued (users_seq d) (DeviceID i) jti t tok) as Hi by done.
  pose proof (wp_run (ValidateToken now tok)
    (λ r d1, r = Ok (users_seq d, DeviceID i) ∧ d1 = d') d') as Hw.
  destruct (run (ValidateToken now tok) d') as [r1 d1]. simpl in Hw.
  destruct Hw as [-> ->]; [|done]. eapply wp_ValidateToken_issued; [done| |done].
  intros [[]%not_faulty|[?|Hl]]; [done|]. by erewrite live_until_expiry in Hl.
Qed.

(** C19: revocation is final: once [RevokeToken] has returned nil, the token
    is refused for ever, whatever operations follow and whatever fails, as
    long as no other token is given the same id. *)
Theorem RevokeToken_final `{!JwtLaws, !UuidLaws} F1 F2 user dev jti t tok now1 now2 os
    d d1 d2 r d3 :
  issued user dev jti t tok →
  (∀ row, d.(tokens) !! jti = Some row → row.(t_user) = user) →
  Exec F1 (RevokeToken now1 tok) d (Ok tt) d1 →
  Forall (λ o, op_jti o ≠ Some jti) os → runs os d1 d2 →
  Exec F2 (ValidateToken now2 tok) d2 r d3 →
  r = Err ErrInvalidToken.
Proof.
  intros Hi Hrow H1' Hos Hruns. revert r d3. apply wp_Exec_all.
  assert (dead jti d1) as Hd.
  { eapply wp_Exec in H1'; [|by eapply wp_RevokeToken_issued]. auto. }
  assert (dead jti d2) as Hd2.
  { clear H1'. induction Hruns as [d1|o os F r d1 d1' d2 He _ IH]; [done|].
    apply Forall_cons in Hos as [Ho Hos]. apply IH; [done|].
    eapply reaches_dead; [exact Ho|done|].
    eapply wp_Exec in He; [|apply wp_reaches, rtc_refl]. exact He. }
  eapply wp_ValidateToken_issued; [done|done|].
  by rewrite dead_not_live.
Qed.

(** C28: the invariant: user names stay unique, references resolve, and
    every token belongs to the owner of its device, after any operation and
    any failure. *)
Theorem auth_inv_preserved F o d r d' :
  Exec F (run_op o) d r d' → auth_inv d → auth_inv d'.
Proof.
  intros He Hi. eapply wp_Exec in He; [|apply wp_reaches, rtc_refl].
  induction He; [done|]. eauto using sql_inv.
Qed.

(** C17: a login that succeeds found the user by name, and bcrypt accepts the
    password it was given for the user's stored hash; or the stored hash is
    empty, as of users migrated without a password, and so is the password
    given: whoever knows the name of such a user logs in
    ([empty_password_accepted]).  The device belongs to that user, and the
    token is for that user and that device. *)
Theorem Login_checks_password F rand i jti t d res d' :
  Exec F (Login rand i jti t) d (Ok res) d' →
  ∃ uid, credentials_ok i d uid ∧ owns uid i.(LDeviceID) d' ∧
    res.(LRUserID) = user_address i.(LUsername) ∧ res.(LRDeviceID) = i.(LDeviceID) ∧
    jwt_sign jwt_key (access_claims uid i.(LDeviceID) jti t) = Some res.(LRToken).
Proof.
  intros He. eapply wp_Exec in He; [|apply wp_Login, rtc_refl].
  destruct He as [_ He]. by apply He.
Qed.


(** The clean-up is invisible to clients: it never changes what the
    validation of a token returns then or later. *)
Theorem CleanupExpiredTokens_invisible F now d r d' tok t :
  Exec F (CleanupExpiredTokens now) d r d' → (now ≤ t)%Z →
  (run (ValidateToken t tok) d').1 = (run (ValidateToken t tok) d).1.
Proof.
  intros He Ht. assert (∀ jti, live_token jti t d' = live_token jti t d) as Hl.
  { intros jti. revert r d' He. apply wp_Exec_all. apply wp_or_raise, wp_stmt; [done|].
    intros n d' [= _ <-]. unfold live_token. simpl. rewrite lookup_delete_where.
    destruct (tokens d !! jti) as [row|]; [|done]. simpl.
    destruct (stale_token now jti row) eqn:Hs; [|done]. symmetry.
    unfold stale_token, token_alive in *. apply andb_false_iff.
    apply orb_true_iff in Hs as [Hs|Hs].
    - right. apply bool_decide_eq_true in Hs. apply bool_decide_eq_false. lia.
    - left. by destruct (t_revoked_at row). }
  unfold run, ValidateToken, query, stmt, mbind, M_bind, mret, M_ret, raise. simpl.
  destruct (jwt_parse jwt_key t tok) as [c|]; [|done]. case_bool_decide; [done|].
  destruct (uuid_parse (claim_str "jti" c)); [|done]. simpl. rewrite Hl.
  destruct (live_token _ t d); [|done]. destruct (negb _ && negb _); [done|].
  by destruct (iss_aud_ok c).
Qed.

Definition ws_claims (user dev t : Z) : MapClaims :=
  <["user_id" := CNum user]> (<["device_id" := CStr (uuid_string dev)]>
    (<["typ" := CStr "ws"]> (<["iss" := CStr domain]> (<["aud" := CStr tokenAudience]>
    {["exp" := CNum (unix (t + wsTokenExpirySec * second))]})))).

Lemma ws_claims_read user dev t :
  let c := json_claim <$> ws_claims user dev t in
  claim_str "jti" c = "" ∧ claim_str "typ" c = "ws" ∧
  claim_str "iss" c = domain ∧ claim_str "aud" c = tokenAudience ∧
  claim_str "device_id" c = uuid_string dev ∧ claim_num "user_id" c = f64_round user ∧
  c !! "exp" = Some (CNum (f64_round (unix (t + wsTokenExpirySec * second)))).
Proof. unfold ws_claims, claim_str, claim_num. split_and!; by claims. Qed.

(** The two kinds of tokens are separate.  A WebSocket token is
    accepted by [ValidateWSToken], with its user and device, for sixty
    seconds and never by [ValidateToken]; an access token is never accepted
    by [ValidateWSToken]. *)
Theorem token_kinds_separate `{!JwtLaws, !UuidLaws} user dev t w :
  IssueWSToken user dev t = Ok w → (0 ≤ user ≤ 2 ^ 53)%Z → (0 ≤ dev < 2 ^ 128)%Z →
  (0 ≤ unix (t + wsTokenExpirySec * second) ≤ 2 ^ 53)%Z →
  (∀ now, ValidateWSToken now w =
     if decide (now < unix (t + wsTokenExpirySec * second) * second)%Z
     then Ok (user, dev) else Err ErrInvalidToken) ∧
  (∀ F now d r d', Exec F (ValidateToken now w) d r d' → r = Err ErrInvalidToken) ∧
  (∀ user' dev' jti t' tok now, issued user' dev' jti t' tok →
     ValidateWSToken now tok = Err ErrInvalidToken).
Proof.
  unfold IssueWSToken. fold (ws_claims user dev t).
  destruct (jwt_sign _ _) as [w'|] eqn:Hs; [|done]. intros [= ->] Hu Hd He.
  destruct (ws_claims_read user dev t) as (Hj & Ht & Hiss & Haud & Hdev & Hus & Hexp).
  assert (∀ now, jwt_parse jwt_key now w =
    if decide (now < unix (t + wsTokenExpirySec * second) * second)%Z
    then Some (json_claim <$> ws_claims user dev t) else None) as Hp.
  { intros now. rewrite (jwt_parse_sign _ _ _ _ Hs). unfold exp_ok. rewrite Hexp.
    rewrite f64_round_exact by lia. case_bool_decide; by case_decide. }
  split_and!.
  - intros now. unfold ValidateWSToken. rewrite Hp. case_decide; [|done].
    rewrite Ht, bool_decide_eq_true_2 by done. unfold iss_aud_ok.
    rewrite Hiss, Haud, (bool_decide_eq_true_2 (domain = domain)), andb_false_r by done.
    simpl. unfold token_identity. rewrite Hus, Hdev, f64_round_exact by lia.
    rewrite int64_of_f64_id by (apply bool_decide_eq_true; unfold two63; lia).
    by erewrite uuid_parsed_parse by (by apply uuid_parse_string).
  - intros F now d. apply wp_Exec_all. unfold ValidateToken. rewrite Hp.
    case_decide; [|by apply wp_raise]. rewrite Hj. by apply wp_raise.
  - intros user' dev' jti t' tok now Hi. unfold ValidateWSToken.
    rewrite (parse_issued _ _ _ _ _ _ Hi). case_bool_decide; [|done].
    destruct (access_claims_read user' dev' jti t') as (_ & -> & _). done.
Qed.

(** A stored key backup is read back as it was given, and a failing
    store changes nothing. *)
Theorem StoreKeyBackup_roundtrip `{!AeadLaws} F rand user salt blob d r d' :
  (∀ s, Dbenc.fresh_nonce (rand s)) →
  Exec F (StoreKeyBackup rand user salt blob) d r d' →
  match r with
  | Ok _ => run (GetKeyBackup user) d' = (Ok (salt, blob), d')
  | Err _ => d' = d
  end.
Proof.
  intros Hr. revert r d'. apply wp_Exec_all. unfold StoreKeyBackup.
  apply wp_with_tx; [done|]. apply wp_bind, wp_seal_col; [|done]. intros sa Hsa.
  apply wp_bind, wp_seal_col; [|done]. intros bl Hbl.
  apply wp_bind, wp_or_raise, wp_exec; [done|]. intros d1 H1'.
  apply upsert_salt_inv in H1' as (_ & ->). apply wp_or_raise, wp_exec; [done|].
  intros d2 H2'. apply upsert_backup_inv in H2' as (_ & ->). split; [|done].
  apply Dbenc.Decrypt_Encrypt in Hsa, Hbl; [|done..].
  set (d2 := with_backups _ _).
  pose proof (wp_run (GetKeyBackup user) (λ r d', r = Ok (salt, blob) ∧ d' = d2) d2) as Hw.
  destruct (run (GetKeyBackup user) d2) as [r2 d3]. simpl in Hw.
  destruct Hw as [-> ->]; [|done]. unfold GetKeyBackup.
  apply wp_bind, wp_or_raise, wp_query_nf. cbn beta iota. unfold d2 at 1 2. simpl.
  rewrite !lookup_insert_eq. apply wp_bind. unfold decrypt_col. destruct enc.
  - apply wp_of_result. rewrite Hsa. apply wp_bind, wp_of_result. rewrite Hbl. by apply wp_ret.
  - simplify_eq/=. apply wp_ret, wp_bind, wp_ret. by apply wp_ret.
Qed.

(** A proxy session is found again by the token it was given until it
    expires, and not afterwards. *)
Theorem ProxySession_roundtrip F b hd ht user dev ttl now t d tok d' :
  Exec F (CreateProxySession (Some b) hd ht user dev ttl now) d (Ok tok) d' →
  slen b = 32 →
  (run (GetProxySessionByToken t tok) d').1 =
    if decide (t ≤ now + ttl)%Z then Ok (mkProxySession hd ht user dev)
    else Err ErrInvalidToken.
Proof.
  intros He Hb.
  assert (tok = hex_encode b ∧ d'.(proxies) !! sha256 b =
    Some (ProxyRow hd ht user dev (now + ttl))) as [-> Hrow].
  { refine (wp_Exec F _ (λ r d', ∀ tok, r = Ok tok → tok = hex_encode b ∧
      d'.(proxies) !! sha256 b = Some (ProxyRow hd ht user dev (now + ttl))) d _ d' _ He
      tok eq_refl).
    unfold CreateProxySession. apply wp_bind, wp_or_raise, wp_exec; [done|]. intros d1 Hi.
    unfold insert_proxy in Hi. case_match; simplify_eq. apply wp_ret. intros ? [= <-].
    simpl. by rewrite lookup_insert_eq. }
  pose proof (wp_run (GetProxySessionByToken t (hex_encode b)) (λ r _, r =
    if decide (t ≤ now + ttl)%Z then Ok (mkProxySession hd ht user dev)
    else Err ErrInvalidToken) d') as Hw. apply Hw. clear Hw.
  unfold GetProxySessionByToken. rewrite hex_roundtrip, Hb. cbn [negb Nat.eqb].
  apply wp_bind, wp_or_raise, wp_query_nf. cbn beta iota. rewrite Hrow. simpl.
  case_bool_decide; case_decide; try lia; [|by apply wp_ret].
  apply wp_bind, wp_exec_nf. by apply wp_raise.
Qed.
End service.

(** ** Device names *)
Lemma sanitize_runes_bytes rs buf :
  sforall (λ a, 32 <=? code a)%Z buf = true →
  sforall (λ a, 32 <=? code a)%Z (sanitize_runes rs buf) = true.
Proof.
  revert buf. induction rs as [|r rs IH]; intros buf Hb; cbn [sanitize_runes]; [done|].
  case_bool_decide as Hr; [by apply IH|]. destruct (64 <=? slen buf); [done|].
  apply IH. rewrite sforall_app, Hb. apply encode_rune_bytes. lia.
Qed.

Lemma sanitize_runes_length rs buf :
  slen buf ≤ 67 → slen (sanitize_runes rs buf) ≤ 67.
Proof.
  revert buf. induction rs as [|r rs IH]; intros buf Hb; cbn [sanitize_runes]; [done|].
  case_bool_decide; [by apply IH|]. destruct (64 <=? slen buf) eqn:Hl; [done|].
  apply Nat.leb_gt in Hl. apply IH. rewrite slen_app. pose proof (slen_encode_rune r). lia.
Qed.

Lemma sanitize_runes_length_ascii rs buf :
  Forall (λ r, 0 ≤ r < 128)%Z rs → slen buf ≤ 64 → slen (sanitize_runes rs buf) ≤ 64.
Proof.
  intros Hrs. revert buf. induction Hrs as [|r rs Hr _ IH]; intros buf Hb; cbn [sanitize_runes]; [done|].
  case_bool_decide; [by apply IH|]. destruct (64 <=? slen buf) eqn:Hl; [done|].
  apply Nat.leb_gt in Hl. apply IH. rewrite slen_app, slen_encode_rune_ascii by done. lia.
Qed.

(** A sanitized device name has no control characters and at most 67
    bytes (the limit of 64 is tested before a rune of up to four bytes is
    written), at most 64 when the trimmed name is ASCII. *)
Theorem sanitizeDeviceName_bounds s :
  slen (sanitizeDeviceName s) ≤ 67 ∧
  sforall (λ a, 32 <=? code a)%Z (sanitizeDeviceName s) = true ∧
  (is_ascii (trim_space s) = true → slen (sanitizeDeviceName s) ≤ 64).
Proof.
  split_and!.
  - apply sanitize_runes_length. simpl. lia.
  - by apply sanitize_runes_bytes.
  - intros Ha. apply sanitize_runes_length_ascii; [by apply runes_ascii|]. simpl. lia.
Qed.

(** ** Witnesses *)
#[local] Existing Instance toy_aead.
#[local] Existing Instance toy_bcrypt.
#[local] Existing Instance toy_jwt.
#[local] Existing Instance toy_sha256.

Abbreviation register d := (run (Register "a.org" "key" None no_rand sample_input "" 5 0) d).

(** The token handed out by that registration, and what it leaves. *)
Definition sample_token : string :=
  default "" (jwt_sign "key" (access_claims "a.org" 1 9 5 0)).

Definition registered : DB := (register empty_db).2.

Lemma sample_issued : issued "a.org" "key" 1 9 5 0 sample_token.
Proof. split_and!; try lia; by vm_compute. Qed.

Lemma Register_outcome_witness :
  register_post "a.org" "key" None no_faults sample_input "" 5 0 empty_db
    (register empty_db).1 registered.
Proof. apply (Register_outcome _ _ _ _ no_rand), Exec_run, surjective_pairing. Defined.

Lemma Register_then_validate_witness :
  run (ValidateToken "a.org" "key" (3600 * second) sample_token) registered
  = (Ok (1%Z, 9%Z), registered).
Proof.
  apply (@Register_then_validate _ _ _ _ _ "a.org" "key" None toy_jwt_laws sample_uuid_laws no_rand
    sample_input "" 5 0 (3600 * second) empty_db "@ann:a.org" 9 sample_token registered);
    by vm_compute.
Defined.

Lemma RevokeToken_final_witness :
  let d1 := (run (RevokeToken "a.org" "key" 10 sample_token) registered).2 in
  (run (ValidateToken "a.org" "key" 20 sample_token) d1).1 = Err ErrInvalidToken.
Proof.
  intros d1.
  eapply (@RevokeToken_final _ _ _ _ _ "a.org" "key" None toy_jwt_laws sample_uuid_laws
    no_faults no_faults 1 9 5 0 sample_token 10 20 [] registered d1 d1).
  - apply sample_issued.
  - intros row. vm_compute. by intros [= <-].
  - apply Exec_run. by vm_compute.
  - constructor.
  - constructor.
  - apply Exec_run, surjective_pairing.
Defined.

Lemma empty_inv : auth_inv empty_db.
Proof.
  split_and!; try (by intros ?); try (by intros ??); try (by intros ???).
  split; by intros ??.
Qed.

Lemma auth_inv_preserved_witness : auth_inv registered.
Proof.
  apply (auth_inv_preserved "a.org" "key" None no_faults
    (OpRegister no_rand sample_input "" 5 0) empty_db (Ok tt)); [|apply empty_inv].
  apply Exec_run. by vm_compute.
Defined.

Lemma Login_checks_password_witness :
  ∃ uid, credentials_ok "a.org" None sample_login registered uid ∧
    owns uid 9 (run (Login "a.org" "key" None no_rand sample_login 6 100) registered).2 ∧
    "@ann:a.org" = user_address "a.org" "ann" ∧ 9%Z = 9%Z ∧
    jwt_sign "key" (access_claims "a.org" uid 9 6 100)
      = Some (default "" (jwt_sign "key" (access_claims "a.org" 1 9 6 100))).
Proof.
  apply (Login_checks_password "a.org" "key" None no_faults no_rand sample_login 6 100 registered
    (mkLoginResult "@ann:a.org" 9
       (default "" (jwt_sign "key" (access_claims "a.org" 1 9 6 100))) None)).
  apply Exec_run. by vm_compute.
Defined.

(** A user without a stored hash is logged in by the empty password. *)
Example empty_password_accepted :
  let d := with_users (alter (λ u, UserRow u.(u_username) u.(u_domain) None) 1%Z registered.(users)) registered in
  let i := mkLoginInput "ann" "" 9 false "" "" "" 0 [] in
  is_ok (run (Login "a.org" "key" None no_rand i 6 100) d).1 = true ∧
  is_ok (run (Login "a.org" "key" None no_rand sample_login 6 100) d).1 = false.
Proof. by vm_compute. Qed.


Lemma CleanupExpiredTokens_invisible_witness :
  (run (ValidateToken "a.org" "key" (26 * hour) sample_token)
     (run (CleanupExpiredTokens (25 * hour)) registered).2).1
  = (run (ValidateToken "a.org" "key" (26 * hour) sample_token) registered).1.
Proof.
  eapply (CleanupExpiredTokens_invisible "a.org" "key" no_faults (25 * hour)).
  - apply Exec_run, surjective_pairing.
  - by vm_compute.
Defined.

Lemma token_kinds_separate_witness :
  let w := default "" (jwt_sign "key" (ws_claims "a.org" 1 9 0)) in
  (∀ now, ValidateWSToken "a.org" "key" now w =
     if decide (now < unix (0 + wsTokenExpirySec * second) * second)%Z
     then Ok (1, 9)%Z else Err ErrInvalidToken) ∧
  (∀ F now d r d', Exec F (ValidateToken "a.org" "key" now w) d r d' → r = Err ErrInvalidToken) ∧
  (∀ user' dev' jti t' tok now, issued "a.org" "key" user' dev' jti t' tok →
     ValidateWSToken "a.org" "key" now tok = Err ErrInvalidToken).
Proof.
  intros w. apply (@token_kinds_separate _ _ "a.org" "key" toy_jwt_laws sample_uuid_laws 1 9 0 w);
    by vm_compute.
Defined.

Lemma StoreKeyBackup_roundtrip_witness :
  let r := run (StoreKeyBackup None no_rand 1 "s" "b") registered in
  match r.1 with
  | Ok _ => run (GetKeyBackup None 1) r.2 = (Ok ("s", "b"), r.2)
  | Err _ => r.2 = registered
  end.
Proof.
  intros r. apply (@StoreKeyBackup_roundtrip _ None toy_aead_laws no_faults no_rand 1 "s" "b").
  - by intros s nonce.
  - apply Exec_run, surjective_pairing.
Defined.

Lemma ProxySession_roundtrip_witness :
  let b := "01234567890123456789012345678901" in
  (run (GetProxySessionByToken 5 (hex_encode b))
    (run (CreateProxySession (Some b) "h.org" "tok" "@u:h.org" "d" 100 0) empty_db).2).1
  = if decide (5 ≤ 0 + 100)%Z then Ok (mkProxySession "h.org" "tok" "@u:h.org" "d")
    else Err ErrInvalidToken.
Proof.
  intros b. eapply (ProxySession_roundtrip no_faults b "h.org" "tok" "@u:h.org" "d" 100 0 5 empty_db).
  - apply Exec_run. by vm_compute.
  - done.
Defined.

(** Registration compares user names as they are, the key directory in lower
    case: whoever registers [ANN] after [ann] is a user of his own, but his
    contacts are given the keys of ann's device. *)
Definition upper_input : RegisterInput :=
  mkRegisterInput "ANN" "other" 10 "IK" "SPK" "SIG" 1 [] "" "".

Example keys_of_other_case :
  let r := run (Register "a.org" "key" None no_rand upper_input "" 6 100) registered in
  r.1 = Ok ("@ANN:a.org", 10%Z, default "" (jwt_sign "key" (access_claims "a.org" 2 10 6 100))) ∧
  (λ r, match r with Ok (b, dev) => Some (Keydir.IdentityKey b, dev) | Err _ => None end)
    (run (Keydir.GetBundleForUser None "@ANN:a.org" 200) r.2).1 = Some (IdentityKey sample_input, "9").
Proof. split; by vm_compute. Qed.

End Auth.
