(* ===== verification/Relay.v ===== *)
(** * Message relay ([server/internal/relay/relay.go])

    Sending, federated delivery, synchronisation and read receipts over the
    message queue.  The rooms service is reached through the interface
    [RoomChecker] only. *)

From Stdlib Require Import Ascii String.
From stdpp Require Import strings.
From S2P Require Import Prelude GoStrings Encoding Crypto Schema Samples RoomChecker Rooms.
Set Default Goal Selector "!".
Open Scope stdpp_scope.

Module Relay.

Inductive err :=
| ErrReplayTimestamp
| ErrRemoteRecipient (eventID : string)
| ErrInvalidRoomAddress
| ErrInvalidRoomID
| ErrNotRoomMember
| ErrRecipientNotFound
| ErrNoRows
| ErrDb.

#[export] Instance err_eq_dec : EqDecision err.
Proof. solve_decision. Defined.

Definition defaultTTLDays : Z := 7.
Definition replayWindowSec : Z := 300.
Definition futureToleranceSec : Z := 60.

Record SendInput := mkSendInput {
  EventID : string;
  Sender : string;
  Recipient : string;
  SenderUserID : Z;
  SenderDevice : string;
  Ciphertext : string;
  Ciphertexts : gmap string string;
  SessionID : string;
  Timestamp : Z;
  IdempotencyKey : string;
}.

Record FederatedEvent := mkFederatedEvent {
  FEventID : string;
  FType : string;
  FSender : string;
  FRecipient : string;
  FSenderDevice : string;
  FCiphertext : string;
  FSessionID : string;
  FTimestamp : Z;
}.

Record SyncEvent := mkSyncEvent {
  SEventID : string;
  SType : string;
  SSender : string;
  SRecipient : string;
  SSenderDevice : string;
  STimestamp : Z;
  SCiphertext : string;
  SSessionID : string;
  SStatus : string;
}.

Record DeliveredUpdate := mkDeliveredUpdate { SenderAddr : string; DEventID : string }.

Definition extractDomain (addr : string) : string :=
  match index addr ":" with
  | Some idx => if idx + 1 <? slen addr then sdrop (idx + 1) addr else ""
  | None => ""
  end.

(** Inputs of the witnesses: Ann, Bob and Cyd share the room 7. *)
Definition sample_db : DB :=
  with_users {[ 1%Z := UserRow "ann" "a.org" None; 2%Z := UserRow "bob" "a.org" None;
                3%Z := UserRow "cyd" "a.org" None ]}
  (with_rooms {[ 7%Z := RoomRow "r" "a.org" 1 0 ]}
  (with_members {[ (7, 1)%Z := MemberRow "creator" 0; (7, 2)%Z := MemberRow "member" 1;
                   (7, 3)%Z := MemberRow "member" 1 ]}
  (with_queue
    [QueueRow "e1" "@bob:a.org" "!7:a.org" "d" "m" "ct" None "s" 0 "queued" 100 10;
     QueueRow "e2" "@bob:a.org" "@ann:a.org" "d" "m" "ct" None "s" 0 "queued" 100 20;
     QueueRow "e3" "@bob:a.org" "@cyd:a.org" "d" "m" "ct" None "s" 0 "queued" 100 30]
    empty_db))).

Definition sample_send : SendInput :=
  mkSendInput "m1" "@ann:a.org" "!7:a.org" 1 "d" "ct" ∅ "s" 0 "key".

Section service.
Context `{UuidLib, PgText, Sha256}.
Context (domain : string) (rc : option RoomChecker).

(** ** SQL *)
Definition has_event (id : string) (d : DB) : bool :=
  existsb (λ r, bool_decide (r.(q_event_id) = id)) d.(queue).

(** [INSERT INTO message_queue], with the defaults of the other columns;
    [event_id] is [UNIQUE]. *)
Definition insert_message (id sender recipient device ct : string)
    (cts : option (gmap string string)) (session : string) (ts expires now : Z) (d : DB)
  : option DB :=
  if has_event id d then None
  else Some (with_queue (d.(queue) ++ [QueueRow id sender recipient device "m.room.encrypted"
               ct cts session ts "queued" expires now]) d).

Definition insert_idempotency (k id : string) (d : DB) : option DB :=
  match d.(idempotency) !! k with
  | Some _ => None
  | None => Some (with_idempotency (<[k := id]> d.(idempotency)) d)
  end.

Definition set_status (s : string) (r : queue_row) : queue_row :=
  QueueRow r.(q_event_id) r.(q_sender) r.(q_recipient) r.(q_sender_device) r.(q_msg_type)
    r.(q_ciphertext) r.(q_ciphertexts) r.(q_session_id) r.(q_timestamp) s
    r.(q_expires_at) r.(q_created_at).

(** [UPDATE message_queue SET status = 'delivered' WHERE event_id = $1] *)
Definition mark_delivered (id : string) (d : DB) : DB :=
  with_queue ((λ r, if bool_decide (r.(q_event_id) = id) then set_status "delivered" r else r)
                <$> d.(queue)) d.

Definition upsert_cursor (user dev : Z) (c : string) (d : DB) : option DB :=
  match d.(users) !! user with
  | Some _ => Some (with_cursors (<[(user, dev) := c]> d.(cursors)) d)
  | None => None
  end.

(** [INSERT INTO read_receipts ... ON CONFLICT DO NOTHING] *)
Definition insert_receipt (id reader : string) (now : Z) (d : DB) : option DB :=
  match d.(receipts) !! (id, reader) with
  | Some _ => Some d
  | None => if has_event id d
            then Some (with_receipts (<[(id, reader) := now]> d.(receipts)) d) else None
  end.

Definition find_event (id : string) (d : DB) : option queue_row :=
  List.find (λ r, bool_decide (r.(q_event_id) = id)) d.(queue).

Definition created_asc (a b : queue_row) : Prop := (a.(q_created_at) ≤ b.(q_created_at))%Z.
#[export] Instance created_asc_dec : RelDecision created_asc.
Proof. intros a b. unfold created_asc. apply _. Defined.
Definition created_desc (a b : queue_row) : Prop := (b.(q_created_at) ≤ a.(q_created_at))%Z.
#[export] Instance created_desc_dec : RelDecision created_desc.
Proof. intros a b. unfold created_desc. apply _. Defined.

(** The rows of the [SELECT] of [Sync] before [ORDER BY] and [LIMIT]. *)
Definition visible (recipients : list string) (me : string) (since : option Z)
    (r : queue_row) : bool :=
  (bool_decide (r.(q_recipient) ∈ recipients) || bool_decide (r.(q_sender) = me)) &&
  match since with
  | None => true
  | Some t => bool_decide (r.(q_status) = "queued") && bool_decide (t < r.(q_created_at))%Z
  end.

Definition sync_rows (recipients : list string) (me : string) (since : option Z)
    (limit : nat) (d : DB) : list queue_row :=
  let rows := List.filter (visible recipients me since) d.(queue) in
  take limit match since with
             | None => merge_sort created_desc rows
             | Some _ => merge_sort created_asc rows
             end.

(** ** [Send] *)

(** The bare name of a direct recipient. *)
Definition dm_username (recipient : string) : string :=
  let username := trim_prefix recipient "@" in
  let username := match index username ":" with
                  | Some idx => stake idx username
                  | None => username
                  end in
  trim_space username.

Definition check_user (i : SendInput) : M DB err unit :=
  let username := dm_username i.(Recipient) in
  if bool_decide (username = "") then mret tt
  else
    ex ← or_raise ErrDb (query (λ d, exists_row (λ _ u,
      bool_decide (pg_lower u.(u_username) = pg_lower username) &&
      bool_decide (u.(u_domain) = domain)) d.(users)));
    if (ex : bool) then mret tt else raise ErrRecipientNotFound.

Definition check_room (rooms : RoomChecker) (i : SendInput) : M DB err unit :=
  let '(roomID, _, ok) := Rooms.ParseRoomAddr i.(Recipient) in
  if negb ok then raise ErrInvalidRoomAddress
  else
    match uuid_parse roomID with
    | None => raise ErrInvalidRoomID
    | Some rid =>
      member ← attempt (rc_IsMember rid i.(SenderUserID));
      match member with
      | Ok true => mret tt
      | _ => raise ErrNotRoomMember
      end
    end.

Definition check_recipient (i : SendInput) : M DB err unit :=
  match rc with
  | Some rooms => if Rooms.IsRoomAddr i.(Recipient) then check_room rooms i else check_user i
  | None => check_user i
  end.

(** [fresh] is the [uuid.New()] of a message without id. *)
Definition send_event_id (fresh : Z) (i : SendInput) : string :=
  if bool_decide (i.(EventID) = "") then "evt_" +:+ uuid_string fresh else i.(EventID).

(** The lookup of the idempotency key: [Some id] is a message sent before. *)
Definition replayed (i : SendInput) : M DB err (option string) :=
  if bool_decide (i.(IdempotencyKey) = "") then mret None
  else or_raise ErrDb (query (λ d, d.(idempotency) !! sha256 i.(IdempotencyKey))).

Definition store_message (id : string) (i : SendInput) (now : Z) : M DB err unit :=
  let keyed := bool_decide (i.(Ciphertexts) = ∅) in
  or_raise ErrDb (exec (insert_message id i.(Sender) i.(Recipient) i.(SenderDevice)
    (if keyed then i.(Ciphertext) else "")
    (if keyed then None else Some i.(Ciphertexts))
    i.(SessionID) i.(Timestamp) (now + defaultTTLDays * 24 * hour) now)).

Definition Send (fresh : Z) (i : SendInput) (now : Z) : M DB err string :=
  let id := send_event_id fresh i in
  if bool_decide (i.(Timestamp) < unix now - replayWindowSec)%Z then raise ErrReplayTimestamp
  else if bool_decide (i.(Timestamp) > unix now + futureToleranceSec)%Z
  then raise ErrReplayTimestamp
  else
    let rd := extractDomain i.(Recipient) in
    if negb (bool_decide (rd = "")) && negb (bool_decide (rd = domain))
    then raise (ErrRemoteRecipient id)
    else
      _ ← check_recipient i;
      old ← replayed i;
      match old with
      | Some existing => mret existing
      | None =>
        _ ← store_message id i now;
        _ ← (if bool_decide (i.(IdempotencyKey) = "") then mret None
             else exec (insert_idempotency (sha256 i.(IdempotencyKey)) id));
        mret id
      end.

(** ** [AcceptTransaction]

    Returns the accepted ids and the rejected ones, each in order. *)
Definition accept_event (e : FederatedEvent) (now : Z) : M DB err bool :=
  ex ← query (has_event e.(FEventID));
  match ex with
  | Some true => mret true
  | _ =>
    r ← exec (insert_message e.(FEventID) e.(FSender) e.(FRecipient) e.(FSenderDevice)
                e.(FCiphertext) None e.(FSessionID) e.(FTimestamp)
                (now + defaultTTLDays * 24 * hour) now);
    mret match r with Some _ => true | None => false end
  end.

Fixpoint AcceptTransaction (events : list FederatedEvent) (now : Z)
  : M DB err (list string * list string) :=
  match events with
  | [] => mret ([], [])
  | e :: events =>
    ok ← accept_event e now;
    ar ← AcceptTransaction events now;
    mret (if (ok : bool) then (e.(FEventID) :: ar.1, ar.2) else (ar.1, e.(FEventID) :: ar.2))
  end.

(** ** [Sync] *)

(** The ciphertext of a room message for this device: its own entry, the
    user's entry, or the stored ciphertext. *)
Definition pick_ciphertext (me : string) (dev : Z) (r : queue_row) : string :=
  match r.(q_ciphertexts) with
  | None => r.(q_ciphertext)
  | Some cts =>
    let entry k := default "" (cts !! k) in
    let own := entry (me +:+ ":" +:+ uuid_string dev) in
    let ct := if negb (bool_decide (own = "")) then own else entry me in
    if bool_decide (ct = "") then r.(q_ciphertext)
    else match b64_decode ct with
         | Some dec => dec
         | None => if has_prefix ct "sig1:" || has_prefix ct "sk1:" then ct
                   else r.(q_ciphertext)
         end
  end.

Definition sync_event (me : string) (dev : Z) (r : queue_row) : SyncEvent :=
  mkSyncEvent r.(q_event_id) r.(q_msg_type) r.(q_sender) r.(q_recipient) r.(q_sender_device)
    r.(q_timestamp) (pick_ciphertext me dev r) r.(q_session_id) r.(q_status).

Definition user_addr (u : user_row) : string :=
  "@" +:+ u.(u_username) +:+ ":" +:+ u.(u_domain).

Definition updates_of (me : string) (events : list SyncEvent) : list DeliveredUpdate :=
  omap (λ e, if bool_decide (e.(SSender) = me) then None
             else Some (mkDeliveredUpdate e.(SSender) e.(SEventID))) events.

Definition recipients_of (user : Z) (me : string) : M DB err (list string) :=
  match rc with
  | None => mret [me]
  | Some rooms =>
    r ← attempt (rc_GetRoomAddrsForUser user);
    mret match r with Ok l => me :: l | Err _ => [me] end
  end.

(** The cursor of a page: the time of the row numbered [limit] when there
    are more, otherwise that of the last row read. *)
Definition page_cursor (limit : nat) (rows : list queue_row) : string :=
  if limit <? length rows
  then format_nano match rows !! (limit - 1) with Some r => r.(q_created_at) | None => 0 end
  else match last rows with Some r => format_nano r.(q_created_at) | None => "" end.

(** A negative or zero limit means 100. *)
Definition page_limit (limit : Z) : nat := if (limit <=? 0)%Z then 100 else Z.to_nat limit.

(** The parameter [$2::timestamptz]: [Some None] when there is no cursor, [None]
    when PostgreSQL refuses the text. *)
Definition since_param (since : string) : option (option Z) :=
  if bool_decide (since = "") then Some None else Some <$> pg_timestamptz since.

(** A text that is no time is refused when the first row is asked for: the loop
    ends, and as [rows.Err()] is not checked the page is empty. *)
Definition Sync (user dev : Z) (since : string) (limit : Z)
  : M DB err (list SyncEvent * string * list DeliveredUpdate) :=
  let limit := page_limit limit in
  u ← or_raise ErrDb (query (λ d, d.(users) !! user));
  match u with
  | None => raise ErrNoRows
  | Some u =>
    let me := user_addr u in
    recipients ← recipients_of user me;
    rows ← or_raise ErrDb (query (λ d, match since_param since with
             | Some t => sync_rows recipients me t (limit + 1) d
             | None => []
             end));
    rows ← fetch rows;
    let read := sync_event me dev <$> rows in
    let events := if bool_decide (since = "") then reverse read else read in
    let nextCursor := page_cursor limit rows in
    if limit <? length events then mret (take limit events, nextCursor, [])
    else if 0 <? length events then
      _ ← for_each (λ up, _ ← exec (λ d, Some (mark_delivered up.(DEventID) d)); mret tt)
            (updates_of me events);
      _ ← exec (upsert_cursor user dev nextCursor);
      mret (events, nextCursor, updates_of me events)
    else mret (events, "", [])
  end.

(** ** [MarkRead] *)
Definition can_read (reader : string) (user : Z) (recipient : string) : M DB err bool :=
  let direct := bool_decide (recipient = reader) in
  match rc with
  | Some rooms =>
    if Rooms.IsRoomAddr recipient then
      let '(roomID, _, ok) := Rooms.ParseRoomAddr recipient in
      if (ok : bool) then
        match uuid_parse roomID with
        | None => mret false
        | Some rid =>
          member ← attempt (rc_IsMember rid user);
          mret match member with Ok b => b | Err _ => false end
        end
      else mret false
    else mret direct
  | None => mret direct
  end.

Definition mark_one (reader : string) (user now : Z) (eid : string)
  : M DB err (option DeliveredUpdate) :=
  if bool_decide (eid = "") then mret None
  else
    row ← query (find_event eid);
    match row with
    | Some (Some r) =>
      ok ← can_read reader user r.(q_recipient);
      if negb (ok : bool) then mret None
      else
        ins ← exec (insert_receipt eid reader now);
        mret match ins with
             | None => None
             | Some _ => Some (mkDeliveredUpdate r.(q_sender) eid)
             end
    | _ => mret None
    end.

Fixpoint MarkRead (reader : string) (user now : Z) (eids : list string)
  : M DB err (list DeliveredUpdate) :=
  match eids with
  | [] => mret []
  | eid :: eids =>
    u ← mark_one reader user now eid;
    us ← MarkRead reader user now eids;
    mret match u with Some u => u :: us | None => us end
  end.
End service.

(** ** Specification *)

(** The service, with a rooms service behind it. *)
Section spec.
Context `{UuidLib, PgText, Sha256}.
Context (domain : string) (rooms : RoomChecker) (addr : Z → string).
Context `{!RoomCheckerLaws rooms addr}.
#[local] Existing Instances created_asc_dec created_desc_dec.

Inductive op :=
| OpSend (fresh : Z) (i : SendInput) (now : Z)
| OpAccept (events : list FederatedEvent) (now : Z)
| OpSync (user dev : Z) (since : string) (limit : Z)
| OpMarkRead (reader : string) (user now : Z) (eids : list string).

Definition run_op (o : op) : M DB err unit :=
  match o with
  | OpSend fresh i t => Send domain (Some rooms) fresh i t ≫= λ _, mret tt
  | OpAccept evs t => AcceptTransaction evs t ≫= λ _, mret tt
  | OpSync u dev since l => Sync (Some rooms) u dev since l ≫= λ _, mret tt
  | OpMarkRead reader u t eids => MarkRead (Some rooms) reader u t eids ≫= λ _, mret tt
  end.

(** Event ids are unique and receipts are for queued events. *)
Definition relay_inv (d : DB) : Prop :=
  NoDup (q_event_id <$> d.(queue)) ∧
  ∀ id reader t, d.(receipts) !! (id, reader) = Some t → has_event id d = true.

(** Who may send to whom: members to their rooms, anybody to an existing
    user of this server. *)
Definition may_send (i : SendInput) (d : DB) : Prop :=
  if Rooms.IsRoomAddr i.(Recipient) then
    ∃ roomID dom rid, Rooms.ParseRoomAddr i.(Recipient) = (roomID, dom, true) ∧
      uuid_parse roomID = Some rid ∧ is_Some (d.(members) !! (rid, i.(SenderUserID)))
  else
    dm_username i.(Recipient) = "" ∨
    ∃ k u, d.(users) !! k = Some u ∧ u.(u_domain) = domain ∧
      pg_lower u.(u_username) = pg_lower (dm_username i.(Recipient)).

Definition in_window (ts now : Z) : Prop :=
  (unix now - replayWindowSec ≤ ts ≤ unix now + futureToleranceSec)%Z.

Definition local_recipient (a : string) : Prop :=
  extractDomain a = "" ∨ extractDomain a = domain.

(** The row a sent message becomes. *)
Definition message_row (id : string) (i : SendInput) (now : Z) (r : queue_row) : Prop :=
  r.(q_event_id) = id ∧ r.(q_sender) = i.(Sender) ∧ r.(q_recipient) = i.(Recipient) ∧
  r.(q_sender_device) = i.(SenderDevice) ∧ r.(q_session_id) = i.(SessionID) ∧
  r.(q_timestamp) = i.(Timestamp) ∧ r.(q_status) = "queued" ∧ r.(q_created_at) = now ∧
  r.(q_expires_at) = (now + defaultTTLDays * 24 * hour)%Z ∧
  ((i.(Ciphertexts) = ∅ ∧ r.(q_ciphertext) = i.(Ciphertext) ∧ r.(q_ciphertexts) = None) ∨
   (i.(Ciphertexts) ≠ ∅ ∧ r.(q_ciphertext) = "" ∧ r.(q_ciphertexts) = Some i.(Ciphertexts))).

(** What each error of [Send] means. *)
Definition send_error (F : nat → bool) (fresh : Z) (i : SendInput) (now : Z) (d : DB) (e : err)
  : Prop :=
  match e with
  | ErrReplayTimestamp => ¬ in_window i.(Timestamp) now
  | ErrRemoteRecipient id => id = send_event_id fresh i ∧ in_window i.(Timestamp) now ∧
      ¬ local_recipient i.(Recipient)
  | ErrInvalidRoomAddress | ErrInvalidRoomID | ErrRecipientNotFound => ¬ may_send i d
  | ErrNotRoomMember => ¬ may_send i d ∨ faulty F
  | ErrDb => faulty F ∨ has_event (send_event_id fresh i) d = true
  | ErrNoRows => False
  end.

Definition send_post (F : nat → bool) (fresh : Z) (i : SendInput) (now : Z) (d : DB)
    (r : result err string) (d' : DB) : Prop :=
  match r with
  | Err e => d' = d ∧ send_error F fresh i now d e
  | Ok id =>
    in_window i.(Timestamp) now ∧ local_recipient i.(Recipient) ∧ may_send i d ∧
    (i.(IdempotencyKey) ≠ "" ∧ d.(idempotency) !! sha256 i.(IdempotencyKey) = Some id ∧ d' = d ∨
     id = send_event_id fresh i ∧ has_event id d = false ∧
     (i.(IdempotencyKey) ≠ "" → d.(idempotency) !! sha256 i.(IdempotencyKey) = None) ∧
     ∃ row, message_row id i now row ∧
       let d1 := with_queue (d.(queue) ++ [row]) d in
       (d' = d1 ∧ (i.(IdempotencyKey) = "" ∨ faulty F) ∨
        i.(IdempotencyKey) ≠ "" ∧
        d' = with_idempotency (<[sha256 i.(IdempotencyKey) := id]> d.(idempotency)) d1))
  end.

(** ** Lemmas *)
Lemma has_event_true id d :
  has_event id d = true ↔ id ∈ q_event_id <$> d.(queue).
Proof.
  unfold has_event. rewrite existsb_exists, list_elem_of_fmap. split.
  - intros (r & Hin & Hr). exists r. apply bool_decide_eq_true in Hr.
    split; [done|]. by apply list_elem_of_In.
  - intros (r & -> & Hin). exists r. split; [by apply list_elem_of_In|].
    by apply bool_decide_eq_true_2.
Qed.

Lemma has_event_false id d :
  has_event id d = false ↔ id ∉ q_event_id <$> d.(queue).
Proof. rewrite <- not_true_iff_false. by rewrite has_event_true. Qed.

Lemma insert_message_inv id s r dv ct cts se ts ex now d d' :
  insert_message id s r dv ct cts se ts ex now d = Some d' →
  has_event id d = false ∧
  d' = with_queue (d.(queue) ++ [QueueRow id s r dv "m.room.encrypted" ct cts se ts "queued"
                                   ex now]) d.
Proof. unfold insert_message. destruct (has_event id d); [done|]. by intros [= <-]. Qed.

Lemma wp_is_member F room user (Q : result err (result unit bool) → DB → Prop) d :
  (∀ b, b = true ↔ is_Some (d.(members) !! (room, user)) → Q (Ok (Ok b)) d) →
  (∀ e, faulty F → Q (Ok (Err e)) d) →
  wp F (attempt (rc_IsMember room user)) Q d.
Proof.
  intros Hok Herr. apply wp_attempt. eapply wp_mono; [apply rc_is_member|].
  intros [b|e] d' [-> Hb]; auto.
Qed.

(** The address of a room, when it is the recipient. *)
Lemma may_send_room i d roomID dom rid :
  Rooms.IsRoomAddr (Recipient i) = true →
  Rooms.ParseRoomAddr (Recipient i) = (roomID, dom, true) → uuid_parse roomID = Some rid →
  may_send i d ↔ is_Some (d.(members) !! (rid, i.(SenderUserID))).
Proof.
  intros Hr Hp Hu. unfold may_send. rewrite Hr. split; [|by eauto 10].
  intros (? & ? & ? & Hp' & Hu' & ?). rewrite Hp in Hp'. by simplify_eq.
Qed.

Lemma wp_check_room F fresh i now (Q : result err unit → DB → Prop) d :
  Rooms.IsRoomAddr (Recipient i) = true →
  (∀ e, send_error F fresh i now d e → Q (Err e) d) → (may_send i d → Q (Ok tt) d) →
  wp F (check_room rooms i) Q d.
Proof.
  intros Hr He Hok. unfold check_room.
  destruct (Rooms.ParseRoomAddr (Recipient i)) as [[roomID dom] ok] eqn:Hp.
  destruct ok; cbn [negb].
  2: { apply wp_raise, He. cbn. unfold may_send. rewrite Hr. intros (? & ? & ? & Hp' & _). congruence. }
  destruct (uuid_parse roomID) as [rid|] eqn:Hu.
  2: { apply wp_raise, He. cbn. unfold may_send. rewrite Hr. intros (? & ? & ? & Hp' & Hu' & _).
       rewrite Hp in Hp'. congruence. }
  pose proof (may_send_room i d _ _ _ Hr Hp Hu) as Hms.
  apply wp_bind, wp_is_member; [|intros e HF; apply wp_raise, He; by right].
  intros [] Hb; [apply wp_ret, Hok; by apply Hms, Hb|].
  apply wp_raise, He. left. intros Hm%Hms%Hb. done.
Qed.

Lemma wp_check_user F fresh i now (Q : result err unit → DB → Prop) d :
  Rooms.IsRoomAddr (Recipient i) = false →
  (∀ e, send_error F fresh i now d e → Q (Err e) d) → (may_send i d → Q (Ok tt) d) →
  wp F (check_user domain i) Q d.
Proof.
  clear dependent addr. clear rooms. intros Hr He Hok. unfold check_user.
  unfold may_send in Hok. unfold send_error, may_send in He. rewrite Hr in He, Hok.
  case_bool_decide as Hn; [apply wp_ret; auto|].
  apply wp_bind, wp_or_raise, wp_query_fault; [intros HF; apply He; by left|]. cbn beta iota.
  set (P := λ (k : Z) u, _).
  destruct (exists_row P (users d)) eqn:Hex; [apply wp_ret, Hok; right|apply wp_raise, He; cbn].
  - apply exists_row_true in Hex as (k & u & Hk & Hu). unfold P in Hu.
    apply andb_true_iff in Hu as [?%bool_decide_eq_true ?%bool_decide_eq_true]. eauto.
  - intros [?|(k & u & Hk & Hd & Hl)]; [done|].
    assert (exists_row P (users d) = true) as Ht; [|by rewrite Hex in Ht].
    apply exists_row_true. exists k, u. split; [done|]. unfold P.
    by rewrite !bool_decide_eq_true_2.
Qed.

Lemma wp_check_recipient F fresh i now (Q : result err unit → DB → Prop) d :
  (∀ e, send_error F fresh i now d e → Q (Err e) d) → (may_send i d → Q (Ok tt) d) →
  wp F (check_recipient domain (Some rooms) i) Q d.
Proof.
  intros He Hok. unfold check_recipient.
  destruct (Rooms.IsRoomAddr (Recipient i)) eqn:Hr.
  - by eapply wp_check_room.
  - by eapply wp_check_user.
Qed.

Lemma wp_store_message F id i now (Q : result err unit → DB → Prop) d :
  (faulty F ∨ has_event id d = true → Q (Err ErrDb) d) →
  (∀ row, message_row id i now row → has_event id d = false →
     Q (Ok tt) (with_queue (d.(queue) ++ [row]) d)) →
  wp F (store_message id i now) Q d.
Proof.
  intros He Hok. unfold store_message. apply wp_or_raise, wp_exec_full.
  - intros [?|Hi]; apply He; [by left|right]. unfold insert_message in Hi.
    by destruct (has_event id d).
  - intros d' Hi. apply insert_message_inv in Hi as (Hn & ->). apply Hok; [|done].
    unfold message_row. simpl. split_and!; try done. case_bool_decide; auto.
Qed.

Lemma wp_Send F fresh i now d :
  wp F (Send domain (Some rooms) fresh i now) (send_post F fresh i now d) d.
Proof.
  unfold Send.
  case_bool_decide as Ht1; [apply wp_raise; split; [done|]; unfold send_error, in_window; lia|].
  case_bool_decide as Ht2; [apply wp_raise; split; [done|]; unfold send_error, in_window; lia|].
  assert (in_window (Timestamp i) now) as Hwin by (unfold in_window; lia).
  destruct (negb _ && negb _) eqn:Hdom.
  { apply wp_raise. split; [done|]. split; [done|]. split; [done|].
    apply andb_true_iff in Hdom as [?%negb_true_iff%bool_decide_eq_false
      ?%negb_true_iff%bool_decide_eq_false]. by intros []. }
  assert (local_recipient (Recipient i)) as Hloc by by apply guard_passed.
  clear Hdom.
  apply wp_bind, (wp_check_recipient F fresh i now); [by intros|]. intros Hms.
  unfold replayed. case_bool_decide as Hk.
  - apply wp_bind, wp_ret, wp_bind, wp_store_message; [by split|]. intros row Hrow Hn.
    apply wp_bind, wp_ret. apply wp_ret. split; [done|]. split; [done|]. split; [done|].
    right. split; [done|]. split; [done|]. split; [done|]. exists row. auto.
  - apply wp_bind, wp_or_raise, wp_query_fault; [intros; split; [done|]; by left|]. cbn beta iota.
    destruct (idempotency d !! sha256 (IdempotencyKey i)) as [old|] eqn:Hold.
    { apply wp_ret. split; [done|]. split; [done|]. split; [done|]. by left. }
    apply wp_bind, wp_store_message; [by split|]. intros row Hrow Hn. apply wp_bind, wp_exec_full.
    + intros Hf. apply wp_ret. split; [done|]. split; [done|]. split; [done|]. right.
      split; [done|]. split; [done|]. split; [done|]. exists row. split; [done|]. left.
      split; [done|]. right. destruct Hf as [?|Hf]; [done|]. exfalso.
      unfold insert_idempotency in Hf. simpl in Hf. by rewrite Hold in Hf.
    + intros d' Hi. unfold insert_idempotency in Hi. simpl in Hi. rewrite Hold in Hi.
      simplify_eq. apply wp_ret. split; [done|]. split; [done|]. split; [done|]. right.
      split; [done|]. split; [done|]. split; [done|]. exists row. split; [done|]. by right.
Qed.

(** *** Invariant *)
Lemma keeps_rc_member I room user : keeps I (rc_IsMember room user).
Proof. intros F d Hd. eapply wp_mono; [apply rc_is_member|]. by intros r d' [-> _]. Qed.

Lemma keeps_rc_addrs I user : keeps I (rc_GetRoomAddrsForUser user).
Proof. intros F d Hd. eapply wp_mono; [apply rc_room_addrs|]. by intros r d' [-> _]. Qed.
#[local] Hint Resolve keeps_rc_member keeps_rc_addrs : wp_db.

Lemma mark_delivered_ids id d :
  q_event_id <$> (mark_delivered id d).(queue) = q_event_id <$> d.(queue).
Proof.
  simpl. rewrite <- list_fmap_compose. apply list_fmap_ext. intros n r _. simpl.
  by case_bool_decide.
Qed.

Lemma relay_inv_mark id d : relay_inv d → relay_inv (mark_delivered id d).
Proof.
  intros [Hn Hr]. split; [by rewrite mark_delivered_ids|]. intros i reader t Ht.
  apply has_event_true. rewrite mark_delivered_ids. apply has_event_true. by eapply Hr.
Qed.

Lemma relay_inv_insert id s r dv ct cts se ts ex now d d' :
  insert_message id s r dv ct cts se ts ex now d = Some d' → relay_inv d → relay_inv d'.
Proof.
  intros (Hf & ->)%insert_message_inv [Hn Hr]. apply has_event_false in Hf.
  split; simpl.
  - rewrite fmap_app. apply NoDup_app. split; [done|]. split; [|apply NoDup_singleton].
    intros x Hx. simpl. rewrite list_elem_of_singleton. by intros ->.
  - intros i reader t Ht. apply has_event_true. simpl. rewrite fmap_app.
    apply elem_of_app. left. apply has_event_true. by eapply Hr.
Qed.

Lemma relay_inv_receipt id reader now d d' :
  insert_receipt id reader now d = Some d' → relay_inv d → relay_inv d'.
Proof.
  unfold insert_receipt. intros Hi [Hn Hr].
  destruct (receipts d !! (id, reader)); [by simplify_eq|].
  destruct (has_event id d) eqn:He; [|done]. simplify_eq. split; [done|]. simpl.
  intros i rd t. rewrite lookup_insert. case_decide; [by intros; simplify_eq|apply Hr].
Qed.

Lemma relay_inv_idempotency k id d d' :
  insert_idempotency k id d = Some d' → relay_inv d → relay_inv d'.
Proof. unfold insert_idempotency. by case_match; intros; simplify_eq. Qed.

Lemma relay_inv_cursor u dev c d d' :
  upsert_cursor u dev c d = Some d' → relay_inv d → relay_inv d'.
Proof. unfold upsert_cursor. by case_match; intros; simplify_eq. Qed.

(** What the statements of the service keep, its operations keep. *)
Record statements_keep (I : DB → Prop) : Prop := {
  sk_insert id s r dv ct cts se ts ex now d d' :
    insert_message id s r dv ct cts se ts ex now d = Some d' → I d → I d';
  sk_idempotency k id d d' : insert_idempotency k id d = Some d' → I d → I d';
  sk_mark id d : I d → I (mark_delivered id d);
  sk_receipt id reader now d d' : insert_receipt id reader now d = Some d' → I d → I d';
  sk_cursor u dev c d d' : upsert_cursor u dev c d = Some d' → I d → I d'
}.

Lemma relay_keeps I o : statements_keep I → keeps I (run_op o).
Proof.
  intros [Hins Hidem Hmark Hrec Hcur]. destruct o as [fresh i t|evs t|u dev since l|reader u t eids]; simpl.
  - unfold Send, check_recipient, check_room, check_user, replayed, store_message.
    keeps_go; eauto.
  - apply keeps_bind; [|intros; keeps_go]. induction evs as [|e evs IH]; simpl; [keeps_go|].
    unfold accept_event. keeps_go; eauto.
  - unfold Sync, recipients_of. keeps_go; simplify_eq/=; eauto.
  - apply keeps_bind; [|intros; keeps_go]. induction eids as [|e eids IH]; simpl; [keeps_go|].
    unfold mark_one, can_read. keeps_go; eauto.
Qed.

Lemma relay_inv_statements : statements_keep relay_inv.
Proof.
  constructor; eauto using relay_inv_insert, relay_inv_idempotency, relay_inv_mark,
    relay_inv_receipt, relay_inv_cursor.
Qed.

Lemma keeps_inv o : keeps relay_inv (run_op o).
Proof. apply relay_keeps, relay_inv_statements. Qed.

(** *** Federated delivery *)
Definition fed_row (e : FederatedEvent) (now : Z) : queue_row :=
  QueueRow e.(FEventID) e.(FSender) e.(FRecipient) e.(FSenderDevice) "m.room.encrypted"
    e.(FCiphertext) None e.(FSessionID) e.(FTimestamp) "queued"
    (now + defaultTTLDays * 24 * hour) now.

(** What accepting [events] does: every event is answered, in order; the
    accepted ones are in the queue; each was there before or was appended
    once, as it came; and only a failing statement rejects. *)
Definition accept_post (F : nat → bool) (events : list FederatedEvent) (now : Z) (d : DB)
    (ar : list string * list string) (d' : DB) : Prop :=
  ar.1 ++ ar.2 ≡ₚ FEventID <$> events ∧
  ar.1 `sublist_of` FEventID <$> events ∧
  (∀ id, id ∈ ar.1 → has_event id d' = true) ∧
  (ar.2 ≠ [] → faulty F) ∧
  ∃ new, d' = with_queue (d.(queue) ++ new) d ∧
    ∀ row, row ∈ new → ∃ e, e ∈ events ∧ row = fed_row e now ∧ has_event e.(FEventID) d = false.

Lemma has_event_app id rows d :
  has_event id d = true → has_event id (with_queue (d.(queue) ++ rows) d) = true.
Proof. rewrite !has_event_true. simpl. rewrite fmap_app, elem_of_app. by left. Qed.

Lemma wp_accept_event F e now (Q : result err bool → DB → Prop) d :
  (has_event e.(FEventID) d = true → Q (Ok true) d) →
  (has_event e.(FEventID) d = false →
   Q (Ok true) (with_queue (d.(queue) ++ [fed_row e now]) d)) →
  (faulty F → Q (Ok false) d) →
  wp F (accept_event e now) Q d.
Proof.
  clear dependent addr. clear rooms. intros Hold Hnew Hf. unfold accept_event.
  assert (∀ Q' : result err (option unit) → DB → Prop,
    (faulty F ∨ has_event e.(FEventID) d = true → Q' (Ok None) d) →
    (has_event e.(FEventID) d = false →
     Q' (Ok (Some tt)) (with_queue (d.(queue) ++ [fed_row e now]) d)) →
    wp F (exec (insert_message e.(FEventID) e.(FSender) e.(FRecipient) e.(FSenderDevice)
                e.(FCiphertext) None e.(FSessionID) e.(FTimestamp)
                (now + defaultTTLDays * 24 * hour) now)) Q' d) as Hins.
  { intros Q' H1' H2'. apply wp_exec_full.
    - intros [?|Hn]; apply H1'; [by left|right]. unfold insert_message in Hn.
      by destruct (has_event _ _).
    - intros d' (? & ->)%insert_message_inv. by apply H2'. }
  apply wp_bind, wp_query_fault; [intros HF|].
  - apply wp_bind, Hins; intros; apply wp_ret; auto.
  - destruct (has_event (FEventID e) d) eqn:He; [apply wp_ret; auto|].
    apply wp_bind, Hins; [|intros; apply wp_ret; auto].
    intros [?|?]; [apply wp_ret; auto|congruence].
Qed.

Lemma wp_AcceptTransaction F events now d :
  wp F (AcceptTransaction events now)
    (λ r d', ∃ ar, r = Ok ar ∧ accept_post F events now d ar d') d.
Proof.
  clear dependent addr. clear rooms. revert d. induction events as [|e events IH]; intros d; simpl.
  { apply wp_ret. exists ([], []). split; [done|]. split_and!; try done.
    - by intros id ?%elem_of_nil.
    - exists []. rewrite app_nil_r. split; [by destruct d|]. by intros ? ?%elem_of_nil. }
  apply wp_bind, wp_accept_event.
  - intros He. apply wp_bind. eapply wp_mono; [apply IH|].
    intros r d' ([acc rej] & -> & Hp & Hs & Ha & Hr & new & -> & Hnew). apply wp_ret.
    eexists. split; [done|]. unfold accept_post; simpl in *; csimpl. split_and!; try done.
    + by rewrite Hp.
    + by apply sublist_skip.
    + intros id [->|?]%elem_of_cons; [by apply has_event_app|by apply Ha].
    + exists new. split; [done|]. intros row (e' & ? & ? & ?)%Hnew. exists e'. by split; [right|].
  - intros He. apply wp_bind. eapply wp_mono; [apply IH|].
    intros r d' ([acc rej] & -> & Hp & Hs & Ha & Hr & new & -> & Hnew). apply wp_ret.
    eexists. split; [done|]. unfold accept_post; simpl in *; csimpl. split_and!; try done.
    + by rewrite Hp.
    + by apply sublist_skip.
    + intros id [->|?]%elem_of_cons; [|by apply Ha]. apply has_event_true. simpl.
      rewrite !fmap_app. simpl. set_solver.
    + exists (fed_row e now :: new). rewrite <- app_assoc. split; [done|].
      intros row [->|(e' & ? & ? & Hf)%Hnew]%elem_of_cons.
      * exists e. set_solver.
      * exists e'. split; [set_solver|]. split; [done|]. apply has_event_false.
        apply has_event_false in Hf. simpl in Hf. rewrite fmap_app, elem_of_app in Hf. tauto.
  - intros HF. apply wp_bind. eapply wp_mono; [apply IH|].
    intros r d' ([acc rej] & -> & Hp & Hs & Ha & Hr & new & -> & Hnew). apply wp_ret.
    eexists. split; [done|]. unfold accept_post; simpl in *; csimpl. split_and!; try done.
    + rewrite <- Permutation_middle. by rewrite Hp.
    + by apply sublist_cons.
    + exists new. split; [done|]. intros row (e' & ? & ? & ?)%Hnew. exists e'. by split; [right|].
Qed.

(** A transaction of one event, unless a statement fails. *)
Lemma find_event_app id d rows :
  has_event id d = false →
  find_event id (with_queue (d.(queue) ++ rows) d) = List.find (λ r, bool_decide (r.(q_event_id) = id)) rows.
Proof.
  unfold has_event, find_event. cbn [queue with_queue].
  induction (queue d) as [|r l IH]; cbn; [done|].
  destruct (bool_decide (q_event_id r = id)); [done|]. exact IH.
Qed.

Lemma accepted_one F e now d ar d' :
  accept_post F [e] now d ar d' →
  faulty F ∨ ar.1 = [FEventID e] ∧
    (has_event (FEventID e) d = true ∨ find_event (FEventID e) d' = Some (fed_row e now)).
Proof.
  intros (Hperm & _ & Hin & Hrej & new & -> & Hnew).
  destruct ar.2 as [|x l] eqn:Har; [|left; by apply Hrej]. right.
  rewrite app_nil_r in Hperm. apply Permutation_singleton_r in Hperm. split; [done|].
  destruct (has_event (FEventID e) d) eqn:He; [by left|right].
  rewrite find_event_app by done. specialize (Hin (FEventID e)). rewrite Hperm in Hin.
  destruct new as [|row new].
  - exfalso. rewrite app_nil_r in Hin. replace (with_queue (queue d) d) with d in Hin by by destruct d.
    rewrite Hin in He; [done|by left].
  - destruct (Hnew row) as (e' & ->%list_elem_of_singleton & -> & _); [by left|].
    cbn. by rewrite bool_decide_eq_true_2.
Qed.

(** *** Read receipts *)
Definition may_read (reader : string) (user : Z) (recipient : string) (d : DB) : Prop :=
  if Rooms.IsRoomAddr recipient then
    ∃ roomID dom rid, Rooms.ParseRoomAddr recipient = (roomID, dom, true) ∧
      uuid_parse roomID = Some rid ∧ is_Some (d.(members) !! (rid, user))
  else recipient = reader.

Definition read_post (reader : string) (user now : Z) (eids : list string) (d : DB)
    (ups : list DeliveredUpdate) (d' : DB) : Prop :=
  (∀ up, up ∈ ups → up.(DEventID) ∈ eids ∧ is_Some (d'.(receipts) !! (up.(DEventID), reader)) ∧
     ∃ row, row ∈ d.(queue) ∧ row.(q_event_id) = up.(DEventID) ∧
       row.(q_sender) = up.(SenderAddr) ∧ may_read reader user row.(q_recipient) d) ∧
  ∃ rs, d' = with_receipts rs d ∧
    ∀ k, rs !! k = d.(receipts) !! k ∨
         d.(receipts) !! k = None ∧ rs !! k = Some now ∧ k.2 = reader ∧
         k.1 ∈ DEventID <$> ups.

Lemma find_event_Some id d row :
  find_event id d = Some row → row ∈ d.(queue) ∧ row.(q_event_id) = id.
Proof.
  unfold find_event. intros [Hin Hb]%find_some. apply bool_decide_eq_true in Hb.
  split; [by apply list_elem_of_In|done].
Qed.

Lemma wp_can_read F reader user recipient (Q : result err bool → DB → Prop) d :
  (may_read reader user recipient d → Q (Ok true) d) → Q (Ok false) d →
  wp F (can_read (Some rooms) reader user recipient) Q d.
Proof.
  intros Ht Hf. unfold can_read, may_read in *.
  destruct (Rooms.IsRoomAddr recipient).
  - destruct (Rooms.ParseRoomAddr recipient) as [[roomID dom] ok] eqn:Hp.
    destruct ok; [|by apply wp_ret].
    destruct (uuid_parse roomID) as [rid|] eqn:Hu; [|by apply wp_ret].
    apply wp_bind, wp_is_member; [|intros; by apply wp_ret].
    intros [] Hb; apply wp_ret; [|done]. apply Ht. exists roomID, dom, rid.
    split; [done|]. split; [done|]. by apply Hb.
  - apply wp_ret. case_bool_decide; auto.
Qed.

Lemma wp_MarkRead F reader user now eids d :
  wp F (MarkRead (Some rooms) reader user now eids)
    (λ r d', ∃ ups, r = Ok ups ∧ read_post reader user now eids d ups d') d.
Proof.
  revert d. induction eids as [|eid eids IH]; intros d; simpl.
  { apply wp_ret. exists []. split; [done|]. split; [by intros ? ?%elem_of_nil|].
    exists (receipts d). split; [by destruct d|]. by left. }
  assert (wp F (MarkRead (Some rooms) reader user now eids ≫= λ us, mret us)
    (λ r d', ∃ ups, r = Ok ups ∧ read_post reader user now (eid :: eids) d ups d') d) as Hskip.
  { apply wp_bind. eapply wp_mono; [apply IH|]. intros r d' (ups & -> & Hups & Hrs).
    apply wp_ret. exists ups. split; [done|]. split; [|done].
    intros up (? & ? & ?)%Hups. by split; [right|]. }
  apply wp_bind. unfold mark_one. case_bool_decide; [by apply wp_ret|].
  apply wp_bind, wp_query; [by apply wp_ret|].
  destruct (find_event eid d) as [row|] eqn:Hrow; [|by apply wp_ret].
  apply find_event_Some in Hrow as [Hin Hid].
  apply wp_bind, wp_can_read; [|by apply wp_ret]. intros Hmay. cbn [negb].
  apply wp_bind, wp_exec; [by apply wp_ret|]. intros d1 Hins. apply wp_ret, wp_bind.
  assert (∃ rs, d1 = with_receipts rs d ∧ is_Some (rs !! (eid, reader)) ∧
    ∀ k, rs !! k = d.(receipts) !! k ∨
      d.(receipts) !! k = None ∧ rs !! k = Some now ∧ k = (eid, reader)) as
    (rs1 & -> & Hsome1 & Hrs1).
  { unfold insert_receipt in Hins. destruct (receipts d !! (eid, reader)) eqn:Hr.
    - injection Hins as <-. exists (receipts d). split; [by destruct d|]. rewrite Hr. eauto.
    - destruct (has_event eid d); [|done]. injection Hins as <-. eexists. split; [done|].
      rewrite lookup_insert_eq. split; [done|]. intros k.
      destruct (decide (k = (eid, reader))) as [->|Hne]; [|left; by rewrite lookup_insert_ne].
      right. by rewrite lookup_insert_eq. }
  eapply wp_mono; [apply IH|]. intros r d' (ups & -> & Hups & rs & -> & Hrs). apply wp_ret.
  eexists. split; [done|]. simpl in *. split.
  - intros up [->|Hup]%elem_of_cons.
    + simpl. split; [by left|]. split; [|by exists row].
      destruct (Hrs (eid, reader)) as [->|(_ & -> & _)]; [done|by eexists].
    + destruct (Hups _ Hup) as (? & ? & ?). by split; [right|].
  - exists rs. split; [done|]. intros k. destruct (Hrs k) as [Hk|(Hk1 & Hk2 & Hk3 & Hk4)].
    + rewrite Hk. destruct (Hrs1 k) as [?|(? & ? & ->)]; [by left|right].
      split_and!; try done. by left.
    + right. destruct (Hrs1 k) as [Hk|(? & ? & ->)]; [|congruence].
      split_and!; try done; [congruence|by right].
Qed.

(** *** Synchronisation *)

(** The messages a user may see: to the user, to a room of the user, or
    sent by the user. *)
Definition readable (me : string) (user : Z) (d : DB) (r : queue_row) : Prop :=
  r.(q_recipient) = me ∨ r.(q_sender) = me ∨
  ∃ room, r.(q_recipient) = addr room ∧ is_Some (d.(members) !! (room, user)).

(** [q'] is [q] with some messages of [ids] marked delivered; all of them
    when [all] holds. *)
Definition marks (all : Prop) (ids : list string) (q q' : list queue_row) : Prop :=
  Forall2 (λ r r', (r' = r ∧ (all → r.(q_event_id) ∉ ids)) ∨
                   (r.(q_event_id) ∈ ids ∧ r' = set_status "delivered" r)) q q'.

Definition sync_post (F : nat → bool) (user dev : Z) (since : string) (limit : Z) (d : DB)
    (r : result err (list SyncEvent * string * list DeliveredUpdate)) (d' : DB) : Prop :=
  match r with
  | Err _ => d' = d
  | Ok (events, cursor, ups) =>
    ∃ u, d.(users) !! user = Some u ∧
    length events ≤ page_limit limit ∧
    (∀ e, e ∈ events → ∃ row, row ∈ d.(queue) ∧ e = sync_event (user_addr u) dev row ∧
       readable (user_addr u) user d row ∧ (since ≠ "" → row.(q_status) = "queued")) ∧
    (ups = [] ∧ d' = d ∨
     ups = updates_of (user_addr u) events ∧
     ∃ q cs, d' = with_cursors cs (with_queue q d) ∧
       marks (¬ faulty F) (DEventID <$> ups) d.(queue) q)
  end.

Lemma wp_marks F ups d0 (Q : result err unit → DB → Prop) d :
  d = d0 →
  (∀ q, marks (¬ faulty F) (DEventID <$> ups) d0.(queue) q → Q (Ok tt) (with_queue q d0)) →
  wp F (for_each (λ up, _ ← exec (λ d, Some (mark_delivered up.(DEventID) d)); mret tt) ups) Q d.
Proof.
  intros -> HQ.
  apply wp_for_each_rest with (I := λ rest d', ∃ q, d' = with_queue q d0 ∧
    Forall2 (λ r r', (r' = r ∧ (¬ faulty F → r.(q_event_id) ∈ DEventID <$> ups →
                        r.(q_event_id) ∈ DEventID <$> rest)) ∨
                     (r.(q_event_id) ∈ DEventID <$> ups ∧ r' = set_status "delivered" r))
      d0.(queue) q).
  - exists d0.(queue). split; [by destruct d0|]. apply Forall2_same_length_lookup.
    split; [done|]. intros i x y Hx Hy. left. by simplify_eq.
  - intros up rest d' Hup (q & -> & Hq).
    assert (up.(DEventID) ∈ DEventID <$> ups) as Hin by (apply list_elem_of_fmap; eauto).
    apply wp_bind, wp_exec_some.
    + intros HF. apply wp_ret. exists q. split; [done|].
      eapply Forall2_impl; [exact Hq|]. intros r r' [[-> _]|?]; [left|by right].
      split; [done|]. by intros [].
    + apply wp_ret. eexists. split; [done|]. simpl.
      apply Forall2_fmap_r. eapply Forall2_impl; [exact Hq|].
      intros r r' [[-> Hr]|[Hr ->]]; simpl.
      * case_bool_decide as He; [right; split; [by rewrite He|done]|left].
        split; [done|]. intros HF Hi. specialize (Hr HF Hi). csimpl in Hr.
        apply elem_of_cons in Hr as [?|?]; [congruence|done].
      * right. split; [done|]. by case_bool_decide.
  - intros d' (q & -> & Hq). apply HQ. eapply Forall2_impl; [exact Hq|].
    intros r r' [[-> Hr]|?]; [left|by right]. split; [done|]. intros HF Hi.
    by apply (Hr HF) in Hi as ?%elem_of_nil.
Qed.

Lemma wp_recipients_of F user me (Q : result err (list string) → DB → Prop) d :
  (∀ l, (∀ a, a ∈ l → a = me ∨ ∃ room, a = addr room ∧ is_Some (d.(members) !! (room, user))) →
     me ∈ l →
     (¬ faulty F → ∀ room, is_Some (d.(Schema.rooms) !! room) →
        is_Some (d.(members) !! (room, user)) → addr room ∈ l) → Q (Ok l) d) →
  wp F (recipients_of (Some rooms) user me) Q d.
Proof.
  intros HQ. unfold recipients_of. apply wp_bind, wp_attempt.
  eapply wp_mono; [apply rc_room_addrs|]. intros [l|e] d' [-> Hl]; apply wp_ret, HQ.
  - intros a [->|Ha]%elem_of_cons; [by left|right]. by apply Hl.
  - by left.
  - intros HF room Hr Hm. right. destruct Hl as [_ [?|Hl]]; [done|]. by apply Hl.
  - intros a ->%list_elem_of_singleton. by left.
  - by left.
  - by intros [].
Qed.

Lemma sync_rows_elem recipients me since n d row :
  row ∈ sync_rows recipients me since n d →
  row ∈ d.(queue) ∧ visible recipients me since row = true.
Proof.
  unfold sync_rows. intros Hin. apply elem_of_take in Hin as (i & Hin & _).
  apply list_elem_of_lookup_2 in Hin.
  assert (row ∈ List.filter (visible recipients me since) d.(queue)) as Hf.
  { destruct since; by rewrite merge_sort_Permutation in Hin. }
  apply list_elem_of_In, filter_In in Hf as [? ?]. split; [by apply list_elem_of_In|done].
Qed.

Lemma wp_Sync F user dev since limit d :
  wp F (Sync (Some rooms) user dev since limit) (sync_post F user dev since limit d) d.
Proof.
  unfold Sync. apply wp_bind, wp_or_raise, wp_query; [done|]. cbn beta iota.
  destruct (users d !! user) as [u|] eqn:Hu; [|by apply wp_raise].
  apply wp_bind, wp_recipients_of. intros rcp Hrcp _ _.
  apply wp_bind, wp_or_raise, wp_query; [done|]. cbn beta iota.
  apply wp_bind, wp_fetch. intros rows Hpre _.
  assert (∀ row, row ∈ rows → row ∈ d.(queue) ∧ readable (user_addr u) user d row ∧
    (since ≠ "" → row.(q_status) = "queued")) as Hrows.
  { intros row Hin. destruct Hpre as [tl Htl].
    assert (row ∈ match since_param since with
                  | Some t => sync_rows rcp (user_addr u) t (page_limit limit + 1) d
                  | None => []
                  end) as Hr by (rewrite Htl; set_solver).
    destruct (since_param since) as [sn|] eqn:Hsn; [|by apply elem_of_nil in Hr].
    apply sync_rows_elem in Hr as [Hq Hv]. split; [done|]. unfold visible in Hv.
    apply andb_true_iff in Hv as [Hv1 Hv2]. split.
    - apply orb_true_iff in Hv1 as [Hv1|Hv1]; apply bool_decide_eq_true in Hv1; [|by right; left].
      apply Hrcp in Hv1 as [?|?]; [by left|by right; right].
    - intros Hs. unfold since_param in Hsn. rewrite bool_decide_eq_false_2 in Hsn by done.
      destruct (pg_timestamptz since) as [t|]; simplify_eq/=. apply andb_true_iff in Hv2 as [Hv2 _]. by apply bool_decide_eq_true in Hv2. }
  set (events := if bool_decide (since = "") then _ else _).
  assert (∀ e, e ∈ events → ∃ row, row ∈ d.(queue) ∧ e = sync_event (user_addr u) dev row ∧
    readable (user_addr u) user d row ∧ (since ≠ "" → row.(q_status) = "queued")) as Hev.
  { intros e He. assert (e ∈ sync_event (user_addr u) dev <$> rows) as Hin.
    { unfold events in He. case_bool_decide; [by rewrite elem_of_reverse in He|done]. }
    apply list_elem_of_fmap in Hin as (row & -> & Hin). destruct (Hrows _ Hin) as (? & ? & ?). eauto. }
  destruct (_ <? length events) eqn:Hlt.
  { apply wp_ret. exists u. split; [done|]. split; [rewrite length_take; lia|].
    split; [|by left]. intros e He. apply elem_of_take in He as (i & He & _).
    apply list_elem_of_lookup_2 in He. by apply Hev. }
  apply Nat.ltb_ge in Hlt.
  destruct (0 <? length events) eqn:Hz.
  - apply wp_bind, (wp_marks _ _ d); [done|]. intros q Hq.
    apply wp_bind, wp_exec.
    + apply wp_ret. exists u. split; [done|]. split; [done|]. split; [done|]. right.
      split; [done|]. exists q, d.(cursors). split; [by destruct d|done].
    + intros d' Hc. apply wp_ret. exists u. split; [done|]. split; [done|]. split; [done|].
      right. split; [done|]. unfold upsert_cursor in Hc. case_match; [|done]. simplify_eq.
      eauto.
  - apply wp_ret. exists u. split; [done|]. split; [done|]. split; [done|]. by left.
Qed.

(** The first load, run without faults, when there are more messages than
    the limit. *)
Lemma created_desc_pre : PreOrder created_desc.
Proof. split; [intros a|intros a b c]; unfold created_desc; lia. Qed.
Lemma created_desc_total : Total created_desc.
Proof. intros a b. unfold created_desc. lia. Qed.

Lemma submseteq_filter (P : queue_row → bool) l q :
  l ⊆+ q → (∀ r, r ∈ l → P r = true) → length l ≤ length (List.filter P q).
Proof.
  intros Hs HP. assert (length (List.filter P l) ≤ length (List.filter P q)) as Hle.
  { clear HP. induction Hs as [|x l1 l2 _ IH|x y l|x l1 l2 _ IH|l1 l2 l3 _ IH1 _ IH2]; simpl;
      try destruct (P x); try destruct (P y); simpl; lia. }
  assert (List.filter P l = l) as <-; [|done].
  clear Hs Hle. induction l as [|r l IH]; [done|]. simpl.
  rewrite HP by (by left). f_equal. apply IH. intros r' Hr'. apply HP. by right.
Qed.

Lemma NoDup_ids_filter (P : queue_row → bool) q :
  NoDup (q_event_id <$> q) → NoDup (q_event_id <$> List.filter P q).
Proof.
  induction q as [|r q IH]; [done|]. csimpl. intros [Hn Hd]%NoDup_cons. destruct (P r); [|auto].
  csimpl. apply NoDup_cons. split; [|auto]. contradict Hn.
  apply list_elem_of_fmap in Hn as (r' & -> & Hin). apply list_elem_of_fmap. exists r'.
  split; [done|]. apply list_elem_of_In, filter_In in Hin as [Hin _]. by apply list_elem_of_In.
Qed.

Lemma first_page (rows : list queue_row) n :
  n < length rows →
  ∃ newest tl, take (S n) (merge_sort created_desc rows) = newest :: tl ∧ length tl = n ∧
    newest ∈ rows ∧ (∀ r, r ∈ rows → (r.(q_created_at) ≤ newest.(q_created_at))%Z) ∧
    (NoDup (q_event_id <$> rows) → newest.(q_event_id) ∉ q_event_id <$> tl).
Proof.
  intros Hn. pose proof (merge_sort_Permutation created_desc rows) as Hp.
  destruct (merge_sort created_desc rows) as [|newest tl] eqn:Hs.
  { apply Permutation_length in Hp. simpl in Hp. lia. }
  exists newest, (take n tl). split; [done|].
  assert (length (newest :: tl) = length rows) as Hl by (by apply Permutation_length).
  split; [rewrite length_take; simpl in Hl; lia|].
  destruct (@first_row_sorted _ created_desc _ created_desc_pre created_desc_total rows newest)
    as [Hin Hmax]; [by rewrite Hs|].
  split; [done|]. split; [exact Hmax|]. intros Hnd. rewrite <- Hp in Hnd. csimpl in Hnd.
  apply NoDup_cons in Hnd as [Hnd _]. contradict Hnd.
  apply list_elem_of_fmap in Hnd as (r & -> & Hr). apply list_elem_of_fmap. exists r.
  split; [done|]. apply elem_of_take in Hr as (k & Hr & _). by eapply list_elem_of_lookup_2.
Qed.

Lemma wp_Sync_first user dev limit d u l :
  relay_inv d → d.(users) !! user = Some u →
  (∀ room, is_Some (d.(members) !! (room, user)) → is_Some (d.(Schema.rooms) !! room)) →
  l ⊆+ d.(queue) → (∀ r, r ∈ l → readable (user_addr u) user d r) →
  page_limit limit < length l →
  wp no_faults (Sync (Some rooms) user dev "" limit) (λ r _, ∃ events cur newest,
    r = Ok (events, cur, []) ∧ length events = page_limit limit ∧
    newest ∈ d.(queue) ∧ readable (user_addr u) user d newest ∧
    (∀ r, r ∈ d.(queue) → readable (user_addr u) user d r →
      (r.(q_created_at) ≤ newest.(q_created_at))%Z) ∧
    newest.(q_event_id) ∉ SEventID <$> events) d.
Proof.
  intros [Hnd _] Hu Hfk Hl Hread Hlen. unfold Sync.
  apply wp_bind, wp_or_raise, wp_query_nf. cbn beta iota. rewrite Hu.
  apply wp_bind, wp_recipients_of. intros rcp Hrcp Hme Hall.
  specialize (Hall not_faulty).
  assert (∀ r, visible rcp (user_addr u) None r = true ↔ readable (user_addr u) user d r) as Hvis.
  { intros r. unfold visible, readable. rewrite andb_true_r, orb_true_iff, !bool_decide_eq_true.
    split.
    - intros [Hr|?]; [|by right; left]. destruct (Hrcp _ Hr); auto.
    - intros [->|[?|(room & -> & Hm)]]; [by left|by right|left]. apply Hall; auto. }
  apply wp_bind, wp_or_raise, wp_query_nf. cbn beta iota.
  apply wp_bind, wp_fetch. intros rows _ [[]%not_faulty| ->].
  change (since_param "") with (Some (None : option Z)). cbn iota.
  set (sel := List.filter (visible rcp (user_addr u) None) d.(queue)).
  destruct (first_page sel (page_limit limit)) as (newest & tl & Htake & Htl & Hin & Hmax & Hno).
  { eapply Nat.lt_le_trans; [exact Hlen|]. apply submseteq_filter; [done|].
    intros r Hr. apply Hvis. by apply Hread. }
  unfold sync_rows. fold sel. rewrite Nat.add_1_r, Htake. csimpl.
  rewrite reverse_cons, length_app, length_reverse, length_fmap, Htl. simpl.
  rewrite (proj2 (Nat.ltb_lt _ _)) by lia. apply wp_ret.
  rewrite take_app_length' by (by rewrite length_reverse, length_fmap).
  assert (newest ∈ d.(queue) ∧ readable (user_addr u) user d newest) as [Hq Hr].
  { apply list_elem_of_In, filter_In in Hin as [? ?]. split; [by apply list_elem_of_In|].
    by apply Hvis. }
  eexists _, _, newest. split; [done|]. split_and!; try done.
  - by rewrite length_reverse, length_fmap.
  - intros r Hrq Hrr. apply Hmax. apply list_elem_of_In, filter_In.
    split; [by apply list_elem_of_In|]. by apply Hvis.
  - specialize (Hno (NoDup_ids_filter _ _ Hnd)). contradict Hno.
    apply list_elem_of_fmap in Hno as (e & He & Hin').
    rewrite elem_of_reverse in Hin'. apply list_elem_of_fmap in Hin' as (r & -> & Hr').
    apply list_elem_of_fmap. by exists r.
Qed.

(** ** Properties *)

(** C11: what sending does, under every fault schedule.  An error changes
    nothing, and each error has its reason.  Success means that the timestamp is within the replay window,
    that the recipient is local and that the sender may write to it; then
    either the idempotency key was known and its message is named, or one
    queued message with the given contents was appended under a fresh id;
    its idempotency key, if it has one, was stored with it unless a
    statement failed (the error of that statement is dropped), and nothing
    else changed. *)
Theorem Send_outcome F fresh i now d r d' :
  Exec F (Send domain (Some rooms) fresh i now) d r d' → send_post F fresh i now d r d'.
Proof. apply (wp_Exec _ _ (send_post F fresh i now d)), wp_Send. Qed.

(** Sending is idempotent: after a send with a key, any later send with
    that key that succeeds, whoever sends it and whatever it says, names the
    first message and stores nothing. *)
Theorem Send_idempotent f1 f2 i1 i2 t1 t2 id1 id2 F d d1 d2 :
  run (Send domain (Some rooms) f1 i1 t1) d = (Ok id1, d1) →
  i1.(IdempotencyKey) ≠ "" → i2.(IdempotencyKey) = i1.(IdempotencyKey) →
  Exec F (Send domain (Some rooms) f2 i2 t2) d1 (Ok id2) d2 →
  id2 = id1 ∧ d2 = d1.
Proof.
  intros Hr Hk Hk2 He. apply Exec_run in Hr.
  eapply wp_Exec in Hr; [|apply wp_Send]. eapply wp_Exec in He; [|apply wp_Send].
  assert (d1.(idempotency) !! sha256 (IdempotencyKey i1) = Some id1) as Hid.
  { destruct Hr as (_ & _ & _ & [(_ & Hid & ->)|(_ & _ & _ & row & _ & Hr)]); [done|].
    destruct Hr as [[_ [?|[]%not_faulty]]|[_ ->]]; [done|]. simpl. by rewrite lookup_insert_eq. }
  destruct He as (_ & _ & _ & He). rewrite Hk2 in He.
  destruct He as [(_ & He & ->)|(_ & _ & He & _)]; [by simplify_eq|].
  rewrite He in Hid by done. done.
Qed.

(** C10: a federated transaction answers every event exactly once, keeps the
    queue as it was and appends the new events as they came; accepted events
    are in the queue, and an event is rejected only when a statement fails,
    never because nobody has the address of its recipient (the reason
    [recipient_not_found] of docs/api/s2s-api.md does not exist in the code).
    After a delivery in which no statement failed, delivering the transaction
    again, at any time and whatever fails then, changes nothing. *)
Theorem AcceptTransaction_outcome F events now d r d' :
  Exec F (AcceptTransaction events now) d r d' →
  ∃ ar, r = Ok ar ∧ accept_post F events now d ar d' ∧
    (¬ faulty F → ∀ F2 now2 r2 d2,
       Exec F2 (AcceptTransaction events now2) d' r2 d2 → d2 = d').
Proof.
  clear dependent addr. clear rooms. intros He. eapply wp_Exec in He; [|apply wp_AcceptTransaction].
  destruct He as (ar & -> & Hp). exists ar. split; [done|]. split; [done|].
  intros HF F2 now2 r2 d2 He2. eapply wp_Exec in He2; [|apply wp_AcceptTransaction].
  destruct He2 as (ar2 & -> & _ & _ & _ & _ & new & -> & Hnew).
  destruct Hp as (Hperm & _ & Hacc & Hrej & _).
  assert (ar.2 = []) as Hnil by (destruct (ar.2); [done|by destruct HF; apply Hrej]).
  destruct new as [|row new]; [rewrite app_nil_r; by destruct d'|].
  destruct (Hnew row) as (e & Hin & _ & Hno); [by left|].
  rewrite Hacc in Hno; [done|]. rewrite Hnil, app_nil_r in Hperm.
  rewrite Hperm. apply list_elem_of_fmap. by exists e.
Qed.

(** Event ids stay unique and receipts refer to queued events, after
    every operation and failure. *)
Theorem relay_inv_preserved F o d r d' :
  Exec F (run_op o) d r d' → relay_inv d → relay_inv d'.
Proof. intros He Hi. exact (wp_Exec F _ (λ _ d', relay_inv d') d r d' (keeps_inv o F d Hi) He). Qed.

(** C13: synchronisation gives a user at most [limit] messages, all of them
    addressed to the user, to a room of the user, or sent by the user, and
    on later loads only undelivered ones; it marks as delivered at most the
    messages it returns and reports, and changes nothing else but the
    cursor. *)
Theorem Sync_outcome F user dev since limit d r d' :
  Exec F (Sync (Some rooms) user dev since limit) d r d' →
  sync_post F user dev since limit d r d'.
Proof. apply (wp_Exec _ _ (sync_post F user dev since limit d)), wp_Sync. Qed.

(** A room message reaches only the first member that synchronises:
    once a completed synchronisation has returned it, no incremental
    synchronisation of any other member or device returns it again. *)
Theorem Sync_consumes_room_message user dev since limit d events cur ups d1 e
    F user2 dev2 since2 limit2 events2 cur2 ups2 d2 e2 u :
  run (Sync (Some rooms) user dev since limit) d = (Ok (events, cur, ups), d1) →
  d.(users) !! user = Some u → ups ≠ [] → e ∈ events → e.(SSender) ≠ user_addr u →
  since2 ≠ "" →
  Exec F (Sync (Some rooms) user2 dev2 since2 limit2) d1 (Ok (events2, cur2, ups2)) d2 →
  e2 ∈ events2 → e2.(SEventID) ≠ e.(SEventID).
Proof.
  intros Hr Hu Hups He Hs Hs2 He2 Hin2 Heq. apply Exec_run in Hr.
  eapply wp_Exec in Hr; [|apply wp_Sync]. eapply wp_Exec in He2; [|apply wp_Sync].
  destruct Hr as (u' & Hu' & _ & _ & [[-> _]|(-> & q & cs & -> & Hq)]); [done|]. simplify_eq.
  destruct He2 as (u2 & _ & _ & Hev & _).
  destruct (Hev _ Hin2) as (row & Hrow & -> & _ & Hst). specialize (Hst Hs2). simpl in *.
  apply list_elem_of_lookup in Hrow as [n Hn].
  eapply Forall2_lookup_r in Hq as (r0 & _ & Hq); [|exact Hn].
  destruct Hq as [[-> Hnot]|[_ ->]]; [|done].
  apply (Hnot not_faulty). rewrite Heq. apply list_elem_of_fmap.
  exists (mkDeliveredUpdate e.(SSender) e.(SEventID)). split; [done|].
  apply list_elem_of_omap. exists e. split; [done|]. by rewrite bool_decide_eq_false_2.
Qed.

(** The first load loses the newest message: when a user has more
    readable messages than the limit, the page returned is full and lacks
    the newest readable message. *)
Theorem Sync_first_load_drops_newest user dev limit d u l :
  relay_inv d → d.(users) !! user = Some u →
  (∀ room, is_Some (d.(members) !! (room, user)) → is_Some (d.(Schema.rooms) !! room)) →
  l ⊆+ d.(queue) → (∀ r, r ∈ l → readable (user_addr u) user d r) →
  page_limit limit < length l →
  ∃ events cur newest,
    (run (Sync (Some rooms) user dev "" limit) d).1 = Ok (events, cur, []) ∧
    length events = page_limit limit ∧
    newest ∈ d.(queue) ∧ readable (user_addr u) user d newest ∧
    (∀ r, r ∈ d.(queue) → readable (user_addr u) user d r →
      (r.(q_created_at) ≤ newest.(q_created_at))%Z) ∧
    newest.(q_event_id) ∉ SEventID <$> events.
Proof.
  intros H1' H2' H3' H4' H5' H6'.
  exact (wp_run _ _ _ (wp_Sync_first user dev limit d u l H1' H2' H3' H4' H5' H6')).
Qed.

(** Read receipts are only recorded for messages the reader may read:
    each update names a queued message of its sender that was addressed to
    the reader or to a room of the reader, its receipt is stored, and the
    only change to the database is new receipts of the reader for the
    events reported. *)
Theorem MarkRead_outcome F reader user now eids d r d' :
  Exec F (MarkRead (Some rooms) reader user now eids) d r d' →
  ∃ ups, r = Ok ups ∧ read_post reader user now eids d ups d'.
Proof.
  apply (wp_Exec _ _ (λ r d', ∃ ups, r = Ok ups ∧ read_post reader user now eids d ups d')),
    wp_MarkRead.
Qed.
End spec.

(** ** Witnesses *)
#[local] Existing Instance toy_sha256.

Definition checker : RoomChecker := Rooms.rooms_checker "a.org".
Definition addr_of (room : Z) : string := Rooms.RoomAddr room "a.org".
#[local] Instance checker_laws : RoomCheckerLaws checker addr_of :=
  Rooms.rooms_checker_laws "a.org".

Lemma sample_inv : relay_inv sample_db.
Proof.
  split.
  - vm_compute. repeat (apply NoDup_cons; split; [apply not_elem_of_nil || (rewrite ?elem_of_cons, ?elem_of_nil; intuition discriminate)|]).
    apply NoDup_nil_2.
  - intros id reader t. unfold sample_db. simpl. by rewrite lookup_empty.
Qed.

Lemma Send_outcome_witness :
  send_post "a.org" no_faults 5 sample_send 1000 sample_db
    (run (Send "a.org" (Some checker) 5 sample_send 1000) sample_db).1
    (run (Send "a.org" (Some checker) 5 sample_send 1000) sample_db).2.
Proof.
  apply (Send_outcome "a.org" checker addr_of), Exec_run, surjective_pairing.
Defined.

Lemma Send_idempotent_witness :
  let d1 := (run (Send "a.org" (Some checker) 5 sample_send 1000) sample_db).2 in
  "m1" = "m1" ∧ d1 = d1.
Proof.
  intros d1. eapply (Send_idempotent "a.org" checker addr_of 5 6 sample_send sample_send 1000 2000
    "m1" "m1" no_faults sample_db d1 d1); [by vm_compute|done|done|].
  apply Exec_run. by vm_compute.
Defined.

Definition sample_events : list FederatedEvent :=
  [mkFederatedEvent "f1" "m" "@eve:b.org" "@ann:a.org" "d" "ct" "s" 0;
   mkFederatedEvent "e1" "m" "@eve:b.org" "@ann:a.org" "d" "ct" "s" 0].

Lemma AcceptTransaction_outcome_witness :
  let d' := (run (AcceptTransaction sample_events 50) sample_db).2 in
  ∃ ar, Ok (E := err) (["f1"; "e1"], []) = Ok ar ∧
    accept_post no_faults sample_events 50 sample_db ar d' ∧
    (¬ faulty no_faults → ∀ F2 now2 r2 d2,
       Exec F2 (AcceptTransaction sample_events now2) d' r2 d2 → d2 = d').
Proof. intros d'. apply (AcceptTransaction_outcome no_faults). apply Exec_run. by vm_compute. Defined.

(** An event for a user nobody knows is accepted. *)
Example unknown_recipient_accepted :
  (run (AcceptTransaction [mkFederatedEvent "f2" "m" "@eve:b.org" "@nobody:a.org" "d" "ct" "s" 0] 50)
     sample_db).1 = Ok (["f2"], []).
Proof. by vm_compute. Qed.

Lemma relay_inv_preserved_witness :
  relay_inv (run (run_op "a.org" checker (OpMarkRead "@ann:a.org" 1 60 ["e1"])) sample_db).2.
Proof.
  eapply (relay_inv_preserved "a.org" checker addr_of no_faults
    (OpMarkRead "@ann:a.org" 1 60 ["e1"]) sample_db); [|apply sample_inv].
  apply Exec_run, surjective_pairing.
Defined.

Lemma Sync_outcome_witness :
  let r := run (Sync (Some checker) 1 9 "" 10) sample_db in
  sync_post addr_of no_faults 1 9 "" 10 sample_db r.1 r.2.
Proof. intros r. apply (Sync_outcome checker addr_of), Exec_run, surjective_pairing. Defined.

(** A cursor that is no time gives an empty page, not an error. *)
Example malformed_since_empty :
  run (Sync (Some checker) 1 9 "soon" 10) sample_db = (Ok ([], "", []), sample_db).
Proof. by vm_compute. Qed.

(** Bob's room message, synchronised by Ann first, is lost for Cyd. *)
Definition room_event : SyncEvent :=
  mkSyncEvent "e1" "m" "@bob:a.org" "!7:a.org" "d" 0 "ct" "s" "queued".
Definition ann_event : SyncEvent :=
  mkSyncEvent "e2" "m" "@bob:a.org" "@ann:a.org" "d" 0 "ct" "s" "queued".
Definition cyd_event : SyncEvent :=
  mkSyncEvent "e3" "m" "@bob:a.org" "@cyd:a.org" "d" 0 "ct" "s" "queued".

Lemma Sync_consumes_room_message_witness :
  cyd_event.(SEventID) ≠ room_event.(SEventID).
Proof.
  apply (Sync_consumes_room_message checker addr_of 1 9 "" 10 sample_db [room_event; ann_event]
    "10" [mkDeliveredUpdate "@bob:a.org" "e1"; mkDeliveredUpdate "@bob:a.org" "e2"]
    (run (Sync (Some checker) 1 9 "" 10) sample_db).2 room_event
    no_faults 3 8 "0" 10 [cyd_event] "30" [mkDeliveredUpdate "@bob:a.org" "e3"]
    (run (Sync (Some checker) 3 8 "0" 10) (run (Sync (Some checker) 1 9 "" 10) sample_db).2).2
    cyd_event (UserRow "ann" "a.org" None)); try done.
  - by left.
  - apply Exec_run. by vm_compute.
  - by left.
Defined.

Lemma Sync_first_load_drops_newest_witness :
  ∃ events cur newest,
    (run (Sync (Some checker) 1 9 "" 1) sample_db).1 = Ok (events, cur, []) ∧
    length events = page_limit 1 ∧
    newest ∈ sample_db.(queue) ∧ readable addr_of "@ann:a.org" 1 sample_db newest ∧
    (∀ r, r ∈ sample_db.(queue) → readable addr_of "@ann:a.org" 1 sample_db r →
      (r.(q_created_at) ≤ newest.(q_created_at))%Z) ∧
    newest.(q_event_id) ∉ SEventID <$> events.
Proof.
  apply (Sync_first_load_drops_newest checker addr_of 1 9 1 sample_db (UserRow "ann" "a.org" None)
    (take 2 sample_db.(queue)) sample_inv).
  - done.
  - intros room [m Hm]. unfold sample_db in *. simpl in *.
    repeat (rewrite lookup_insert in Hm || rewrite lookup_singleton in Hm).
    repeat case_decide; simplify_eq; by eexists.
  - apply sublist_submseteq, sublist_take.
  - intros r [->|[->|[]%elem_of_nil]%elem_of_cons]%elem_of_cons.
    + right; right. exists 7%Z. split; [by vm_compute|by eexists].
    + by left.
  - apply Nat.ltb_lt. by vm_compute.
Defined.

Lemma MarkRead_outcome_witness :
  ∃ ups, (run (MarkRead (Some checker) "@ann:a.org" 1 60 ["e1"; "e3"]) sample_db).1 = Ok ups ∧
    read_post "@ann:a.org" 1 60 ["e1"; "e3"] sample_db ups
      (run (MarkRead (Some checker) "@ann:a.org" 1 60 ["e1"; "e3"]) sample_db).2.
Proof.
  apply (MarkRead_outcome checker addr_of no_faults), Exec_run, surjective_pairing.
Defined.

End Relay.
