(* ===== verification/RelayRace.v ===== *)
(** * The relay under requests that run at the same time

    [Send] and [AcceptTransaction] of [relay/relay.go], cut at their statements
    ([code]) and run together by [Interleave.step].  A check of the rooms
    service is one statement, reached through the interface [RoomChecker]. *)

From Stdlib Require Import Ascii String.
From stdpp Require Import strings.
From S2P Require Import Prelude Interleave GoStrings Encoding Crypto Schema Samples RoomChecker Rooms Relay.
Set Default Goal Selector "!".
Open Scope stdpp_scope.

Module RelayRace.
Import Interleave Relay.

Inductive request :=
| OpSend (fresh : Z) (i : SendInput) (now : Z)
| OpAccept (events : list FederatedEvent) (now : Z).

Inductive reply :=
| Sent (id : string)
| Processed (accepted rejected : list string).

Section service.
Context `{UuidLib, PgText, Sha256}.
Context (domain : string) (rooms : RoomChecker).

Implicit Types (o : request) (d : DB) (seen : list DB) (i : SendInput).

Definition method (o : request) : M DB err reply :=
  match o with
  | OpSend fresh i now => id ← Send domain (Some rooms) fresh i now; mret (Sent id)
  | OpAccept events now => ar ← AcceptTransaction events now; mret (Processed ar.1 ar.2)
  end.

(** ** The methods, cut *)
Definition checkUser (i : SendInput) : prog DB err unit :=
  let username := dm_username i.(Recipient) in
  if bool_decide (username = "") then mret tt
  else
    ex ← or_throw ErrDb (asks (λ d, exists_row (λ _ u,
      bool_decide (pg_lower u.(u_username) = pg_lower username) &&
      bool_decide (u.(u_domain) = domain)) d.(users)));
    if (ex : bool) then mret tt else throw ErrRecipientNotFound.

Definition checkRoom (i : SendInput) : prog DB err unit :=
  let '(roomID, _, ok) := Rooms.ParseRoomAddr i.(Recipient) in
  if negb ok then throw ErrInvalidRoomAddress
  else
    match uuid_parse roomID with
    | None => throw ErrInvalidRoomID
    | Some rid =>
      member ← whole (attempt (rc_IsMember rid i.(SenderUserID)));
      match member with
      | Ok true => mret tt
      | _ => throw ErrNotRoomMember
      end
    end.

Definition checkRecipient (i : SendInput) : prog DB err unit :=
  if Rooms.IsRoomAddr i.(Recipient) then checkRoom i else checkUser i.

Definition replayedID (i : SendInput) : prog DB err (option string) :=
  if bool_decide (i.(IdempotencyKey) = "") then mret None
  else or_throw ErrDb (asks (λ d, d.(idempotency) !! sha256 i.(IdempotencyKey))).

Definition storeMessage (id : string) (i : SendInput) (now : Z) : prog DB err unit :=
  let keyed := bool_decide (i.(Ciphertexts) = ∅) in
  or_throw ErrDb (does (insert_message id i.(Sender) i.(Recipient) i.(SenderDevice)
    (if keyed then i.(Ciphertext) else "")
    (if keyed then None else Some i.(Ciphertexts))
    i.(SessionID) i.(Timestamp) (now + defaultTTLDays * 24 * hour) now)).

Definition send (fresh : Z) (i : SendInput) (now : Z) : prog DB err string :=
  let id := send_event_id fresh i in
  if bool_decide (i.(Timestamp) < unix now - replayWindowSec)%Z then throw ErrReplayTimestamp
  else if bool_decide (i.(Timestamp) > unix now + futureToleranceSec)%Z
  then throw ErrReplayTimestamp
  else
    let rd := extractDomain i.(Recipient) in
    if negb (bool_decide (rd = "")) && negb (bool_decide (rd = domain))
    then throw (ErrRemoteRecipient id)
    else
      _ ← checkRecipient i;
      old ← replayedID i;
      match old with
      | Some existing => mret existing
      | None =>
        _ ← storeMessage id i now;
        _ ← (if bool_decide (i.(IdempotencyKey) = "") then mret None
             else does (insert_idempotency (sha256 i.(IdempotencyKey)) id));
        mret id
      end.

Definition acceptEvent (e : FederatedEvent) (now : Z) : prog DB err bool :=
  ex ← asks (has_event e.(FEventID));
  match ex with
  | Some true => mret true
  | _ =>
    r ← does (insert_message e.(FEventID) e.(FSender) e.(FRecipient) e.(FSenderDevice)
                e.(FCiphertext) None e.(FSessionID) e.(FTimestamp)
                (now + defaultTTLDays * 24 * hour) now);
    mret match r with Some _ => true | None => false end
  end.

Fixpoint acceptTransaction (events : list FederatedEvent) (now : Z) : prog DB err (list string * list string) :=
  match events with
  | [] => mret ([], [])
  | e :: events =>
    ok ← acceptEvent e now;
    ar ← acceptTransaction events now;
    mret (if (ok : bool) then (e.(FEventID) :: ar.1, ar.2) else (ar.1, e.(FEventID) :: ar.2))
  end.

Definition code (o : request) : prog DB err reply :=
  match o with
  | OpSend fresh i now => id ← send fresh i now; mret (Sent id)
  | OpAccept events now => ar ← acceptTransaction events now; mret (Processed ar.1 ar.2)
  end.

(** *** Alone they are the methods *)
Lemma ic_acceptTransaction events now : is_code (acceptTransaction events now) (AcceptTransaction events now).
Proof.
  induction events as [|e events IH]; [apply ic_ret|]. cbn [acceptTransaction AcceptTransaction].
  apply ic_bind; [unfold acceptEvent, accept_event; repeat ic_step|]. intros ok. apply ic_bind; [exact IH|].
  intros. apply ic_ret.
Qed.

Theorem relay_code_alone o : is_code (code o) (method o).
Proof.
  destruct o as [fresh i now|events now]; cbn [code method].
  - unfold send, Send, checkRecipient, check_recipient, checkRoom, check_room, checkUser, check_user,
      replayedID, replayed, storeMessage, store_message. repeat ic_step.
  - apply ic_bind; [apply ic_acceptTransaction|]. intros. apply ic_ret.
Qed.

(** ** What a request may store, and what it replies *)
Context (addr : Z → string) `{!RoomCheckerLaws rooms addr}.

Definition known_user (username : string) (d : DB) : Prop :=
  exists_row (λ _ u, bool_decide (pg_lower u.(u_username) = pg_lower username) &&
    bool_decide (u.(u_domain) = domain)) d.(users) = true.

(** The recipient was seen to be a room of the sender, or a user of the
    server. *)
Definition may_write seen (i : SendInput) : Prop :=
  if Rooms.IsRoomAddr i.(Recipient) then
    ∃ room dom rid d, Rooms.ParseRoomAddr i.(Recipient) = (room, dom, true) ∧ uuid_parse room = Some rid ∧
      d ∈ seen ∧ is_Some (d.(members) !! (rid, i.(SenderUserID)))
  else dm_username i.(Recipient) = "" ∨ ∃ d, d ∈ seen ∧ known_user (dm_username i.(Recipient)) d.

Definition timely (i : SendInput) (now : Z) : Prop :=
  (unix now - replayWindowSec ≤ i.(Timestamp) ≤ unix now + futureToleranceSec)%Z.

Definition local (i : SendInput) : Prop :=
  extractDomain i.(Recipient) = "" ∨ extractDomain i.(Recipient) = domain.

Definition message (fresh : Z) (i : SendInput) (now : Z) (d : DB) : option DB :=
  let keyed := bool_decide (i.(Ciphertexts) = ∅) in
  insert_message (send_event_id fresh i) i.(Sender) i.(Recipient) i.(SenderDevice)
    (if keyed then i.(Ciphertext) else "") (if keyed then None else Some i.(Ciphertexts))
    i.(SessionID) i.(Timestamp) (now + defaultTTLDays * 24 * hour) now d.

Definition stored (id : string) seen : Prop := ∃ d, d ∈ seen ∧ has_event id d = true.

Inductive authorised seen d : request → DB → Prop :=
| au_message fresh i now d0 d' :
    timely i now → local i → may_write seen i →
    (i.(IdempotencyKey) ≠ "" → d0 ∈ seen ∧ d0.(idempotency) !! sha256 i.(IdempotencyKey) = None) →
    message fresh i now d = Some d' → authorised seen d (OpSend fresh i now) d'
| au_key fresh i now d' :
    i.(IdempotencyKey) ≠ "" → stored (send_event_id fresh i) seen →
    insert_idempotency (sha256 i.(IdempotencyKey)) (send_event_id fresh i) d = Some d' →
    authorised seen d (OpSend fresh i now) d'
| au_event events now e d' :
    e ∈ events →
    insert_message e.(FEventID) e.(FSender) e.(FRecipient) e.(FSenderDevice) e.(FCiphertext) None e.(FSessionID)
      e.(FTimestamp) (now + defaultTTLDays * 24 * hour) now d = Some d' →
    authorised seen d (OpAccept events now) d'.

Definition replies (o : request) seen (r : result err reply) : Prop :=
  match o, r with
  | OpSend fresh i now, Ok (Sent id) =>
    stored id seen ∨ ∃ d, d ∈ seen ∧ d.(idempotency) !! sha256 i.(IdempotencyKey) = Some id
  | OpAccept events _, Ok (Processed ok bad) =>
    ok ++ bad ≡ₚ FEventID <$> events ∧ ∀ id, id ∈ ok → stored id seen
  | _, _ => True
  end.

Lemma stored_more id l seen : stored id seen → stored id (l ++ seen).
Proof. intros (d & Hd & Hs). exists d. split; [set_solver|done]. Qed.

Lemma may_write_more l seen i : may_write seen i → may_write (l ++ seen) i.
Proof.
  unfold may_write. case_match.
  - intros (room & dom & rid & d & ? & ? & ? & ?). exists room, dom, rid, d. set_solver.
  - intros [?|(d & ? & ?)]; [by left|]. right. exists d. set_solver.
Qed.

Section rules.
Context (ok : list DB → DB → DB → Prop).

Definition when {A} (P : list DB → A → Prop) (l : list DB) (r : result err A) : Prop :=
  match r with Ok a => P l a | Err _ => True end.

Lemma safe_checkRecipient seen i : safe ok (when (λ l _, may_write l i)) seen (checkRecipient i).
Proof.
  unfold checkRecipient, may_write. destruct (Rooms.IsRoomAddr (Recipient i)) eqn:Hr.
  - unfold checkRoom. destruct (Rooms.ParseRoomAddr (Recipient i)) as [[room dom] b] eqn:Hp.
    destruct b; [|by intros l]. cbn [negb]. destruct (uuid_parse room) as [rid|] eqn:Hu; [|by intros l].
    intros l d Hd%head_elem F r d' He.
    assert (wp (E:=err) F (attempt (rc_IsMember rid (SenderUserID i))) (λ r d', d' = d ∧
      match r with Ok (Ok true) => is_Some (d.(members) !! (rid, SenderUserID i)) | _ => True end) d) as Hw.
    { apply wp_attempt. eapply wp_mono; [apply rc_is_member|].
      intros r1 d1 [-> Hr1]. split; [done|]. destruct r1 as [[]|]; [by apply Hr1|done..]. }
    destruct (wp_Exec _ _ _ _ _ _ Hw He) as [-> Hm].
    split; [by left|]. destruct r as [[[]|]|]; cbn; try done. intros l1. exists room, dom, rid, d.
    split; [done|]. split; [done|]. split; [set_solver|done].
  - unfold checkUser. case_bool_decide as Hn; [intros l; by left|].
    apply safe_throws_asks; [done|]. intros d l Hd. cbn beta. case_match eqn:Hk; [|by intros l1].
    intros l1. right. exists d. split; [set_solver|done].
Qed.
End rules.

Lemma insert_message_stored id a b c e f g h t u d d' :
  insert_message id a b c e f g h t u d = Some d' → has_event id d' = true.
Proof.
  unfold insert_message. case_match; [done|]. intros [= <-]. unfold has_event. cbn. apply existsb_exists.
  eexists. rewrite in_app_iff. split; [right; by left|]. cbn. by apply bool_decide_eq_true.
Qed.

Definition reply_seen (i : SendInput) seen (id : string) : Prop :=
  stored id seen ∨ ∃ d, d ∈ seen ∧ d.(idempotency) !! sha256 i.(IdempotencyKey) = Some id.

Lemma reply_seen_more i l seen id : reply_seen i seen id → reply_seen i (l ++ seen) id.
Proof. intros [?|(d & Hd & ?)]; [left; by apply stored_more|right; exists d; split; [set_solver|done]]. Qed.

(** The idempotency key was seen unused, or used for [id]. *)
Definition key_seen (i : SendInput) seen (old : option string) : Prop :=
  match old with
  | Some id => ∃ d, d ∈ seen ∧ d.(idempotency) !! sha256 i.(IdempotencyKey) = Some id
  | None => i.(IdempotencyKey) ≠ "" → ∃ d, d ∈ seen ∧ d.(idempotency) !! sha256 i.(IdempotencyKey) = None
  end.

Lemma safe_replayedID ok seen i : safe ok (when (key_seen i)) seen (replayedID i).
Proof.
  unfold replayedID. case_bool_decide as Hk; [by intros l ?|].
  intros l d Hd%head_elem. split; [|by intros l1]. intros x d' [= <- <-]. split; [by left|]. intros l1.
  cbn. destruct (idempotency d !! sha256 (IdempotencyKey i)) as [id|] eqn:Hid; cbn; [|intros _]; exists d; (split; [set_solver|done]).
Qed.

Lemma safe_send fresh i now d :
  safe (λ l d d', authorised l d (OpSend fresh i now) d') (when (reply_seen i)) [d] (send fresh i now).
Proof.
  unfold send. case_bool_decide as Hlo; [by intros l|]. case_bool_decide as Hhi; [by intros l|].
  destruct (_ && _) eqn:Hloc; [by intros l|].
  assert (timely i now) as Ht by (unfold timely; lia).
  assert (local i) as Hl.
  { unfold local. apply andb_false_iff in Hloc as [Hn|Hn]; apply negb_false_iff, bool_decide_eq_true in Hn; auto. }
  apply (safe_bind _ _ (when (λ l _, may_write l i))); [apply safe_checkRecipient|intros l1 [] Hm|done].
  apply (safe_bind _ _ (when (λ l old, may_write l i ∧ key_seen i l old))); [|intros l2 old [Hm2 Hk]|done].
  { apply (safe_mono (λ l d d', authorised l d (OpSend fresh i now) d') _ (when (key_seen i))); [apply safe_replayedID|by intros|]. intros l [old|]; [|by intros]. intros Hk. split; [by apply may_write_more|done]. }
  destruct old as [id|]; [intros l; apply reply_seen_more; by right|].
  apply safe_throws_then; [done|]. intros d1 l3 d2 Hd1 Hi. pose proof (insert_message_stored _ _ _ _ _ _ _ _ _ _ _ _ Hi) as Hs.
  destruct (decide (i.(IdempotencyKey) = "")) as [He|He].
  - split; [|rewrite bool_decide_true by done; intros l4; left; exists d2; set_solver].
    eapply (au_message _ _ _ _ _ d1); [done|done|by apply may_write_more|done|exact Hi].
  - split.
    + destruct (Hk He) as (d0 & Hd0 & Hn). eapply (au_message _ _ _ _ _ d0); [done|done|by apply may_write_more| |exact Hi].
      intros _. split; [set_solver|done].
    + rewrite bool_decide_false by done. apply safe_does.
      * intros d3 l4 d4 _ Hins. split.
        -- eapply au_key; [done| |done]. exists d2. set_solver.
        -- intros l5. left. exists d2. set_solver.
      * intros d3 l4 l5. left. exists d2. set_solver.
Qed.

Definition handled (events : list FederatedEvent) seen (ar : list string * list string) : Prop :=
  ar.1 ++ ar.2 ≡ₚ FEventID <$> events ∧ ∀ id, id ∈ ar.1 → stored id seen.

Lemma safe_acceptEvent events e now seen :
  e ∈ events →
  safe (λ l d d', authorised l d (OpAccept events now) d')
    (when (λ l (ok : bool), ok = true → stored e.(FEventID) l)) seen (acceptEvent e now).
Proof.
  intros He.
  assert (∀ seen1, safe (λ l d d', authorised l d (OpAccept events now) d')
    (when (λ l (ok : bool), ok = true → stored e.(FEventID) l)) seen1
    (r ← does (insert_message e.(FEventID) e.(FSender) e.(FRecipient) e.(FSenderDevice)
                e.(FCiphertext) None e.(FSessionID) e.(FTimestamp)
                (now + defaultTTLDays * 24 * hour) now);
     mret match r with Some _ => true | None => false end)) as Hins.
  { intros seen1. apply safe_does; [|by intros d l l1].
    intros d l d' _ Hi. split; [by eapply au_event|]. intros l1 _.
    apply insert_message_stored in Hi. exists d'. split; [set_solver|done]. }
  apply safe_asks; [|intros d l; apply Hins]. intros d l _. cbn beta iota.
  destruct (has_event (FEventID e) d) eqn:Hev; [|apply Hins]. intros l1 _. exists d. split; [set_solver|done].
Qed.

Lemma safe_acceptTransaction all now events seen :
  events ⊆ all →
  safe (λ l d d', authorised l d (OpAccept all now) d') (when (handled events)) seen (acceptTransaction events now).
Proof.
  revert seen. induction events as [|e events IH]; intros seen Hs; [intros l; split; [done|]; by intros id ?%elem_of_nil|].
  cbn [acceptTransaction]. eapply safe_bind; [apply safe_acceptEvent; set_solver|intros l1 b Hb|done].
  apply (safe_bind _ _ (when (λ l ar, handled events l ar ∧ (b = true → stored e.(FEventID) l)))); [|intros l2 [ok bad] [[Hp Hok] Hb2]|done].
  - apply (safe_mono (λ l d d', authorised l d (OpAccept all now) d') _ (when (handled events)));
      [apply IH; set_solver|by intros|].
    intros l [ar|]; [|by intros]. intros Har. split; [done|]. intros ?. by apply stored_more, Hb.
  - intros l3. unfold handled in *. destruct b; cbn in *.
    + split; [by f_equiv|]. intros id [->|Hin]%elem_of_cons; apply stored_more; auto.
    + split; [by rewrite <- Permutation_middle, Hp|]. intros id Hin. by apply stored_more, Hok.
Qed.

Lemma relay_code_safe o d : safe (λ l d d', authorised l d o d') (λ l, replies o l) [d] (code o).
Proof.
  destruct o as [fresh i now|events now]; cbn [code].
  - apply (safe_bind _ _ (when (reply_seen i))); [apply safe_send|intros l id Hid|done].
    intros l1. by apply reply_seen_more.
  - apply (safe_bind _ _ (when (handled events))); [by apply safe_acceptTransaction|intros l [ok bad] [Hp Hok]|done].
    intros l1. split; [done|]. intros id Hin. by apply stored_more, Hok.
Qed.

(** C12: However the statements of concurrent requests to the relay are
    interleaved: a message is stored only in time, for this server, by a
    sender who was seen to be a member of the room or for a recipient who was
    seen to exist, and with an idempotency key that was seen unused; other
    servers add only the events of their transactions; and the id that is
    replied was stored or found under the key. *)
Theorem messages_authorised_together d0 s (n : nat) t :
  reach code d0 s → sys_threads s !! n = Some t →
  (∀ p d, pstep (th_prog t) (sys_db s) p d →
     d = sys_db s ∨ authorised (th_seen t) (sys_db s) (th_op t) d) ∧
  (∀ r, th_prog t = Stop r → replies (th_op t) (th_seen t) r).
Proof.
  intros Hr Hi. split.
  - intros p d Hp.
    by apply (safe_reach code (λ o l d d', authorised l d o d') (λ o l, replies o l) relay_code_safe d0 s n t p d).
  - intros r Ht. destruct t as [o l p]. cbn in *. subst p.
    by apply (safe_result code (λ o l d d', authorised l d o d') (λ o l, replies o l) relay_code_safe d0 s n).
Qed.
End service.

(** ** Races *)
Module Sample.
#[local] Existing Instance toy_sha256.

Abbreviation sys := (system request DB err reply).
Abbreviation sample_code := (code "a.org" Relay.checker).

Definition after (us : list (turn (O:=request))) : sys := foldl (take_turn sample_code) (System sample_db []) us.

Lemma after_relay_reach us : reach sample_code sample_db (after us).
Proof. apply turns_reach. constructor. Qed.

(** A client sends one message, without an id, twice with one idempotency
    key. *)
Definition retry : SendInput := mkSendInput "" "@ann:a.org" "!7:a.org" 1 "d" "ct" ∅ "s" 1000 "key".

Definition in_turn (n : nat) : list (turn (O:=request)) := concat (replicate n [Runs 0; Runs 1]).

Definition sent_twice : sys := after (Arrives (OpSend 5 retry 1000000000000) :: Arrives (OpSend 6 retry 1000000000000) :: in_turn 4).
Lemma stored_twice :
  reach sample_code sample_db sent_twice ∧
  th_prog <$> sys_threads sent_twice = [Stop (Ok (Sent "evt_5")); Stop (Ok (Sent "evt_6"))] ∧
  (q_event_id <$> (sys_db sent_twice).(queue)) = ["e1"; "e2"; "e3"; "evt_5"; "evt_6"].
Proof. split; [apply after_relay_reach|]. split; by vm_compute. Qed.

(** Another server delivers one transaction twice at the same time: the
    second delivery is told that its event was rejected. *)
Definition delivery : request := OpAccept [mkFederatedEvent "f1" "m" "@eve:b.org" "@ann:a.org" "d" "ct" "s" 0] 50.

Definition delivered_twice : sys := after (Arrives delivery :: Arrives delivery :: in_turn 2).

Lemma rejected_though_stored :
  reach sample_code sample_db delivered_twice ∧
  th_prog <$> sys_threads delivered_twice = [Stop (Ok (Processed ["f1"] [])); Stop (Ok (Processed [] ["f1"]))] ∧
  has_event "f1" (sys_db delivered_twice) = true.
Proof. split; [apply after_relay_reach|]. split; by vm_compute. Qed.

Lemma messages_authorised_together_witness :
  let t := default (Thread delivery [] (Stop (Err ErrDb))) (sys_threads sent_twice !! 1) in
  replies (th_op t) (th_seen t) (Ok (Sent "evt_6")).
Proof.
  intros t. destruct (messages_authorised_together "a.org" Relay.checker Relay.addr_of (RoomCheckerLaws0 := Rooms.rooms_checker_laws "a.org")
    sample_db sent_twice 1 t (after_relay_reach _) ltac:(by vm_compute)) as [_ Hr].
  apply Hr. by vm_compute.
Defined.
End Sample.
End RelayRace.
