(* ===== verification/Paging.v ===== *)
(** * Reading a mailbox page by page ([Sync] of [server/internal/relay/relay.go])

    What a device receives that synchronises with the cursor of each page until
    a page is empty. *)

From Stdlib Require Import Ascii String.
From stdpp Require Import strings.
From S2P Require Import Prelude GoStrings Encoding Crypto Schema Samples RoomChecker Rooms Relay.
Set Default Goal Selector "!".
Open Scope stdpp_scope.

Module Paging.
Import Relay.

(** ** Sorted lists *)
Definition newer (a b : queue_row) : Prop := (a.(q_created_at) < b.(q_created_at))%Z.

Lemma sorted_strict l :
  StronglySorted created_asc l → NoDup l →
  (∀ a b, a ∈ l → b ∈ l → a.(q_created_at) = b.(q_created_at) → a = b) → StronglySorted newer l.
Proof.
  induction 1 as [|a l Hs IH Hall]; intros Hnd Hd; [constructor|]. apply NoDup_cons in Hnd as [Hn Hnd].
  constructor.
  - apply IH; [done|]. intros x y Hx Hy. apply Hd; by right.
  - apply Forall_forall. intros b Hb. rewrite Forall_forall in Hall. pose proof (Hall b Hb) as Hle.
    unfold created_asc, newer in *. destruct (decide (q_created_at a = q_created_at b)) as [He|]; [|lia].
    destruct Hn. by rewrite (Hd a b ltac:(by left) ltac:(by right) He).
Qed.

Lemma sorted_unique l l' :
  StronglySorted newer l → StronglySorted newer l' → (∀ r, r ∈ l ↔ r ∈ l') → l = l'.
Proof.
  intros Hs. revert l'. induction Hs as [|a l Hs IH Ha]; intros l' Hs' He.
  - destruct l' as [|b l']; [done|]. by destruct (not_elem_of_nil b); apply He; left.
  - destruct Hs' as [|b l' Hs' Hb]; [by destruct (not_elem_of_nil a); apply He; left|].
    rewrite Forall_forall in Ha. rewrite Forall_forall in Hb.
    assert (a = b) as ->.
    { destruct (proj1 (elem_of_cons _ _ _) (proj1 (He a) ltac:(by left))) as [|Hin]; [done|].
      destruct (proj1 (elem_of_cons _ _ _) (proj2 (He b) ltac:(by left))) as [|Hin']; [done|].
      pose proof (Hb a Hin). pose proof (Ha b Hin'). unfold newer in *. lia. }
    f_equal. apply IH; [done|]. intros r. split; intros Hr.
    + destruct (proj1 (elem_of_cons _ _ _) (proj1 (He r) ltac:(by right))) as [->|]; [|done].
      pose proof (Ha b Hr). unfold newer in *. lia.
    + destruct (proj1 (elem_of_cons _ _ _) (proj2 (He r) ltac:(by right))) as [->|]; [|done].
      pose proof (Hb b Hr). unfold newer in *. lia.
Qed.

(** The rows after the one at [n] are those newer than it. *)
Lemma sorted_drop l n x r :
  StronglySorted newer l → l !! n = Some x → r ∈ drop (S n) l ↔ r ∈ l ∧ newer x r.
Proof.
  intros Hs. revert n. induction Hs as [|a l Hs IH Ha]; intros n Hx; [done|].
  rewrite Forall_forall in Ha. destruct n as [|n]; simpl in *.
  - injection Hx as ->. rewrite drop_0, elem_of_cons. split; [intros Hr; split; [by right|by apply Ha]|].
    intros [[->|] Hn]; [unfold newer in Hn; lia|done].
  - rewrite (IH _ Hx), elem_of_cons. split; [intros []; split; [by right|done]|]. intros [[->|] Hn]; [|done].
    apply list_elem_of_lookup_2, Ha in Hx. unfold newer in *. lia.
Qed.

Lemma sorted_drop_sorted l n : StronglySorted newer l → StronglySorted newer (drop n l).
Proof.
  revert n. induction l as [|a l IH]; intros [|n] Hs; try done. simpl. apply IH. by inversion Hs.
Qed.

(** The last of pages of [k] rows, which is full when they come out even. *)
Definition last_page {A} (k : nat) (l : list A) : list A := drop ((length l - 1) / k * k) l.

Lemma last_page_short {A} k (l : list A) : length l ≤ k → last_page k l = l.
Proof.
  intros Hl. unfold last_page. destruct k as [|k]; [by rewrite Nat.mul_0_r|].
  rewrite Nat.div_small by lia. done.
Qed.

Lemma last_page_drop {A} k (l : list A) : 0 < k → k < length l → last_page k (drop k l) = last_page k l.
Proof.
  intros Hk Hl. unfold last_page. rewrite drop_drop, length_drop.
  replace (length l - 1) with ((length l - k - 1) + 1 * k) by lia.
  rewrite Nat.div_add by lia. f_equal. lia.
Qed.

(** ** Polling *)
Section paging.
Context `{UuidLib, PgText, Sha256}.
Context (rooms : RoomChecker) (addr : Z → string).

(** At most [n] calls of [Sync], each with the cursor of the one before, until
    a page is empty. *)
Fixpoint poll (n : nat) (user dev : Z) (since : string) (limit : Z) : M DB err (list SyncEvent) :=
  match n with
  | 0 => mret []
  | S n =>
    page ← Sync (Some rooms) user dev since limit;
    match page.1.1 with
    | [] => mret []
    | events => rest ← poll n user dev page.1.2 limit; mret (events ++ rest)
    end
  end.

(** A message that waits for the user, newer than [t]. *)
Definition pending (me : string) (user t : Z) (d : DB) (r : queue_row) : Prop :=
  readable addr me user d r ∧ r.(q_status) = "queued" ∧ (t < r.(q_created_at))%Z.

(** [rows]: what waits, in the order of arrival. *)
Definition mailbox (me : string) (user t : Z) (d : DB) (rows : list queue_row) : Prop :=
  StronglySorted newer rows ∧ ∀ r, r ∈ rows ↔ r ∈ d.(queue) ∧ pending me user t d r.

(** The events of [rows] that others sent. *)
Definition received (me : string) (rows : list queue_row) : list string :=
  q_event_id <$> List.filter (λ r, negb (bool_decide (r.(q_sender) = me))) rows.

Lemma received_updates me dev rows :
  DEventID <$> updates_of me (sync_event me dev <$> rows) = received me rows.
Proof.
  unfold received, updates_of. induction rows as [|r rows IH]; [done|]. csimpl. unfold sync_event at 1 2.
  cbn [SSender SEventID]. case_bool_decide; simpl; [done|]. by f_equal.
Qed.

(** What the rows of one page make of the database. *)
Definition page_post (limit : nat) (me : string) (dev : Z) (rows : list queue_row) (d : DB)
    (r : result err (list SyncEvent * string * list DeliveredUpdate)) (d' : DB) : Prop :=
  if limit <? length rows then
    ∃ x, rows !! (limit - 1) = Some x ∧ d' = d ∧
      r = Ok (sync_event me dev <$> take limit rows, format_nano x.(q_created_at), [])
  else
    ∃ q cs ups, d' = with_cursors cs (with_queue q d) ∧ marks True (received me rows) d.(queue) q ∧
      r = Ok (sync_event me dev <$> rows,
              match last rows with Some x => format_nano x.(q_created_at) | None => "" end, ups).

Section proofs.
Context `{!RoomCheckerLaws rooms addr, !PgLaws}.
Context (user dev limit : Z).

Lemma marks_nil all q : marks all [] q q.
Proof.
  apply Forall2_same_length_lookup. split; [done|]. intros i x y Hx Hy. left. simplify_eq.
  split; [done|]. intros _ ?%elem_of_nil. done.
Qed.

Lemma wp_page u t since d rows :
  d.(users) !! user = Some u → since ≠ "" → pg_timestamptz since = Some t →
  (∀ room, is_Some (d.(members) !! (room, user)) → is_Some (d.(Schema.rooms) !! room)) →
  (∀ vis : queue_row → bool, (∀ r, vis r = true ↔ pending (user_addr u) user t d r) →
     merge_sort created_asc (List.filter vis d.(queue)) = rows) →
  wp no_faults (Sync (Some rooms) user dev since limit)
    (page_post (page_limit limit) (user_addr u) dev rows d) d.
Proof.
  intros Hu Hs Ht Hfk Hrows. unfold Sync.
  apply wp_bind, wp_or_raise, wp_query_nf. cbn beta iota. rewrite Hu.
  apply wp_bind, (wp_recipients_of rooms addr). intros rcp Hrcp Hme Hall. specialize (Hall not_faulty).
  assert (∀ r, visible rcp (user_addr u) (Some t) r = true ↔ pending (user_addr u) user t d r) as Hvis.
  { intros r. unfold visible, pending, readable.
    rewrite !andb_true_iff, orb_true_iff, !bool_decide_eq_true. split.
    - intros [[Hr|?] ?]; (split; [|done]); [|by right; left]. destruct (Hrcp _ Hr); auto.
    - intros [Hr ?]. split; [|done]. destruct Hr as [->|[?|(room & -> & Hm)]]; [by left|by right|left]. apply Hall; auto. }
  apply wp_bind, wp_or_raise, wp_query_nf. cbn beta iota.
  unfold since_param. rewrite bool_decide_eq_false_2, Ht by done. cbn [fmap option_fmap option_map].
  apply wp_bind, wp_fetch. intros rows' _ [[]%not_faulty| ->].
  unfold sync_rows. rewrite (Hrows _ Hvis). unfold page_post, page_cursor.
  set (k := page_limit limit).
  assert (0 < k) as Hk by (unfold k, page_limit; case_match; lia).
  destruct (Nat.ltb_spec k (length rows)) as [Hl|Hl].
  - rewrite length_fmap, length_take.
    rewrite (proj2 (Nat.ltb_lt k _)) by lia. apply wp_ret.
    destruct (lookup_lt_is_Some_2 rows (k - 1)) as [x Hx]; [lia|]. exists x. split; [done|]. split; [done|].
    rewrite lookup_take_lt, Hx by lia. rewrite <- fmap_take, take_take. by replace (k `min` (k + 1)) with k by lia.
  - rewrite take_ge by lia. rewrite length_fmap, (proj2 (Nat.ltb_ge k _)) by lia.
    destruct rows as [|r0 rows0] eqn:Hr.
    { simpl. apply wp_ret. exists d.(queue), d.(cursors), []. split; [by destruct d|]. split; [apply marks_nil|done]. }
    rewrite <- Hr in *. replace (0 <? length rows) with true by by rewrite Hr.
    apply wp_bind, (wp_marks _ _ d); [done|]. intros q Hq. rewrite received_updates in Hq.
    assert (marks True (received (user_addr u) rows) (queue d) q) as Hm.
    { eapply Forall2_impl; [exact Hq|]. intros x y [[-> Hx]|?]; [left|by right]. split; [done|]. intros _.
      by apply Hx, not_faulty. }
    apply wp_bind, wp_exec.
    + apply wp_ret. exists q, d.(cursors). eexists. split; [by destruct d|]. done.
    + intros d' Hc. apply wp_ret. unfold upsert_cursor in Hc. case_match; [|done]. simplify_eq.
      eexists q, _, _. done.
Qed.

(** *** All pages *)

(** Two waiting messages that came at the same time are one. *)
Definition distinct_times (me : string) (t : Z) (d : DB) : Prop :=
  ∀ a b, a ∈ d.(queue) → b ∈ d.(queue) → pending me user t d a → pending me user t d b →
    a.(q_created_at) = b.(q_created_at) → a = b.

Lemma mailbox_sorted me t d rows (vis : queue_row → bool) :
  relay_inv d → distinct_times me t d → (∀ r, vis r = true ↔ pending me user t d r) →
  mailbox me user t d rows → merge_sort created_asc (List.filter vis d.(queue)) = rows.
Proof.
  intros [Hnd _] Hd Hvis [Hs Hr]. set (sel := List.filter vis d.(queue)).
  assert (∀ r, r ∈ sel ↔ r ∈ d.(queue) ∧ pending me user t d r) as Hsel.
  { intros r. unfold sel. rewrite <- Hvis, !list_elem_of_In. apply filter_In. }
  apply sorted_unique; [|done|intros r; by rewrite merge_sort_Permutation, Hsel, Hr].
  apply sorted_strict; [apply StronglySorted_merge_sort; [intros a b c|intros a b]; unfold created_asc; lia| |].
  - rewrite merge_sort_Permutation. by apply (NoDup_fmap_1 q_event_id), NoDup_ids_filter.
  - intros a b. rewrite !merge_sort_Permutation, !Hsel. intros [] []. by apply Hd.
Qed.

(** Nothing waits. *)
Lemma mailbox_empty me t d (vis : queue_row → bool) :
  (∀ r, vis r = true ↔ pending me user t d r) → (∀ r, r ∈ d.(queue) → ¬ pending me user t d r) →
  merge_sort created_asc (List.filter vis d.(queue)) = [].
Proof.
  intros Hvis Hno. apply Permutation_nil_r. rewrite merge_sort_Permutation.
  destruct (List.filter vis (queue d)) as [|r l] eqn:Hf; [done|].
  assert (r ∈ List.filter vis (queue d)) as Hin by (rewrite Hf; by left).
  apply list_elem_of_In, filter_In in Hin as [Hq Hv]. apply list_elem_of_In in Hq. by apply Hvis, Hno in Hv.
Qed.

(** The page after a full one. *)
Lemma mailbox_after me t d rows n x :
  mailbox me user t d rows → rows !! n = Some x →
  mailbox me user x.(q_created_at) d (drop (S n) rows).
Proof.
  intros [Hs Hr] Hx. split; [by apply sorted_drop_sorted|]. intros r. rewrite (sorted_drop _ _ _ _ Hs Hx), Hr.
  apply list_elem_of_lookup_2, Hr in Hx as (_ & _ & _ & Ht). unfold pending, newer. naive_solver lia.
Qed.

(** Nothing waits after the last page. *)
Lemma mailbox_done me t d rows x q cs r :
  mailbox me user t d rows → last rows = Some x → marks True (received me rows) d.(queue) q →
  r ∈ q → ¬ pending me user x.(q_created_at) (with_cursors cs (with_queue q d)) r.
Proof.
  intros [Hs Hr] Hx Hm Hin (Hread & Hst & Ht).
  apply list_elem_of_lookup in Hin as [i Hi]. destruct (Forall2_lookup_r _ _ _ _ _ Hm Hi) as (r0 & Hi0 & Hc).
  destruct Hc as [[-> _]|[_ ->]]; [|done].
  assert (r0 ∈ rows) as Hin.
  { apply Hr. split; [by eapply list_elem_of_lookup_2|]. split; [exact Hread|]. split; [done|].
    rewrite last_lookup in Hx. apply list_elem_of_lookup_2, Hr in Hx as (_ & _ & _ & ?). lia. }
  rewrite last_lookup in Hx. assert (r0 ∈ drop (S (pred (length rows))) rows) as Hd.
  { by apply (sorted_drop _ _ x). }
  rewrite drop_ge in Hd by lia. by apply elem_of_nil in Hd.
Qed.

Definition polled (me : string) (dev : Z) (rows : list queue_row) (d : DB) (r : result err (list SyncEvent))
    (d' : DB) : Prop :=
  r = Ok (sync_event me dev <$> rows) ∧
  ∃ q cs, d' = with_cursors cs (with_queue q d) ∧
    marks True (received me (last_page (page_limit limit) rows)) d.(queue) q.

Lemma wp_poll_empty n since t d u :
  d.(users) !! user = Some u → since ≠ "" → pg_timestamptz since = Some t →
  (∀ room, is_Some (d.(members) !! (room, user)) → is_Some (d.(Schema.rooms) !! room)) →
  (∀ r, r ∈ d.(queue) → ¬ pending (user_addr u) user t d r) →
  wp no_faults (poll n user dev since limit) (λ r d', r = Ok [] ∧ ∃ cs, d' = with_cursors cs d) d.
Proof.
  intros Hu Hs Ht Hfk Hno. assert (∃ cs, d = with_cursors cs d) as Hd by (exists d.(cursors); by destruct d).
  destruct n as [|n]; [by apply wp_ret|]. simpl. apply wp_bind.
  eapply wp_mono; [eapply (wp_page u t since d []); eauto using mailbox_empty|].
  unfold page_post. intros r d' (q & cs & ups & -> & Hm & ->). simpl.
  assert (q = d.(queue)) as ->.
  { symmetry. apply list_eq_Forall2. eapply Forall2_impl; [exact Hm|].
    intros x y [[-> _]|[?%elem_of_nil _]]; done. }
  apply wp_ret. split; [done|]. exists cs. by destruct d.
Qed.

Lemma wp_poll u : ∀ n since t d rows,
  relay_inv d → d.(users) !! user = Some u → since ≠ "" → pg_timestamptz since = Some t →
  (∀ room, is_Some (d.(members) !! (room, user)) → is_Some (d.(Schema.rooms) !! room)) →
  distinct_times (user_addr u) t d → mailbox (user_addr u) user t d rows → length rows < n →
  wp no_faults (poll n user dev since limit) (polled (user_addr u) dev rows d) d.
Proof.
  intros n. induction n as [|n IH]; intros since t d rows Hi Hu Hs Ht Hfk Hd Hm Hn; [lia|]. simpl.
  apply wp_bind. eapply wp_mono; [eapply wp_page; eauto using mailbox_sorted|].
  set (k := page_limit limit). assert (0 < k) as Hk by (unfold k, page_limit; case_match; lia).
  unfold page_post. fold k. intros r d'. destruct (Nat.ltb_spec k (length rows)) as [Hl|Hl].
  - intros (x & Hx & -> & ->). cbn [fst snd]. pose proof (mailbox_after _ _ _ _ _ _ Hm Hx) as Hm'.
    replace (S (k - 1)) with k in Hm' by lia.
    destruct (sync_event (user_addr u) dev <$> take k rows) as [|e es] eqn:He.
    { apply (f_equal length) in He. rewrite length_fmap, length_take in He. simpl in He. lia. }
    apply wp_bind. eapply wp_mono.
    { eapply (IH (format_nano (q_created_at x)) (q_created_at x)); [done..|apply format_nano_nonempty|
        apply pg_timestamptz_format|done| |exact Hm'|rewrite length_drop; lia].
      intros a b Ha Hb (?&?&?) (?&?&?). destruct Hm as [_ Hr].
      apply list_elem_of_lookup_2, Hr in Hx as (_ & _ & _ & ?). apply Hd; try done; split_and!; try done; lia. }
    intros r d' [-> Hq]. apply wp_ret. split.
    + by rewrite app_comm_cons, <- He, <- fmap_app, take_drop.
    + fold k in Hq. by rewrite last_page_drop in Hq.
  - intros (q & cs & ups & -> & Hq & ->). cbn [fst snd].
    assert (polled (user_addr u) dev rows d (Ok (sync_event (user_addr u) dev <$> rows))
      (with_cursors cs (with_queue q d))) as Hpost.
    { split; [done|]. exists q, cs. fold k. rewrite last_page_short by lia. done. }
    destruct (sync_event (user_addr u) dev <$> rows) as [|e es] eqn:He; [by apply wp_ret|].
    destruct (last rows) as [x|] eqn:Hx; [|apply last_None in Hx; by subst].
    apply wp_bind. eapply wp_mono.
    { eapply (wp_poll_empty _ _ (q_created_at x)); [exact Hu|apply format_nano_nonempty|apply pg_timestamptz_format|done|].
      intros r Hin. exact (mailbox_done _ _ _ _ _ _ _ _ Hm Hx Hq Hin). }
    intros r d' [-> [cs' ->]]. apply wp_ret. rewrite app_nil_r. split; [by rewrite He|].
    exists q, cs'. fold k. rewrite last_page_short by lia. by destruct d.
Qed.

(** What waits can be listed. *)
Lemma mailbox_exists me t d :
  relay_inv d → distinct_times me t d →
  (∀ room, is_Some (d.(members) !! (room, user)) → is_Some (d.(Schema.rooms) !! room)) →
  ∃ rows, mailbox me user t d rows ∧ length rows ≤ length d.(queue).
Proof.
  intros Hi Hd Hfk.
  assert (∃ vis : queue_row → bool, ∀ r, vis r = true ↔ pending me user t d r) as [vis Hvis].
  { assert (wp (E := err) no_faults (recipients_of (Some rooms) user me) (λ r _, ∃ l : list string, ∀ a : string, a ∈ l ↔
      a = me ∨ ∃ room, a = addr room ∧ is_Some (d.(members) !! (room, user))) d) as Hw.
    { apply (wp_recipients_of rooms addr). intros l Hin Hme Hall. exists l. intros a. split; [apply Hin|].
      intros [->|(room & -> & Hm)]; [done|]. by apply Hall; [apply not_faulty|apply Hfk|]. }
    destruct (wp_run _ _ _ Hw) as [l Hl].
    exists (λ r, (bool_decide (q_recipient r ∈ l) || bool_decide (q_sender r = me)) &&
      (bool_decide (q_status r = "queued") && bool_decide (t < q_created_at r)%Z)).
    intros r. rewrite !andb_true_iff, orb_true_iff, !bool_decide_eq_true, Hl. unfold pending, readable. tauto. }
  set (sel := List.filter vis d.(queue)).
  assert (∀ r, r ∈ sel ↔ r ∈ d.(queue) ∧ pending me user t d r) as Hsel.
  { intros r. unfold sel. rewrite <- Hvis, !list_elem_of_In. apply filter_In. }
  exists (merge_sort created_asc sel). split; [split|].
  - apply sorted_strict; [apply StronglySorted_merge_sort; [intros a b c|intros a b]; unfold created_asc; lia| |].
    + rewrite merge_sort_Permutation. apply (NoDup_fmap_1 q_event_id), NoDup_ids_filter, Hi.
    + intros a b. rewrite !merge_sort_Permutation, !Hsel. intros [] []. by apply Hd.
  - intros r. by rewrite merge_sort_Permutation, Hsel.
  - rewrite (Permutation_length (merge_sort_Permutation _ _)). apply filter_length_le.
Qed.

(** C14: A device that synchronises from a cursor, each time with the cursor of the
    page before, until a page is empty, receives every message that waits for
    its user, each once, in the order of arrival, when no statement fails,
    nothing else happens meanwhile, and no two of them came at the same time.
    Of what others sent, only the last page is marked as delivered. *)
Theorem poll_complete u n since t d :
  relay_inv d → d.(users) !! user = Some u → since ≠ "" → pg_timestamptz since = Some t →
  (∀ room, is_Some (d.(members) !! (room, user)) → is_Some (d.(Schema.rooms) !! room)) →
  distinct_times (user_addr u) t d → length d.(queue) < n →
  ∃ rows q cs, mailbox (user_addr u) user t d rows ∧
    run (poll n user dev since limit) d =
      (Ok (sync_event (user_addr u) dev <$> rows), with_cursors cs (with_queue q d)) ∧
    marks True (received (user_addr u) (last_page (page_limit limit) rows)) d.(queue) q.
Proof.
  intros Hi Hu Hs Ht Hfk Hd Hn. destruct (mailbox_exists (user_addr u) t d Hi Hd Hfk) as (rows & Hm & Hl).
  destruct (wp_run _ _ _ (wp_poll u n since t d rows Hi Hu Hs Ht Hfk Hd Hm ltac:(lia))) as [Hres (q & cs & Hst & Hq)].
  exists rows, q, cs. split; [done|]. split; [|done]. rewrite <- Hres, <- Hst. apply surjective_pairing.
Qed.
End proofs.
End paging.

(** ** Ann's messages, one by one *)
Module Sample.
#[local] Existing Instances toy_sha256 checker_laws.

Definition three : DB := with_queue
  [QueueRow "e2" "@bob:a.org" "@ann:a.org" "d" "m" "two" None "s" 0 "queued" 100 20;
   QueueRow "e1" "@bob:a.org" "!7:a.org" "d" "m" "one" None "s" 0 "queued" 100 10;
   QueueRow "e3" "@bob:a.org" "@ann:a.org" "d" "m" "three" None "s" 0 "queued" 100 30] sample_db.

Lemma poll_complete_witness :
  ∃ rows q cs, mailbox addr_of "@ann:a.org" 1 5 three rows ∧
    run (poll checker 4 1 9 "5" 1) three =
      (Ok (sync_event "@ann:a.org" 9 <$> rows), with_cursors cs (with_queue q three)) ∧
    marks True (received "@ann:a.org" (last_page 1 rows)) three.(queue) q.
Proof.
  apply (poll_complete checker addr_of 1 9 1 (UserRow "ann" "a.org" None)); try done.
  - split; [|intros id reader t; unfold three, sample_db; simpl; by rewrite lookup_empty]. apply (bool_decide_unpack _). by vm_compute.
  - intros room [m Hm]. unfold three, sample_db in *. simpl in *.
    repeat (rewrite lookup_insert in Hm || rewrite lookup_singleton in Hm).
    repeat case_decide; simplify_eq; by eexists.
  - intros a b Ha Hb _ _ He. unfold three in *. cbn [queue with_queue] in *.
    repeat (apply elem_of_cons in Ha as [->|Ha]); repeat (apply elem_of_cons in Hb as [->|Hb]); try done;
      by apply elem_of_nil in Ha || apply elem_of_nil in Hb.
  - simpl. lia.
Defined.

(** Only the last of the three is marked. *)
Example earlier_pages_unmarked :
  match run (poll checker 4 1 9 "5" 1) three with
  | (Ok events, d) => (SEventID <$> events) = ["e1"; "e2"; "e3"] ∧
      (q_status <$> d.(queue)) = ["queued"; "queued"; "delivered"]
  | _ => False
  end.
Proof. by vm_compute. Qed.

(** What one device of a user has read, the user's others no longer get. *)
Example second_device_misses :
  let d := (run (poll checker 4 1 9 "5" 10) three).2 in
  is_ok (run (poll checker 4 1 9 "5" 10) three).1 = true ∧ (run (poll checker 4 1 8 "5" 10) d).1 = Ok [].
Proof. by vm_compute. Qed.

(** Of two messages that came at the same time, the one that a page leaves to
    the next is lost. *)
Example same_time_lost :
  match run (poll checker 4 1 9 "5" 1) (with_queue
    [QueueRow "e1" "@bob:a.org" "@ann:a.org" "d" "m" "one" None "s" 0 "queued" 100 20;
     QueueRow "e2" "@bob:a.org" "@ann:a.org" "d" "m" "two" None "s" 0 "queued" 100 20] sample_db) with
  | (Ok events, d) => (SEventID <$> events) = ["e1"]
  | _ => False
  end.
Proof. by vm_compute. Qed.
End Sample.
End Paging.
