(* ===== verification/Stream.v ===== *)
(** * The notification hub ([server/internal/stream/hub.go])

    One node's hub: connected WebSocket clients by recipient, the two event
    channels, and the optional Redis fan-out.  Goroutines are interleaved:
    [step] takes one atomic section at a time, and a loop over a client map is
    a sequence of steps, because the code leaves the lock before it iterates.
    Inner maps are heap objects: an iteration keeps the reference it read. *)

From Stdlib Require Import Ascii String.
From stdpp Require Import strings.
From S2P Require Import Prelude GoStrings Schema.
Set Default Goal Selector "!".
Open Scope stdpp_scope.

Module Stream.

(** ** Data *)
Record Event := mkEvent { Recipient : string; EventID : string }.

Record TypingEvent := mkTypingEvent {
  TRecipient : string; TSender : string; Typing : bool; Room : string;
}.

(** The JSON object written to a socket. *)
Inductive msg :=
| NewMessage (event_id : string)
| TypingMsg (sender : string) (typing : bool) (room : string)
| DeliveryMsg (event_id status : string)
| ReadMsg (event_id read_at : string).

(** What is published to Redis, by channel. *)
Inductive payload :=
| PNotify (e : Event)
| PTyping (t : TypingEvent)
| PDelivery (recipient event_id status : string)
| PRead (recipient event_id read_at : string).

Record Client := mkClient { CRecipient : string; CSender : string }.

(** A running loop over a client map: the map, its clients when the loop
    started, those visited so far, and the message. *)
Record Iter := mkIter { it_map : nat; it_start : gset nat; it_seen : gset nat; it_msg : msg }.

(** [clients] holds references into [heap]; [conns] and [chans] are the
    [Client] objects and their [Send] buffers; [redis] is [None] without
    Redis, otherwise the messages published and not yet received here.
    [iters] are the loops in progress, by goroutine; goroutine 0 is [Run]. *)
Record Hub := mkHub {
  clients : gmap string nat;
  heap : gmap nat (gset nat);
  conns : gmap nat Client;
  chans : gmap nat (list msg);
  broadcast : list Event;
  typingBroadcast : list TypingEvent;
  redis : option (list payload);
  iters : gmap nat Iter;
  closed : bool;
}.

Definition broadcast_cap : nat := 256.
Definition typing_cap : nat := 64.
(** [make(chan []byte, 256)] in [api/handlers_websocket.go]. *)
Definition send_cap : nat := 256.

Definition NewHubWithRedis (enabled : bool) : Hub :=
  mkHub ∅ ∅ ∅ ∅ [] [] (if enabled then Some [] else None) ∅ false.

Definition NewHub : Hub := NewHubWithRedis false.

(** [select { case ch <- x: default: }] *)
Definition try_send {A} (cap : nat) (x : A) (ch : list A) : list A :=
  if length ch <? cap then ch ++ [x] else ch.

Definition map_at (l : nat) (h : Hub) : gset nat := default ∅ (h.(heap) !! l).

(** ** Atomic sections *)
Definition with_reg (c : gmap string nat) (hp : gmap nat (gset nat)) (h : Hub) : Hub :=
  mkHub c hp h.(conns) h.(chans) h.(broadcast) h.(typingBroadcast) h.(redis) h.(iters) h.(closed).
Definition with_chans (v : gmap nat (list msg)) (h : Hub) : Hub :=
  mkHub h.(clients) h.(heap) h.(conns) v h.(broadcast) h.(typingBroadcast) h.(redis) h.(iters)
    h.(closed).
Definition with_iters (v : gmap nat Iter) (h : Hub) : Hub :=
  mkHub h.(clients) h.(heap) h.(conns) h.(chans) h.(broadcast) h.(typingBroadcast) h.(redis) v
    h.(closed).
Definition with_events (b : list Event) (t : list TypingEvent) (h : Hub) : Hub :=
  mkHub h.(clients) h.(heap) h.(conns) h.(chans) b t h.(redis) h.(iters) h.(closed).
Definition with_redis (v : option (list payload)) (h : Hub) : Hub :=
  mkHub h.(clients) h.(heap) h.(conns) h.(chans) h.(broadcast) h.(typingBroadcast) v h.(iters)
    h.(closed).

(** [c] and [m] are the addresses of the new [Client] and, when needed, of
    the new inner map. *)
Definition Register (recipient sender : string) (c m : nat) (h : Hub) : Hub :=
  let h := mkHub h.(clients) h.(heap) (<[c := mkClient recipient sender]> h.(conns))
             (<[c := []]> h.(chans)) h.(broadcast) h.(typingBroadcast) h.(redis) h.(iters)
             h.(closed) in
  match h.(clients) !! recipient with
  | Some l => with_reg h.(clients) (<[l := {[c]} ∪ map_at l h]> h.(heap)) h
  | None => with_reg (<[recipient := m]> h.(clients)) (<[m := {[c]}]> h.(heap)) h
  end.

Definition Unregister (c : nat) (h : Hub) : Hub :=
  match h.(conns) !! c with
  | None => h
  | Some cl =>
    match h.(clients) !! cl.(CRecipient) with
    | None => h
    | Some l =>
      let s := map_at l h ∖ {[c]} in
      with_reg (if decide (s = ∅) then delete cl.(CRecipient) h.(clients) else h.(clients))
        (<[l := s]> h.(heap)) h
    end
  end.

Definition publish (p : payload) (h : Hub) : Hub :=
  match h.(redis) with Some q => with_redis (Some (q ++ [p])) h | None => h end.

Definition pushToLocal (e : Event) (h : Hub) : Hub :=
  with_events (try_send broadcast_cap e h.(broadcast)) h.(typingBroadcast) h.

Definition pushTypingToLocal (t : TypingEvent) (h : Hub) : Hub :=
  with_events h.(broadcast) (try_send typing_cap t h.(typingBroadcast)) h.

(** Looks the recipient's map up and starts the loop of goroutine [g]. *)
Definition start_iter (g : nat) (recipient : string) (m : msg) (h : Hub) : Hub :=
  match h.(clients) !! recipient with
  | None => h
  | Some l => with_iters (<[g := mkIter l (map_at l h) ∅ m]> h.(iters)) h
  end.

Definition pushReadToLocal (g : nat) (recipient eventID readAt : string) (h : Hub) : Hub :=
  start_iter g recipient (ReadMsg eventID readAt) h.

Definition pushDeliveryToLocal (g : nat) (recipient eventID status : string) (h : Hub) : Hub :=
  start_iter g recipient (DeliveryMsg eventID status) h.

Definition NotifyRead (g : nat) (senderAddr eventID readAt : string) (h : Hub) : Hub :=
  pushReadToLocal g senderAddr eventID readAt (publish (PRead senderAddr eventID readAt) h).

Definition NotifyDelivery (g : nat) (senderAddr eventID status : string) (h : Hub) : Hub :=
  pushDeliveryToLocal g senderAddr eventID status (publish (PDelivery senderAddr eventID status) h).

Definition Notify (recipient eventID : string) (h : Hub) : Hub :=
  let ev := mkEvent recipient eventID in pushToLocal ev (publish (PNotify ev) h).

Definition notifyTyping (recipient sender : string) (typing : bool) (room : string) (h : Hub) : Hub :=
  let te := mkTypingEvent recipient sender typing room in pushTypingToLocal te (publish (PTyping te) h).

Definition NotifyTyping (recipient sender : string) (typing : bool) : Hub → Hub :=
  notifyTyping recipient sender typing "".

Definition NotifyTypingToMember (memberAddr sender : string) (typing : bool) (roomAddr : string)
  : Hub → Hub := notifyTyping memberAddr sender typing roomAddr.

(** [runRedisSubscriber] on one message; [g] is its goroutine. *)
Definition receive (g : nat) (p : payload) (h : Hub) : Hub :=
  match p with
  | PTyping te => pushTypingToLocal te h
  | PDelivery r id st => pushDeliveryToLocal g r id st h
  | PRead r id at_ => pushReadToLocal g r id at_ h
  | PNotify ev => pushToLocal ev h
  end.

(** [case c.Send <- msg: default:] *)
Definition deliver (c : nat) (m : msg) (h : Hub) : Hub :=
  with_chans (alter (try_send send_cap m) c h.(chans)) h.

Definition typing_msg (t : TypingEvent) : msg := TypingMsg t.(TSender) t.(Typing) t.(Room).

Definition Close (h : Hub) : Hub :=
  mkHub h.(clients) h.(heap) h.(conns) h.(chans) h.(broadcast) h.(typingBroadcast) h.(redis)
    h.(iters) true.

(** ** Interleaving *)
Inductive label :=
| LRegister (recipient sender : string) (c m : nat)
| LUnregister (c : nat)
| LNotify (recipient eventID : string)
| LTyping (t : TypingEvent)
| LRead (g : nat) (recipient eventID readAt : string)
| LDelivery (g : nat) (recipient eventID status : string)
| LReceive (p : payload)
| LSocket (c : nat)
| LRun
| LVisit (g c : nat)
| LDone (g : nat)
| LForeign (p : payload)
| LClose.

(** Goroutine 0 is [Run], goroutine 1 the Redis subscriber; the others are
    request handlers. *)
Inductive step (h : Hub) : label → Hub → Prop :=
| st_register r s c m :
    h.(conns) !! c = None → h.(heap) !! m = None →
    step h (LRegister r s c m) (Register r s c m h)
| st_unregister c : is_Some (h.(conns) !! c) → step h (LUnregister c) (Unregister c h)
| st_notify r id : step h (LNotify r id) (Notify r id h)
| st_typing t :
    step h (LTyping t) (notifyTyping t.(TRecipient) t.(TSender) t.(Typing) t.(Room) h)
| st_read g r id a :
    1 < g → h.(iters) !! g = None → step h (LRead g r id a) (NotifyRead g r id a h)
| st_delivery g r id s :
    1 < g → h.(iters) !! g = None → step h (LDelivery g r id s) (NotifyDelivery g r id s h)
| st_receive p q :
    h.(redis) = Some (p :: q) → h.(closed) = false → h.(iters) !! 1 = None →
    step h (LReceive p) (receive 1 p (with_redis (Some q) h))
(** The writer goroutine of a socket takes a message off the channel. *)
| st_socket c m ms :
    h.(chans) !! c = Some (m :: ms) →
    step h (LSocket c) (with_chans (<[c := ms]> h.(chans)) h)
| st_run e es :
    h.(broadcast) = e :: es → h.(closed) = false → h.(iters) !! 0 = None →
    step h LRun (start_iter 0 e.(Recipient) (NewMessage e.(EventID))
                   (with_events es h.(typingBroadcast) h))
| st_run_typing t ts :
    h.(typingBroadcast) = t :: ts → h.(closed) = false → h.(iters) !! 0 = None →
    step h LRun (start_iter 0 t.(TRecipient) (typing_msg t) (with_events h.(broadcast) ts h))
(** [for c := range clients]: every client is visited at most once, and only
    while it is in the map; one that was there from the start and still is
    must be visited, one that was added may be. *)
| st_visit g it c :
    h.(iters) !! g = Some it → c ∈ map_at it.(it_map) h → c ∉ it.(it_seen) →
    step h (LVisit g c)
      (with_iters (<[g := mkIter it.(it_map) it.(it_start) ({[c]} ∪ it.(it_seen)) it.(it_msg)]>
                     h.(iters))
         (deliver c it.(it_msg) h))
| st_done g it :
    h.(iters) !! g = Some it → it.(it_start) ∩ map_at it.(it_map) h ⊆ it.(it_seen) →
    step h (LDone g) (with_iters (delete g h.(iters)) h)
(** Another node publishes. *)
| st_foreign p q :
    h.(redis) = Some q → step h (LForeign p) (with_redis (Some (q ++ [p])) h)
| st_close : step h LClose (Close h).

(** Runs with the list of their labels, last first. *)
Inductive runs (h0 : Hub) : list label → Hub → Prop :=
| runs_nil : runs h0 [] h0
| runs_step tr h l h' : runs h0 tr h → step h l h' → runs h0 (l :: tr) h'.

(** The map objects an atomic section writes. *)
Definition writes (l : label) (h : Hub) : option nat :=
  match l with
  | LRegister r _ _ _ => h.(clients) !! r
  | LUnregister c => cl ← h.(conns) !! c; h.(clients) !! cl.(CRecipient)
  | _ => None
  end.

(** ** Specification *)

(** [addressed l r x]: the call [l] asks for [x] to be shown to [r]. *)
Inductive addressed : label → string → msg → Prop :=
| ad_notify r id : addressed (LNotify r id) r (NewMessage id)
| ad_typing t : addressed (LTyping t) t.(TRecipient) (typing_msg t)
| ad_read g r id a : addressed (LRead g r id a) r (ReadMsg id a)
| ad_delivery g r id s : addressed (LDelivery g r id s) r (DeliveryMsg id s)
| ad_foreign_notify e : addressed (LForeign (PNotify e)) e.(Recipient) (NewMessage e.(EventID))
| ad_foreign_typing t : addressed (LForeign (PTyping t)) t.(TRecipient) (typing_msg t)
| ad_foreign_read r id a : addressed (LForeign (PRead r id a)) r (ReadMsg id a)
| ad_foreign_delivery r id s : addressed (LForeign (PDelivery r id s)) r (DeliveryMsg id s).

Definition sent (tr : list label) (r : string) (x : msg) : Prop :=
  ∃ l, l ∈ tr ∧ addressed l r x.

Definition payload_ok (tr : list label) (p : payload) : Prop :=
  match p with
  | PNotify e => sent tr e.(Recipient) (NewMessage e.(EventID))
  | PTyping t => sent tr t.(TRecipient) (typing_msg t)
  | PDelivery r id s => sent tr r (DeliveryMsg id s)
  | PRead r id a => sent tr r (ReadMsg id a)
  end.

(** All clients of the map object [l] listen for [r]. *)
Definition listens (h : Hub) (l : nat) (r : string) : Prop :=
  ∀ c, c ∈ map_at l h → ∃ cl, h.(conns) !! c = Some cl ∧ cl.(CRecipient) = r.

(** Registry: each recipient has its own, non-empty map of its clients. *)
Definition reg_inv (h : Hub) : Prop :=
  (∀ r l, h.(clients) !! r = Some l → map_at l h ≠ ∅ ∧ listens h l r) ∧
  (∀ r1 r2 l, h.(clients) !! r1 = Some l → h.(clients) !! r2 = Some l → r1 = r2).

(** Everything in flight was asked for, for the recipient it will reach. *)
Definition flow_inv (tr : list label) (h : Hub) : Prop :=
  (∀ e, e ∈ h.(broadcast) → sent tr e.(Recipient) (NewMessage e.(EventID))) ∧
  (∀ t, t ∈ h.(typingBroadcast) → sent tr t.(TRecipient) (typing_msg t)) ∧
  (∀ q p, h.(redis) = Some q → p ∈ q → payload_ok tr p) ∧
  (∀ g it, h.(iters) !! g = Some it → is_Some (h.(heap) !! it.(it_map)) ∧
     ∃ r, sent tr r it.(it_msg) ∧ listens h it.(it_map) r ∧
          ∀ r', h.(clients) !! r' = Some it.(it_map) → r' = r) ∧
  (∀ c ms x, h.(chans) !! c = Some ms → x ∈ ms →
     ∃ cl, h.(conns) !! c = Some cl ∧ sent tr cl.(CRecipient) x).

Definition bounded (h : Hub) : Prop :=
  length h.(broadcast) ≤ broadcast_cap ∧ length h.(typingBroadcast) ≤ typing_cap ∧
  ∀ c ms, h.(chans) !! c = Some ms → length ms ≤ send_cap.

(** A goroutine is iterating over a map object that another one is about to
    write: the loops hold no lock. *)
Definition racy (h : Hub) : Prop :=
  ∃ g it l h', h.(iters) !! g = Some it ∧ ¬ it.(it_start) ⊆ it.(it_seen) ∧
    step h l h' ∧ writes l h = Some it.(it_map).

(** ** Lemmas *)
Lemma try_send_in {A} cap (x y : A) ch : y ∈ try_send cap x ch → y ∈ ch ∨ y = x.
Proof. unfold try_send. destruct (_ <? _); [|by left]. rewrite elem_of_app, list_elem_of_singleton. done. Qed.

Lemma try_send_length {A} cap (x : A) ch : length ch ≤ cap → length (try_send cap x ch) ≤ cap.
Proof.
  unfold try_send. destruct (length ch <? cap) eqn:Hl; [|done]. apply Nat.ltb_lt in Hl.
  rewrite length_app. simpl. lia.
Qed.

Lemma sent_cons l tr r x : sent tr r x → sent (l :: tr) r x.
Proof. intros (l' & ? & ?). exists l'. by split; [right|]. Qed.

Lemma sent_head l tr r x : addressed l r x → sent (l :: tr) r x.
Proof. intros. exists l. by split; [left|]. Qed.

Lemma payload_cons l tr p : payload_ok tr p → payload_ok (l :: tr) p.
Proof. destruct p; apply sent_cons. Qed.

#[local] Hint Resolve sent_cons sent_head payload_cons : core.
#[local] Hint Constructors addressed : core.

Lemma flow_cons l tr h : flow_inv tr h → flow_inv (l :: tr) h.
Proof.
  intros (H1 & H2 & H3 & H4 & H5). split_and!; eauto.
  - intros g it Hg. destruct (H4 g it Hg) as (? & r & ? & ? & ?). eauto 10.
  - intros c ms x Hc Hx. destruct (H5 c ms x Hc Hx) as (cl & ? & ?). eauto.
Qed.

Definition hub_inv (tr : list label) (h : Hub) : Prop :=
  reg_inv h ∧ flow_inv tr h ∧ bounded h.

Lemma hub_cons l tr h : hub_inv tr h → hub_inv (l :: tr) h.
Proof. intros (? & ? & ?). split_and!; auto using flow_cons. Qed.

Lemma map_at_Some l h : map_at l h ≠ ∅ → is_Some (h.(heap) !! l).
Proof. unfold map_at. destruct (h.(heap) !! l); [by eexists|done]. Qed.

Lemma hub_publish tr p h : payload_ok tr p → hub_inv tr h → hub_inv tr (publish p h).
Proof.
  intros Hp Hi. pose proof Hi as (Hr & (H1 & H2 & H3 & H4 & H5) & Hb). unfold publish.
  destruct (redis h) as [q|] eqn:Hq; [|done]. split; [done|]. split; [|done].
  split_and!; try done. intros q' p' [= <-] [Hin| ->%list_elem_of_singleton]%elem_of_app; eauto.
Qed.

Lemma hub_redis tr q h :
  (∀ q' p, q = Some q' → p ∈ q' → payload_ok tr p) → hub_inv tr h → hub_inv tr (with_redis q h).
Proof. intros Hq (Hr & (H1 & H2 & H3 & H4 & H5) & Hb). split; [done|]. split; [|done]. by split_and!. Qed.

Lemma hub_push tr e h :
  sent tr e.(Recipient) (NewMessage e.(EventID)) → hub_inv tr h → hub_inv tr (pushToLocal e h).
Proof.
  intros He (Hr & (H1 & H2 & H3 & H4 & H5) & Hb1 & Hb2 & Hb3). split; [done|]. split.
  - split_and!; try done. intros e' [?| ->]%try_send_in; auto.
  - split_and!; [by apply try_send_length|done|done].
Qed.

Lemma hub_push_typing tr t h :
  sent tr t.(TRecipient) (typing_msg t) → hub_inv tr h → hub_inv tr (pushTypingToLocal t h).
Proof.
  intros He (Hr & (H1 & H2 & H3 & H4 & H5) & Hb1 & Hb2 & Hb3). split; [done|]. split.
  - split_and!; try done. intros e' [?| ->]%try_send_in; auto.
  - split_and!; [done|by apply try_send_length|done].
Qed.

Lemma hub_events tr b t h :
  b ⊆ h.(broadcast) → t ⊆ h.(typingBroadcast) → length b ≤ length h.(broadcast) →
  length t ≤ length h.(typingBroadcast) → hub_inv tr h → hub_inv tr (with_events b t h).
Proof.
  intros Hb Ht Hlb Hlt (Hr & (H1 & H2 & H3 & H4 & H5) & Hb1 & Hb2 & Hb3). split; [done|].
  split; split_and!; try done; simpl; auto; lia.
Qed.

Lemma hub_start tr g r x h : sent tr r x → hub_inv tr h → hub_inv tr (start_iter g r x h).
Proof.
  intros Hs Hi. pose proof Hi as ((Hr1 & Hr2) & (H1 & H2 & H3 & H4 & H5) & Hb). unfold start_iter.
  destruct (clients h !! r) as [l|] eqn:Hl; [|done].
  destruct (Hr1 _ _ Hl) as [Hne Hli]. split; [done|]. split; [|done]. split_and!; try done.
  intros g' it. simpl. rewrite lookup_insert. case_decide; [|apply H4].
  intros [= <-]. split; [by apply map_at_Some|]. exists r. split_and!; try done.
  intros r' Hr'. by eapply Hr2.
Qed.

Lemma hub_chans tr h c ms :
  length ms ≤ send_cap →
  (∀ x, x ∈ ms → ∃ cl, h.(conns) !! c = Some cl ∧ sent tr cl.(CRecipient) x) →
  hub_inv tr h → hub_inv tr (with_chans (<[c := ms]> h.(chans)) h).
Proof.
  intros Hl Hms (Hr & (H1 & H2 & H3 & H4 & H5) & Hb1 & Hb2 & Hb3). split; [done|]. split.
  - split_and!; try done. intros c' ms' x. simpl. rewrite lookup_insert.
    case_decide; subst; [intros [= <-]; apply Hms|apply H5].
  - split_and!; try done. intros c' ms'. simpl. rewrite lookup_insert.
    case_decide; [by intros [= <-]|apply Hb3].
Qed.

Lemma hub_deliver tr h c x r :
  (∃ cl, h.(conns) !! c = Some cl ∧ cl.(CRecipient) = r) → sent tr r x →
  hub_inv tr h → hub_inv tr (deliver c x h).
Proof.
  intros (cl & Hcl & Hr) Hx Hi. unfold deliver.
  destruct (chans h !! c) as [ms|] eqn:Hc.
  - rewrite (alter_alt_Some _ _ _ ms) by done.
    pose proof Hi as (_ & (_ & _ & _ & _ & H5) & _ & _ & Hb3).
    apply hub_chans; [by eapply try_send_length, Hb3| |done].
    intros y [?| ->]%try_send_in; [by eapply H5|]. exists cl. by rewrite Hr.
  - rewrite alter_id'; [|done]. by destruct h.
Qed.

Lemma hub_iters tr h v :
  (∀ g it, v !! g = Some it → ∃ g' it', h.(iters) !! g' = Some it' ∧
     it.(it_map) = it'.(it_map) ∧ it.(it_msg) = it'.(it_msg)) →
  hub_inv tr h → hub_inv tr (with_iters v h).
Proof.
  intros Hv (Hr & (H1 & H2 & H3 & H4 & H5) & Hb). split; [done|]. split; [|done].
  split_and!; try done. intros g it Hg. destruct (Hv g it Hg) as (g' & it' & Hg' & -> & ->).
  by apply (H4 g').
Qed.

(** Changing the registry: a map keeps its recipient. *)
Lemma hub_unregister tr h c : hub_inv tr h → hub_inv tr (Unregister c h).
Proof.
  intros Hi. pose proof Hi as ((Hr1 & Hr2) & (H1 & H2 & H3 & H4 & H5) & Hb). unfold Unregister.
  destruct (conns h !! c) as [cl|] eqn:Hc; [|done].
  destruct (clients h !! CRecipient cl) as [l|] eqn:Hl; [|done].
  fold (map_at l h). set (s := map_at l h ∖ {[c]}).
  assert (∀ cs l', map_at l' (with_reg cs (<[l := s]> (heap h)) h)
                = if decide (l' = l) then s else map_at l' h) as Hat.
  { intros cs l'. unfold map_at. simpl. rewrite lookup_insert.
    repeat case_decide; simplify_eq; done. }
  assert (∀ cs l' r, listens h l' r → listens (with_reg cs (<[l := s]> (heap h)) h) l' r) as Hli.
  { intros cs l' r Hlis c'. rewrite Hat. case_decide; [subst|apply Hlis].
    intros [? _]%elem_of_difference. by apply Hlis. }
  assert (∀ r l', (if decide (s = ∅) then delete (CRecipient cl) (clients h) else clients h) !! r
            = Some l' → clients h !! r = Some l' ∧ (l' = l → s ≠ ∅)) as Hcs.
  { intros r l'. case_decide as Hs; [|done]. rewrite lookup_delete. case_decide as Hne; [done|].
    intros Hr. split; [done|]. intros ->. destruct Hne. by eapply Hr2. }
  split; [|split; [|done]].
  - split; simpl.
    + intros r l' [Hr Hn]%Hcs. destruct (Hr1 _ _ Hr) as [Hne Hlis]. split; [|by apply Hli].
      rewrite Hat. destruct (decide (l' = l)); auto.
    + intros r1 r2 l' [? _]%Hcs [? _]%Hcs. by eapply Hr2.
  - split_and!; try done. intros g it Hg. destruct (H4 g it Hg) as (Hh & r & Hs & Hlis & Hu).
    split; [simpl; rewrite lookup_insert_is_Some'; by right|].
    exists r. split_and!; [done|by apply Hli|]. intros r' [? _]%Hcs. by apply Hu.
Qed.

(** *** Registration *)

(** The hub with a new client, in no map yet. *)
Definition opened (r sd : string) (c : nat) (h : Hub) : Hub :=
  mkHub h.(clients) h.(heap) (<[c := mkClient r sd]> h.(conns)) (<[c := []]> h.(chans)) h.(broadcast)
    h.(typingBroadcast) h.(redis) h.(iters) h.(closed).

Lemma opened_conns r sd c h c' cl :
  h.(conns) !! c = None → h.(conns) !! c' = Some cl → (opened r sd c h).(conns) !! c' = Some cl.
Proof. intros Hc Hcl. simpl. rewrite lookup_insert_ne; [done|]. intros ->. congruence. Qed.

(** What is left to show of a registration: the registry and the loops. *)
Lemma hub_opened tr r sd c cs hp h :
  h.(conns) !! c = None → hub_inv tr h → reg_inv (with_reg cs hp (opened r sd c h)) →
  (∀ g it, h.(iters) !! g = Some it → is_Some (hp !! it.(it_map)) ∧
     ∃ r', sent tr r' it.(it_msg) ∧ listens (with_reg cs hp (opened r sd c h)) it.(it_map) r' ∧
           ∀ r2, cs !! r2 = Some it.(it_map) → r2 = r') →
  hub_inv tr (with_reg cs hp (opened r sd c h)).
Proof.
  intros Hc (_ & (H1 & H2 & H3 & _ & H5) & Hb1 & Hb2 & Hb3) Hreg Hit. split; [done|]. split.
  - split_and!; try done. intros c' ms x. simpl. rewrite lookup_insert.
    case_decide; [intros [= <-] []%elem_of_nil|]. intros Hms Hx.
    destruct (H5 _ _ _ Hms Hx) as (cl & Hcl & ?). exists cl. split; [by apply (opened_conns r sd)|done].
  - split_and!; try done. intros c' ms. simpl. rewrite lookup_insert.
    case_decide; [intros [= <-]; simpl; lia|apply Hb3].
Qed.

(** The client joins the map object [l0], which listens for its recipient. *)
Lemma listens_join r sd c h cs l0 s0 l r' :
  h.(conns) !! c = None → (l = l0 → s0 ⊆ {[c]} ∪ map_at l0 h ∧ r' = r) →
  listens h l r' ∨ l = l0 ∧ s0 = {[c]} →
  listens (with_reg cs (<[l0 := s0]> (heap h)) (opened r sd c h)) l r'.
Proof.
  intros Hc Hl0 Hlis c'. unfold map_at. simpl. rewrite lookup_insert.
  assert (∃ cl, <[c := mkClient r sd]> (conns h) !! c = Some cl ∧ CRecipient cl = r) as Hself.
  { eexists. by rewrite lookup_insert_eq. }
  case_decide as Hll; simpl; intros Hin.
  - subst l0. destruct (Hl0 eq_refl) as [Hsub ->].
    destruct (decide (c' = c)) as [->|Hne]; [exact Hself|].
    destruct Hlis as [Hlis|[_ ->]]; [|set_solver].
    destruct (Hlis c') as (cl & ? & ?); [set_solver|]. exists cl. split; [by apply (opened_conns r sd)|done].
  - destruct Hlis as [Hlis|[-> _]]; [|done].
    destruct (Hlis c' Hin) as (cl & ? & ?). exists cl. split; [by apply (opened_conns r sd)|done].
Qed.

(** A recipient that has a map already. *)
Lemma hub_register_known tr h r sd c l :
  h.(conns) !! c = None → h.(clients) !! r = Some l → hub_inv tr h →
  hub_inv tr (with_reg h.(clients) (<[l := {[c]} ∪ map_at l h]> h.(heap)) (opened r sd c h)).
Proof.
  intros Hc Hl Hi. pose proof Hi as ((Hr1 & Hr2) & (_ & _ & _ & H4 & _) & _). apply hub_opened; [done..| |].
  - split; [|done]. intros r' l' Hr'. simpl in Hr'. destruct (Hr1 _ _ Hr') as [Hne Hlis]. split.
    + unfold map_at in *. simpl. rewrite lookup_insert. case_decide; [set_solver|done].
    + apply listens_join; [done| |by left]. intros ->. split; [done|]. by eapply Hr2.
  - intros g it Hg. destruct (H4 g it Hg) as (Hh & r' & Hs & Hlis & Hu).
    split; [rewrite lookup_insert_is_Some'; by right|]. exists r'. split_and!; [done| |done].
    apply listens_join; [done| |by left]. intros Heq. split; [done|]. symmetry. apply Hu. by rewrite Heq.
Qed.

(** A recipient that gets a new map. *)
Lemma hub_register_new tr h r sd c m :
  h.(conns) !! c = None → h.(heap) !! m = None → h.(clients) !! r = None → hub_inv tr h →
  hub_inv tr (with_reg (<[r := m]> h.(clients)) (<[m := {[c]}]> h.(heap)) (opened r sd c h)).
Proof.
  intros Hc Hm Hl Hi. pose proof Hi as ((Hr1 & Hr2) & (_ & _ & _ & H4 & _) & _).
  assert (∀ r', clients h !! r' ≠ Some m) as Hfresh.
  { intros r' Hr'. destruct (Hr1 _ _ Hr') as [Hne _]. apply map_at_Some in Hne as [? Hne]. congruence. }
  apply hub_opened; [done..| |].
  - split; simpl.
    + intros r' l'. rewrite lookup_insert. case_decide as Hrr.
      * intros [= <-]. subst. split; [unfold map_at; simpl; rewrite lookup_insert_eq; simpl; set_solver|].
        apply listens_join; [done| |by right]. intros _. split; [set_solver|done].
      * intros Hr'. destruct (Hr1 _ _ Hr') as [Hne Hlis].
        assert (l' ≠ m) by (intros ->; by eapply Hfresh).
        split; [unfold map_at in *; simpl; by rewrite lookup_insert_ne|]. apply listens_join; [done|done|by left].
    + intros r1 r2 l'. rewrite !lookup_insert. repeat case_decide; intros; simplify_eq; try done;
        [by destruct (Hfresh r2)|by destruct (Hfresh r1)|by eapply Hr2].
  - intros g it Hg. destruct (H4 g it Hg) as (Hh & r' & Hs & Hlis & Hu).
    assert (it_map it ≠ m) by (intros <-; destruct Hh; congruence).
    split; [rewrite lookup_insert_is_Some'; by right|]. exists r'. split_and!; [done| |].
    + apply listens_join; [done|done|by left].
    + intros r2. simpl. rewrite lookup_insert. case_decide; [intros [= ?]; congruence|apply Hu].
Qed.

Lemma hub_register tr h r sd c m :
  h.(conns) !! c = None → h.(heap) !! m = None → hub_inv tr h → hub_inv tr (Register r sd c m h).
Proof.
  intros Hc Hm Hi. unfold Register. simpl.
  destruct (clients h !! r) as [l|] eqn:Hl; [exact (hub_register_known tr h r sd c l Hc Hl Hi)|by apply hub_register_new].
Qed.

Lemma hub_notify_typing tr t h :
  sent tr t.(TRecipient) (typing_msg t) → hub_inv tr h →
  hub_inv tr (notifyTyping t.(TRecipient) t.(TSender) t.(Typing) t.(Room) h).
Proof.
  intros Ht Hi. unfold notifyTyping.
  replace (mkTypingEvent _ _ _ _) with t by (by destruct t).
  apply hub_push_typing; [done|]. by apply hub_publish.
Qed.

Lemma hub_receive tr g p h : payload_ok tr p → hub_inv tr h → hub_inv tr (receive g p h).
Proof.
  destruct p; simpl; intros; [by apply hub_push|by apply hub_push_typing|by apply hub_start..].
Qed.

Lemma hub_visit tr h g it c :
  h.(iters) !! g = Some it → c ∈ map_at it.(it_map) h → hub_inv tr h →
  hub_inv tr (deliver c it.(it_msg) h).
Proof.
  intros Hg Hc Hi. pose proof Hi as (_ & (_ & _ & _ & H4 & _) & _).
  destruct (H4 g it Hg) as (_ & r & Hs & Hl & _). by apply (hub_deliver tr h c _ r); auto.
Qed.

Lemma hub_step tr h l h' : hub_inv tr h → step h l h' → hub_inv (l :: tr) h'.
Proof.
  intros Hi Hs. pose proof (hub_cons l tr h Hi) as Hi'.
  destruct Hs as [r s c m Hc Hm|c Hc|r id|t|g r id a Hg Hn|g r id s Hg Hn|p q Hq Hcl Hn|c m ms Hc
    |e es He Hcl Hn|t ts Ht Hcl Hn|g it c Hg Hc Hns|g it Hg Hd|p q Hq|].
  - by apply hub_register.
  - by apply hub_unregister.
  - apply hub_push; [auto|]. by apply hub_publish; [apply sent_head|].
  - by apply hub_notify_typing; [apply sent_head|].
  - apply hub_start; [auto|]. by apply hub_publish; [apply sent_head|].
  - apply hub_start; [auto|]. by apply hub_publish; [apply sent_head|].
  - pose proof Hi' as (_ & (_ & _ & Hp & _) & _). apply hub_receive; [eapply Hp; [done|by left]|].
    apply hub_redis; [|done]. intros q' p' [= <-] ?. eapply Hp; [done|by right].
  - pose proof Hi' as (_ & (_ & _ & _ & _ & H5) & _ & _ & Hb). apply hub_chans; [| |done].
    + apply Hb in Hc. simpl in Hc. lia.
    + intros x Hx. eapply H5; [done|by right].
  - pose proof Hi' as (_ & (H1 & _) & _). apply hub_start.
    + apply H1. rewrite He. by left.
    + apply hub_events; rewrite ?He; [by intros ? ?; right|done|simpl; lia|done|done].
  - pose proof Hi' as (_ & (_ & H2 & _) & _). apply hub_start.
    + apply H2. rewrite Ht. by left.
    + apply hub_events; rewrite ?Ht; [done|by intros ? ?; right|done|simpl; lia|done].
  - apply hub_iters; [|by eapply hub_visit].
    intros g' it'. rewrite lookup_insert. case_decide; [intros [= <-]|]; eauto 6.
  - apply hub_iters; [|done]. intros g' it'. rewrite lookup_delete. case_decide; [done|]. eauto.
  - apply hub_redis; [|done]. pose proof Hi' as (_ & (_ & _ & Hp & _) & _).
    intros q' p' [= <-] [?| ->%list_elem_of_singleton]%elem_of_app; [by eapply Hp|].
    destruct p; apply sent_head; constructor.
  - destruct Hi' as (? & ? & ?). by split_and!.
Qed.

Lemma hub_init b : hub_inv [] (NewHubWithRedis b).
Proof.
  split; [|split].
  - split; by intros ??.
  - split_and!; try by intros ? ?%elem_of_nil. 2, 3: by intros ??.
    intros q p. simpl. destruct b; [|done]. by intros [= <-] ?%elem_of_nil.
  - split_and!; simpl; try lia. by intros ??.
Qed.

Lemma runs_inv b tr h : runs (NewHubWithRedis b) tr h → hub_inv tr h.
Proof. induction 1; eauto using hub_init, hub_step. Qed.

Lemma runs_app h0 tr1 h1 tr2 h2 : runs h0 tr1 h1 → runs h1 tr2 h2 → runs h0 (tr2 ++ tr1) h2.
Proof. intros Hr1. induction 1; simpl; [done|]. by eapply runs_step. Qed.

(** *** A loop that is not disturbed *)
Definition delivered_to (s : gset nat) (x : msg) (ch ch' : gmap nat (list msg)) : Prop :=
  ∀ c, ch' !! c = if decide (c ∈ s) then try_send send_cap x <$> ch !! c else ch !! c.

Lemma step_visit g m st seen x c h :
  h.(iters) !! g = Some (mkIter m st seen x) → c ∈ map_at m h → c ∉ seen →
  step h (LVisit g c)
    (with_iters (<[g := mkIter m st ({[c]} ∪ seen) x]> h.(iters)) (deliver c x h)).
Proof. intros Hg Hc Hs. by apply (st_visit h g (mkIter m st seen x) c). Qed.

Lemma visit_all g it cs h :
  h.(iters) !! g = Some it → NoDup cs → (∀ c, c ∈ cs → c ∈ map_at it.(it_map) h ∧ c ∉ it.(it_seen)) →
  ∃ tr ch, runs h tr (with_iters (<[g := mkIter it.(it_map) it.(it_start)
                                     (list_to_set cs ∪ it.(it_seen)) it.(it_msg)]> h.(iters))
                        (with_chans ch h)) ∧
    Forall (λ l, ∃ c, l = LVisit g c) tr ∧ delivered_to (list_to_set cs) it.(it_msg) h.(chans) ch.
Proof.
  induction cs as [|c cs IH]; intros Hg Hnd Hcs.
  - exists [], h.(chans). split; [|split; [constructor|]].
    + replace (with_iters _ _) with h; [constructor|].
      rewrite list_to_set_nil, (left_id_L ∅ (∪)), insert_id by (rewrite Hg; by destruct it). by destruct h.
    + intros c. by rewrite decide_False.
  - apply NoDup_cons in Hnd as [Hc Hnd].
    destruct IH as (tr & ch & Hr & Hvis & Hd); [done|done|intros c' Hc'; apply Hcs; by right|].
    eexists (LVisit g c :: tr), (alter (try_send send_cap it.(it_msg)) c ch).
    split; [|split; [constructor; eauto|]].
    + eapply runs_step; [exact Hr|].
      match goal with |- step ?a _ ?b =>
        replace b with (with_iters (<[g := mkIter it.(it_map) it.(it_start)
            ({[c]} ∪ (list_to_set cs ∪ it.(it_seen))) it.(it_msg)]> a.(iters))
            (deliver c it.(it_msg) a)) end.
      * apply step_visit; [by apply lookup_insert_eq| |].
        -- apply Hcs. by left.
        -- destruct (Hcs c) as [_ ?]; [by left|].
           apply not_elem_of_union. by rewrite elem_of_list_to_set.
      * unfold with_iters, deliver, with_chans. simpl. rewrite insert_insert_eq.
        by rewrite (assoc_L (∪)).
    + intros c'. rewrite lookup_alter, list_to_set_cons. case_decide as Hcc; [subst c'|].
      * rewrite (Hd c), decide_False, decide_True by set_solver. done.
      * rewrite (Hd c'). destruct (decide (c' ∈@{gset nat} list_to_set cs)).
        -- by rewrite decide_True by set_solver.
        -- by rewrite decide_False by set_solver.
Qed.

(** The whole loop of [pushReadToLocal] and [pushDeliveryToLocal], when
    nothing else happens meanwhile. *)
Definition push_all (r : string) (x : msg) (h : Hub) : Hub :=
  match h.(clients) !! r with
  | None => h
  | Some l => with_chans (map_imap (λ c ms,
      Some (if decide (c ∈ map_at l h) then try_send send_cap x ms else ms)) h.(chans)) h
  end.

Definition read_told (senderAddr eventID readAt : string) (h : Hub) : Hub :=
  push_all senderAddr (ReadMsg eventID readAt) (publish (PRead senderAddr eventID readAt) h).

Definition delivery_told (senderAddr eventID status : string) (h : Hub) : Hub :=
  push_all senderAddr (DeliveryMsg eventID status) (publish (PDelivery senderAddr eventID status) h).

(** The loop of goroutine [g] alone is such a run. *)
Lemma loop_alone g r x h :
  h.(iters) !! g = None →
  ∃ tr, runs (start_iter g r x h) tr (push_all r x h) ∧
    Forall (λ l, l = LDone g ∨ ∃ c, l = LVisit g c) tr.
Proof.
  intros Hg. unfold start_iter, push_all. destruct (h.(clients) !! r) as [l|] eqn:Hl.
  2: { exists []. split; constructor. }
  set (h2 := with_iters _ h).
  destruct (visit_all g (mkIter l (map_at l h) ∅ x) (elements (map_at l h)) h2)
    as (tr & ch & Hr & Hvis & Hd).
  - unfold h2. simpl. by rewrite lookup_insert_eq.
  - apply NoDup_elements.
  - intros c Hc%elem_of_elements. split; [exact Hc|set_solver].
  - exists (LDone g :: tr). split; [|constructor; [by left|]].
    2: { eapply Forall_impl; [exact Hvis|]. by right. }
    eapply runs_step; [exact Hr|]. rewrite list_to_set_elements_L in *.
    match goal with |- step ?a _ ?b => replace b with (with_iters (delete g a.(iters)) a) end.
    + eapply st_done; simpl; [by rewrite lookup_insert_eq|]. simpl. set_solver.
    + unfold with_iters, with_chans. simpl.
      rewrite !insert_insert_eq, delete_insert_id by done. f_equal.
      apply map_eq. intros c. rewrite (Hd c), map_lookup_imap. simpl.
      by destruct (h.(chans) !! c); simpl; case_decide.
Qed.

(** Reads and deliveries told by a request are runs of the hub. *)
Lemma read_told_runs g a id at_ h :
  1 < g → h.(iters) !! g = None →
  ∃ tr, runs h (tr ++ [LRead g a id at_]) (read_told a id at_ h).
Proof.
  intros H1 Hg. set (h1 := publish (PRead a id at_) h).
  destruct (loop_alone g a (ReadMsg id at_) h1) as (tr & Hr & _).
  { unfold h1, publish. by destruct (redis h). }
  exists tr. eapply runs_app; [|exact Hr]. eapply runs_step; [constructor|]. by apply st_read.
Qed.

Lemma delivery_told_runs g a id st h :
  1 < g → h.(iters) !! g = None →
  ∃ tr, runs h (tr ++ [LDelivery g a id st]) (delivery_told a id st h).
Proof.
  intros H1 Hg. set (h1 := publish (PDelivery a id st) h).
  destruct (loop_alone g a (DeliveryMsg id st) h1) as (tr & Hr & _).
  { unfold h1, publish. by destruct (redis h). }
  exists tr. eapply runs_app; [|exact Hr]. eapply runs_step; [constructor|]. by apply st_delivery.
Qed.

(** ** Properties *)

(** C26: in every interleaving of registrations, notifications, Redis messages
      and loops: a message in the buffer of a client was asked for, for the
      recipient that client listens for; the registry holds exactly one
      non-empty map of clients per recipient; and no channel exceeds its
      capacity. *)
Theorem hub_invariant b tr h :
  runs (NewHubWithRedis b) tr h →
  (∀ c ms x, h.(chans) !! c = Some ms → x ∈ ms →
     ∃ cl, h.(conns) !! c = Some cl ∧ sent tr cl.(CRecipient) x) ∧
  reg_inv h ∧ bounded h.
Proof. intros Hr. apply runs_inv in Hr as (? & (_ & _ & _ & _ & ?) & ?). done. Qed.


(** The loops over client maps run without the lock: there is a run of a
      single-node hub in which [Run] is in the middle of the map of a
      recipient that another client is about to be registered for. *)
Theorem iteration_race_reachable : ∃ tr h, runs NewHub tr h ∧ racy h.
Proof.
  set (h1 := Register "@a:x" "@a:x" 0 0 NewHub).
  set (h2 := Notify "@a:x" "e" h1).
  set (h3 := start_iter 0 "@a:x" (NewMessage "e") (with_events [] h2.(typingBroadcast) h2)).
  exists [LRun; LNotify "@a:x" "e"; LRegister "@a:x" "@a:x" 0 0], h3. split.
  - eapply runs_step; [eapply runs_step; [eapply runs_step; [constructor|]|]|].
    + by apply st_register.
    + apply st_notify.
    + by apply (st_run h2 (mkEvent "@a:x" "e") []).
  - exists 0, (mkIter 0 {[0]} ∅ (NewMessage "e")), (LRegister "@a:x" "@a:x" 1 1).
    eexists. split; [by vm_compute|]. split; [set_solver|]. split; [by apply st_register|].
    by vm_compute.
Qed.

(** ** Witnesses *)
Lemma hub_invariant_witness :
  let h := Notify "@a:x" "e" (Register "@a:x" "@a:x" 0 0 NewHub) in
  (∀ c ms x, h.(chans) !! c = Some ms → x ∈ ms →
     ∃ cl, h.(conns) !! c = Some cl ∧
       sent [LNotify "@a:x" "e"; LRegister "@a:x" "@a:x" 0 0] cl.(CRecipient) x) ∧
  reg_inv h ∧ bounded h.
Proof.
  intros h. apply (hub_invariant false).
  eapply runs_step; [eapply runs_step; [constructor|]|].
  - by apply st_register.
  - apply st_notify.
Defined.

End Stream.
