(* ===== verification/Coordinator.v ===== *)
(** * The mesh coordinator ([mesh/coordinator])

    The service that hands out WireGuard addresses: its state and its state
    file ([main.go]), the five HTTP handlers, the Traefik routes it writes and
    the client certificates it issues ([cert.go]).  A handler is cut where the
    code leaves or enters the mutex, so that requests can interleave; the
    transition system [step] runs any number of them, with restarts. *)

From Stdlib Require Import Ascii String.
From stdpp Require Import strings.
From S2P Require Import Prelude GoStrings Encoding Crypto Samples.
Set Default Goal Selector "!".
Open Scope stdpp_scope.

(** ** [crypto/x509], [crypto/ecdsa], [encoding/pem] *)

(** The fields of [x509.Certificate] the code sets. *)
Record CertTemplate := {
  SerialNumber : Z;
  CommonName : string;
  NotBefore : Z;
  NotAfter : Z;
  DigitalSignature : bool;
  ClientAuth : bool;
  DNSNames : list string;
}.

Class X509 := {
  pem_decode : string → option string;
  pem_encode : string → string → string;
  parse_certificate : string → option string;
  parse_pkcs8 : string → option string;
  parse_ec : string → option string;
  parse_pkcs1 : string → option string;
  ecdsa_generate : string → option string;
  ecdsa_public : string → string;
  (* template, issuer, public key, signer *)
  create_certificate : CertTemplate → string → string → string → option string;
  marshal_ec : string → option string;
}.

Module Coordinator.

(** ** Data *)
Definition meshIPBase : string := "10.100.0.".

Record Node := {
  ID : string;
  Domain : string;
  PublicKey : string;
  Endpoint : string;
  VPNIP : string;
  Subdomain : string;
  JoinedAt : Z;
}.

#[export] Instance Node_eq_dec : EqDecision Node.
Proof. solve_decision. Defined.

Record JoinRequest := {
  jr_Token : string;
  jr_PublicKey : string;
  jr_Endpoint : string;
  jr_Domain : string;
}.

Record Peer := {
  p_PublicKey : string;
  p_AllowedIPs : string;
  p_Endpoint : string;
}.

Record JoinResponse := {
  jp_VPNIP : string;
  jp_Peers : list Peer;
  jp_BackupPeers : list string;
  jp_BackupSecret : string;
  jp_ListenPort : Z;
}.

(** The query string of [/v1/config]. *)
Record ConfigQuery := {
  cq_token : string;
  cq_public_key : string;
  cq_endpoint : string;
  cq_domain : string;
  cq_use_subdomain : string;
  cq_main_domain : string;
}.

(** The headers and the body of its answer; [cr_subdomain] holds
    [X-Subdomain] and [X-Server-Domain] when they are set. *)
Record ConfigResponse := {
  cr_vpn_ip : string;
  cr_backup_peers : string;
  cr_backup_secret : string;
  cr_subdomain : option (string * string);
  cr_body : string;
}.

Record caLoader := { ca_cert : string; ca_key : string }.

Record Coordinator := mkCoordinator {
  nodes : list Node;
  nextIP : Z;
  token : string;
  backupSecret : string;
  storagePath : string;
  routesDir : string;
  ca : option caLoader;
}.

(** The state file: absent or unreadable, not valid JSON, or a saved state. *)
Record SavedState := {
  st_Nodes : list Node;
  st_NextIP : Z;
  st_Token : string;
  st_Backup : string;
}.

Inductive file := Missing | Garbage | Json (s : SavedState).

(** ** [load] and [save] *)
Definition load (f : file) (c : Coordinator) : Coordinator :=
  if String.eqb (storagePath c) "" then c
  else match f with
  | Missing | Garbage => c
  | Json s => {|
      nodes := st_Nodes s;
      nextIP := st_NextIP s;
      token := if String.eqb (st_Token s) "" then token c else st_Token s;
      backupSecret := if String.eqb (st_Backup s) "" then backupSecret c else st_Backup s;
      storagePath := storagePath c; routesDir := routesDir c; ca := ca c
    |}
  end.

(** A node after [json.MarshalIndent]. *)
Definition json_node (n : Node) : Node := {|
  ID := json_str (ID n); Domain := json_str (Domain n);
  PublicKey := json_str (PublicKey n); Endpoint := json_str (Endpoint n);
  VPNIP := json_str (VPNIP n); Subdomain := json_str (Subdomain n);
  JoinedAt := JoinedAt n
|}.

Definition json_state (c : Coordinator) : SavedState := {|
  st_Nodes := json_node <$> nodes c;
  st_NextIP := nextIP c;
  st_Token := json_str (token c);
  st_Backup := json_str (backupSecret c);
|}.

(** [werr]: what a failing [os.WriteFile] leaves behind; its error is dropped. *)
Definition save (werr : option file) (c : Coordinator) (f : file) : file :=
  if String.eqb (storagePath c) "" then f
  else match werr with Some f' => f' | None => Json (json_state c) end.

(** ** Small helpers *)

(** [randBase64(n)] on the random bytes [b]. *)
Definition rand_bytes (n : nat) : nat := (n * 3 + 3) / 4.
Definition randBase64 (n : nat) (b : string) : string := stake n (b64_raw_url_encode b).

Definition subdomainFromEndpoint (endpoint : string) : string :=
  let endpoint :=
    match index endpoint ":" with
    | Some idx => if 0 <? idx then stake idx endpoint else endpoint
    | None => endpoint
    end in
  replace_byte "." "-" endpoint.

(** The random bytes and the clock a critical section reads; whether
    writing a route succeeds. *)
Record Env := {
  rnd_token : string;
  rnd_secret : string;
  rnd_id : string;
  now : Z;
  route_ok : bool;
}.

(** [c.token], [c.backupSecret] and [c.nextIP] on the very first registration. *)
Definition init_token (e : Env) (c : Coordinator) : Coordinator :=
  if String.eqb (token c) "" then {|
    nodes := nodes c; nextIP := 1;
    token := randBase64 24 (rnd_token e);
    backupSecret := randBase64 32 (rnd_secret e);
    storagePath := storagePath c; routesDir := routesDir c; ca := ca c
  |} else c.

(** [vpnIP := meshIPBase + itoa(c.nextIP); c.nextIP++; c.nodes = append(c.nodes, node)] *)
Definition add_node (mk : string → Node) (c : Coordinator) : string * Coordinator :=
  let vpnIP := meshIPBase +:+ itoa (nextIP c) in
  (vpnIP, {|
    nodes := nodes c ++ [mk vpnIP];
    nextIP := wrap64 (nextIP c + 1);
    token := token c; backupSecret := backupSecret c;
    storagePath := storagePath c; routesDir := routesDir c; ca := ca c
  |}).

(** The nodes a node is told about. *)
Definition others (vpnIP : string) (l : list Node) : list Node :=
  filter (λ n, VPNIP n ≠ vpnIP) l.

(** ** Traefik routes *)
Definition quote : string := String "034" "".
Definition bs_quote : string := String "092" quote.
Definition newline : string := String "010" "".

Definition route_host (subdomain mainDomain : string) : string :=
  subdomain +:+ "." +:+ mainDomain.

(** [strings.NewReplacer('.', '_', '-', '_').Replace(subdomain)] *)
Definition route_safe (subdomain : string) : string :=
  smap (λ a, if Ascii.eqb a "." || Ascii.eqb a "-" then "_"%char else a) subdomain.

Definition route_path (routesDir subdomain : string) : string :=
  routesDir +:+ "/selfhost-" +:+ route_safe subdomain +:+ ".yaml".

Definition path_prefix (p : string) : string :=
  "PathPrefix(" +:+ bs_quote +:+ p +:+ bs_quote +:+ ")".

Definition route_body (safe host backendURL : string) : string :=
  join newline
    ["http:";
     "  routers:";
     "    " +:+ safe +:+ "-api:";
     "      rule: " +:+ quote +:+ "Host(" +:+ bs_quote +:+ host +:+ bs_quote +:+ ") && (" +:+
       path_prefix "/api" +:+ " || " +:+ path_prefix "/.well-known" +:+ " || " +:+
       path_prefix "/federation" +:+ " || " +:+ path_prefix "/health" +:+ ")" +:+ quote;
     "      service: " +:+ safe +:+ "-svc";
     "      entryPoints: [websecure]";
     "      tls: { certResolver: letsencrypt }";
     "      priority: 100";
     "    " +:+ safe +:+ "-web:";
     "      rule: " +:+ quote +:+ "Host(" +:+ bs_quote +:+ host +:+ bs_quote +:+ ")" +:+ quote;
     "      service: " +:+ safe +:+ "-svc";
     "      entryPoints: [websecure]";
     "      tls: { certResolver: letsencrypt }";
     "      priority: 1";
     "  services:";
     "    " +:+ safe +:+ "-svc:";
     "      loadBalancer:";
     "        servers:";
     "          - url: " +:+ quote +:+ backendURL +:+ quote;
     "        passHostHeader: true";
     ""].

Definition writeTraefikRoute (ok : bool) (c : Coordinator)
    (subdomain mainDomain backendURL : string) (r : gmap string string) : gmap string string :=
  if String.eqb (routesDir c) "" || String.eqb subdomain "" || String.eqb mainDomain "" then r
  else if ok then
    <[route_path (routesDir c) subdomain :=
        route_body (route_safe subdomain) (route_host subdomain mainDomain) backendURL]> r
  else r.

(** [if subdomain != '' && mainDomain != '' { c.writeTraefikRoute(...) }] *)
Definition write_route (e : Env) (c : Coordinator) (subdomain mainDomain vpnIP : string)
    (r : gmap string string) : gmap string string :=
  if negb (String.eqb subdomain "") && negb (String.eqb mainDomain "") then
    writeTraefikRoute (route_ok e) c subdomain mainDomain ("http://" +:+ vpnIP +:+ ":9080") r
  else r.

(** ** Responses *)
Inductive Response :=
| RError (status : Z) (msg : string)
| RJoin (r : JoinResponse)
| RPeers (l : list Node)
| RConfig (r : ConfigResponse)
| RCert (cert_pem key_pem : string)
| RToken (tok : string).

(** ** [handleJoin] *)

(** Up to the mutex; [req = None]: the body is not valid JSON. *)
Definition handleJoin_check (post : bool) (req : option JoinRequest) (c : Coordinator) :
    result Response JoinRequest :=
  if negb post then Err (RError 405 "method not allowed") else
  match req with
  | None => Err (RError 400 "invalid json")
  | Some req =>
    if String.eqb (jr_PublicKey req) "" || String.eqb (jr_Endpoint req) "" ||
       String.eqb (jr_Domain req) ""
    then Err (RError 400 "public_key, endpoint, domain required") else
    if negb (String.eqb (token c) "") && negb (String.eqb (jr_Token req) (token c))
    then Err (RError 401 "invalid token") else Ok req
  end.

Definition peer_of (n : Node) : Peer := {|
  p_PublicKey := PublicKey n;
  p_AllowedIPs := VPNIP n +:+ "/32";
  p_Endpoint := Endpoint n;
|}.

(** Between [Lock] and [Unlock]. *)
Definition handleJoin_locked (e : Env) (req : JoinRequest) (c : Coordinator) :
    (string * list Peer * list string) * Coordinator :=
  let '(vpnIP, c) := add_node (λ vpnIP, {|
    ID := randBase64 12 (rnd_id e); Domain := jr_Domain req; PublicKey := jr_PublicKey req;
    Endpoint := jr_Endpoint req; VPNIP := vpnIP; Subdomain := ""; JoinedAt := now e |})
    (init_token e c) in
  ((vpnIP, peer_of <$> others vpnIP (nodes c), VPNIP <$> others vpnIP (nodes c)), c).

(** After [c.save()]: [c.backupSecret] is read without the mutex. *)
Definition handleJoin_reply (vpnIP : string) (peers : list Peer) (backupPeers : list string)
    (c : Coordinator) : Response :=
  RJoin {| jp_VPNIP := vpnIP; jp_Peers := peers; jp_BackupPeers := backupPeers;
           jp_BackupSecret := backupSecret c; jp_ListenPort := 51820 |}.

(** ** [handlePeers] *)
Definition handlePeers_check (tok : string) (c : Coordinator) : result Response unit :=
  if negb (String.eqb (token c) "") && negb (String.eqb tok (token c))
  then Err (RError 401 "invalid token") else Ok tt.

Definition handlePeers_locked (c : Coordinator) : Response := RPeers (nodes c).

(** ** [handleConfig] *)
Definition handleConfig_check (q : ConfigQuery) (c : Coordinator) : result Response unit :=
  if String.eqb (cq_public_key q) "" || String.eqb (cq_endpoint q) "" ||
     String.eqb (cq_domain q) ""
  then Err (RError 400 "public_key, endpoint, domain required") else
  if negb (String.eqb (token c) "") && negb (String.eqb (cq_token q) (token c))
  then Err (RError 401 "invalid token") else Ok tt.

Definition peer_section (n : Node) : string :=
  "[Peer]" +:+ newline +:+
  "PublicKey = " +:+ PublicKey n +:+ newline +:+
  "AllowedIPs = " +:+ VPNIP n +:+ "/32" +:+ newline +:+
  "Endpoint = " +:+ Endpoint n +:+ newline +:+ newline.

Fixpoint concat_strings (l : list string) : string :=
  match l with [] => "" | s :: l' => s +:+ concat_strings l' end.

Definition config_body (vpnIP : string) (l : list Node) : string :=
  "[Interface]" +:+ newline +:+
  "PrivateKey = <PRIVATE_KEY>" +:+ newline +:+
  "Address = " +:+ vpnIP +:+ "/32" +:+ newline +:+
  "ListenPort = 51820" +:+ newline +:+ newline +:+
  concat_strings (peer_section <$> others vpnIP l).

(** The loop that builds [X-Backup-Peers]. *)
Definition backup_list (vpnIP : string) (l : list Node) : string :=
  foldl (λ bp n, if String.eqb bp "" then VPNIP n else bp +:+ "," +:+ VPNIP n) ""
    (others vpnIP l).

Definition config_response (vpnIP subdomain mainDomain secret : string) (l : list Node) :
    ConfigResponse := {|
  cr_vpn_ip := vpnIP;
  cr_backup_peers := backup_list vpnIP l;
  cr_backup_secret := secret;
  cr_subdomain := if negb (String.eqb subdomain "") && negb (String.eqb mainDomain "")
                  then Some (subdomain, subdomain +:+ "." +:+ mainDomain) else None;
  cr_body := config_body vpnIP l;
|}.

(** Between [Lock] and [Unlock]: the answer, whether the key was already
    registered (in which case nothing is saved), the state and the routes.
    [n.Subdomain = subdomain] assigns to the loop's copy of the node. *)
Definition handleConfig_locked (e : Env) (q : ConfigQuery) (c : Coordinator)
    (r : gmap string string) : ConfigResponse * bool * Coordinator * gmap string string :=
  match list_find (λ n, PublicKey n = cq_public_key q) (nodes c) with
  | Some (_, n) =>
    let subdomain :=
      if String.eqb (Subdomain n) "" && negb (String.eqb (cq_main_domain q) "")
      then subdomainFromEndpoint (Endpoint n) else Subdomain n in
    (config_response (VPNIP n) subdomain (cq_main_domain q) (backupSecret c) (nodes c),
     true, c, write_route e c subdomain (cq_main_domain q) (VPNIP n) r)
  | None =>
    let useSubdomain := String.eqb (cq_use_subdomain q) "1" ||
                        String.eqb (cq_use_subdomain q) "true" in
    let subdomain := if useSubdomain && negb (String.eqb (cq_main_domain q) "")
                     then subdomainFromEndpoint (cq_endpoint q) else "" in
    let '(vpnIP, c) := add_node (λ vpnIP, {|
      ID := randBase64 12 (rnd_id e); Domain := cq_domain q; PublicKey := cq_public_key q;
      Endpoint := cq_endpoint q; VPNIP := vpnIP; Subdomain := subdomain; JoinedAt := now e |})
      (init_token e c) in
    (config_response vpnIP subdomain (cq_main_domain q) (backupSecret c) (nodes c),
     false, c, write_route e c subdomain (cq_main_domain q) vpnIP r)
  end.

(** ** [handleToken] *)
Definition handleToken_locked (e : Env) (c : Coordinator) : string * Coordinator :=
  if String.eqb (token c) "" then
    let tok := randBase64 24 (rnd_token e) in
    (tok, {| nodes := nodes c; nextIP := nextIP c; token := tok;
             backupSecret := randBase64 32 (rnd_secret e);
             storagePath := storagePath c; routesDir := routesDir c; ca := ca c |})
  else (token c, c).

(** ** Client certificates ([cert.go]) *)
Section cert.
Context `{X509, GoUnicode}.

(** [fs]: the files that can be read. *)
Definition loadCA (fs : gmap string string) (certPath keyPath : string) :
    result string caLoader :=
  if String.eqb certPath "" || String.eqb keyPath "" then Err "CA cert/key paths not set" else
  match fs !! certPath with None => Err "read CA cert" | Some certPEM =>
  match fs !! keyPath with None => Err "read CA key" | Some keyPEM =>
  match pem_decode certPEM with None => Err "invalid CA cert PEM" | Some block =>
  match parse_certificate block with None => Err "parse CA cert" | Some caCert =>
  match pem_decode keyPEM with None => Err "invalid CA key PEM" | Some keyBlock =>
  match (match parse_pkcs8 keyBlock with
         | Some k => Some k
         | None => match parse_ec keyBlock with
                   | Some k => Some k
                   | None => parse_pkcs1 keyBlock
                   end
         end) with
  | None => Err "parse CA key"
  | Some caKey => Ok {| ca_cert := caCert; ca_key := caKey |}
  end end end end end end.

(** What issuing a certificate draws from the environment: the randomness
    of the key, the serial number ([None]: no entropy), the two readings of
    the clock. *)
Record CertEnv := {
  ce_key : string;
  ce_serial : option Z;
  ce_before : Z;
  ce_after : Z;
}.

Definition client_template (e : CertEnv) (serial : Z) (domain : string) : CertTemplate := {|
  SerialNumber := serial;
  CommonName := domain;
  NotBefore := ce_before e;
  NotAfter := ce_after e + 365 * 24 * hour;
  DigitalSignature := true;
  ClientAuth := true;
  DNSNames := [domain];
|}.

Definition issueClientCert (e : CertEnv) (ca : caLoader) (domain : string) :
    result string (string * string) :=
  let domain := norm domain in
  if String.eqb domain "" then Err "domain required" else
  match ecdsa_generate (ce_key e) with None => Err "generate key" | Some clientKey =>
  match ce_serial e with None => Err "serial" | Some serial =>
  match create_certificate (client_template e serial domain) (ca_cert ca)
          (ecdsa_public clientKey) (ca_key ca) with
  | None => Err "create certificate"
  | Some certDER =>
    match marshal_ec clientKey with
    | None => Err "marshal key"
    | Some keyDER => Ok (pem_encode "CERTIFICATE" certDER, pem_encode "EC PRIVATE KEY" keyDER)
    end end end end.

(** *** [handleCert] *)
Record CertRequest := { ct_Token : string; ct_Domain : string }.

Definition handleCert_check (post : bool) (req : option CertRequest) (c : Coordinator) :
    result Response (caLoader * string) :=
  if negb post then Err (RError 405 "method not allowed") else
  match ca c with
  | None => Err (RError 503 "mTLS cert issuance disabled (no COORDINATOR_CA_CERT/KEY)")
  | Some ca =>
    match req with
    | None => Err (RError 400 "invalid json")
    | Some req =>
      let domain := trim_space (to_lower (ct_Domain req)) in
      if String.eqb domain "" then Err (RError 400 "domain required") else
      if negb (String.eqb (token c) "") && negb (String.eqb (ct_Token req) (token c))
      then Err (RError 401 "invalid token") else Ok (ca, domain)
    end
  end.

Definition domain_found (domain : string) (c : Coordinator) : bool :=
  existsb (λ n, equal_fold (Domain n) domain) (nodes c).

Definition handleCert_locked (e : CertEnv) (ca : caLoader) (domain : string)
    (c : Coordinator) : Response :=
  if negb (domain_found domain c) then RError 403 "domain not registered in mesh" else
  match issueClientCert e ca domain with
  | Err _ => RError 500 "failed to issue cert"
  | Ok (certPEM, keyPEM) => RCert certPEM keyPEM
  end.
End cert.

(** ** The server

    A request runs its checks when it arrives, then waits for the mutex;
    after its critical section a registration still has to save the state and
    to answer.  [rep_saved]: the answer was sent after [c.save()]. *)
Inductive Request :=
| QJoin (post : bool) (body : option JoinRequest)
| QPeers (tok : string)
| QConfig (q : ConfigQuery)
| QCert (post : bool) (body : option CertRequest)
| QToken.

Inductive Stage :=
| JoinAtLock (req : JoinRequest)
| JoinAtSave (req : JoinRequest) (vpnIP : string) (peers : list Peer) (backupPeers : list string)
| PeersAtLock
| ConfigAtLock (q : ConfigQuery)
| ConfigAtSave (q : ConfigQuery) (r : ConfigResponse)
| CertAtLock (ca : caLoader) (domain : string)
| TokenAtLock
| TokenAtSave (tok : string).

(** An answer, with the public key it concerns if the request has one. *)
Record Reply := {
  rep_key : string;
  rep_response : Response;
  rep_saved : bool;
}.

Record World := {
  coord : Coordinator;
  disk : file;
  routes : gmap string string;
  pending : gmap nat Stage;
  replies : list Reply;
}.

Inductive Action :=
| Arrive (i : nat) (q : Request)
| Enter (i : nat) (e : Env) (ce : CertEnv)
| Finish (i : nat) (werr : option file)
| Restart.

Section server.
Context `{X509, GoUnicode}.

Definition request_key (q : Request) : string :=
  match q with
  | QJoin _ (Some r) => jr_PublicKey r
  | QConfig q => cq_public_key q
  | _ => ""
  end.

Definition check (q : Request) (c : Coordinator) : result Response Stage :=
  match q with
  | QJoin post body => JoinAtLock <$> handleJoin_check post body c
  | QPeers tok => (λ _, PeersAtLock) <$> handlePeers_check tok c
  | QConfig q => (λ _, ConfigAtLock q) <$> handleConfig_check q c
  | QCert post body => (λ '(ca, d), CertAtLock ca d) <$> handleCert_check post body c
  | QToken => Ok TokenAtLock
  end.

Definition answer (i : nat) (r : Reply) (w : World) : World := {|
  coord := coord w; disk := disk w; routes := routes w;
  pending := delete i (pending w); replies := replies w ++ [r]
|}.

Definition wait (i : nat) (s : Stage) (w : World) : World := {|
  coord := coord w; disk := disk w; routes := routes w;
  pending := <[i := s]> (pending w); replies := replies w
|}.

Definition set_coord (c : Coordinator) (r : gmap string string) (w : World) : World := {|
  coord := c; disk := disk w; routes := r; pending := pending w; replies := replies w
|}.

Definition enter (i : nat) (e : Env) (ce : CertEnv) (w : World) : option World :=
  match pending w !! i with
  | Some (JoinAtLock req) =>
    let '((ip, ps, bps), c) := handleJoin_locked e req (coord w) in
    Some (wait i (JoinAtSave req ip ps bps) (set_coord c (routes w) w))
  | Some PeersAtLock => Some (answer i (Build_Reply "" (handlePeers_locked (coord w)) false) w)
  | Some (ConfigAtLock q) =>
    let '(r, known, c, rt) := handleConfig_locked e q (coord w) (routes w) in
    let w := set_coord c rt w in
    Some (if known : bool then answer i (Build_Reply (cq_public_key q) (RConfig r) false) w
          else wait i (ConfigAtSave q r) w)
  | Some (CertAtLock ca d) =>
    Some (answer i (Build_Reply "" (handleCert_locked ce ca d (coord w)) false) w)
  | Some TokenAtLock =>
    let '(tok, c) := handleToken_locked e (coord w) in
    Some (wait i (TokenAtSave tok) (set_coord c (routes w) w))
  | _ => None
  end.

(** The answer of a request whose critical section is over. *)
Definition final_reply (s : Stage) (c : Coordinator) : option Reply :=
  match s with
  | JoinAtSave req ip ps bps =>
    Some (Build_Reply (jr_PublicKey req) (handleJoin_reply ip ps bps c) true)
  | ConfigAtSave q r => Some (Build_Reply (cq_public_key q) (RConfig r) true)
  | TokenAtSave tok => Some (Build_Reply "" (RToken tok) true)
  | _ => None
  end.

Definition finish (i : nat) (werr : option file) (w : World) : option World :=
  s ← pending w !! i;
  r ← final_reply s (coord w);
  Some (answer i r {|
    coord := coord w; disk := save werr (coord w) (disk w); routes := routes w;
    pending := pending w; replies := replies w |}).

(** [main]: a new process reads the state file. *)
Definition boot (storage routesDir : string) (ca : option caLoader) (f : file) : Coordinator :=
  load f {| nodes := []; nextIP := 0; token := ""; backupSecret := "";
            storagePath := storage; routesDir := routesDir; ca := ca |}.

Definition step (w : World) (a : Action) : option World :=
  match a with
  | Arrive i q =>
    match pending w !! i with
    | Some _ => None
    | None =>
      Some match check q (coord w) with
           | Err r => answer i (Build_Reply (request_key q) r false) w
           | Ok s => wait i s w
           end
    end
  | Enter i e ce => enter i e ce w
  | Finish i werr => finish i werr w
  | Restart => Some {|
      coord := boot (storagePath (coord w)) (routesDir (coord w)) (ca (coord w)) (disk w);
      disk := disk w; routes := routes w; pending := ∅; replies := replies w |}
  end.

Fixpoint steps (w : World) (l : list Action) : option World :=
  match l with
  | [] => Some w
  | a :: l' => w' ← step w a; steps w' l'
  end.

(** The first start, with no state file. *)
Definition start (storage routesDir : string) (ca : option caLoader) : World := {|
  coord := boot storage routesDir ca Missing;
  disk := Missing; routes := ∅; pending := ∅; replies := []
|}.

(** One request, run without interruption; [werr] as in [save]. *)
Definition serve (q : Request) (e : Env) (ce : CertEnv) (werr : option file) (w : World) : option World :=
  match check q (coord w) with
  | Err _ => step w (Arrive 0 q)
  | Ok s =>
    w' ← step w (Arrive 0 q); w'' ← step w' (Enter 0 e ce);
    match pending w'' !! 0 with
    | None => Some w''
    | Some _ => step w'' (Finish 0 werr)
    end
  end.
End server.

(** [main]: the address it listens on and the coordinator; [disk path] is the
    state file, [fs] the files that can be read. *)
Section process.
Context `{X509, GoUnicode}.

Definition main (env : string → string) (fs : gmap string string) (disk : string → file) : string * Coordinator :=
  let addr := if String.eqb (env "COORDINATOR_ADDR") "" then ":9443" else env "COORDINATOR_ADDR" in
  let storage := if String.eqb (env "COORDINATOR_STORAGE") "" then "/data/coordinator.json"
                 else env "COORDINATOR_STORAGE" in
  let caCertPath := env "COORDINATOR_CA_CERT" in
  let caKeyPath := env "COORDINATOR_CA_KEY" in
  let ca := if negb (String.eqb caCertPath "") && negb (String.eqb caKeyPath "") then
              match loadCA fs caCertPath caKeyPath with Ok ca => Some ca | Err _ => None end
            else None in
  (addr, boot storage (env "COORDINATOR_ROUTES_DIR") ca (disk storage)).

(** A coordinator always has a state file, as its theorems ask, and issues
    certificates exactly when its authority can be loaded. *)
Lemma main_configured env fs disk :
  storagePath (main env fs disk).2 ≠ "" ∧ (main env fs disk).1 ≠ "" ∧
  ∀ a, ca (main env fs disk).2 = Some a ↔ loadCA fs (env "COORDINATOR_CA_CERT") (env "COORDINATOR_CA_KEY") = Ok a.
Proof.
  assert (∀ st rd a f, storagePath (boot st rd a f) = st ∧ ca (boot st rd a f) = a) as Hboot.
  { intros st rd a f. unfold boot, load. by repeat case_match. }
  unfold main. cbv zeta. cbn [fst snd]. split; [|split].
  - rewrite (proj1 (Hboot _ _ _ _)). by destruct (String.eqb_spec (env "COORDINATOR_STORAGE") "").
  - by destruct (String.eqb_spec (env "COORDINATOR_ADDR") "").
  - intros a. rewrite (proj2 (Hboot _ _ _ _)). unfold loadCA.
    destruct (String.eqb (env "COORDINATOR_CA_CERT") ""), (String.eqb (env "COORDINATOR_CA_KEY") "");
      cbn; repeat case_match; naive_solver.
Qed.
End process.

(** ** Lemmas *)

(** [rand.Read] fills its buffer. *)
Definition env_ok (e : Env) : Prop :=
  slen (rnd_token e) = rand_bytes 24 ∧ slen (rnd_secret e) = rand_bytes 32 ∧
  slen (rnd_id e) = rand_bytes 12.

(** The slice [[:n]] of [randBase64] is in range. *)
Lemma slen_randBase64 n b : slen b = rand_bytes n → slen (randBase64 n b) = n.
Proof.
  intros Hb. apply slen_stake. pose proof (slen_b64_raw_url b) as Hl. rewrite Hb in Hl.
  unfold rand_bytes in *. apply Nat2Z.inj_le. rewrite Hl, Nat2Z.inj_div. zdiv.
Qed.

Lemma randBase64_ascii n b : is_ascii (randBase64 n b) = true.
Proof. apply is_ascii_stake, b64_raw_url_ascii. Qed.

Lemma randBase64_nonempty n b : slen b = rand_bytes (S n) → randBase64 (S n) b ≠ "".
Proof. intros Hb He. apply slen_randBase64 in Hb. by rewrite He in Hb. Qed.

Definition vpn_ip (i : Z) : string := meshIPBase +:+ itoa i.

#[export] Instance vpn_ip_inj : Inj (=) (=) vpn_ip.
Proof. intros i j H. apply string_app_inj_l in H. by apply itoa_inj. Qed.

Lemma vpn_ip_ascii i : is_ascii (vpn_ip i) = true.
Proof. unfold vpn_ip. by rewrite is_ascii_app, itoa_ascii. Qed.

(** The coordinator after at most [k] steps. *)
Record coord_ok (k : Z) (c : Coordinator) : Prop := {
  ok_empty : token c = "" → nodes c = [] ∧ nextIP c = 0%Z;
  ok_next : (0 ≤ nextIP c ≤ k + 1)%Z;
  ok_ips : NoDup (VPNIP <$> nodes c);
  ok_form n : n ∈ nodes c → ∃ i, (0 ≤ i < nextIP c)%Z ∧ VPNIP n = vpn_ip i;
}.

Lemma coord_ok_mono k k' c : (k ≤ k')%Z → coord_ok k c → coord_ok k' c.
Proof. intros Hk []. split; auto with lia. Qed.

(** The address about to be given is new. *)
Lemma coord_ok_fresh k c n : coord_ok k c → n ∈ nodes c → VPNIP n ≠ vpn_ip (nextIP c).
Proof. intros Hc Hn Heq. destruct (ok_form _ _ Hc _ Hn) as (i & Hi & Hv).
  rewrite Hv in Heq. apply vpn_ip_inj in Heq. lia. Qed.

Lemma others_fresh ip l : (∀ n, n ∈ l → VPNIP n ≠ ip) → others ip l = l.
Proof.
  unfold others. induction l as [|n l IH]; intros Hl; [done|].
  rewrite filter_cons_True by (apply Hl; set_solver). f_equal. apply IH. set_solver.
Qed.

(** [init_token] gives a state with a token; [start_ip] is the address it
    will give next. *)
Definition start_ip (c : Coordinator) : Z := if String.eqb (token c) "" then 1 else nextIP c.

Lemma init_token_spec k e c :
  env_ok e → coord_ok k c → (0 ≤ k)%Z →
  let c' := init_token e c in
  coord_ok k c' ∧ token c' ≠ "" ∧ nodes c' = nodes c ∧ nextIP c' = start_ip c ∧
  (token c ≠ "" → c' = c).
Proof.
  intros (Ht & _ & _) Hc Hk. unfold init_token, start_ip.
  destruct (String.eqb_spec (token c) "") as [He|He]; simpl; [|done].
  destruct (ok_empty _ _ Hc He) as [Hn _]. rewrite Hn.
  pose proof (randBase64_nonempty 23 _ Ht). repeat split; simpl; try done; try lia.
  - constructor.
  - set_solver.
Qed.

Lemma add_node_spec k mk c :
  coord_ok k c → token c ≠ "" → (k + 2 < two63)%Z → (∀ ip, VPNIP (mk ip) = ip) →
  let '(ip, c') := add_node mk c in
  ip = vpn_ip (nextIP c) ∧ coord_ok (k + 1) c' ∧ nodes c' = nodes c ++ [mk ip] ∧
  token c' = token c ∧ others ip (nodes c') = nodes c ∧ backupSecret c' = backupSecret c.
Proof.
  intros Hc Ht Hk Hmk. simpl. fold (vpn_ip (nextIP c)).
  pose proof (ok_next _ _ Hc) as Hn.
  assert (others (vpn_ip (nextIP c)) (nodes c ++ [mk (vpn_ip (nextIP c))]) = nodes c) as Ho.
  { unfold others. rewrite filter_app, filter_cons_False, filter_nil, app_nil_r by (rewrite Hmk; auto).
    apply others_fresh. intros n Hnn. by eapply coord_ok_fresh. }
  repeat split; simpl; try done.
  - rewrite wrap64_id by (unfold two63 in *; lia). lia.
  - rewrite wrap64_id by (unfold two63 in *; lia). lia.
  - rewrite fmap_app, NoDup_app. split; [apply Hc|]. split; [|apply NoDup_singleton].
    intros x (n & -> & Hnn)%list_elem_of_fmap. simpl. rewrite Hmk, list_elem_of_singleton.
    by eapply coord_ok_fresh.
  - intros n [Hnn|Hnn]%elem_of_app; rewrite wrap64_id by (unfold two63 in *; lia).
    + destruct (ok_form _ _ Hc _ Hnn) as (i & ? & ?). exists i. split; [lia|done].
    + apply list_elem_of_singleton in Hnn as ->. exists (nextIP c). split; [lia|apply Hmk].
Qed.

(** A key holds an address. *)
Definition holds (l : list Node) (key ip : string) : Prop :=
  ∃ n, n ∈ l ∧ VPNIP n = ip ∧ PublicKey n = key.

Lemma holds_prefix l l' key ip : l `prefix_of` l' → holds l key ip → holds l' key ip.
Proof. intros [l0 ->] (n & Hn & ?). exists n. split; [set_solver|done]. Qed.

(** What every critical section keeps. *)
Record advanced (k : Z) (c c' : Coordinator) : Prop := {
  adv_ok : coord_ok (k + 1) c';
  adv_nodes : nodes c `prefix_of` nodes c';
  adv_token : token c ≠ "" → token c' = token c ∧ backupSecret c' = backupSecret c;
  adv_paths : storagePath c' = storagePath c ∧ routesDir c' = routesDir c ∧ ca c' = ca c;
}.

Lemma advanced_refl k c : coord_ok k c → advanced k c c.
Proof. intros Hc. split; [eapply coord_ok_mono; [|done]; lia|done..]. Qed.

Lemma register_spec k e mk c :
  env_ok e → coord_ok k c → (0 ≤ k)%Z → (k + 2 < two63)%Z → (∀ ip, VPNIP (mk ip) = ip) →
  let '(ip, c') := add_node mk (init_token e c) in
  ip = vpn_ip (start_ip c) ∧ advanced k c c' ∧ nodes c' = nodes c ++ [mk ip] ∧
  others ip (nodes c') = nodes c ∧ token c' ≠ "".
Proof.
  intros He Hc H0 Hk Hmk.
  destruct (init_token_spec k e c He Hc H0) as (Hc1 & Ht & Hn & Hi & Hsame).
  pose proof (add_node_spec k mk _ Hc1 Ht Hk Hmk) as Ha.
  destruct (add_node mk (init_token e c)) as [ip c'] eqn:Hadd.
  destruct Ha as (-> & Hok & Hnodes & Htok & Ho & Hsec). rewrite Hi, Hn in *.
  assert (storagePath c' = storagePath c ∧ routesDir c' = routesDir c ∧ ca c' = ca c) as Hp.
  { injection Hadd as _ <-. unfold init_token. by case_match. }
  split_and!; try done; [|congruence]. split; try done.
  - exists [mk (vpn_ip (start_ip c))]. done.
  - intros Hne. rewrite Htok, Hsec. by rewrite Hsame.
Qed.

Lemma handleJoin_locked_spec k e req c :
  env_ok e → coord_ok k c → (0 ≤ k)%Z → (k + 2 < two63)%Z →
  let '((ip, ps, bps), c') := handleJoin_locked e req c in
  ip = vpn_ip (start_ip c) ∧ advanced k c c' ∧
  ps = peer_of <$> nodes c ∧ bps = VPNIP <$> nodes c ∧ token c' ≠ "" ∧
  nodes c' = nodes c ++ [{|
    ID := randBase64 12 (rnd_id e); Domain := jr_Domain req; PublicKey := jr_PublicKey req;
    Endpoint := jr_Endpoint req; VPNIP := ip; Subdomain := ""; JoinedAt := now e |}].
Proof.
  intros He Hc H0 Hk. unfold handleJoin_locked.
  match goal with |- context [add_node ?mk _] =>
    pose proof (register_spec k e mk c He Hc H0 Hk (λ _, eq_refl)) as Hr end.
  destruct (add_node _ _) as [ip c']. destruct Hr as (? & ? & ? & Ho & ?).
  rewrite Ho. done.
Qed.

Lemma handleConfig_locked_spec k e q c r :
  env_ok e → coord_ok k c → (0 ≤ k)%Z → (k + 2 < two63)%Z →
  let '(rsp, known, c', r') := handleConfig_locked e q c r in
  advanced k c c' ∧
  (∃ sub, r' = write_route e c' sub (cq_main_domain q) (cr_vpn_ip rsp) r) ∧
  if known : bool then c' = c ∧ holds (nodes c) (cq_public_key q) (cr_vpn_ip rsp)
  else cr_vpn_ip rsp = vpn_ip (start_ip c) ∧ token c' ≠ "" ∧
       cr_body rsp = config_body (cr_vpn_ip rsp) (nodes c') ∧
       others (cr_vpn_ip rsp) (nodes c') = nodes c ∧
       ∃ n, nodes c' = nodes c ++ [n] ∧ VPNIP n = cr_vpn_ip rsp ∧ PublicKey n = cq_public_key q ∧
            Domain n = cq_domain q ∧ Endpoint n = cq_endpoint q.
Proof.
  intros He Hc H0 Hk. unfold handleConfig_locked.
  destruct (list_find _ _) as [[i n]|] eqn:Hf.
  - apply list_find_Some in Hf as (Hn & Hp & _). split; [by apply advanced_refl|].
    split; [by eexists|]. split; [done|]. exists n. split; [by eapply list_elem_of_lookup_2|done].
  - cbv zeta. match goal with |- context [add_node ?mk _] =>
      pose proof (register_spec k e mk c He Hc H0 Hk (λ _, eq_refl)) as Hr end.
    destruct (add_node _ _) as [ip c']. destruct Hr as (? & ? & Hn & Ho & ?).
    split; [done|]. split; [by eexists|]. simpl. split_and!; try done.
    eexists. split; [exact Hn|]. done.
Qed.

Lemma handleToken_locked_spec k e c :
  env_ok e → coord_ok k c → (0 ≤ k)%Z →
  let '(tok, c') := handleToken_locked e c in
  advanced k c c' ∧ tok = token c' ∧ token c' ≠ "" ∧ nodes c' = nodes c.
Proof.
  intros He Hc H0. unfold handleToken_locked.
  destruct (String.eqb_spec (token c) "") as [Ht|Ht]; simpl.
  - pose proof (randBase64_nonempty 23 _ (proj1 He)).
    split_and!; try done. split; try done.
    destruct Hc as [Hc1 Hc2 Hc3 Hc4]. destruct (Hc1 Ht) as [Hn Hi].
    split; simpl; try done; lia.
  - split_and!; try done. by apply advanced_refl.
Qed.

(** ** Restarts *)
Definition same_key (n n' : Node) : Prop :=
  VPNIP n' = VPNIP n ∧ PublicKey n' = json_str (PublicKey n).

Lemma json_node_form k c n : coord_ok k c → n ∈ nodes c → VPNIP (json_node n) = VPNIP n.
Proof.
  intros Hc Hn. destruct (ok_form _ _ Hc n Hn) as (i & _ & Hv). simpl. rewrite Hv.
  apply json_str_ascii, vpn_ip_ascii.
Qed.

Lemma boot_save storage rd ca' c f :
  storage ≠ "" → storagePath c = storage → (token c = "" → nodes c = [] ∧ nextIP c = 0%Z) →
  let c' := boot storage rd ca' (save None c f) in
  nodes c' = json_node <$> nodes c ∧ nextIP c' = nextIP c ∧ token c' = json_str (token c) ∧
  backupSecret c' = json_str (backupSecret c).
Proof.
  intros Hs Hp Ht. unfold boot, load, save. rewrite Hp. simpl.
  apply String.eqb_neq in Hs as ->. simpl. split_and!; try done.
  - destruct (String.eqb_spec (json_str (token c)) ""); congruence.
  - destruct (String.eqb_spec (json_str (backupSecret c)) ""); congruence.
Qed.

Lemma boot_save_ok k storage rd ca' c f :
  storage ≠ "" → storagePath c = storage → coord_ok k c →
  coord_ok k (boot storage rd ca' (save None c f)).
Proof.
  intros Hs Hp Hc.
  destruct (boot_save storage rd ca' c f Hs Hp (ok_empty _ _ Hc)) as (Hn & Hi & Ht & _).
  split; rewrite ?Hn, ?Hi, ?Ht.
  - intros He. destruct (ok_empty _ _ Hc) as [Hnil H0].
    { destruct (String.eqb_spec (token c) ""); [done|]. by destruct (json_str_nonempty (token c)). }
    by rewrite Hnil.
  - apply Hc.
  - replace (VPNIP <$> (json_node <$> nodes c)) with (VPNIP <$> nodes c); [apply Hc|].
    rewrite <- list_fmap_compose. apply list_fmap_ext. intros j n Hj. symmetry.
    eapply json_node_form; [done|]. by eapply list_elem_of_lookup_2.
  - intros n (n' & -> & Hn')%list_elem_of_fmap. rewrite (json_node_form k c) by done.
    by apply Hc.
Qed.

Lemma holds_json k storage rd ca' c f key ip :
  storage ≠ "" → storagePath c = storage → coord_ok k c → holds (nodes c) key ip →
  holds (nodes (boot storage rd ca' (save None c f))) (json_str key) ip.
Proof.
  intros Hs Hp Hc (n & Hn & Hip & Hk).
  destruct (boot_save storage rd ca' c f Hs Hp (ok_empty _ _ Hc)) as (Hn' & _).
  exists (json_node n). rewrite Hn'. split; [by apply list_elem_of_fmap_2|].
  split; [|simpl; congruence]. rewrite (json_node_form k c) by done. done.
Qed.

(** A key that is already registered. *)
Lemma handleConfig_locked_known e q c r i n :
  list_find (λ n, PublicKey n = cq_public_key q) (nodes c) = Some (i, n) →
  ∃ sub r', handleConfig_locked e q c r =
    (config_response (VPNIP n) sub (cq_main_domain q) (backupSecret c) (nodes c), true, c, r').
Proof. intros Hf. unfold handleConfig_locked. rewrite Hf. by eexists _, _. Qed.

(** The other nodes, by address and by identity. *)
Lemma others_ne k c n :
  coord_ok k c → n ∈ nodes c → others (VPNIP n) (nodes c) = filter (λ m, m ≠ n) (nodes c).
Proof.
  intros Hc Hn. pose proof (ok_ips _ _ Hc) as Hnd. clear Hc. unfold others.
  assert (∀ m, m ∈ nodes c → VPNIP m = VPNIP n → m = n) as Hinj.
  { intros m Hm Hip. apply list_elem_of_lookup in Hn as [i Hi].
    apply list_elem_of_lookup in Hm as [j Hj].
    assert (i = j) as ->; [|congruence].
    eapply NoDup_lookup; [exact Hnd| |]; rewrite list_lookup_fmap; [by rewrite Hi|].
    by rewrite Hj, <- Hip. }
  clear Hn Hnd. induction (nodes c) as [|m l IH]; [done|].
  destruct (decide (m = n)) as [->|Hne].
  - rewrite !filter_cons_False by naive_solver. apply IH. intros; apply Hinj; set_solver.
  - rewrite !filter_cons_True; [|done|].
    + f_equal. apply IH. intros; apply Hinj; set_solver.
    + intros Hip. apply Hne, Hinj; [set_solver|done].
Qed.

(** What needs no invariant: the routes directory never changes, and a
    critical section writes at most one route. *)
Lemma init_token_routesDir e c : routesDir (init_token e c) = routesDir c.
Proof. unfold init_token. by case_match. Qed.

Lemma handleJoin_locked_routesDir e req c : routesDir (handleJoin_locked e req c).2 = routesDir c.
Proof. simpl. apply init_token_routesDir. Qed.

Lemma handleToken_locked_routesDir e c : routesDir (handleToken_locked e c).2 = routesDir c.
Proof. unfold handleToken_locked. by case_match. Qed.

Lemma handleConfig_locked_route e q c r :
  let '(_, _, c', r') := handleConfig_locked e q c r in
  routesDir c' = routesDir c ∧ ∃ sub ip, r' = write_route e c' sub (cq_main_domain q) ip r.
Proof.
  unfold handleConfig_locked. destruct (list_find _ _) as [[i n]|].
  - split; [done|]. by eexists _, _.
  - simpl. split; [apply init_token_routesDir|]. by eexists _, _.
Qed.

(** ** Every action *)
#[local] Opaque handleJoin_locked handleConfig_locked handleToken_locked.
Definition reply_ip (r : Reply) : option string :=
  match rep_response r with
  | RJoin j => Some (jp_VPNIP j)
  | RConfig c => Some (cr_vpn_ip c)
  | _ => None
  end.

(** The key and the address of a registration that still has to be saved. *)
Definition stage_grant (s : Stage) : option (string * string) :=
  match s with
  | JoinAtSave req ip _ _ => Some (jr_PublicKey req, ip)
  | ConfigAtSave q r => Some (cq_public_key q, cr_vpn_ip r)
  | _ => None
  end.

Definition action_ok (a : Action) : Prop :=
  match a with Enter _ e _ => env_ok e | _ => True end.

Section runs.
Context `{HX : X509, HU : GoUnicode}.

(** What one action does to a world, restarts apart. *)
Record effect (k : Z) (w w' : World) : Prop := {
  eff_coord : advanced k (coord w) (coord w');
  eff_replies r ip :
    r ∈ replies w' → reply_ip r = Some ip →
    r ∈ replies w ∨
    (holds (nodes (coord w')) (rep_key r) ip ∧ rep_saved r = false) ∨
    (∃ i s, pending w !! i = Some s ∧ stage_grant s = Some (rep_key r, ip) ∧
            rep_saved r = true);
  eff_pending i s g :
    pending w' !! i = Some s → stage_grant s = Some g →
    pending w !! i = Some s ∨ holds (nodes (coord w')) g.1 g.2;
}.

Lemma effect_wait k w w0 i s :
  advanced k (coord w) (coord w0) → replies w0 = replies w → pending w0 = pending w →
  (∀ g, stage_grant s = Some g → holds (nodes (coord w0)) g.1 g.2) →
  effect k w (wait i s w0).
Proof.
  intros Ha Hr Hp Hs. split; simpl; [done|rewrite Hr; eauto|].
  intros j s' g Hj Hg. apply lookup_insert_Some in Hj as [[<- <-]|[_ Hj]]; [by right; apply Hs|].
  rewrite Hp in Hj. by left.
Qed.

Lemma effect_answer k w w0 i r :
  advanced k (coord w) (coord w0) → replies w0 = replies w → pending w0 = pending w →
  (∀ ip, reply_ip r = Some ip →
     (holds (nodes (coord w0)) (rep_key r) ip ∧ rep_saved r = false) ∨
     (∃ s, pending w !! i = Some s ∧ stage_grant s = Some (rep_key r, ip) ∧
           rep_saved r = true)) →
  effect k w (answer i r w0).
Proof.
  intros Ha Hr Hp Hs. split; simpl; [done| |].
  - intros r' ip Hin Hip. rewrite Hr in Hin. apply elem_of_app in Hin as [Hin|Hin]; [by left|].
    apply list_elem_of_singleton in Hin as ->. right.
    destruct (Hs ip Hip) as [?|(s & ?)]; [by left|right; eauto].
  - intros j s' g Hj Hg. apply lookup_delete_Some in Hj as [_ Hj]. rewrite Hp in Hj. by left.
Qed.

(** Requests are not answered before their critical section, but by an error. *)
Lemma check_error q c r : check q c = Err r → ∃ st msg, r = RError st msg.
Proof.
  destruct q as [post [b|]|tok|q|post [b|]|]; simpl;
    unfold handleJoin_check, handlePeers_check, handleConfig_check, handleCert_check;
    repeat (case_match; simpl); intros; simplify_eq; eauto.
Qed.

Lemma check_stage q c s : check q c = Ok s → stage_grant s = None.
Proof.
  destruct q as [post [b|]|tok|q|post [b|]|]; simpl;
    unfold handleJoin_check, handlePeers_check, handleConfig_check, handleCert_check;
    repeat (case_match; simpl); intros; by simplify_eq.
Qed.

Lemma arrive_effect k w w' i q :
  coord_ok k (coord w) → step w (Arrive i q) = Some w' → effect k w w'.
Proof.
  intros Hc Hs. simpl in Hs. destruct (pending w !! i); [done|].
  destruct (check q (coord w)) as [s|r] eqn:Hq; injection Hs as <-.
  - apply effect_wait; [by apply advanced_refl|done..|]. intros g Hg.
    apply check_stage in Hq. congruence.
  - apply effect_answer; [by apply advanced_refl|done..|]. intros ip Hip.
    destruct (check_error _ _ _ Hq) as (st & msg & ->). done.
Qed.

Lemma enter_effect k w w' i e ce :
  coord_ok k (coord w) → env_ok e → (0 ≤ k)%Z → (k + 2 < two63)%Z →
  step w (Enter i e ce) = Some w' → effect k w w'.
Proof.
  intros Hc He H0 Hk Hs. simpl in Hs. unfold enter in Hs.
  destruct (pending w !! i) as [[req| | |q| |ca' d| |]|]; try done.
  - pose proof (handleJoin_locked_spec k e req (coord w) He Hc H0 Hk) as Hj.
    destruct (handleJoin_locked e req (coord w)) as [[[ip ps] bps] c].
    destruct Hj as (Hip & Ha & _ & _ & _ & Hn). injection Hs as <-.
    apply effect_wait; [done..|]. intros g [= <-]. simpl.
    eexists. rewrite Hn. split; [apply elem_of_app; right; by apply list_elem_of_singleton|done].
  - injection Hs as <-. apply effect_answer; [by apply advanced_refl|done..].
  - pose proof (handleConfig_locked_spec k e q (coord w) (routes w) He Hc H0 Hk) as Hj.
    destruct (handleConfig_locked e q (coord w) (routes w)) as [[[rsp known] c] rt].
    destruct Hj as (Ha & _ & Hj). injection Hs as <-. destruct known.
    + apply effect_answer; [done..|]. intros ip [= <-]. left. destruct Hj as [-> Hh]. done.
    + apply effect_wait; [done..|]. intros g [= <-].
      destruct Hj as (_ & _ & _ & _ & n & Hn & ? & ? & _). simpl. exists n. rewrite Hn.
      split; [apply elem_of_app; right; by apply list_elem_of_singleton|done].
  - injection Hs as <-. apply effect_answer; [by apply advanced_refl|done..|].
    intros ip. unfold handleCert_locked. by repeat case_match.
  - pose proof (handleToken_locked_spec k e (coord w) He Hc H0) as Hj.
    destruct (handleToken_locked e (coord w)) as [tok c].
    destruct Hj as [Ha _]. injection Hs as <-. by apply effect_wait.
Qed.

Lemma finish_effect k w w' i werr :
  coord_ok k (coord w) → step w (Finish i werr) = Some w' →
  effect k w w' ∧ disk w' = save werr (coord w) (disk w) ∧ coord w' = coord w.
Proof.
  intros Hc Hs. simpl in Hs. unfold finish in Hs.
  destruct (pending w !! i) as [s|] eqn:Hp; simpl in Hs; [|done].
  destruct (final_reply s (coord w)) as [r|] eqn:Hr; simpl in Hs; [|done].
  injection Hs as <-. split; [|done].
  apply effect_answer; simpl; [by apply advanced_refl|done..|].
  intros ip Hip. right. exists s. split; [done|].
  destruct s; simplify_eq/=; unfold handleJoin_reply, reply_ip in Hip; by simplify_eq/=.
Qed.

Lemma step_effect k w w' a :
  coord_ok k (coord w) → action_ok a → a ≠ Restart → (0 ≤ k)%Z → (k + 2 < two63)%Z →
  step w a = Some w' → effect k w w'.
Proof.
  intros Hc Ha Hr H0 Hk Hs. destruct a; [by eapply arrive_effect|by eapply enter_effect| |done].
  by eapply finish_effect.
Qed.

(** Outside of [Finish] the state file is untouched and no answer follows a save. *)
Lemma step_disk w w' a :
  step w a = Some w' → (∀ i werr, a ≠ Finish i werr) →
  disk w' = disk w ∧ (∀ r, r ∈ replies w' → rep_saved r = true → r ∈ replies w).
Proof.
  intros Hs Hf. destruct a as [i q|i e ce|i werr|]; [..|by injection Hs as <-];
    [| |by destruct (Hf i werr)]; simpl in Hs; unfold enter in Hs; repeat case_match;
    simplify_eq/=; try done; (split; [done|]);
    intros r [Hin|Hin]%elem_of_app Hsv; try done;
    apply list_elem_of_singleton in Hin; by subst.
Qed.
End runs.

Section addresses.
Context `{HX : X509, HU : GoUnicode}.
Context (storage rd : string) (ca0 : option caLoader).

Lemma start_ok : coord_ok 0 (coord (start storage rd ca0)).
Proof.
  unfold start, boot, load. simpl. case_match; (split; simpl; [done|lia|constructor|set_solver]).
Qed.

(** Steps keep an invariant indexed by the number of steps so far. *)
Lemma steps_inv (I : Z → World → Prop) (P : Action → Prop) l :
  (∀ k w a w', (0 ≤ k)%Z → (k + 2 < two63)%Z → P a → I k w → step w a = Some w' → I (k + 1)%Z w') →
  ∀ k w w', (0 ≤ k)%Z → (k + Z.of_nat (length l) + 1 < two63)%Z → Forall P l → I k w →
  steps w l = Some w' → I (k + Z.of_nat (length l))%Z w'.
Proof.
  intros Hstep. induction l as [|a l IH]; simpl; intros k w w' Hk Hb HP Hw Hs.
  { simplify_eq. by rewrite Z.add_0_r. }
  apply Forall_cons in HP as [Ha HP].
  destruct (step w a) as [w1|] eqn:Hs1; simpl in Hs; [|done].
  replace (k + Z.of_nat (S (length l)))%Z with (k + 1 + Z.of_nat (length l))%Z by lia.
  eapply IH; [lia|lia|done| |done]. eapply Hstep; [lia..|done|done|done].
Qed.

(** *** One process *)
Record lifetime_inv (k : Z) (w : World) : Prop := {
  lt_ok : coord_ok k (coord w);
  lt_replies r ip : r ∈ replies w → reply_ip r = Some ip → holds (nodes (coord w)) (rep_key r) ip;
  lt_pending i s g : pending w !! i = Some s → stage_grant s = Some g →
                     holds (nodes (coord w)) g.1 g.2;
}.

Lemma lifetime_step k w a w' :
  (0 ≤ k)%Z → (k + 2 < two63)%Z → action_ok a ∧ a ≠ Restart → lifetime_inv k w →
  step w a = Some w' → lifetime_inv (k + 1) w'.
Proof.
  intros Hk Hb [Ha Hr] [Hok Hrep Hpend] Hs.
  destruct (step_effect k w w' a Hok Ha Hr Hk Hb Hs) as [Hadv Her Hep].
  pose proof (adv_nodes _ _ _ Hadv) as Hpre.
  split; [apply Hadv| |].
  - intros r ip Hin Hip. destruct (Her r ip Hin Hip) as [?|[[? _]|(i & s & Hp & Hg & _)]]; [|done|].
    + eapply holds_prefix; [done|]. by apply Hrep.
    + eapply holds_prefix; [done|]. by apply (Hpend i s _ Hp Hg).
  - intros i s g Hp Hg. destruct (Hep i s g Hp Hg) as [Hp'|?]; [|done].
    eapply holds_prefix; [done|]. by eapply Hpend.
Qed.

(** *** Across restarts *)
Definition holds_json_key (l : list Node) (key ip : string) : Prop :=
  ∃ n, n ∈ l ∧ VPNIP n = ip ∧ json_str (PublicKey n) = json_str key.

Lemma holds_json_key_of l key ip : holds l key ip → holds_json_key l key ip.
Proof. intros (n & ? & ? & Hk). exists n. by rewrite Hk. Qed.

Definition reboot (w : World) : Coordinator :=
  boot (storagePath (coord w)) (routesDir (coord w)) (ca (coord w)) (disk w).

Record crash_inv (k : Z) (w : World) : Prop := {
  cr_path : storagePath (coord w) = storage;
  cr_ok : coord_ok k (coord w);
  cr_disk : coord_ok k (reboot w);
  cr_replies r ip : r ∈ replies w → rep_saved r = true → reply_ip r = Some ip →
    holds_json_key (nodes (coord w)) (rep_key r) ip ∧
    holds_json_key (nodes (reboot w)) (rep_key r) ip;
  cr_pending i s g : pending w !! i = Some s → stage_grant s = Some g →
                     holds_json_key (nodes (coord w)) g.1 g.2;
}.

Definition safe_action (a : Action) : Prop :=
  action_ok a ∧ match a with Finish _ werr => werr = None | _ => True end.

Lemma holds_json_key_prefix l l' key ip :
  l `prefix_of` l' → holds_json_key l key ip → holds_json_key l' key ip.
Proof. intros [l0 ->] (n & Hn & ?). exists n. split; [set_solver|done]. Qed.

Lemma holds_json_key_boot k c f key ip :
  storage ≠ "" → storagePath c = storage → coord_ok k c → holds_json_key (nodes c) key ip →
  holds_json_key (nodes (boot storage (routesDir c) (ca c) (save None c f))) key ip.
Proof.
  intros Hs Hp Hc (n & Hn & Hip & Hk).
  destruct (holds_json k storage (routesDir c) (ca c) c f (PublicKey n) ip Hs Hp Hc)
    as (n' & ? & ? & Hk'); [by exists n|].
  exists n'. split_and!; [done..|]. by rewrite Hk', json_str_idemp.
Qed.

(** A restart forgets what was not saved. *)
Lemma crash_restart k w : storage ≠ "" → crash_inv k w →
  crash_inv (k + 1) {| coord := reboot w; disk := disk w; routes := routes w;
                       pending := ∅; replies := replies w |}.
Proof.
  intros Hs [Hp Hc Hd Hr _].
  assert (∀ st rd' ca' f, storagePath (boot st rd' ca' f) = st ∧
          routesDir (boot st rd' ca' f) = rd' ∧ ca (boot st rd' ca' f) = ca') as Hb.
  { intros st rd' ca' f. unfold boot, load. by repeat case_match. }
  assert (∀ rt p rep, reboot (Build_World (reboot w) (disk w) rt p rep) = reboot w) as Hre.
  { intros rt p rep. unfold reboot at 1. simpl. unfold reboot.
    destruct (Hb (storagePath (coord w)) (routesDir (coord w)) (ca (coord w)) (disk w))
      as (-> & -> & ->). done. }
  split; rewrite ?Hre; simpl; [|by eapply coord_ok_mono; [|done]; lia..| |].
  - unfold reboot. by destruct (Hb (storagePath (coord w)) (routesDir (coord w))
      (ca (coord w)) (disk w)) as (-> & _).
  - intros r ip Hin Hsv Hip. split; by apply Hr.
  - intros i s g Hl. by rewrite lookup_empty in Hl.
Qed.

Lemma crash_finish k w i w' : storage ≠ "" → crash_inv k w →
  step w (Finish i None) = Some w' → crash_inv (k + 1) w'.
Proof.
  intros Hs [Hp Hc Hd Hr Hpe] Hst.
  destruct (finish_effect k w w' i None Hc Hst) as ([Hadv Her Hep] & Hdisk & Hcoord).
  assert (reboot w' = boot storage (routesDir (coord w)) (ca (coord w))
            (save None (coord w) (disk w))) as Hre.
  { unfold reboot. by rewrite Hdisk, Hcoord, Hp. }
  split; rewrite ?Hre, ?Hcoord; try done.
  - eapply coord_ok_mono; [|done]; lia.
  - eapply coord_ok_mono; [|by apply boot_save_ok]; lia.
  - intros r ip Hin Hsv Hip.
    enough (holds_json_key (nodes (coord w)) (rep_key r) ip) as Hh.
    { split; [done|]. by eapply holds_json_key_boot. }
    destruct (Her r ip Hin Hip) as [?|[[_ ?]|(j & s & Hpj & Hg & _)]]; [by apply Hr|congruence|].
    by apply (Hpe j s _ Hpj Hg).
  - intros j s g Hl Hg. destruct (Hep j s g Hl Hg) as [?|Hh]; [by eapply Hpe|].
    rewrite Hcoord in Hh. by apply holds_json_key_of.
Qed.

Lemma crash_step k w a w' : storage ≠ "" →
  (0 ≤ k)%Z → (k + 2 < two63)%Z → safe_action a → crash_inv k w →
  step w a = Some w' → crash_inv (k + 1) w'.
Proof.
  intros Hs Hk Hb [Ha Hw] Hinv Hst.
  assert ((∃ i, a = Finish i None) ∨ a = Restart ∨ (a ≠ Restart ∧ ∀ i werr, a ≠ Finish i werr))
    as [[i ->]|[->|[Hnr Hnf]]] by (destruct a; naive_solver).
  { by eapply crash_finish. }
  { injection Hst as <-. by apply crash_restart. }
  destruct Hinv as [Hp Hc Hd Hr Hpe].
  destruct (step_effect k w w' a Hc Ha Hnr Hk Hb Hst) as [Hadv Her Hep].
  destruct (step_disk w w' a Hst Hnf) as [Hdisk Hold].
  destruct (adv_paths _ _ _ Hadv) as (Hp1 & Hp2 & Hp3).
  pose proof (adv_nodes _ _ _ Hadv) as Hpre.
  assert (reboot w' = reboot w) as Hre by (unfold reboot; by rewrite Hp1, Hp2, Hp3, Hdisk).
  split; rewrite ?Hre; [congruence|apply Hadv|eapply coord_ok_mono; [|done]; lia| |].
  - intros r ip Hin Hsv Hip. destruct (Hr r ip (Hold r Hin Hsv) Hsv Hip).
    split; [|done]. by eapply holds_json_key_prefix.
  - intros i s g Hl Hg. destruct (Hep i s g Hl Hg) as [?|Hh].
    + eapply holds_json_key_prefix; [done|]. by eapply Hpe.
    + by apply holds_json_key_of.
Qed.

Lemma crash_start : storage ≠ "" → crash_inv 0 (start storage rd ca0).
Proof.
  intros Hs. pose proof start_ok as Hok.
  assert (reboot (start storage rd ca0) = coord (start storage rd ca0)) as Hre.
  { unfold reboot, start, boot, load. cbn -[String.eqb].
    destruct (String.eqb storage "") eqn:He; cbn -[String.eqb]; by rewrite He. }
  split; rewrite ?Hre; [|done..| |].
  - unfold start, boot, load. simpl. by destruct (String.eqb storage "").
  - intros r ip Hin. by apply elem_of_nil in Hin.
  - intros i s g Hp. simpl in Hp. by rewrite lookup_empty in Hp.
Qed.
End addresses.

(** Two nodes with one address are one node. *)
Lemma same_ip_same_node k c n n' :
  coord_ok k c → n ∈ nodes c → n' ∈ nodes c → VPNIP n = VPNIP n' → n = n'.
Proof.
  intros Hc Hn Hn' Hip. pose proof (ok_ips _ _ Hc) as Hnd.
  apply list_elem_of_lookup in Hn as [i Hi]. apply list_elem_of_lookup in Hn' as [j Hj].
  assert (i = j) as ->; [|congruence].
  eapply NoDup_lookup; [exact Hnd| |]; rewrite list_lookup_fmap; [by rewrite Hi|].
  by rewrite Hj, Hip.
Qed.

(** ** One request at a time *)
Lemma backup_list_join ip l :
  (∀ n, n ∈ l → VPNIP n ≠ "") → backup_list ip l = join "," (VPNIP <$> others ip l).
Proof.
  intros Hl. unfold backup_list.
  assert (∀ n, n ∈ others ip l → VPNIP n ≠ "") as Hne.
  { intros n [_ Hn]%list_elem_of_filter. auto. }
  generalize dependent (others ip l). clear Hl. intros l' Hne.
  assert (∀ l acc, acc ≠ "" →
    foldl (λ bp n, if String.eqb bp "" then VPNIP n else bp +:+ "," +:+ VPNIP n) acc l =
    join "," (acc :: (VPNIP <$> l))) as Hacc.
  { induction l0 as [|n l0 IH]; intros acc Ha; [done|]. simpl foldl.
    apply String.eqb_neq in Ha as Hb. rewrite Hb, IH by (by destruct acc).
    destruct l0; cbn [fmap list_fmap join]; by rewrite <- ?string_app_assoc. }
  destruct l' as [|n l']; [done|]. simpl foldl. rewrite Hacc by (apply Hne; set_solver). done.
Qed.

Lemma vpn_ip_nonempty i : vpn_ip i ≠ "".
Proof. done. Qed.

Section requests.
Context `{HX : X509, HU : GoUnicode}.

(** A join request is complete. *)
Definition complete (req : JoinRequest) : Prop :=
  jr_PublicKey req ≠ "" ∧ jr_Endpoint req ≠ "" ∧ jr_Domain req ≠ "".

(** The token matches, or none has been set yet. *)
Definition token_ok (tok : string) (c : Coordinator) : Prop := token c = "" ∨ tok = token c.

Lemma token_test tok c :
  negb (String.eqb (token c) "") && negb (String.eqb tok (token c)) = false ↔ token_ok tok c.
Proof.
  unfold token_ok. destruct (String.eqb_spec (token c) ""), (String.eqb_spec tok (token c));
    simpl; naive_solver.
Qed.

(** How a join request is refused. *)
Definition join_refused (post : bool) (body : option JoinRequest) (c : Coordinator)
    (status : Z) : Prop :=
  (status = 405%Z ∧ post = false) ∨
  (status = 400%Z ∧ post = true ∧ ∀ req, body = Some req → ¬ complete req) ∨
  (status = 401%Z ∧ post = true ∧ ∃ req, body = Some req ∧ complete req ∧
     ¬ token_ok (jr_Token req) c).

Lemma handleJoin_check_spec post body c :
  match handleJoin_check post body c with
  | Ok req => post = true ∧ body = Some req ∧ complete req ∧ token_ok (jr_Token req) c
  | Err r => ∃ st msg, r = RError st msg ∧ join_refused post body c st
  end.
Proof.
  unfold handleJoin_check, join_refused, complete.
  destruct post; simpl; [|by eexists _, _; split; [|left]].
  destruct body as [req|]; [|by eexists _, _; split; [|right; left]].
  destruct (String.eqb_spec (jr_PublicKey req) ""), (String.eqb_spec (jr_Endpoint req) ""),
    (String.eqb_spec (jr_Domain req) ""); cbn [orb];
    try (eexists _, _; split; [done|right; left; naive_solver]).
  destruct (negb _ && negb _) eqn:Ht.
  - eexists _, _. split; [done|]. right; right. split_and!; [done..|]. exists req.
    split_and!; [done..|]. rewrite <- token_test, Ht. done.
  - apply token_test in Ht. done.
Qed.

(** An accepted join: the node added, the answer, the state file. *)
Definition join_accepted (werr : option file) (req : JoinRequest) (w w' : World) : Prop :=
  ∃ n, nodes (coord w') = nodes (coord w) ++ [n] ∧
    PublicKey n = jr_PublicKey req ∧ Domain n = jr_Domain req ∧
    Endpoint n = jr_Endpoint req ∧ VPNIP n = vpn_ip (start_ip (coord w)) ∧
    disk w' = save werr (coord w') (disk w) ∧
    (storagePath (coord w) ≠ "" → werr = None → disk w' = Json (json_state (coord w'))) ∧
    (token (coord w) ≠ "" → token (coord w') = token (coord w)) ∧
    replies w' = replies w ++ [{|
      rep_key := jr_PublicKey req;
      rep_response := RJoin {|
        jp_VPNIP := VPNIP n;
        jp_Peers := peer_of <$> nodes (coord w);
        jp_BackupPeers := VPNIP <$> nodes (coord w);
        jp_BackupSecret := backupSecret (coord w');
        jp_ListenPort := 51820 |};
      rep_saved := true |}].

(** C31: [handleJoin], branch by branch.  A request with the wrong method, without a
    public key, endpoint or domain, or with a wrong token once a token
    exists, gets 405, 400 or 401 and changes nothing.  Any other, if no other
    request comes between its critical section and its answer, is given
    the next address; the answer lists exactly the nodes that joined
    before.  It is sent after an attempt to save: the state file then holds
    the new state if one is configured and could be written; when writing
    fails, of which the code takes no notice, the same answer is sent and the
    file holds what the failure left.  This holds in the states that a running
    coordinator reaches ([coord_ok]), with random bytes of the length asked for
    and fewer than 2^63 - 2 registrations. *)
Theorem handleJoin_outcome k w e ce werr post body :
  pending w !! 0 = None → env_ok e → coord_ok k (coord w) → (0 ≤ k)%Z → (k + 2 < two63)%Z →
  ∃ w', serve (QJoin post body) e ce werr w = Some w' ∧
    ((∃ st msg, join_refused post body (coord w) st ∧
        w' = answer 0 (Build_Reply (request_key (QJoin post body)) (RError st msg) false) w) ∨
     (∃ req, post = true ∧ body = Some req ∧ complete req ∧
        token_ok (jr_Token req) (coord w) ∧ join_accepted werr req w w')).
Proof.
  intros Hp He Hc H0 Hk. unfold serve, step. rewrite Hp. cbn [check].
  pose proof (handleJoin_check_spec post body (coord w)) as Hspec.
  destruct (handleJoin_check post body (coord w)) as [req|r]; simpl.
  - destruct Hspec as (-> & -> & Hcomp & Htok). unfold enter. simpl.
    rewrite lookup_insert. rewrite decide_True by done.
    pose proof (handleJoin_locked_spec k e req (coord w) He Hc H0 Hk) as Hj.
    destruct (handleJoin_locked e req (coord w)) as [[[ip ps] bps] c].
    destruct Hj as (-> & Ha & -> & -> & _ & Hn). simpl.
    rewrite lookup_insert. rewrite decide_True by done. unfold finish. simpl.
    rewrite lookup_insert. rewrite decide_True by done. simpl.
    eexists. split; [done|]. right. exists req. split_and!; try done.
    eexists. simpl. split; [exact Hn|]. simpl. split_and!; try done.
    + intros Hs ->. unfold save. destruct (adv_paths _ _ _ Ha) as (-> & _).
      by apply String.eqb_neq in Hs as ->.
    + intros Ht. by apply (adv_token _ _ _ Ha).
  - destruct Hspec as (st & msg & -> & Hr). eexists. split; [done|]. left. eauto.
Qed.
End requests.

Section properties.
Context `{HX : X509, HU : GoUnicode}.

(** C15: While a coordinator process runs, whatever the interleaving of its requests and
    whether or not its state file can be written, an address is never given
    to two different public keys. *)
Theorem addresses_never_shared storage rd ca0 l w r1 r2 ip :
  Forall (λ a, action_ok a ∧ a ≠ Restart) l → (Z.of_nat (length l) + 1 < two63)%Z →
  steps (start storage rd ca0) l = Some w →
  r1 ∈ replies w → r2 ∈ replies w → reply_ip r1 = Some ip → reply_ip r2 = Some ip →
  rep_key r1 = rep_key r2.
Proof.
  intros Hl Hb Hs H1 H2 Hi1 Hi2.
  assert (lifetime_inv (0 + Z.of_nat (length l)) w) as [Hok Hrep _].
  { eapply (steps_inv lifetime_inv _ l (lifetime_step)); [done|lia|done| |done].
    split; [apply start_ok|..]; [intros r i Hr; by apply elem_of_nil in Hr|].
    intros i s g Hp. simpl in Hp. by rewrite lookup_empty in Hp. }
  destruct (Hrep r1 ip H1 Hi1) as (n1 & Hn1 & Hip1 & <-).
  destruct (Hrep r2 ip H2 Hi2) as (n2 & Hn2 & Hip2 & <-).
  f_equal. eapply same_ip_same_node; [done..|congruence].
Qed.

(** C16: The same across crashes and restarts at any moment, for the answers sent
    after the state was saved, as long as the state file is written when
    the process asks for it: a restarted coordinator never gives such an
    address to another key (keys compared as JSON strings). *)
Theorem addresses_survive_crashes storage rd ca0 l w r1 r2 ip :
  storage ≠ "" → Forall safe_action l → (Z.of_nat (length l) + 1 < two63)%Z →
  steps (start storage rd ca0) l = Some w →
  r1 ∈ replies w → r2 ∈ replies w → rep_saved r1 = true → rep_saved r2 = true →
  reply_ip r1 = Some ip → reply_ip r2 = Some ip →
  json_str (rep_key r1) = json_str (rep_key r2).
Proof.
  intros Hst Hl Hb Hs H1 H2 Hs1 Hs2 Hi1 Hi2.
  assert (crash_inv storage (0 + Z.of_nat (length l)) w) as Hinv.
  { eapply (steps_inv (crash_inv storage) safe_action l); [|done|lia|done| |done].
    - intros; by eapply crash_step.
    - by apply crash_start. }
  destruct (cr_replies _ _ _ Hinv r1 ip H1 Hs1 Hi1) as [(n1 & Hn1 & Hip1 & <-) _].
  destruct (cr_replies _ _ _ Hinv r2 ip H2 Hs2 Hi2) as [(n2 & Hn2 & Hip2 & <-) _].
  do 2 f_equal. eapply same_ip_same_node; [apply Hinv|done..|congruence].
Qed.

Lemma list_find_prefix (l l' : list Node) key i n :
  l `prefix_of` l' → list_find (λ n, PublicKey n = key) l = Some (i, n) →
  list_find (λ n, PublicKey n = key) l' = Some (i, n).
Proof. intros [l0 ->] Hf. by apply list_find_app_Some; left. Qed.

Lemma steps_advance l : ∀ k w w',
  (0 ≤ k)%Z → (k + Z.of_nat (length l) + 1 < two63)%Z →
  Forall (λ a, action_ok a ∧ a ≠ Restart) l → coord_ok k (coord w) → steps w l = Some w' →
  coord_ok (k + Z.of_nat (length l)) (coord w') ∧ nodes (coord w) `prefix_of` nodes (coord w') ∧
  (token (coord w) ≠ "" → token (coord w') = token (coord w) ∧
                          backupSecret (coord w') = backupSecret (coord w)).
Proof.
  intros k w w' Hk Hb Hl Hok Hs.
  refine (steps_inv (λ k w', coord_ok k (coord w') ∧
    nodes (coord w) `prefix_of` nodes (coord w') ∧
    (token (coord w) ≠ "" → token (coord w') = token (coord w) ∧
       backupSecret (coord w') = backupSecret (coord w)))
    _ l _ k w w' Hk Hb Hl _ Hs); [|done].
  clear - HX HU. intros k w1 a w2 Hk Hb [Ha Hr] (Hok & Hpre & Ht) Hs.
  destruct (step_effect k w1 w2 a Hok Ha Hr Hk Hb Hs) as [[H1 H2 H3 _] _ _].
  split_and!; [done|by etrans|]. intros Hne. destruct (Ht Hne) as [Ht1 Ht2].
  destruct H3 as [-> ->]; [congruence|done].
Qed.

(** Registering a key again through [/v1/config], at any later time in the life of
    the process, returns the address it was first given and the same
    secret, changes neither the coordinator nor its state file, and lists
    every other node that has registered meanwhile. *)
Theorem handleConfig_again k w l w1 q e ce werr i n :
  coord_ok k (coord w) → (0 ≤ k)%Z → (k + Z.of_nat (length l) + 1 < two63)%Z →
  Forall (λ a, action_ok a ∧ a ≠ Restart) l →
  list_find (λ n, PublicKey n = cq_public_key q) (nodes (coord w)) = Some (i, n) →
  steps w l = Some w1 → pending w1 !! 0 = None →
  cq_token q = token (coord w) → cq_public_key q ≠ "" → cq_endpoint q ≠ "" → cq_domain q ≠ "" →
  ∃ w2 rsp, serve (QConfig q) e ce werr w1 = Some w2 ∧
    replies w2 = replies w1 ++ [Build_Reply (cq_public_key q) (RConfig rsp) false] ∧
    coord w2 = coord w1 ∧ disk w2 = disk w1 ∧
    cr_vpn_ip rsp = VPNIP n ∧ cr_backup_secret rsp = backupSecret (coord w) ∧
    cr_backup_peers rsp =
      join "," (VPNIP <$> filter (λ m, m ≠ n) (nodes (coord w1))).
Proof.
  intros Hok Hk Hb Hl Hf Hs Hp Htok Hpk Hep Hdom.
  destruct (steps_advance l k w w1 Hk Hb Hl Hok Hs) as (Hok1 & Hpre & Ht).
  assert (n ∈ nodes (coord w)) as Hn.
  { apply list_find_Some in Hf as (Hn & _). by eapply list_elem_of_lookup_2. }
  assert (token (coord w) ≠ "") as Hne.
  { intros He. destruct (ok_empty _ _ Hok He) as [Hnil _]. rewrite Hnil in Hn.
    by apply elem_of_nil in Hn. }
  destruct (Ht Hne) as [Ht1 Ht2].
  unfold serve, step. rewrite Hp. cbn [check]. unfold handleConfig_check.
  apply String.eqb_neq in Hpk as ->, Hep as ->, Hdom as ->. cbn [orb].
  rewrite Htok, <- Ht1, String.eqb_refl, andb_false_r. simpl.
  unfold enter. simpl. rewrite lookup_insert, decide_True by done.
  destruct (handleConfig_locked_known e q (coord w1) (routes w1) i n) as (sub & r' & ->);
    [by eapply list_find_prefix|].
  simpl. rewrite lookup_delete, decide_True by done.
  eexists _, _. split; [done|]. split_and!; try done.
  cbn [cr_backup_peers config_response]. assert (n ∈ nodes (coord w1)) as Hn1 by (destruct Hpre as [l0 ->]; set_solver).
  rewrite backup_list_join; [by rewrite (others_ne _ _ _ Hok1 Hn1)|].
  intros m Hm. destruct (ok_form _ _ Hok1 m Hm) as (j & _ & ->). done.
Qed.

(** The certificate issued to a domain. *)
Definition issued (ce : CertEnv) (l : caLoader) (domain cert key : string) : Prop :=
  ∃ sk serial der kder, norm domain ≠ "" ∧
    ecdsa_generate (ce_key ce) = Some sk ∧ ce_serial ce = Some serial ∧
    create_certificate (client_template ce serial (norm domain)) (ca_cert l)
      (ecdsa_public sk) (ca_key l) = Some der ∧
    marshal_ec sk = Some kder ∧
    cert = pem_encode "CERTIFICATE" der ∧ key = pem_encode "EC PRIVATE KEY" kder.

Lemma issueClientCert_spec ce l domain :
  match issueClientCert ce l domain with
  | Ok (cert, key) => issued ce l domain cert key
  | Err _ => ¬ ∃ cert key, issued ce l domain cert key
  end.
Proof.
  unfold issueClientCert, issued. destruct (String.eqb_spec (norm domain) ""); [naive_solver|].
  destruct (ecdsa_generate _) as [sk|]; [|naive_solver].
  destruct (ce_serial ce) as [serial|]; [|naive_solver].
  destruct (create_certificate _ _ _ _) as [der|] eqn:?; [|naive_solver].
  destruct (marshal_ec sk) as [kder|] eqn:?; [|naive_solver].
  exists sk, serial, der, kder. done.
Qed.

Definition cert_admitted (post : bool) (body : option CertRequest) (c : Coordinator)
    (l : caLoader) (d : string) : Prop :=
  ∃ req, post = true ∧ body = Some req ∧ ca c = Some l ∧ token_ok (ct_Token req) c ∧
    d = trim_space (to_lower (ct_Domain req)) ∧ d ≠ "".

Lemma handleCert_check_spec post body c :
  match handleCert_check post body c with
  | Ok (l, d) => cert_admitted post body c l d
  | Err r => (∃ st msg, r = RError st msg) ∧ ¬ ∃ l d, cert_admitted post body c l d
  end.
Proof.
  unfold handleCert_check, cert_admitted. destruct post; simpl; [|naive_solver].
  destruct (ca c) as [l|]; [|naive_solver]. destruct body as [req|]; [|naive_solver].
  destruct (String.eqb_spec (trim_space (to_lower (ct_Domain req))) ""); [naive_solver|].
  destruct (negb _ && negb _) eqn:Ht.
  - split; [eauto|]. intros (l' & d' & req' & _ & [= ->] & _ & Htok & _).
    apply token_test in Htok. congruence.
  - apply token_test in Ht. eauto 10.
Qed.

(** [/v1/cert] issues a certificate exactly when the method is POST, a CA is
    loaded, the token matches, the domain is that of a registered node
    (case folded) and the key, the serial number and the signature can be
    produced; the certificate is the one for the normalised domain.  It
    never changes the coordinator, its routes or its state file. *)
Theorem handleCert_outcome w e ce werr post body :
  pending w !! 0 = None →
  ∃ w' resp, serve (QCert post body) e ce werr w = Some w' ∧
    replies w' = replies w ++ [Build_Reply "" resp false] ∧
    coord w' = coord w ∧ routes w' = routes w ∧ disk w' = disk w ∧
    ∀ cert key, resp = RCert cert key ↔
      ∃ l d n, cert_admitted post body (coord w) l d ∧
        n ∈ nodes (coord w) ∧ equal_fold (Domain n) d = true ∧ issued ce l d cert key.
Proof.
  intros Hp. unfold serve, step. rewrite Hp. cbn [check].
  pose proof (handleCert_check_spec post body (coord w)) as Hc.
  destruct (handleCert_check post body (coord w)) as [[l d]|r]; simpl.
  - unfold enter. simpl. rewrite lookup_insert, decide_True by done. simpl.
    rewrite lookup_delete, decide_True by done.
    eexists _, _. split; [done|]. simpl. split_and!; try done. intros cert key.
    assert (∀ l' d', cert_admitted post body (coord w) l' d' → l' = l ∧ d' = d) as Hfun.
    { intros l' d' (? & _ & ? & ? & _ & -> & _). destruct Hc as (? & _ & ? & ? & _ & -> & _).
      by simplify_eq. }
    unfold handleCert_locked. pose proof (issueClientCert_spec ce l d) as Hi.
    destruct (domain_found d (coord w)) eqn:Hf; simpl.
    + apply existsb_exists in Hf as (n & Hn%list_elem_of_In & Hfold).
      destruct (issueClientCert _ _ _) as [[cert' key']|err]; (split; [intros Hr|]).
      * simplify_eq. by exists l, d, n.
      * intros (l' & d' & n' & [-> ->]%Hfun & _ & _ & Hiss).
        destruct Hiss as (? & ? & ? & ? & ? & ? & ? & ? & ? & -> & ->).
        destruct Hi as (? & ? & ? & ? & ? & ? & ? & ? & ? & -> & ->). by simplify_eq.
      * done.
      * intros (l' & d' & n' & [-> ->]%Hfun & _ & _ & Hiss). destruct Hi. eauto.
    + split; [done|]. intros (l' & d' & n & [-> ->]%Hfun & Hn & Hfold & _).
      enough (domain_found d (coord w) = true) by congruence.
      apply existsb_exists. exists n. split; [by apply list_elem_of_In|done].
  - destruct Hc as [(st & msg & ->) Hc]. eexists _, _. split; [done|].
    split_and!; try done. intros cert key. split; [done|].
    intros (l & d & n & Ha & _). destruct Hc. eauto.
Qed.

(** *** Routes *)
Definition confined (rd : string) (r : gmap string string) : Prop :=
  ∀ p b, r !! p = Some b → rd ≠ "" ∧ ∃ s,
    p = rd +:+ "/selfhost-" +:+ s +:+ ".yaml" ∧ lacks "." s = true ∧ lacks "-" s = true.

Lemma route_safe_lacks s : lacks "." (route_safe s) = true ∧ lacks "-" (route_safe s) = true.
Proof.
  unfold lacks, route_safe. induction s as [|a s [IH1 IH2]]; [done|]. cbn [smap sforall].
  rewrite IH1, IH2. destruct (Ascii.eqb a ".") eqn:H1; [done|].
  destruct (Ascii.eqb a "-") eqn:H2; cbn [orb]; [done|]. by rewrite H1, H2.
Qed.

Lemma write_route_confined e c sub md ip r :
  confined (routesDir c) r → confined (routesDir c) (write_route e c sub md ip r).
Proof.
  intros Hr. unfold write_route, writeTraefikRoute.
  destruct (negb _ && negb _); [|done].
  destruct (String.eqb_spec (routesDir c) ""); [done|]. cbn [orb].
  repeat (case_match; try done).
  intros p b [[<- <-]|[_ Hp]]%lookup_insert_Some; [|by eapply Hr].
  split; [done|]. exists (route_safe sub). split; [done|]. apply route_safe_lacks.
Qed.

Lemma step_confined rd w a w' :
  step w a = Some w' → routesDir (coord w) = rd ∧ confined rd (routes w) →
  routesDir (coord w') = rd ∧ confined rd (routes w').
Proof.
  intros Hs [Hrd Hr]. destruct a as [i q|i e ce|i werr|]; simpl in Hs.
  - repeat case_match; by simplify_eq/=.
  - unfold enter in Hs. destruct (pending w !! i) as [[req| | |q| |l d| |]|]; try done.
    + pose proof (handleJoin_locked_routesDir e req (coord w)) as Hj.
      destruct (handleJoin_locked _ _ _) as [[[ip ps] bps] c]. simplify_eq/=. by rewrite Hj.
    + by simplify_eq/=.
    + pose proof (handleConfig_locked_route e q (coord w) (routes w)) as Hj.
      destruct (handleConfig_locked _ _ _ _) as [[[rsp known] c] rt].
      destruct Hj as (Hc & sub & ip & ->). simplify_eq. rewrite <- Hc in *.
      destruct known; simplify_eq/=; (split; [done|]); by apply write_route_confined.
    + by simplify_eq/=.
    + pose proof (handleToken_locked_routesDir e (coord w)) as Hj.
      destruct (handleToken_locked _ _) as [tok c]. simplify_eq/=. by rewrite Hj.
  - unfold finish in Hs. destruct (pending w !! i); simpl in Hs; [|done].
    destruct (final_reply _ _); simpl in Hs; by simplify_eq/=.
  - simplify_eq/=. split; [|done]. unfold boot, load. by repeat case_match.
Qed.

(** C32: Whatever the requests, their endpoints and their domains, every route file the
    coordinator writes is [selfhost-<name>.yaml] in the routes directory,
    with no dot in the name: no request can make it write [..] into a path. *)
Theorem routes_confined storage rd ca0 l w p b :
  steps (start storage rd ca0) l = Some w → routes w !! p = Some b →
  rd ≠ "" ∧ ∃ s, p = rd +:+ "/selfhost-" +:+ s +:+ ".yaml" ∧
    lacks "." s = true ∧ lacks "-" s = true.
Proof.
  intros Hs. enough (routesDir (coord w) = rd ∧ confined rd (routes w)) as [_ Hc] by eauto.
  assert (routesDir (coord (start storage rd ca0)) = rd ∧
          confined rd (routes (start storage rd ca0))) as Hinv.
  { split; [|intros p' b' Hp'; simpl in Hp'; by rewrite lookup_empty in Hp'].
    unfold start, boot, load. simpl. by case_match. }
  revert Hs Hinv. generalize (start storage rd ca0). induction l as [|a l IH]; intros w0 Hs Hinv.
  { by simplify_eq/=. }
  simpl in Hs. destruct (step w0 a) as [w1|] eqn:H1; simpl in Hs; [|done].
  eapply IH; [done|]. by eapply step_confined.
Qed.
End properties.

(** ** Witnesses and examples *)
#[local] Instance toy_x509 : X509 := {|
  pem_decode s := Some s;
  pem_encode ty b := ty +:+ ":" +:+ b;
  parse_certificate s := Some s;
  parse_pkcs8 s := None;
  parse_ec s := Some s;
  parse_pkcs1 s := None;
  ecdsa_generate s := Some s;
  ecdsa_public s := s;
  create_certificate t i p k := Some (CommonName t +:+ " by " +:+ i);
  marshal_ec s := Some s;
|}.

Definition sample_env (s : string) : Env := {|
  rnd_token := stake 18 (s +:+ "000000000000000000");
  rnd_secret := stake 24 (s +:+ "000000000000000000000000");
  rnd_id := stake 9 (s +:+ "000000000");
  now := 0; route_ok := true
|}.

Definition sample_cert : CertEnv := {|
  ce_key := "k"; ce_serial := Some 1%Z; ce_before := 0; ce_after := 0 |}.

Definition join_req (tok key : string) : Request :=
  QJoin true (Some {| jr_Token := tok; jr_PublicKey := key;
    jr_Endpoint := "1.2.3.4:51820"; jr_Domain := key +:+ ".example" |}).

Definition config_req (tok key : string) : Request :=
  QConfig {| cq_token := tok; cq_public_key := key; cq_endpoint := "5.6.7.8:51820";
    cq_domain := key +:+ ".example"; cq_use_subdomain := "1"; cq_main_domain := "main.net" |}.

(** The secret token of the first registration, from [sample_env '']. *)
Definition sample_token : string := randBase64 24 (rnd_token (sample_env "")).

Definition one (i : nat) (q : Request) : list Action :=
  [Arrive i q; Enter i (sample_env "") sample_cert; Finish i None].

Definition sample_start : World := start "/data/c.json" "/routes" (Some (Build_caLoader "ca" "key")).

Definition after (l : list Action) : World := default sample_start (steps sample_start l).

Definition grants (w : World) : list (string * string) :=
  omap (λ r, (λ ip, (rep_key r, ip)) <$> reply_ip r) (replies w).

Example two_nodes :
  grants (after (one 0 (join_req "" "A") ++ one 0 (config_req sample_token "B"))) =
  [("A", "10.100.0.1"); ("B", "10.100.0.2")].
Proof. by vm_compute. Qed.

(** The token is tested before the mutex is taken: of two first requests that
    arrive together, both are admitted, the second without the token the
    first one created. *)
Example join_race_admits_without_token :
  grants (after [Arrive 0 (join_req "" "A"); Arrive 1 (join_req "" "B");
                 Enter 0 (sample_env "") sample_cert; Enter 1 (sample_env "") sample_cert;
                 Finish 0 None; Finish 1 None]) =
  [("A", "10.100.0.1"); ("B", "10.100.0.2")].
Proof. by vm_compute. Qed.

(** [/v1/token] does not set [nextIP]: the first node then gets the network
    address. *)
Example token_first_gives_network_address :
  grants (after (one 0 QToken ++ one 0 (join_req sample_token "A"))) = [("A", "10.100.0.0")].
Proof. by vm_compute. Qed.

(** The 256th address is not an IPv4 address, although the mesh is a /16. *)
Example address_256 : vpn_ip 256 = "10.100.0.256".
Proof. by vm_compute. Qed.

(** [/v1/config] for a known key answers without saving: if the process dies
    between the critical section of the first registration and its save, the
    address already answered is given to another key. *)
Example unsaved_answer_reused :
  grants (after ([Arrive 0 (config_req "" "A"); Arrive 1 (config_req "" "A");
                  Enter 0 (sample_env "") sample_cert; Enter 1 (sample_env "") sample_cert;
                  Restart] ++ one 0 (config_req "" "B"))) =
  [("A", "10.100.0.1"); ("B", "10.100.0.1")].
Proof. by vm_compute. Qed.

Example config_route :
  routes (after (one 0 (config_req "" "A"))) !! "/routes/selfhost-5_6_7_8.yaml" ≠ None.
Proof. by vm_compute. Qed.

Lemma env_ok_sample : env_ok (sample_env "").
Proof. by vm_compute. Qed.

(** One node joins, then another one although its state cannot be written. *)
Lemma handleJoin_outcome_witness :
  ∃ w', serve (join_req sample_token "B") (sample_env "") sample_cert (Some Garbage)
          (after (one 0 (join_req "" "A"))) = Some w' ∧ disk w' = Garbage ∧ length (replies w') = 2.
Proof.
  destruct (handleJoin_outcome 3 (after (one 0 (join_req "" "A"))) (sample_env "") sample_cert (Some Garbage) true
    (Some {| jr_Token := sample_token; jr_PublicKey := "B";
             jr_Endpoint := "1.2.3.4:51820"; jr_Domain := "B.example" |})) as (w' & Hs & _).
  - by vm_compute.
  - apply env_ok_sample.
  - refine (proj1 (steps_advance (one 0 (join_req "" "A")) 0 sample_start _ _ _ _ _ eq_refl));
      [lia|done| |apply start_ok].
    repeat constructor; try apply env_ok_sample; done.
  - lia.
  - done.
  - exists w'. split; [exact Hs|]. revert Hs. vm_compute. by intros [= <-].
Defined.

(** A node registers, registers again, and another one joins. *)
Definition sample_run : list Action :=
  one 0 (config_req "" "A") ++
  [Arrive 1 (config_req sample_token "A"); Enter 1 (sample_env "") sample_cert] ++
  one 2 (join_req sample_token "B").

Lemma sample_run_ok : Forall (λ a, action_ok a ∧ a ≠ Restart) sample_run.
Proof. repeat constructor; try apply env_ok_sample; done. Qed.

Lemma addresses_never_shared_witness :
  grants (after sample_run) =
    [("A", "10.100.0.1"); ("A", "10.100.0.1"); ("B", "10.100.0.2")] ∧
  rep_key <$> replies (after sample_run) !! 0 = rep_key <$> replies (after sample_run) !! 1.
Proof.
  split; [by vm_compute|].
  destruct (replies (after sample_run) !! 0) as [r1|] eqn:H1; [|by vm_compute in H1].
  destruct (replies (after sample_run) !! 1) as [r2|] eqn:H2; [|by vm_compute in H2].
  cbn [fmap option_fmap option_map]. f_equal.
  apply (addresses_never_shared "/data/c.json" "/routes"
    (Some (Build_caLoader "ca" "key")) sample_run) with (ip := "10.100.0.1") (w := after sample_run).
  - apply sample_run_ok.
  - done.
  - by vm_compute.
  - by eapply list_elem_of_lookup_2.
  - by eapply list_elem_of_lookup_2.
  - vm_compute in H1. injection H1 as <-. reflexivity.
  - vm_compute in H2. injection H2 as <-. reflexivity.
Defined.

(** Two registrations with a crash between them. *)
Definition crash_run : list Action :=
  one 0 (config_req "" "A") ++ [Arrive 1 (join_req sample_token "B"); Restart] ++
  one 2 (join_req sample_token "C").

Lemma addresses_survive_crashes_witness :
  grants (after crash_run) = [("A", "10.100.0.1"); ("C", "10.100.0.2")] ∧
  json_str <$> (rep_key <$> replies (after crash_run) !! 0) =
    json_str <$> (rep_key <$> replies (after crash_run) !! 0).
Proof.
  split; [by vm_compute|].
  destruct (replies (after crash_run) !! 0) as [r1|] eqn:H1; [|by vm_compute in H1].
  cbn [fmap option_fmap option_map]. refine (f_equal Some _).
  apply (addresses_survive_crashes "/data/c.json" "/routes"
    (Some (Build_caLoader "ca" "key")) crash_run) with (ip := "10.100.0.1") (w := after crash_run).
  - done.
  - repeat constructor; try apply env_ok_sample; done.
  - done.
  - by vm_compute.
  - by eapply list_elem_of_lookup_2.
  - by eapply list_elem_of_lookup_2.
  - vm_compute in H1. injection H1 as <-. reflexivity.
  - vm_compute in H1. injection H1 as <-. reflexivity.
  - vm_compute in H1. injection H1 as <-. reflexivity.
  - vm_compute in H1. injection H1 as <-. reflexivity.
Defined.

Lemma handleConfig_again_witness :
  ∃ w2 rsp, serve (config_req sample_token "A") (sample_env "") sample_cert None (after sample_run)
    = Some w2 ∧ cr_vpn_ip rsp = "10.100.0.1" ∧
    replies w2 = replies (after sample_run) ++ [Build_Reply "A" (RConfig rsp) false].
Proof.
  destruct (handleConfig_again 3 (after (one 0 (config_req "" "A")))
    (drop 3 sample_run) (after sample_run)
    {| cq_token := sample_token; cq_public_key := "A"; cq_endpoint := "5.6.7.8:51820";
       cq_domain := "A.example"; cq_use_subdomain := "1"; cq_main_domain := "main.net" |}
    (sample_env "") sample_cert None 0
    (default {| ID := ""; Domain := ""; PublicKey := ""; Endpoint := ""; VPNIP := "";
                Subdomain := ""; JoinedAt := 0 |}
      (head (nodes (coord (after (one 0 (config_req "" "A")))))))) as (w2 & rsp & Hs & Hr & _ & _ & Hip & _).
  - refine (proj1 (steps_advance (one 0 (config_req "" "A")) 0 sample_start _ _ _ _ _ eq_refl));
      [lia|done| |apply start_ok].
    repeat constructor; try apply env_ok_sample; done.
  - lia.
  - done.
  - apply Forall_drop, sample_run_ok.
  - by vm_compute.
  - by vm_compute.
  - by vm_compute.
  - by vm_compute.
  - done.
  - done.
  - done.
  - exists w2, rsp. split; [exact Hs|]. split; [rewrite Hip; by vm_compute|exact Hr].
Defined.

Lemma handleCert_outcome_witness :
  ∃ w', serve (QCert true (Some {| ct_Token := sample_token; ct_Domain := " a.EXAMPLE" |}))
    (sample_env "") sample_cert None (after sample_run) = Some w' ∧
  last (replies w') =
    Some (Build_Reply "" (RCert "CERTIFICATE:a.example by ca" "EC PRIVATE KEY:k") false).
Proof.
  destruct (handleCert_outcome (after sample_run) (sample_env "") sample_cert None true
    (Some {| ct_Token := sample_token; ct_Domain := " a.EXAMPLE" |})) as (w' & resp & Hs & Hr & _ & _ & _ & Hc).
  - by vm_compute.
  - exists w'. split; [exact Hs|]. rewrite Hr, last_snoc. do 2 f_equal. apply Hc.
    eexists (Build_caLoader "ca" "key"), "a.example", _. split.
    + eexists. split; [done|]. split; [done|]. split; [by vm_compute|].
      split; [right; by vm_compute|]. split; [by vm_compute|done].
    + split; [left|]. split; [by vm_compute|]. 
      exists "k", 1%Z, "a.example by ca", "k".
      split; [by vm_compute|]. split_and!; by vm_compute.
Defined.

Lemma routes_confined_witness :
  "/routes" ≠ "" ∧ ∃ s, "/routes/selfhost-5_6_7_8.yaml" = "/routes" +:+ "/selfhost-" +:+ s +:+ ".yaml" ∧
    lacks "." s = true ∧ lacks "-" s = true.
Proof.
  destruct (routes (after sample_run) !! "/routes/selfhost-5_6_7_8.yaml") as [b|] eqn:Hb;
    [|by vm_compute in Hb].
  apply (routes_confined "/data/c.json" "/routes" (Some (Build_caLoader "ca" "key"))
    sample_run (after sample_run) _ b); [by vm_compute|exact Hb].
Defined.
End Coordinator.
