(* ===== verification/Federation.v ===== *)
(** * Federation between servers ([server/internal/federation])

    [Module Security]: block and allow lists and the limits on transactions
    ([security.go]).  [Module S2S]: server keys ([keys.go]), signed requests
    and their verification ([client.go], [server.go]), discovery of endpoints
    and of keys ([client.go], [discovery.go]). *)

From Stdlib Require Import Ascii String.
From stdpp Require Import strings.
From S2P Require Import Prelude GoStrings Encoding Crypto Samples Wire.
Set Default Goal Selector "!".
Open Scope stdpp_scope.

(** ** [net/url] and [net]

    [url_parse]: the scheme and [Hostname()] of a URL.  [parse_ip]: the four
    bytes of an IPv4 (or IPv4-mapped) address, the sixteen of an IPv6 one. *)
Class GoNet := {
  url_parse : string → option (string * string);
  parse_ip : string → option (list Z);
}.

(** [IP.IsLoopback], [IsPrivate] and [IsLinkLocalUnicast]. *)
Definition IsLoopback (ip : list Z) : bool :=
  match ip with
  | [a; _; _; _] => (a =? 127)%Z
  | _ => bool_decide (ip = replicate 15 0%Z ++ [1%Z])
  end.

Definition IsPrivate (ip : list Z) : bool :=
  match ip with
  | [a; b; _; _] =>
    ((a =? 10) || ((a =? 172) && (Z.land b 240 =? 16)) || ((a =? 192) && (b =? 168)))%Z
  | a :: _ => (length ip =? 16) && (Z.land a 254 =? 252)%Z
  | [] => false
  end.

Definition IsLinkLocalUnicast (ip : list Z) : bool :=
  match ip with
  | [a; b; _; _] => ((a =? 169) && (b =? 254))%Z
  | a :: b :: _ => (length ip =? 16) && ((a =? 254) && (Z.land b 192 =? 128))%Z
  | _ => false
  end.

Module Security.

Definition MaxBodySize_default : Z := 1048576.
Definition MaxEvents : Z := 100.
Definition MaxEventIDLen : Z := 128.
Definition MaxTransactionIDLen : Z := 128.
Definition MaxUserIDLen : Z := 256.
Definition MaxCiphertextLen : Z := 65536.
Definition MaxSessionIDLen : Z := 64.
Definition TimestampWindow : Z := 5 * 60.

Record SecurityConfig := {
  RateLimit : Z;
  cfg_MaxBodySize : Z;
  AllowlistMode : string;
  AllowlistPath : string;
  AllowlistTrustThreshold : Z;
  BlocklistPath : string;
  BlocklistURL : string;
  BlocklistReload : Z;
}.

Definition DefaultSecurityConfig : SecurityConfig := {|
  RateLimit := 100; cfg_MaxBodySize := MaxBodySize_default; AllowlistMode := "auto";
  AllowlistPath := ""; AllowlistTrustThreshold := 0; BlocklistPath := "";
  BlocklistURL := ""; BlocklistReload := 6 * hour
|}.

Record SecurityService := {
  cfg : SecurityConfig;
  blocklist : gset string;
  allowlist : gset string;
  successCount : gmap string Z;
}.

Abbreviation files := (gmap string string).

(** What [http.Get] of the blocklist gives: no response, a body that is a
    JSON array of strings, any other body (its first mebibyte). *)
Inductive fetched :=
| NoResponse
| JsonList (l : list string)
| Text (s : string).

Section security.
Context `{GoUnicode, GoNet}.

(** [strings.TrimSpace(strings.ToLower(line))] *)
Definition list_entry (line : string) : string := trim_space (to_lower line).

(** The entries of a list file: no blank lines, no comments. *)
Definition list_lines (data : string) : list string :=
  filter (λ d, d ≠ "" ∧ has_prefix d "#" = false)
    (list_entry <$> split_byte "010" data).

Definition list_file (path : string) (fs : files) : gset string :=
  if String.eqb path "" then ∅
  else match fs !! path with
       | Some data => list_to_set (list_lines data)
       | None => ∅
       end.

Definition isBlocklistURLAllowed (rawURL : string) : bool :=
  match url_parse (trim_space rawURL) with
  | None => false
  | Some (scheme, hostname) =>
    if negb (String.eqb scheme "https") && negb (String.eqb scheme "http") then false else
    let host := to_lower hostname in
    if String.eqb host "" || String.eqb host "localhost" || String.eqb host "127.0.0.1" ||
       String.eqb host "::1" then false else
    match parse_ip host with
    | Some ip => negb (IsLoopback ip || IsPrivate ip || IsLinkLocalUnicast ip)
    | None => true
    end
  end.

Definition with_blocklist (b : gset string) (s : SecurityService) : SecurityService :=
  {| cfg := cfg s; blocklist := b; allowlist := allowlist s; successCount := successCount s |}.
Definition with_allowlist (a : gset string) (s : SecurityService) : SecurityService :=
  {| cfg := cfg s; blocklist := blocklist s; allowlist := a; successCount := successCount s |}.
Definition with_count (c : gmap string Z) (s : SecurityService) : SecurityService :=
  {| cfg := cfg s; blocklist := blocklist s; allowlist := allowlist s; successCount := c |}.

(** The entries of a JSON list are neither filtered nor skipped. *)
Definition url_entries (r : fetched) : gset string :=
  match r with
  | NoResponse => ∅
  | JsonList l => list_to_set (norm <$> l)
  | Text data => list_to_set (list_lines data)
  end.

Definition loadBlocklist (fs : files) (get : string → fetched) (s : SecurityService) :
    SecurityService :=
  let b := list_file (BlocklistPath (cfg s)) fs in
  with_blocklist
    (if negb (String.eqb (BlocklistURL (cfg s)) "") &&
        isBlocklistURLAllowed (BlocklistURL (cfg s))
     then b ∪ url_entries (get (BlocklistURL (cfg s))) else b) s.

Definition loadAllowlist (fs : files) (s : SecurityService) : SecurityService :=
  with_allowlist
    (if String.eqb (AllowlistMode (cfg s)) "manual" || String.eqb (AllowlistMode (cfg s)) "auto"
     then list_file (AllowlistPath (cfg s)) fs else ∅) s.

(** [s.cfg.AllowlistTrustThreshold] is at least 1. *)
Definition threshold (c : SecurityConfig) : SecurityConfig := {|
  RateLimit := RateLimit c; cfg_MaxBodySize := cfg_MaxBodySize c;
  AllowlistMode := AllowlistMode c; AllowlistPath := AllowlistPath c;
  AllowlistTrustThreshold :=
    if (AllowlistTrustThreshold c <? 1)%Z then 1 else AllowlistTrustThreshold c;
  BlocklistPath := BlocklistPath c; BlocklistURL := BlocklistURL c;
  BlocklistReload := BlocklistReload c
|}.

Definition NewSecurityService (fs : files) (get : string → fetched) (c : SecurityConfig) :
    SecurityService :=
  loadAllowlist fs (loadBlocklist fs get
    {| cfg := threshold c; blocklist := ∅; allowlist := ∅; successCount := ∅ |}).

(** Whether [NewSecurityService] starts [reloadBlocklistLoop], which runs
    [loadBlocklist] at every tick. *)
Definition reloads (c : SecurityConfig) : bool :=
  negb (String.eqb (BlocklistURL c) "") && (0 <? BlocklistReload c)%Z.

Definition MaxBodySize (s : SecurityService) : Z :=
  if (0 <? cfg_MaxBodySize (cfg s))%Z then cfg_MaxBodySize (cfg s) else MaxBodySize_default.

Definition IsBlocked (domain : string) (s : SecurityService) : bool :=
  bool_decide (norm domain ∈ blocklist s).

Definition IsAllowed (domain : string) (s : SecurityService) : bool :=
  String.eqb (AllowlistMode (cfg s)) "open" || bool_decide (norm domain ∈ allowlist s).

Definition RecordSuccessfulTransaction (domain : string) (s : SecurityService) :
    bool * SecurityService :=
  if negb (String.eqb (AllowlistMode (cfg s)) "auto") || IsAllowed domain s then (false, s) else
  let d := norm domain in
  if String.eqb d "" then (false, s) else
  let n := wrap64 (default 0%Z (successCount s !! d) + 1) in
  (bool_decide (AllowlistTrustThreshold (cfg s) ≤ n)%Z, with_count (<[d := n]> (successCount s)) s).

Definition CheckAllowlistForTransaction (domain : string) (s : SecurityService) :
    result string unit :=
  if String.eqb (AllowlistMode (cfg s)) "open" then Ok tt
  else if IsAllowed domain s then Ok tt
  else if String.eqb (AllowlistMode (cfg s)) "manual" then Err "domain not in allowlist"
  else Ok tt.

(** [open_ok]: whether the file opens; [written]: what [WriteString], whose
    error is dropped, appends of the line. *)
Definition AddToAllowlist (open_ok : bool) (written : string → string) (domain : string)
    (s : SecurityService) (fs : files) : result string unit * SecurityService * files :=
  let d := norm domain in
  if String.eqb d "" then (Err "empty domain", s, fs) else
  if bool_decide (d ∈ allowlist s) then (Ok tt, s, fs) else
  let s := with_allowlist ({[d]} ∪ allowlist s) s in
  let path := AllowlistPath (cfg s) in
  if negb (String.eqb path "") && String.eqb (AllowlistMode (cfg s)) "auto" then
    if negb open_ok then (Err "open", s, fs)
    else (Ok tt, s,
          <[path := default "" (fs !! path) +:+ written (d +:+ String "010" "")]> fs)
  else (Ok tt, s, fs).

(** *** [ValidateTransaction] *)
Definition zlen (s : string) : Z := Z.of_nat (slen s).

Definition event_error (i : nat) (what : string) : string :=
  "event[" +:+ itoa (Z.of_nat i) +:+ "]." +:+ what.

Definition validate_event (i : nat) (e : TransactionEvent) (now : Z) : result string unit :=
  if (MaxEventIDLen <? zlen (EventID e))%Z then Err (event_error i "event_id too long") else
  if (MaxUserIDLen <? zlen (Sender e))%Z then Err (event_error i "sender too long") else
  if (MaxUserIDLen <? zlen (Recipient e))%Z then Err (event_error i "recipient too long") else
  if (MaxCiphertextLen * 2 <? zlen (Ciphertext (Content e)))%Z
  then Err (event_error i "content.ciphertext too long") else
  if (MaxSessionIDLen <? zlen (SessionID (Content e)))%Z
  then Err (event_error i "content.session_id too long") else
  let diff := wrap64 (now - Timestamp e) in
  if ((diff <? -60) || (TimestampWindow + 60 <? diff))%Z
  then Err (event_error i "timestamp out of window") else Ok tt.

Fixpoint validate_events (i : nat) (l : list TransactionEvent) (now : Z) : result string unit :=
  match l with
  | [] => Ok tt
  | e :: l' => _ ← validate_event i e now; validate_events (S i) l' now
  end.

Definition ValidateTransaction (req : TransactionRequest) (now : Z) : result string unit :=
  if (MaxTransactionIDLen <? zlen (TransactionID req))%Z then Err "transaction_id too long" else
  if String.eqb (TransactionID req) "" then Err "transaction_id required" else
  if (MaxEvents <? Z.of_nat (length (Events req)))%Z then Err "too many events" else
  if (Z.of_nat (length (Events req)) =? 0)%Z then Err "events required" else
  validate_events 0 (Events req) now.

(** *** Trust on first contact *)

(** What the transaction handler does once a transaction is valid; [open_ok]
    and [written] as for [AddToAllowlist]. *)
Definition note_origin (open_ok : bool) (written : string → string) (origin : string)
    (st : SecurityService * files) : SecurityService * files :=
  if negb (IsAllowed origin st.1) then
    let '(add, s) := RecordSuccessfulTransaction origin st.1 in
    if add : bool then
      let '(_, s, fs) := AddToAllowlist open_ok written origin s st.2 in (s, fs)
    else (s, st.2)
  else st.
End security.

End Security.

(** ** [net/url] escapes *)
Definition unreserved (a : ascii) : bool :=
  let z := code a in
  (((48 <=? z) && (z <=? 57)) || ((65 <=? z) && (z <=? 90)) || ((97 <=? z) && (z <=? 122)))%Z ||
  Ascii.eqb a "-" || Ascii.eqb a "_" || Ascii.eqb a "." || Ascii.eqb a "~".

(** Bytes a path segment keeps: [url.PathEscape]. *)
Definition segment_byte (a : ascii) : bool :=
  unreserved a || Ascii.eqb a "$" || Ascii.eqb a "&" || Ascii.eqb a "+" || Ascii.eqb a "=" ||
  Ascii.eqb a ":" || Ascii.eqb a "@".

Definition upper_hex (z : Z) : ascii := if (z <? 10)%Z then byte_of (48 + z) else byte_of (55 + z).

Definition escape_byte (a : ascii) : string :=
  String "%" (String (upper_hex (code a / 16)) (String (upper_hex (code a mod 16)) "")).

Fixpoint PathEscape (s : string) : string :=
  match s with
  | "" => ""
  | String a s' => (if segment_byte a then String a "" else escape_byte a) +:+ PathEscape s'
  end.

Fixpoint QueryEscape (s : string) : string :=
  match s with
  | "" => ""
  | String a s' =>
    (if unreserved a then String a ""
     else if Ascii.eqb a " " then "+" else escape_byte a) +:+ QueryEscape s'
  end.

(** [url.PathUnescape]; [None] when an escape is malformed. *)
Fixpoint unescape (s : string) : option string :=
  match s with
  | "" => Some ""
  | String a s' =>
    if Ascii.eqb a "%" then
      match s' with
      | String x (String y s'') =>
        h ← hex_val x; l ← hex_val y; t ← unescape s''; Some (String (byte_of (h * 16 + l)) t)
      | _ => None
      end
    else t ← unescape s'; Some (String a t)
  end.

(** ** Requests and responses ([net/http]) *)
Record HttpRequest := {
  rq_method : string;
  rq_url : string;
  rq_headers : gmap string string;
  rq_body : string;
}.

Record HttpResponse := { rs_status : Z; rs_body : string }.

(** The request as the server's handler sees it: the path unescaped, the
    query as sent. *)
Record ServerRequest := {
  r_method : string;
  r_path : string;
  r_rawquery : string;
  r_headers : gmap string string;
  r_body : string;
}.

(** The part of a URL after the authority, from the first slash on. *)
Definition url_rest (url : string) : option string :=
  i ← index url "://";
  let rest := sdrop (i + 3) url in
  j ← index rest "/"; Some (sdrop j rest).

Definition before (c : ascii) (s : string) : string :=
  match index s (String c "") with Some i => stake i s | None => s end.

(** [http.Client.Do] on one side, [http.Server] on the other. *)
Definition transmit (rq : HttpRequest) : option ServerRequest :=
  let rest := before "#" (default "/" (url_rest (rq_url rq))) in
  p ← unescape (before "?" rest);
  Some {|
    r_method := rq_method rq;
    r_path := p;
    r_rawquery := match index rest "?" with Some i => sdrop (S i) rest | None => "" end;
    r_headers := rq_headers rq;
    r_body := rq_body rq;
  |}.

Module S2S.

(** ** Server keys ([keys.go]) *)
Record ServerKeys := { PublicKey : string; PrivateKey : string }.

Definition PrivateKeySize : nat := 64.

Section keys.
Context `{HE : Ed25519, HU : GoUnicode}.

Definition stored_keys (data : string) : option ServerKeys :=
  '(p, s) ← dec_keys data;
  let pub := b64_bytes p in
  let priv := b64_bytes s in
  if (slen pub =? PublicKeySize) && (slen priv =? PrivateKeySize)
  then Some {| PublicKey := pub; PrivateKey := priv |} else None.

(** The package variables [keys] and [keysOnce]. *)
Record KeysOnce := { ran : bool; keys : option ServerKeys }.

(** [path] is [filepath.Join(baseDir, '.federation_key_' + cfg.Domain)];
    [gen]: the private key drawn by [ed25519.GenerateKey], or no entropy;
    [werr]: writing the key file fails, which is ignored.  The error is a
    local variable: a second call after a failed one returns no keys and no
    error. *)
Definition LoadServerKeys (path : string) (gen : option string) (werr : bool)
    (o : KeysOnce) (fs : gmap string string) :
    option ServerKeys * option string * KeysOnce * gmap string string :=
  if ran o then (keys o, None, o, fs) else
  match fs !! path ≫= stored_keys with
  | Some k => (Some k, None, {| ran := true; keys := Some k |}, fs)
  | None =>
    match gen with
    | None => (keys o, Some "generate", {| ran := true; keys := keys o |}, fs)
    | Some priv =>
      let k := {| PublicKey := ed_public priv; PrivateKey := priv |} in
      (Some k, None, {| ran := true; keys := Some k |},
       if werr then fs
       else <[path := enc_keys (b64_encode (PublicKey k)) (b64_encode priv)]> fs)
    end
  end.

Definition SignPayload (k : ServerKeys) (payload : string) : string :=
  ed_sign (PrivateKey k) payload.
Definition PublicKeyBase64 (k : ServerKeys) : string := b64_encode (PublicKey k).
End keys.

(** ** Signing and verification *)
Definition newline : string := String "010" "".

(** [fmt.Sprintf] of six [%s] separated by newlines. *)
Definition payload (origin dest ts method path bodyHash : string) : string :=
  join newline [origin; dest; ts; method; path; bodyHash].

Section requests.
Context `{HS : Sha256, HE : Ed25519}.

Definition body_hash (body : string) : string :=
  if String.eqb body "" then "" else hex_encode (sha256 body).

Definition url_dest (url : string) : string :=
  if has_prefix url "https://" then before "/" (sdrop 8 url)
  else if has_prefix url "http://" then before "/" (sdrop 7 url)
  else "".

(** The path that is signed: what follows the first slash after [://]. *)
Definition signed_path (url : string) : string :=
  match index url "://" with
  | Some idx =>
    let rest := sdrop (idx + 3) url in
    match index rest "/" with
    | Some slash => "/" +:+ sdrop (S slash) rest
    | None => "/"
    end
  | None => "/"
  end.

Definition signRequest (domain : string) (k : ServerKeys) (now : Z)
    (method url body : string) : gmap string string :=
  let timestamp := itoa (unix now) in
  let dest := url_dest url in
  let sig := SignPayload k
    (payload domain dest timestamp method (signed_path url) (body_hash body)) in
  <["X-Server-Origin" := domain]> (<["X-Server-Destination" := dest]>
  (<["X-Server-Timestamp" := timestamp]> (<["X-Server-Signature" := b64_encode sig]> ∅))).

Definition header (k : string) (r : ServerRequest) : string := default "" (r_headers r !! k).

(** The 300 second window, on 64-bit integers. *)
Definition out_of_window (now ts : Z) : bool :=
  ((300 <? wrap64 (unix now - ts)) || (300 <? wrap64 (ts - unix now)))%Z.

Definition request_path (r : ServerRequest) : string :=
  if String.eqb (r_rawquery r) "" then r_path r else r_path r +:+ "?" +:+ r_rawquery r.

Definition VerifyRequest (r : ServerRequest) (body key : string) (now : Z) :
    result string unit :=
  let origin := header "X-Server-Origin" r in
  let dest := header "X-Server-Destination" r in
  let ts := header "X-Server-Timestamp" r in
  let sig := header "X-Server-Signature" r in
  if String.eqb origin "" || String.eqb dest "" || String.eqb ts "" || String.eqb sig ""
  then Err "missing S2S headers" else
  match parse_int64 ts with
  | None => Err "invalid timestamp"
  | Some timestamp =>
    if out_of_window now timestamp then Err "timestamp out of window" else
    let p := payload origin dest ts (r_method r) (request_path r) (body_hash body) in
    match b64_decode sig with
    | None => Err "illegal base64 data"
    | Some sigBytes =>
      if ed_verify key p sigBytes then Ok tt else Err "invalid signature"
    end
  end.
End requests.
(** ** The client ([client.go]) *)
Definition discoveryCacheTTL : Z := 5 * 60 * second.

Record cachedEndpoint := { endpoint : string; expires : Z }.

(** [requests] is a history variable: what was handed to [httpClient.Do], the
    last first. *)
Record Client := mkClient {
  c_domain : string;
  mainDomain : string;
  c_keys : ServerKeys;
  discoveryCache : gmap string cachedEndpoint;
  requests : list HttpRequest;
}.

Definition with_cached (domain : string) (ce : cachedEndpoint) (c : Client) : Client :=
  mkClient (c_domain c) (mainDomain c) (c_keys c) (<[domain := ce]> (discoveryCache c)) (requests c).

Definition with_request (rq : HttpRequest) (c : Client) : Client :=
  mkClient (c_domain c) (mainDomain c) (c_keys c) (discoveryCache c) (rq :: requests c).

Definition NewClient (domain : string) (k : ServerKeys) : Client :=
  mkClient domain "" k ∅ [].

Definition NewClientWithMain (domain main : string) (k : ServerKeys) : Client :=
  mkClient domain main k ∅ [].

(** The certificate, with its key, that the HTTP client of a [Client] presents
    to the servers it calls.  [X509KeyPair]: whether the two belong together. *)
Definition certificate := option (string * string).

Section mtls.
Context (X509KeyPair : string → string → bool) (fs : gmap string string).

(** Without a path no certificate; [Err] when a file cannot be read or the
    pair is refused. *)
Definition loadClientTLS (certPath keyPath : string) : result unit certificate :=
  if String.eqb certPath "" || String.eqb keyPath "" then Ok None else
  match fs !! certPath with
  | None => Err tt
  | Some certPEM => match fs !! keyPath with
                    | None => Err tt
                    | Some keyPEM => if X509KeyPair certPEM keyPEM then Ok (Some (certPEM, keyPEM)) else Err tt
                    end
  end.

(** An error leaves a client without certificate. *)
Definition NewClientWithMTLS (domain : string) (k : ServerKeys) (clientCert clientKey : string) :
    Client * certificate :=
  (NewClient domain k, match loadClientTLS clientCert clientKey with Ok c => c | Err _ => None end).

Definition NewClientWithMainAndMTLS (domain main : string) (k : ServerKeys) (clientCert clientKey : string) :
    Client * certificate :=
  let '(c, cert) := NewClientWithMTLS domain k clientCert clientKey in
  (mkClient (c_domain c) main (c_keys c) (discoveryCache c) (requests c), cert).

Lemma loadClientTLS_some certPath keyPath c :
  loadClientTLS certPath keyPath = Ok (Some c) ↔
  certPath ≠ "" ∧ keyPath ≠ "" ∧ fs !! certPath = Some c.1 ∧ fs !! keyPath = Some c.2 ∧ X509KeyPair c.1 c.2 = true.
Proof.
  unfold loadClientTLS.
  destruct (String.eqb_spec certPath ""), (String.eqb_spec keyPath ""); cbn [orb]; try (split; [done|tauto]).
  split.
  - repeat case_match; intros; simplify_eq; done.
  - intros (_ & _ & -> & -> & ->). by destruct c.
Qed.
End mtls.

(** [EPanic]: [http.NewRequestWithContext] failed on the URL; its error is
    ignored and the nil request dereferenced. *)
Inductive cerr :=
| ENet
| EStatus (what : string) (status : Z) (body : string)
| EDecode
| EPanic.

(** The outside: [http.Client.Do] ([None]: an error), whether a URL parses. *)
Class Http := {
  http_do : HttpRequest → option HttpResponse;
  url_ok : string → bool;
}.

Definition scheme (domain : string) : string :=
  if has_prefix domain "localhost" || has_prefix domain "127." then "http" else "https".

Definition get (url : string) : HttpRequest :=
  {| rq_method := "GET"; rq_url := url; rq_headers := ∅; rq_body := "" |}.

Section client.
Context `{HU : GoUnicode, HS : Sha256, HE : Ed25519, HH : Http}.

(** [http.NewRequestWithContext] with its error dropped, then [Do]. *)
Definition answered (rq : HttpRequest) : result cerr HttpResponse :=
  if negb (url_ok (rq_url rq)) then Err EPanic
  else match http_do rq with Some r => Ok r | None => Err ENet end.

(** The same with the client of a [Client]. *)
Definition do_request (rq : HttpRequest) (c : Client) : result cerr HttpResponse * Client :=
  (answered rq, if url_ok (rq_url rq) then with_request rq c else c).

Definition default_endpoint (remoteDomain : string) : string :=
  scheme remoteDomain +:+ "://" +:+ remoteDomain +:+ "/federation/v1".

Definition discovery_url (remoteDomain : string) : string :=
  scheme remoteDomain +:+ "://" +:+ remoteDomain +:+ "/.well-known/federation".

(** The endpoint a discovery answer gives. *)
Definition discovered (remoteDomain : string) (r : HttpResponse) : string :=
  let base := default_endpoint remoteDomain in
  if (rs_status r =? 200)%Z then
    match dec_endpoint (rs_body r) with
    | Some e => if String.eqb e "" then base else e
    | None => base
    end
  else base.

(** [t0] is read for the lookup in the cache, [t1] for the new entry. *)
Definition resolveEndpoint (t0 t1 : Z) (remoteDomain : string) (c : Client) :
    result cerr string * Client :=
  let domain := norm remoteDomain in
  let fetch :=
    match do_request (get (discovery_url remoteDomain)) c with
    | (Err e, c) => (Err e, c)
    | (Ok r, c) =>
      let e := discovered remoteDomain r in
      (Ok e, with_cached domain {| endpoint := e; expires := t1 + discoveryCacheTTL |} c)
    end in
  match discoveryCache c !! domain with
  | Some ce => if bool_decide (t0 < expires ce)%Z then (Ok (endpoint ce), c) else fetch
  | None => fetch
  end.

(** A signed request to [url]. *)
Definition signed (c : Client) (t : Z) (method url body : string) (json : bool) : HttpRequest := {|
  rq_method := method;
  rq_url := url;
  rq_headers := signRequest (c_domain c) (c_keys c) t method url body ∪
                (if json then {["Content-Type" := "application/json"]} else ∅);
  rq_body := body;
|}.

(** Resolve the endpoint, sign and send; [t0], [t1] as above, [t2] when
    signing. *)
Definition call (t0 t1 t2 : Z) (remoteDomain method suffix body : string) (json : bool)
    (c : Client) : result cerr HttpResponse * Client :=
  let '(e, c) := resolveEndpoint t0 t1 remoteDomain c in
  match e with
  | Err e => (Err e, c)
  | Ok endpoint =>
    do_request (signed c t2 method (trim_suffix endpoint "/" +:+ suffix) body json) c
  end.

(** [if resp.StatusCode != http.StatusOK { return ... }] *)
Definition require_ok (what : string) (r : result cerr HttpResponse) : result cerr string :=
  r ← r; if (rs_status r =? 200)%Z then Ok (rs_body r)
         else Err (EStatus what (rs_status r) (rs_body r)).

Definition decoded {A} (dec : string → option A) (r : result cerr string) : result cerr A :=
  b ← r; match dec b with Some a => Ok a | None => Err EDecode end.

Definition nonempty (l : list string) : list string := filter (λ d, d ≠ "") l.

Definition FetchServersList (hubDomain : string) (c : Client) : result cerr (list string) * Client :=
  let '(r, c) := do_request (get (scheme hubDomain +:+ "://" +:+ hubDomain +:+
                                  "/.well-known/federation-servers")) c in
  (servers ← decoded dec_servers (require_ok "fetch servers" r);
   Ok (nonempty (norm <$> servers)), c).

Definition dquote : string := String "034" "".

Definition register_body (domain : string) : string :=
  "{" +:+ dquote +:+ "domain" +:+ dquote +:+ ":" +:+ dquote +:+
  replace_byte "034" (String "092" dquote) domain +:+ dquote +:+ "}".

Definition Register (t0 t1 t2 : Z) (hubDomain : string) (c : Client) :
    result cerr unit * Client :=
  let '(r, c) := call t0 t1 t2 hubDomain "POST" "/register" (register_body (c_domain c)) true c in
  ((λ _, tt) <$> require_ok "register" r, c).

Definition FetchDeviceList (t0 t1 t2 : Z) (remoteDomain userID : string) (c : Client) :
    result cerr (list string) * Client :=
  let '(r, c) := call t0 t1 t2 remoteDomain "GET" ("/keys/devices/" +:+ PathEscape userID) "" false c in
  (ids ← decoded dec_devices (require_ok "federation devices" r);
   Ok (nonempty ids), c).

Definition FetchKeys (t0 t1 t2 : Z) (remoteDomain userID deviceID : string) (c : Client) :
    result cerr string * Client :=
  let '(r, c) := call t0 t1 t2 remoteDomain "GET"
    ("/keys/bundle/" +:+ PathEscape userID +:+ "/" +:+ PathEscape deviceID) "" false c in
  (require_ok "federation keys" r, c).

(** The server a transaction is sent to: the Main hub in main_only mode. *)
Definition target (remoteDomain : string) (c : Client) : string :=
  if negb (String.eqb (mainDomain c) "") && negb (String.eqb remoteDomain (c_domain c))
  then mainDomain c else remoteDomain.

Definition post_transaction (what : string) (t0 t1 t2 : Z) (domain : string)
    (txn : Transaction) (c : Client) : result cerr unit * Client :=
  let '(r, c) := call t0 t1 t2 domain "POST" "/transaction" (enc_transaction txn) true c in
  ((λ _, tt) <$> require_ok what r, c).

Definition addressed (remoteDomain : string) (txn : Transaction) (c : Client) : Transaction := {|
  t_TransactionID := t_TransactionID txn; t_Origin := c_domain c;
  t_Destination := remoteDomain; t_Events := t_Events txn |}.

Definition SendTransaction (t0 t1 t2 : Z) (remoteDomain : string) (txn : Transaction)
    (c : Client) : result cerr unit * Client :=
  post_transaction "federation transaction" t0 t1 t2 (target remoteDomain c)
    (addressed remoteDomain txn c) c.

Definition ForwardTransaction (t0 t1 t2 : Z) (targetDomain : string) (txn : Transaction)
    (c : Client) : result cerr unit * Client :=
  post_transaction "federation forward" t0 t1 t2 targetDomain txn c.

(** Every failure means not found; here the second request is built with
    its error checked, so that only the discovery can panic. *)
Definition UserLookup (t0 t1 t2 : Z) (remoteDomain username : string) (c : Client) :
    result cerr (option (string * string)) * Client :=
  let '(e, c) := resolveEndpoint t0 t1 remoteDomain c in
  match e with
  | Err EPanic => (Err EPanic, c)
  | Err _ => (Ok None, c)
  | Ok endpoint =>
    let url := trim_suffix endpoint "/" +:+ "/users/lookup?username=" +:+ QueryEscape username in
    let '(r, c) := do_request (signed c t2 "GET" url "" false) c in
    (Ok match decoded dec_lookup (require_ok "lookup" r) with
        | Ok u => if String.eqb (ul_UserID u) "" || String.eqb (ul_HomeDomain u) "" then None
                  else Some (ul_UserID u, ul_HomeDomain u)
        | Err _ => None
        end, c)
  end.

Definition AuthVerify (t0 t1 t2 : Z) (remoteDomain body : string) (c : Client) :
    result cerr AuthVerifyResult * Client :=
  let '(r, c) := call t0 t1 t2 remoteDomain "POST" "/auth/verify" body true c in
  (decoded dec_auth (require_ok "federation auth/verify" r), c).

(** *** [discovery.go] *)
Definition FetchServerKey (domain : string) : result cerr string :=
  b ← require_ok "federation discovery" (answered (get (discovery_url domain)));
  match dec_server_key b with
  | None => Err EDecode
  | Some k =>
    match b64_decode k with
    | Some key => if slen key =? PublicKeySize then Ok key else Err EDecode
    | None => Err EDecode
    end
  end.
End client.

End S2S.

(** ** Lemmas on strings and escapes *)
Lemma unescape_plain s : lacks "%" s = true → unescape s = Some s.
Proof.
  unfold lacks. induction s as [|a s IH]; [done|]. cbn [sforall unescape].
  intros [Ha Hs]%andb_true_iff. apply negb_true_iff in Ha. rewrite Ha, IH by done. done.
Qed.

(** The first occurrence of a separator determines a split... *)
Lemma split_first c a b x y :
  lacks c a = true → lacks c b = true → a +:+ String c x = b +:+ String c y → a = b ∧ x = y.
Proof.
  revert b. induction a as [|z a IH]; intros [|w b] Ha Hb; rewrite ?string_app_cons.
  - intros [=]. done.
  - intros [= ?]. by apply lacks_cons_inv in Hb as [??].
  - intros [= ?]. by apply lacks_cons_inv in Ha as [??].
  - apply lacks_cons_inv in Ha as [_ Ha]. apply lacks_cons_inv in Hb as [_ Hb].
    intros [= -> He]. by destruct (IH b Ha Hb He) as [-> ->].
Qed.

(** ... and so does the last one. *)
Lemma split_last c a b x y :
  lacks c x = true → lacks c y = true → a +:+ String c x = b +:+ String c y → a = b ∧ x = y.
Proof.
  intros Hx Hy. revert b. induction a as [|z a IH]; intros [|w b]; rewrite ?string_app_cons.
  - intros [=]. done.
  - intros [= -> ->]. rewrite lacks_app in Hx. apply andb_true_iff in Hx as [_ Hx].
    by apply lacks_cons_inv in Hx as [??].
  - intros [= -> He]. rewrite <- He, lacks_app in Hy. apply andb_true_iff in Hy as [_ Hy].
    by apply lacks_cons_inv in Hy as [??].
  - intros [= -> He]. by destruct (IH b He) as [-> ->].
Qed.

Lemma hex_encode_lacks c s : hex_val c = None → lacks c (hex_encode s) = true.
Proof.
  intros Hc. assert (∀ z, (0 ≤ z < 16)%Z → negb (Ascii.eqb (hex_digit z) c) = true) as Hd.
  { intros z Hz. apply negb_true_iff, Ascii.eqb_neq. intros <-.
    assert (match hex_val (hex_digit z) with Some _ => true | None => false end = true) as Ht.
    { apply (Z_range_ind 16 (λ z, match hex_val (hex_digit z) with Some _ => true | None => false end));
        [by vm_compute|lia]. }
    by rewrite Hc in Ht. }
  unfold lacks. induction s as [|a s IH]; [done|]. bytes. cbn [hex_encode sforall].
  rewrite !Hd by zdiv. done.
Qed.

Lemma itoa_nonempty z : itoa z ≠ "".
Proof. intros He. pose proof (parse_int_itoa z) as Hp. by rewrite He in Hp. Qed.

Lemma b64_encode_nonempty s : s ≠ "" → b64_encode s ≠ "".
Proof. destruct s as [|a [|b [|c s]]]; done. Qed.

Lemma wrap64_period z k : wrap64 (z + k * (2 * two63)) = wrap64 z.
Proof.
  unfold wrap64. f_equal. rewrite <- (Z.mod_add (z + two63) k (2 * two63)) by done. f_equal. lia.
Qed.

Module S2SFacts.
Import S2S.

Section requests.
Context `{HS : Sha256, HE : Ed25519}.

Lemma body_hash_lacks body : lacks "010" (body_hash body) = true.
Proof. unfold body_hash. case_match; [done|]. by apply hex_encode_lacks. Qed.

(** The signed text determines the request: as long as the headers and the method
    hold no line break, two requests with the same signing payload have
    the same origin, destination, timestamp, method, path with query, and
    body hash, even when the path holds line breaks. *)
Theorem payload_binds o d t m p b o' d' t' m' p' b' :
  Forall (λ s, lacks "010" s = true) [o; d; t; m; o'; d'; t'; m'] →
  payload o d t m p (body_hash b) = payload o' d' t' m' p' (body_hash b') →
  o = o' ∧ d = d' ∧ t = t' ∧ m = m' ∧ p = p' ∧ body_hash b = body_hash b'.
Proof.
  intros Hl. repeat apply Forall_cons in Hl as [? Hl]. unfold payload, newline. cbn [join].
  intros (-> & He)%split_first; [|done..]. apply split_first in He as [-> He]; [|done..].
  apply split_first in He as [-> He]; [|done..]. apply split_first in He as [-> He]; [|done..].
  apply split_last in He as [-> ->]; [done|apply body_hash_lacks..].
Qed.

(** The window on 64-bit integers: the difference wraps exactly once. *)
Lemma out_of_window_spec now ts :
  (0 ≤ unix now < two63 - 300)%Z → in_int64 ts = true →
  out_of_window now ts = false ↔ (Z.abs (unix now - ts) ≤ 300 ∨ unix now - ts = two63)%Z.
Proof.
  intros Hn Ht. unfold in_int64 in Ht. apply bool_decide_eq_true_1 in Ht.
  unfold out_of_window. generalize dependent (unix now). intros n Hn.
  assert (wrap64 (n - ts) = if (n - ts <? two63)%Z then (n - ts)%Z else (n - ts - 2 * two63)%Z) as ->.
  { destruct (Z.ltb_spec (n - ts) two63); [apply wrap64_id; unfold two63 in *; lia|].
    rewrite <- (wrap64_period _ (-1)), wrap64_id; unfold two63 in *; lia. }
  assert (wrap64 (ts - n) = if (- two63 <=? ts - n)%Z then (ts - n)%Z else (ts - n + 2 * two63)%Z) as ->.
  { destruct (Z.leb_spec (- two63) (ts - n)); [apply wrap64_id; unfold two63 in *; lia|].
    rewrite <- (wrap64_period _ 1), wrap64_id; unfold two63 in *; lia. }
  unfold two63 in *. repeat case_match; lia.
Qed.

(** C21: A request is accepted exactly when the four headers are there, the timestamp is
    a 64-bit number within 300 seconds of the clock, and the signature
    verifies under the origin's key over the payload the server rebuilds
    itself.  The wrap-around of the subtraction admits one other timestamp,
    2^63 seconds in the past. *)
Theorem VerifyRequest_accepts r body key now :
  (0 ≤ unix now < two63 - 300)%Z →
  VerifyRequest r body key now = Ok tt ↔
  header "X-Server-Origin" r ≠ "" ∧ header "X-Server-Destination" r ≠ "" ∧
  ∃ ts sig,
    parse_int64 (header "X-Server-Timestamp" r) = Some ts ∧
    (Z.abs (unix now - ts) ≤ 300 ∨ unix now - ts = two63)%Z ∧
    header "X-Server-Signature" r ≠ "" ∧
    b64_decode (header "X-Server-Signature" r) = Some sig ∧
    ed_verify key (payload (header "X-Server-Origin" r) (header "X-Server-Destination" r)
      (header "X-Server-Timestamp" r) (r_method r) (request_path r) (body_hash body)) sig = true.
Proof.
  intros Hn. unfold VerifyRequest.
  destruct (String.eqb_spec (header "X-Server-Origin" r) "") as [|Ho]; [naive_solver|].
  destruct (String.eqb_spec (header "X-Server-Destination" r) "") as [|Hd]; [naive_solver|].
  destruct (String.eqb_spec (header "X-Server-Timestamp" r) "") as [->|Ht].
  { split; [done|]. intros (_ & _ & ts & sig & Hp & _). done. }
  destruct (String.eqb_spec (header "X-Server-Signature" r) "") as [|Hs].
  { split; [done|]. by intros (_ & _ & ts & sig & _ & _ & ? & _). }
  cbn [orb]. destruct (parse_int64 _) as [ts|] eqn:Hp.
  2:{ split; [done|]. by intros (_ & _ & ts & sig & ? & _). }
  assert (in_int64 ts = true) as Hi.
  { unfold parse_int64 in Hp. destruct (parse_int _) as [z|]; simpl in Hp; [|done].
    destruct (in_int64 z) eqn:?; by simplify_eq. }
  pose proof (out_of_window_spec now ts Hn Hi) as Hw.
  destruct (out_of_window now ts).
  { split; [done|]. intros (_ & _ & ts' & sig & [= <-] & Hw' & _). naive_solver. }
  destruct (b64_decode _) as [sig|].
  2:{ split; [done|]. by intros (_ & _ & ts' & sig & _ & _ & _ & ? & _). }
  destruct (ed_verify _ _ _) eqn:Hv.
  - split; [|done]. intros _. split_and!; [done..|]. exists ts, sig. naive_solver.
  - split; [done|]. intros (_ & _ & ts' & sig' & _ & _ & _ & [= <-] & Hv'). congruence.
Qed.
End requests.

(** A URL whose path reaches the server as it was signed: no escape in the
    path, no fragment, no empty query. *)
Definition clean_url (url : string) : Prop :=
  lacks "%" (before "?" (signed_path url)) = true ∧ lacks "#" (signed_path url) = true ∧
  (∀ i, index (signed_path url) "?" = Some i → sdrop (S i) (signed_path url) ≠ "").

Lemma signed_path_rest url : signed_path url = default "/" (url_rest url).
Proof.
  unfold signed_path, url_rest. destruct (index url "://") as [i|]; [|done].
  cbn [mbind option_bind]. cbv zeta. set (rest := sdrop (i + 3) url). clearbody rest.
  destruct (index rest "/") as [j|] eqn:Hj; [|done]. cbn [mbind option_bind default from_option].
  apply index_char_inv in Hj as (a & b & -> & <- & _). unfold default, id.
  rewrite sdrop_app. rewrite (string_cons_app "/" b) at 1. rewrite string_app_assoc.
  replace (S (slen a)) with (slen (a +:+ "/")) by (rewrite slen_app; simpl; lia).
  by rewrite sdrop_app.
Qed.

Lemma before_lacks c s : lacks c s = true → before c s = s.
Proof. intros Hl. unfold before. by rewrite index_char_lacks. Qed.

(** What the server rebuilds is what was signed. *)
Lemma transmit_path rq :
  clean_url (rq_url rq) →
  ∃ r, transmit rq = Some r ∧ request_path r = signed_path (rq_url rq) ∧
       r_method r = rq_method rq ∧ r_headers r = rq_headers rq ∧ r_body r = rq_body rq.
Proof.
  intros (Hp & Hf & Hq). unfold transmit. rewrite <- signed_path_rest.
  rewrite (before_lacks "#") by done. rewrite unescape_plain by done. cbn [mbind option_bind].
  eexists. split; [done|]. split_and!; try done. unfold request_path. cbn [r_rawquery r_path].
  unfold before. destruct (index (signed_path (rq_url rq)) "?") as [i|] eqn:Hi; [|done].
  specialize (Hq i eq_refl). apply String.eqb_neq in Hq. rewrite Hq.
  apply index_char_inv in Hi as (a & b & -> & <- & _). rewrite stake_app.
  f_equal. rewrite (string_cons_app "?" b), string_app_assoc.
  replace (S (slen a)) with (slen (a +:+ "?")) by (rewrite slen_app; simpl; lia).
  by rewrite sdrop_app.
Qed.

Section signing.
Context `{HU : GoUnicode, HS : Sha256, HE : Ed25519, HL : !Ed25519Laws, HH : Http}.

(** The key pair of a server. *)
Definition key_pair (k : ServerKeys) : Prop := PublicKey k = ed_public (PrivateKey k).

Lemma signed_headers c t method url body json :
  rq_headers (signed c t method url body json) !! "X-Server-Origin" = Some (c_domain c) ∧
  rq_headers (signed c t method url body json) !! "X-Server-Destination" = Some (url_dest url) ∧
  rq_headers (signed c t method url body json) !! "X-Server-Timestamp" = Some (itoa (unix t)) ∧
  rq_headers (signed c t method url body json) !! "X-Server-Signature" =
    Some (b64_encode (SignPayload (c_keys c) (payload (c_domain c) (url_dest url)
      (itoa (unix t)) method (signed_path url) (body_hash body)))).
Proof.
  unfold signed, signRequest. simpl.
  split_and!; apply lookup_union_Some_l; repeat (rewrite lookup_insert_ne by done);
    by rewrite lookup_insert, decide_True.
Qed.

(** A request signed by a server is accepted by whoever receives it within
    300 seconds and checks it with the server's public key. *)
Lemma signed_verifies c t now method url body json :
  key_pair (c_keys c) → c_domain c ≠ "" → url_dest url ≠ "" → clean_url url →
  in_int64 (unix t) = true → (0 ≤ unix now < two63 - 300)%Z → (Z.abs (unix now - unix t) ≤ 300)%Z →
  ∃ r, transmit (signed c t method url body json) = Some r ∧ r_body r = body ∧
       VerifyRequest r (r_body r) (PublicKey (c_keys c)) now = Ok tt.
Proof.
  intros Hk Hd Hdest Hu Ht Hn Hw.
  destruct (transmit_path (signed c t method url body json) Hu) as (r & Hr & Hp & Hm & Hh & Hb).
  exists r. split; [done|]. split; [done|].
  pose proof (signed_headers c t method url body json) as (H1 & H2 & H3 & H4).
  unfold VerifyRequest, header. rewrite Hh, H1, H2, H3, H4. cbn [default from_option].
  rewrite Hm, Hp, Hb. unfold default, id.
  assert (b64_encode (SignPayload (c_keys c) (payload (c_domain c) (url_dest url)
    (itoa (unix t)) method (signed_path url) (body_hash body))) ≠ "") as Hs.
  { by apply b64_encode_nonempty, ed_sign_nonempty. }
  pose proof (itoa_nonempty (unix t)) as Hi.
  apply String.eqb_neq in Hd as ->, Hdest as ->, Hi as ->, Hs as ->. cbn [orb].
  rewrite parse_itoa by done. rewrite (proj2 (out_of_window_spec now (unix t) Hn Ht)) by auto.
  rewrite b64_roundtrip. unfold SignPayload. simpl. by rewrite Hk, ed_verify_sign.
Qed.

(** How an endpoint is found: from the cache, or by one request; [sent]: the
    requests made. *)
Definition found_at (t0 : Z) (to endpoint : string) (c : Client) (sent : list HttpRequest) : Prop :=
  let discovery := get (scheme to +:+ "://" +:+ to +:+ "/.well-known/federation") in
  (∃ ce, discoveryCache c !! norm to = Some ce ∧ (t0 < expires ce)%Z ∧
     endpoint = S2S.endpoint ce ∧ sent = []) ∨
  ((∀ ce, discoveryCache c !! norm to = Some ce → (expires ce ≤ t0)%Z) ∧
   sent = [discovery] ∧ ∃ resp, http_do discovery = Some resp ∧ endpoint = discovered to resp).

Lemma resolveEndpoint_found t0 t1 to c endpoint c' :
  resolveEndpoint t0 t1 to c = (Ok endpoint, c') →
  c_domain c' = c_domain c ∧ c_keys c' = c_keys c ∧
  ∃ sent, requests c' = sent ++ requests c ∧ found_at t0 to endpoint c sent.
Proof.
  unfold resolveEndpoint, do_request, answered, found_at. fold (discovery_url to). cbn [rq_url get].
  assert (∀ P : Prop, P →
    match (if negb (url_ok (discovery_url to)) then Err EPanic
           else match http_do (get (discovery_url to)) with Some r => Ok r | None => Err ENet end,
           if url_ok (discovery_url to) then with_request (get (discovery_url to)) c else c) with
    | (Ok r, c) => (Ok (discovered to r), with_cached (norm to)
        {| S2S.endpoint := discovered to r; expires := t1 + discoveryCacheTTL |} c)
    | (Err e, c) => (Err e, c)
    end = (Ok endpoint, c') →
    c_domain c' = c_domain c ∧ c_keys c' = c_keys c ∧
    requests c' = get (discovery_url to) :: requests c ∧
    P ∧ ∃ resp, http_do (get (discovery_url to)) = Some resp ∧ endpoint = discovered to resp) as Hfetch.
  { intros P HP. destruct (url_ok _); cbn [negb]; [|done].
    destruct (http_do _) as [resp|] eqn:Hdo; [|done]. intros [= <- <-]. split_and!; eauto. }
  destruct (discoveryCache c !! norm to) as [ce|] eqn:Hce.
  - case_bool_decide as Ht; [intros [= <- <-]; split_and!; [done..|]; exists []; eauto 10|].
    intros (? & ? & ? & He & ?)%(Hfetch (expires ce ≤ t0)%Z); [|lia].
    split_and!; [done..|]. eexists [_]. split; [done|]. right. split; [by intros ? [= <-]|done].
  - intros (? & ? & ? & _ & ?)%(Hfetch True); [|done]. split_and!; [done..|]. eexists [_]. split; [done|].
    right. done.
Qed.

(** The request a successful [SendTransaction] made. *)
Lemma SendTransaction_posts t0 t1 t2 dom txn c c' :
  SendTransaction t0 t1 t2 dom txn c = (Ok tt, c') →
  ∃ endpoint resp c1, resolveEndpoint t0 t1 (target dom c) c = (Ok endpoint, c1) ∧
    c_domain c1 = c_domain c ∧ c_keys c1 = c_keys c ∧
    let rq := signed c1 t2 "POST" (trim_suffix endpoint "/" +:+ "/transaction")
                (enc_transaction (addressed dom txn c)) true in
    c' = with_request rq c1 ∧ http_do rq = Some resp ∧ rs_status resp = 200%Z.
Proof.
  unfold SendTransaction, post_transaction, call.
  destruct (resolveEndpoint t0 t1 (target dom c) c) as [[endpoint|e] c1] eqn:Hr; simpl in *; [|done].
  apply resolveEndpoint_found in Hr as (Hd & Hks & _).
  unfold do_request, answered, require_ok. simpl.
  destruct (url_ok _); simpl; [|done]. destruct (http_do _) as [resp|] eqn:Hdo; simpl; [|done].
  destruct (Z.eqb_spec (rs_status resp) 200); simpl; [|done]. intros [= <-].
  by exists endpoint, resp, c1.
Qed.

Lemma target_spec dom c :
  target dom c = if decide (mainDomain c ≠ "" ∧ dom ≠ c_domain c) then mainDomain c else dom.
Proof.
  unfold target. destruct (String.eqb_spec (mainDomain c) ""), (String.eqb_spec dom (c_domain c));
    cbn [negb andb]; case_decide; tauto.
Qed.

(** C20: When [SendTransaction] succeeds, its HTTP client was given exactly one
    POST request, which was answered 200, and before it at most one request for
    discovery, made when no endpoint was cached or its time was over.  The
    POST went to [/transaction] of that endpoint of the Main hub, when one is
    configured and the destination is not this server, or else of the
    destination.  Its body is the transaction with this server as origin and
    the given destination.  If the server's key pair is one, its domain and the
    host of the endpoint are not empty, and the path of the endpoint needs no
    escape and has no fragment or empty query ([clean_url]), then whoever
    receives the request within 300 seconds of its time stamp, by a clock at
    or after 1970 and 300 seconds short of overflow, accepts its signature
    under this server's public key. *)
Theorem SendTransaction_authentic t0 t1 t2 dom txn c c' now :
  SendTransaction t0 t1 t2 dom txn c = (Ok tt, c') →
  let to := if decide (mainDomain c ≠ "" ∧ dom ≠ c_domain c) then mainDomain c else dom in
  ∃ endpoint sent rq resp,
    found_at t0 to endpoint c sent ∧ requests c' = rq :: sent ++ requests c ∧
    rq_method rq = "POST" ∧ rq_url rq = trim_suffix endpoint "/" +:+ "/transaction" ∧
    http_do rq = Some resp ∧ rs_status resp = 200%Z ∧
    rq_body rq = enc_transaction {| t_TransactionID := t_TransactionID txn;
      t_Origin := c_domain c; t_Destination := dom; t_Events := t_Events txn |} ∧
    (key_pair (c_keys c) → c_domain c ≠ "" → url_dest (rq_url rq) ≠ "" → clean_url (rq_url rq) →
     in_int64 (unix t2) = true → (0 ≤ unix now < two63 - 300)%Z →
     (Z.abs (unix now - unix t2) ≤ 300)%Z →
     ∃ r, transmit rq = Some r ∧ VerifyRequest r (r_body r) (PublicKey (c_keys c)) now = Ok tt).
Proof.
  intros (endpoint & resp & c1 & He & Hd & Hks & -> & Hdo & Hst)%SendTransaction_posts to.
  rewrite target_spec in He. apply resolveEndpoint_found in He as (_ & _ & sent & Hs & He).
  eexists endpoint, sent, _, resp. split; [exact He|]. split; [by rewrite <- Hs|]. split; [done|]. split; [done|].
  split; [exact Hdo|]. split; [done|]. split; [done|]. intros Hk Hdom Hdest Hu Ht Hn Hw.
  rewrite <- Hks in *. rewrite <- Hd in Hdom.
  match goal with |- context [signed c1 t2 ?m ?u ?b ?j] =>
    destruct (signed_verifies c1 t2 now m u b j) as (r & Hr & _ & Hv); try done end.
  eauto.
Qed.
End signing.
End S2SFacts.

(** ** The server's identity across restarts *)
Module KeysFacts.
Import S2S.

Section keys.
Context `{HE : Ed25519, HL : !Ed25519Laws, HU : GoUnicode}.

Definition fresh_process : KeysOnce := {| ran := false; keys := None |}.

(** The keys of the first start, read or generated, are those of every
    later start, as long as the key file could be written. *)
Lemma LoadServerKeys_stable path gen fs k o fs' gen' werr' :
  (∀ priv, gen = Some priv → slen priv = PrivateKeySize) →
  LoadServerKeys path gen false fresh_process fs = (Some k, None, o, fs') →
  LoadServerKeys path gen' werr' fresh_process fs' =
    (Some k, None, {| ran := true; keys := Some k |}, fs').
Proof.
  intros Hg. unfold LoadServerKeys. cbn [ran fresh_process].
  destruct (fs !! path ≫= stored_keys) as [k0|] eqn:Hf.
  { intros [= <- <- <-]. by rewrite Hf. }
  destruct gen as [priv|]; [|done]. intros [= <- <- <-].
  rewrite lookup_insert, decide_True by done. cbn [mbind option_bind].
  unfold stored_keys. rewrite dec_enc_keys, !json_str_ascii by apply b64_ascii. cbn [mbind option_bind PublicKey].
  rewrite !b64_bytes_encode, ed_public_size, (Hg priv) by done.
  rewrite !Nat.eqb_refl. done.
Qed.
End keys.
End KeysFacts.

(** ** Transactions and lists *)
Module SecurityFacts.
Import Security.

Section security.
Context `{HU : GoUnicode, HN : GoNet}.

(** An event within the limits. *)
Definition event_ok (now : Z) (e : TransactionEvent) : Prop :=
  (zlen (EventID e) ≤ 128 ∧ zlen (Sender e) ≤ 256 ∧ zlen (Recipient e) ≤ 256 ∧
   zlen (Ciphertext (Content e)) ≤ 131072 ∧ zlen (SessionID (Content e)) ≤ 64 ∧
   now - 360 ≤ Timestamp e ≤ now + 60)%Z.

Lemma validate_event_spec i e now :
  (0 ≤ now < two63 - 360)%Z → in_int64 (Timestamp e) = true →
  validate_event i e now = Ok tt ↔ event_ok now e.
Proof.
  intros Hn Ht. unfold in_int64 in Ht. apply bool_decide_eq_true_1 in Ht.
  unfold validate_event, event_ok, MaxEventIDLen, MaxUserIDLen, MaxCiphertextLen, MaxSessionIDLen,
    TimestampWindow.
  assert (((wrap64 (now - Timestamp e) <? -60) || (5 * 60 + 60 <? wrap64 (now - Timestamp e)))%Z = false
    ↔ (now - 360 ≤ Timestamp e ≤ now + 60)%Z) as Hw.
  { assert (wrap64 (now - Timestamp e) = if (now - Timestamp e <? two63)%Z
      then (now - Timestamp e)%Z else (now - Timestamp e - 2 * two63)%Z) as ->.
    { destruct (Z.ltb_spec (now - Timestamp e) two63); [apply wrap64_id; unfold two63 in *; lia|].
      rewrite <- (wrap64_period _ (-1)), wrap64_id; unfold two63 in *; lia. }
    unfold two63 in *. case_match; lia. }
  repeat match goal with |- context [if (?a <? ?b)%Z then _ else _] =>
    destruct (Z.ltb_spec a b); [split; [done|lia]|] end.
  destruct (_ || _); [split; [done|]|].
  - intros (_ & _ & _ & _ & _ & Hts). by apply Hw in Hts.
  - split; [|done]. intros _. split_and!; try lia; apply Hw; done.
Qed.

Lemma validate_events_spec l now : ∀ i,
  (0 ≤ now < two63 - 360)%Z → Forall (λ e, in_int64 (Timestamp e) = true) l →
  validate_events i l now = Ok tt ↔ Forall (event_ok now) l.
Proof.
  induction l as [|e l IH]; intros i Hn Hl; [done|].
  apply Forall_cons in Hl as [He Hl]. rewrite Forall_cons. cbn [validate_events].
  rewrite <- (validate_event_spec i e now), <- (IH (S i)) by done.
  destruct (validate_event i e now) as [[]|] eqn:Hv; simpl; naive_solver.
Qed.

(** C30: [ValidateTransaction] accepts exactly the transactions with an id of 1 to 128
    bytes and 1 to 100 events, each within the length limits and stamped
    between six minutes before and one minute after the clock, which is what
    the code tests and not the five minutes before and after that
    docs/FEDERATION-SECURITY.md promises ([FedSamples.window_is_not_symmetric]);
    no timestamp gets through by wrapping around. *)
Theorem ValidateTransaction_accepts req now :
  (0 ≤ now < two63 - 360)%Z → Forall (λ e, in_int64 (Timestamp e) = true) (Events req) →
  ValidateTransaction req now = Ok tt ↔
  TransactionID req ≠ "" ∧ (zlen (TransactionID req) ≤ 128)%Z ∧
  (1 ≤ length (Events req) ≤ 100) ∧ Forall (event_ok now) (Events req).
Proof.
  intros Hn Hl. unfold ValidateTransaction, MaxTransactionIDLen, MaxEvents.
  rewrite <- (validate_events_spec _ _ 0) by done.
  destruct (Z.ltb_spec 128 (zlen (TransactionID req))); [split; [done|lia]|].
  destruct (String.eqb_spec (TransactionID req) ""); [naive_solver|].
  destruct (Z.ltb_spec 100 (Z.of_nat (length (Events req)))); [split; [done|lia]|].
  destruct (Z.eqb_spec (Z.of_nat (length (Events req))) 0); [split; [done|lia]|].
  split; [|naive_solver]. intros Hv. split_and!; [done|lia..|done].
Qed.


(** How many of the transactions [l] came from the domain [d]. *)
Definition contacts (d : string) (l : list string) : Z :=
  Z.of_nat (length (filter (λ o, norm o = d) l)).

(** [l]: the transactions so far, the last first. *)
Definition trust_inv (s0 : SecurityService) (l : list string) (s : SecurityService) : Prop :=
  cfg s = cfg s0 ∧
  ∀ d, (d ∈ allowlist s ↔ d ∈ allowlist s0 ∨
          d ≠ "" ∧ (AllowlistTrustThreshold (cfg s0) ≤ contacts d l)%Z) ∧
       (d ∉ allowlist s → d ≠ "" → default 0%Z (successCount s !! d) = contacts d l).

Lemma contacts_cons d o l :
  contacts d (o :: l) = (contacts d l + if decide (norm o = d) then 1 else 0)%Z.
Proof.
  unfold contacts. destruct (decide (norm o = d)).
  - rewrite filter_cons_True by done. simpl. lia.
  - rewrite filter_cons_False by done. lia.
Qed.

Lemma contacts_le d l : (0 ≤ contacts d l ≤ Z.of_nat (length l))%Z.
Proof. unfold contacts. pose proof (length_filter (λ o, norm o = d) l). lia. Qed.

Lemma AddToAllowlist_adds open_ok written o s fs :
  norm o ≠ "" → norm o ∉ allowlist s →
  (AddToAllowlist open_ok written o s fs).1.2 = with_allowlist ({[norm o]} ∪ allowlist s) s.
Proof.
  intros He Hin. unfold AddToAllowlist. apply String.eqb_neq in He as ->.
  rewrite bool_decide_eq_false_2 by done. by repeat case_match.
Qed.

Lemma note_origin_step s0 l s fs open_ok written o :
  AllowlistMode (cfg s0) = "auto" → (1 ≤ AllowlistTrustThreshold (cfg s0))%Z →
  (Z.of_nat (length l) + 1 < two63)%Z → trust_inv s0 l s →
  trust_inv s0 (o :: l) (note_origin open_ok written o (s, fs)).1.
Proof.
  intros Hm Hthr Hlen [Hcfg Hinv]. set (thr := AllowlistTrustThreshold (cfg s0)) in *.
  assert (∀ d, d ≠ norm o ∨ d ∈ allowlist s ∨ d = "" → trust_inv s0 l s →
    (d ∈ allowlist s ↔ d ∈ allowlist s0 ∨ d ≠ "" ∧ (thr ≤ contacts d (o :: l))%Z) ∧
    (d ∉ allowlist s → d ≠ "" → default 0%Z (successCount s !! d) = contacts d (o :: l))) as Hsame.
  { intros d Hd _. rewrite contacts_cons. destruct (Hinv d) as [H1 H2]. fold thr in H1.
    pose proof (contacts_le d l). case_decide; subst.
    - destruct Hd as [?|[?| ->]]; [done| |naive_solver]. split; [|done].
      rewrite H1. split; [|tauto]. intros [?|[? ?]]; [by left|right; split; [done|lia]].
    - rewrite Z.add_0_r. done. }
  unfold note_origin, RecordSuccessfulTransaction, IsAllowed. cbn [fst snd]. rewrite Hcfg, Hm.
  change (String.eqb "auto" "open") with false. change (String.eqb "auto" "auto") with true.
  cbn [negb orb].
  destruct (decide (norm o ∈ allowlist s)) as [Hin|Hin].
  { rewrite bool_decide_eq_true_2 by done. simpl. split; [done|]. intros d.
    apply Hsame; [|done]. destruct (decide (d = norm o)) as [->|]; auto. }
  rewrite bool_decide_eq_false_2 by done. cbn [negb orb].
  destruct (String.eqb_spec (norm o) "") as [He|He].
  { simpl. split; [done|]. intros d. apply Hsame; [|done].
    destruct (decide (d = norm o)) as [->|]; auto. }
  destruct (Hinv (norm o)) as [H1 H2]. rewrite H2 by done. fold thr in H1.
  pose proof (contacts_le (norm o) l) as Hb.
  assert (contacts (norm o) (o :: l) = contacts (norm o) l + 1)%Z as Hc.
  { rewrite contacts_cons. by rewrite decide_True. }
  rewrite wrap64_id by (unfold two63 in *; lia).
  case_bool_decide as Ht.
  - pose proof (AddToAllowlist_adds open_ok written o
      (with_count (<[norm o := (contacts (norm o) l + 1)%Z]> (successCount s)) s) fs He Hin) as Ha.
    destruct (AddToAllowlist _ _ _ _ _) as [[r s1] f]. simpl in Ha. subst s1.
    split; [done|]. intros d. simpl.
    destruct (decide (d = norm o)) as [->|Hd].
    + split; [|set_solver]. split; [|set_solver]. intros _. right. split; [done|lia].
    + rewrite lookup_insert_ne by done. destruct (Hsame d) as [Hs1 Hs2]; [by left|done|].
      fold thr. split; [rewrite <- Hs1; set_solver|]. intros Hn. apply Hs2. set_solver.
  - simpl. split; [done|]. intros d. simpl. destruct (decide (d = norm o)) as [->|Hd].
    + rewrite lookup_insert, decide_True by done. simpl. rewrite Hc. split; [|done].
      rewrite H1. split; [intros [?|[??]]; [by left|lia]|intros [?|[??]]; [by left|lia]].
    + rewrite lookup_insert_ne by done. apply Hsame; [by left|done].
Qed.

(** In auto mode a domain enters the allow list with its [threshold]-th valid
    transaction, not before, whatever the order in which the transactions
    of all domains arrive and whether or not the list can be written to its
    file; no domain leaves it. *)
Theorem trust_after_threshold fs get_ c l open_ok written d :
  AllowlistMode c = "auto" → (Z.of_nat (length l) < two63)%Z →
  let s0 := NewSecurityService fs get_ c in
  let s := (foldr (note_origin open_ok written) (s0, fs) l).1 in
  IsAllowed d s = true ↔
  IsAllowed d s0 = true ∨
  norm d ≠ "" ∧ (Z.max 1 (AllowlistTrustThreshold c) ≤ contacts (norm d) l)%Z.
Proof.
  intros Hm Hl. cbv zeta. set (s0 := NewSecurityService fs get_ c).
  assert (cfg s0 = threshold c) as Hcfg by done.
  assert (AllowlistTrustThreshold (cfg s0) = Z.max 1 (AllowlistTrustThreshold c)) as Ht.
  { rewrite Hcfg. unfold threshold. simpl. case_match; lia. }
  assert (trust_inv s0 l (foldr (note_origin open_ok written) (s0, fs) l).1) as [Hc Hinv].
  { revert Hl. induction l as [|o l IH]; intros Hl.
    - split; [done|]. intros d'. unfold contacts. simpl. split; [|done].
      split; [by left|]. intros [?|[_ Hle]]; [done|].
      change (AllowlistTrustThreshold (cfg s0) ≤ 0)%Z in Hle. rewrite Ht in Hle. lia.
    - simpl foldr. destruct (foldr (note_origin open_ok written) (s0, fs) l) as [s fs'] eqn:Hf.
      apply (note_origin_step s0 l s fs'); [by rewrite Hcfg|lia|simpl in Hl; lia|].
      apply IH. simpl in Hl. lia. }
  unfold IsAllowed. rewrite Hc, Hcfg. cbn [AllowlistMode threshold]. rewrite Hm.
  change (String.eqb "auto" "open") with false. cbn [orb]. rewrite !bool_decide_eq_true. destruct (Hinv (norm d)) as [Hd _].
  rewrite Ht in Hd. exact Hd.
Qed.
End security.
End SecurityFacts.

(** ** The allow list on disk *)
Module AllowlistFacts.
Import Security.

Section lists.
Context `{HU : GoUnicode, HN : GoNet}.

Lemma list_entry_empty : list_entry "" = "".
Proof. done. Qed.

(** A file whose last line is complete. *)
Definition whole_lines (s : string) : Prop := s = "" ∨ ∃ a, s = a +:+ String "010" "".

(** A domain as a list file can hold it. *)
Definition listable (d : string) : Prop :=
  d ≠ "" ∧ lacks "010" d = true ∧ has_prefix d "#" = false ∧ list_entry d = d.

Lemma list_lines_append s d :
  whole_lines s → listable d →
  list_lines (s +:+ (d +:+ String "010" "")) = list_lines s ++ [d].
Proof.
  intros Hs (Hne & Hl & Hc & He). unfold list_lines.
  assert (split_byte "010" (d +:+ String "010" "") = [d; ""]) as Hd.
  { by rewrite split_byte_app, (split_byte_lacks _ d). }
  assert (filter (λ e, e ≠ "" ∧ has_prefix e "#" = false) (list_entry <$> [d; ""]) = [d]) as Hf.
  { cbn [fmap list_fmap]. rewrite He, list_entry_empty.
    rewrite filter_cons_True by done. rewrite filter_cons_False by naive_solver. done. }
  destruct Hs as [-> | [a ->]].
  - change ("" +:+ (d +:+ String "010" "")) with (d +:+ String "010" "").
    rewrite Hd, Hf. done.
  - rewrite <- string_app_assoc. change (String "010" "" +:+ (d +:+ String "010" ""))
      with (String "010" (d +:+ String "010" "")).
    rewrite (split_byte_app _ a), (split_byte_app _ a), !fmap_app, !filter_app, Hd, Hf. f_equal.
    change (split_byte "010" "") with [""]. cbn [fmap list_fmap]. rewrite list_entry_empty.
    rewrite filter_cons_False by naive_solver. by rewrite filter_nil, app_nil_r.
Qed.

(** A domain added in auto mode is in the allow list of the next start, which is
    otherwise the list the file gave before, provided the line was written
    and the file ended with a line break. *)
Theorem allowlist_persists c s fs s' fs' get1 get2 domain :
  AllowlistMode c = "auto" → AllowlistPath c ≠ "" → cfg s = threshold c →
  norm domain ∉ allowlist s → listable (norm domain) →
  whole_lines (default "" (fs !! AllowlistPath c)) →
  AddToAllowlist true id domain s fs = (Ok tt, s', fs') →
  allowlist (NewSecurityService fs' get2 c) =
    {[norm domain]} ∪ allowlist (NewSecurityService fs get1 c).
Proof.
  intros Hm Hp Hcfg Hin Hd Hw. unfold AddToAllowlist.
  destruct Hd as (Hne & Hd). pose proof (conj Hne Hd : listable _) as Hlist.
  apply String.eqb_neq in Hne as ->. rewrite bool_decide_eq_false_2 by done.
  cbn [cfg with_allowlist]. rewrite Hcfg. cbn [AllowlistMode AllowlistPath threshold].
  rewrite Hm. apply String.eqb_neq in Hp as Hpb. rewrite Hpb.
  change (String.eqb "auto" "auto") with true. cbn [negb andb]. intros [= <- <-].
  unfold NewSecurityService, loadAllowlist, loadBlocklist, with_allowlist, with_blocklist.
  cbn [cfg allowlist AllowlistMode AllowlistPath threshold]. rewrite Hm.
  change (String.eqb "auto" "auto") with true. rewrite orb_true_r.
  unfold list_file. rewrite Hpb, lookup_insert, decide_True by done. unfold id.
  rewrite list_lines_append by done. rewrite list_to_set_app_L.
  destruct (fs !! AllowlistPath c); cbn [default from_option]; unfold id.
  - set_solver.
  - change (list_lines "") with (@nil string). set_solver.
Qed.
End lists.
End AllowlistFacts.

(** ** Witnesses and examples *)
Module FedSamples.
Import S2S S2SFacts Security SecurityFacts AllowlistFacts.

#[local] Existing Instance toy_sha256.
#[local] Existing Instance toy_ed25519.

Definition toy_net : GoNet := {| url_parse _ := None; parse_ip _ := None |}.
#[local] Existing Instance toy_net.

(** A network whose servers answer 200 with an empty body. *)
Definition toy_http : Http := {|
  http_do _ := Some {| rs_status := 200; rs_body := "" |}; url_ok _ := true |}.
#[local] Existing Instance toy_http.

Definition sample_keys : ServerKeys := {| S2S.PublicKey := pad32 "a"; PrivateKey := "a" |}.
Definition sample_client : Client := NewClientWithMain "a.org" "hub.org" sample_keys.
Definition sample_txn : Transaction :=
  {| t_TransactionID := "t1"; t_Origin := ""; t_Destination := ""; t_Events := [] |}.
Definition sample_time : Z := 1700000000 * second.

Definition sample_sent : result cerr unit * Client :=
  SendTransaction sample_time sample_time sample_time "b.org" sample_txn sample_client.

(** Two requests: discovery at the hub, then the transaction. *)
Lemma SendTransaction_authentic_witness :
  rq_url <$> requests sample_sent.2 =
    ["https://hub.org/federation/v1/transaction"; "https://hub.org/.well-known/federation"] ∧
  ∃ rq r, head (requests sample_sent.2) = Some rq ∧
    dec_transaction (rq_body rq) = Some {| TransactionID := "t1"; Origin := "a.org";
      Destination := "b.org"; Events := [] |} ∧ transmit rq = Some r ∧
    VerifyRequest r (r_body r) (S2S.PublicKey sample_keys) (sample_time + 60 * second) = Ok tt.
Proof.
  split; [by vm_compute|].
  destruct (SendTransaction_authentic (HL := toy_ed25519_laws) sample_time sample_time sample_time
    "b.org" sample_txn sample_client sample_sent.2
    (sample_time + 60 * second)) as (e & sent & rq & resp & _ & Hr & _ & _ & _ & _ & Hb & Hv).
  - by vm_compute.
  - assert (rq_url rq = "https://hub.org/federation/v1/transaction") as Hu.
    { apply (f_equal (λ l, rq_url <$> head l)) in Hr. vm_compute in Hr. by injection Hr. }
    rewrite Hu in Hv. destruct Hv as (r & Htr & Hok); [reflexivity|discriminate| | |reflexivity|by split|done|].
    + vm_compute. discriminate.
    + split; [by vm_compute|]. split; [by vm_compute|]. intros i Hi.
      assert (index (signed_path "https://hub.org/federation/v1/transaction") "?" = None) as Hn
        by (vm_compute; reflexivity).
      rewrite Hn in Hi. discriminate.
    + exists rq, r. split; [by rewrite Hr|]. split; [rewrite Hb; vm_compute; reflexivity|].
      split; [exact Htr|exact Hok].
Defined.

Lemma payload_binds_witness :
  payload "a.org" "b.org" "1" "GET" "/x" (body_hash "") =
    payload "a.org" "b.org" "1" "GET" (String "/" "x") (body_hash "") ∧
  "/x" = String "/" "x".
Proof.
  split; [reflexivity|].
  destruct (payload_binds "a.org" "b.org" "1" "GET" "/x" "" "a.org" "b.org" "1" "GET"
    (String "/" "x") "") as (_ & _ & _ & _ & Hp & _).
  - repeat constructor.
  - reflexivity.
  - exact Hp.
Defined.

(** A request received by [b.org], signed 100 seconds ago. *)
Definition sample_request : ServerRequest :=
  default {| r_method := ""; r_path := ""; r_rawquery := ""; r_headers := ∅; r_body := "" |}
    (transmit (signed sample_client sample_time "POST" "https://b.org/federation/v1/transaction"
                 "body" true)).

Lemma VerifyRequest_accepts_witness :
  (0 ≤ unix (sample_time + 100 * second) < two63 - 300)%Z ∧
  header "X-Server-Origin" sample_request ≠ "" ∧ header "X-Server-Destination" sample_request ≠ "".
Proof.
  split; [by vm_compute|].
  destruct (VerifyRequest_accepts sample_request "body" (S2S.PublicKey sample_keys)
    (sample_time + 100 * second)) as [Ha _]; [by vm_compute|].
  destruct Ha as (Ho & Hd & _); [by vm_compute|]. by split.
Defined.

(** The wrap-around: a timestamp 2^63 seconds in the past is in the window. *)
Example window_wraps :
  out_of_window sample_time (1700000000 - two63) = false.
Proof. by vm_compute. Qed.

Definition sample_event (ts : Z) : TransactionEvent :=
  {| EventID := "e"; Type_ := "m"; Sender := "@a:a.org"; Recipient := "@b:b.org";
     Timestamp := ts; Content := {| Ciphertext := "AA=="; SessionID := "s" |} |}.

Definition sample_req (ts : Z) : TransactionRequest :=
  {| TransactionID := "t"; Origin := "a.org"; Destination := "b.org"; Events := [sample_event ts] |}.

Lemma ValidateTransaction_accepts_witness :
  ValidateTransaction (sample_req 1000) 1100 = Ok tt ∧ TransactionID (sample_req 1000) ≠ "" ∧
  Forall (event_ok 1100) (Events (sample_req 1000)).
Proof.
  split; [by vm_compute|].
  destruct (ValidateTransaction_accepts (sample_req 1000) 1100) as [Ha _];
    [by vm_compute|by repeat constructor|].
  destruct Ha as (Hid & _ & _ & Hf); [by vm_compute|]. by split.
Defined.

(** The documentation promises five minutes around the clock. *)
Example window_is_not_symmetric :
  ValidateTransaction (sample_req 1000) 1360 = Ok tt ∧
  ValidateTransaction (sample_req 1200) 1100 = Err "event[0].timestamp out of window".
Proof. by vm_compute. Qed.

Definition auto_config : SecurityConfig := {|
  RateLimit := 100; cfg_MaxBodySize := 0; AllowlistMode := "auto"; AllowlistPath := "allow";
  AllowlistTrustThreshold := 2; BlocklistPath := ""; BlocklistURL := ""; BlocklistReload := 0 |}.

Lemma trust_after_threshold_witness :
  IsAllowed "a.org"
    (foldr (note_origin true id) (NewSecurityService ∅ (λ _, NoResponse) auto_config, ∅)
       ["A.org"; "b.org"; " a.org"]).1 = true.
Proof.
  apply (trust_after_threshold ∅ (λ _, NoResponse) auto_config ["A.org"; "b.org"; " a.org"] true id "a.org").
  - done.
  - done.
  - right. split; [by vm_compute|by vm_compute].
Defined.

Definition allow_files : files := {["allow" := "b.org" +:+ String "010" ""]}.

Lemma allowlist_persists_witness :
  ∃ s' fs', AddToAllowlist true id "A.org"
    (NewSecurityService allow_files (λ _, NoResponse) auto_config) allow_files = (Ok tt, s', fs') ∧
  allowlist (NewSecurityService fs' (λ _, NoResponse) auto_config) =
    {["a.org"]} ∪ allowlist (NewSecurityService allow_files (λ _, NoResponse) auto_config).
Proof.
  eexists _, _. split; [reflexivity|].
  apply (allowlist_persists auto_config (NewSecurityService allow_files (λ _, NoResponse) auto_config)
    allow_files (AddToAllowlist true id "A.org"
      (NewSecurityService allow_files (λ _, NoResponse) auto_config) allow_files).1.2 _
    (λ _, NoResponse) (λ _, NoResponse) "A.org").
  - done.
  - done.
  - done.
  - apply (bool_decide_unpack _). by vm_compute.
  - split_and!; by vm_compute.
  - right. by exists "b.org".
  - reflexivity.
Defined.

(** Without the final line break the new domain runs into the last one. *)
Example allowlist_last_line :
  elements (list_file "allow"
    (AddToAllowlist true id "a.org" (NewSecurityService {["allow" := "b.org"]} (λ _, NoResponse) auto_config)
       {["allow" := "b.org"]}).2) = ["b.orga.org"].
Proof. by vm_compute. Qed.
End FedSamples.
