(* ===== verification/BackupReceiver.v ===== *)
(** * The receiver of backups ([mesh/backup-receiver/main.go])

    A server of the mesh sends its dumps to others, which store each under a
    directory of its sender. *)

From Stdlib Require Import Ascii String.
From stdpp Require Import strings.
From S2P Require Import Prelude GoStrings Encoding Federation GoPath.
Set Default Goal Selector "!".
Open Scope stdpp_scope.

Module BackupReceiver.
Import GoPath.

(** ** Configuration *)
Definition defaultDir : string := "/data/backups".

Record config := mkConfig { dir : string; secret : string }.

Definition configured (env : string → string) : config :=
  let d := env "BACKUP_DIR" in mkConfig (if String.eqb d "" then defaultDir else d) (env "BACKUP_SECRET").

(** What the system does with a request: after how many new directories it
    refuses one, whether it lets the file be created, after how many bytes the
    body breaks off or can no longer be written, whether what is written of it
    can be removed; the texts of errors; and the clock of the server's zone. *)
Record Os := mkOs {
  os_mkdir : option nat;
  os_create : bool;
  os_copy : option nat;
  os_remove : bool;
  os_error : string;
  os_clock : Z;
}.

(** ** The handler *)

(** [strings.ReplaceAll(domain, '..', '')] *)
Fixpoint drop_dotdot (s : string) : string :=
  match s with
  | String "." (String "." s) => drop_dotdot s
  | String a s => String a (drop_dotdot s)
  | "" => ""
  end.

(** The sender, as the directory of its backups names it. *)
Definition sender (url_path : string) : string :=
  let domain := drop_last_slashes (drop_slashes (trim_prefix url_path "/backup/")) in
  let domain := if String.eqb domain "" then "unknown" else domain in
  replace_byte "/" "_" (drop_dotdot domain).

(** [time.Now().Format('20060102-150405')] *)
Definition stamp (clock : Z) : string :=
  let s := unix clock in
  let '(y, m, d) := civil (s / 86400)%Z in
  let r := (s mod 86400)%Z in
  pad 4 y +:+ pad 2 m +:+ pad 2 d +:+ "-" +:+ pad 2 (r / 3600)%Z +:+ pad 2 (r / 60 mod 60)%Z +:+ pad 2 (r mod 60)%Z.

Definition file_name (clock : Z) (r : ServerRequest) : string :=
  let h := S2S.header "X-Backup-Filename" r in
  if String.eqb h "" then stamp clock +:+ ".dump.gz" else Base h.

(** [io.Copy(f, r.Body)], and the removal of the file when it fails. *)
Definition store (path : string) (o : Os) (body : string) (d : fs) : Z * string * fs :=
  match os_copy o with
  | None => (200%Z, "", write path body d)
  | Some n => (500%Z, os_error o, Remove path (os_remove o) (write path (stake n body) d))
  end.

Definition receive (c : config) (o : Os) (r : ServerRequest) (d : fs) : Z * string * fs :=
  if negb (String.eqb (r_method r) "POST") then (405%Z, "method not allowed", d) else
  if negb (String.eqb (secret c) "") && negb (String.eqb (S2S.header "X-Backup-Token" r) (secret c)) then
    (401%Z, "unauthorized", d)
  else
    let saveDir := Join (dir c) ("from-" +:+ sender (r_path r)) in
    match MkdirAll saveDir (os_mkdir o) d with
    | (false, d) => (500%Z, os_error o, d)
    | (true, d) =>
      let path := Join saveDir (file_name (os_clock o) r) in
      match Create path (os_create o) d with
      | None => (500%Z, os_error o, d)
      | Some d => store path o (r_body r) d
      end
    end.

(** ** Properties *)
Lemma drop_dotdot_eq a s :
  drop_dotdot (String a s) =
    match s with
    | String b t => if Ascii.eqb a "." && Ascii.eqb b "." then drop_dotdot t else String a (drop_dotdot s)
    | "" => String a ""
    end.
Proof.
  destruct s as [|b t]; [by destruct a as [[] [] [] [] [] [] [] []]|].
  destruct (Ascii.eqb_spec a "."), (Ascii.eqb_spec b "."); subst; try done; simpl.
  - destruct b as [[] [] [] [] [] [] [] []]; done.
  - destruct a as [[] [] [] [] [] [] [] []]; done.
  - destruct a as [[] [] [] [] [] [] [] []]; done.
Qed.

Lemma replace_byte_lacks a b s : lacks a b = true → lacks a (replace_byte a b s) = true.
Proof.
  intros Hb. induction s as [|x s IH]; [done|]. simpl. destruct (Ascii.eqb_spec x a).
  - by rewrite lacks_app, Hb, IH.
  - by apply lacks_cons.
Qed.

Lemma sender_lacks p : lacks "/" (sender p) = true.
Proof. unfold sender. by apply replace_byte_lacks. Qed.

Lemma sender_ordinary p : ordinary ("from-" +:+ sender p).
Proof. repeat split; try done. by rewrite lacks_app, sender_lacks. Qed.

Lemma zeros_lacks c n : dec_byte c = false → lacks c (zeros n) = true.
Proof.
  intros Hc. induction n as [|n IH]; [done|]. simpl. apply lacks_cons; [|done]. by intros <-.
Qed.

Lemma pad_lacks c w z : dec_byte c = false → lacks c (pad w z) = true.
Proof. intros Hc. unfold pad. by rewrite lacks_app, zeros_lacks, itoa_lacks. Qed.

Lemma stamp_lacks clock : lacks "/" (stamp clock) = true.
Proof.
  unfold stamp. destruct (civil _) as [[y m] d]. by rewrite !lacks_app, !pad_lacks.
Qed.

Lemma suffix_not s c : slen c < 3 → s +:+ ".dump.gz" ≠ c.
Proof. intros Hc <-. rewrite slen_app in Hc. simpl in Hc. lia. Qed.

(** The name of a file is one component, or one of those by which [Create]
    finds a directory. *)
Lemma file_name_component clock r :
  ordinary (file_name clock r) ∨ file_name clock r ∈ ["/"; "."; ".."].
Proof.
  unfold file_name. cbv zeta. destruct (String.eqb _ "").
  - left. split_and!; [apply suffix_not; simpl; lia..|]. by rewrite lacks_app, stamp_lacks.
  - destruct (Base_component (S2S.header "X-Backup-Filename" r)) as [->|[Hne Hl]]; [right; set_solver|].
    destruct (decide (Base (S2S.header "X-Backup-Filename" r) = ".")) as [->|]; [right; set_solver|].
    destruct (decide (Base (S2S.header "X-Backup-Filename" r) = "..")) as [->|]; [right; set_solver|].
    by left.
Qed.

(** The directory of a sender. *)
Definition save_path (c : config) (r : ServerRequest) : path :=
  ((parse (dir c)).1, (parse (dir c)).2 ++ ["from-" +:+ sender (r_path r)]).

Definition below (p : path) (name : string) : path := (p.1, p.2 ++ [name]).

Lemma parse_saveDir c r :
  dir c ≠ "" → parse (Join (dir c) ("from-" +:+ sender (r_path r))) = save_path c r.
Proof. intros Hd. apply parse_Join; [done|apply sender_ordinary]. Qed.

(** Where the file is created: below the directory of the sender, or where
    there is a directory. *)
Lemma parse_file c r name :
  dir c ≠ "" → ordinary name ∨ name ∈ ["/"; "."; ".."] →
  let p := parse (Join (Join (dir c) ("from-" +:+ sender (r_path r))) name) in
  ordinary name ∧ p = below (save_path c r) name ∨ p = save_path c r ∨ p = parse (dir c).
Proof.
  intros Hd Hn. cbv zeta. pose proof (parse_saveDir c r Hd) as Hs. pose proof (sender_ordinary (r_path r)) as Ho.
  destruct Hn as [Hn|Hn].
  - left. split; [done|]. rewrite parse_Join; [by rewrite Hs|apply Clean_ne|done].
  - right. unfold Join at 1 in Hs. rewrite parse_Clean in Hs.
    pose proof (parse_Join_Clean (dir c +:+ "/" +:+ "from-" +:+ sender (r_path r)) name) as Hj.
    rewrite Hs in Hj.
    change (Clean (dir c +:+ "/" +:+ "from-" +:+ sender (r_path r))) with
      (Join (dir c) ("from-" +:+ sender (r_path r))) in Hj. rewrite Hj. clear Hj.
    unfold save_path. cbn [fst snd]. rewrite reverse_snoc.
    repeat (apply elem_of_cons in Hn as [->|Hn]); [..|by apply elem_of_nil in Hn].
    + left. simpl. by rewrite reverse_cons, reverse_involutive.
    + left. simpl. by rewrite reverse_cons, reverse_involutive.
    + right. destruct (ordinary_eqb _ Ho) as (_ & _ & He).
      change (split_byte "/" "..") with [".."]. cbn [clean_from String.eqb Ascii.eqb Bool.eqb orb].
      rewrite ?He, reverse_involutive. by destruct (parse (dir c)).
Qed.

(** Once its directories are made, a path to one of them is a directory. *)
Lemma made_is_dir rooted l rest stop d :
  (mkdirs rooted [] (l ++ rest) stop d).1 = true →
  is_dir (rooted, l) (mkdirs rooted [] (l ++ rest) stop d).2 = true.
Proof.
  intros Hm. unfold is_dir. cbn [snd]. destruct l as [|x l]; [done|].
  assert (take (length (x :: l)) ((x :: l) ++ rest) = x :: l) as Ht by apply take_app_length.
  pose proof (mkdirs_made rooted [] _ stop d Hm (length (x :: l))) as Hd. rewrite Ht in Hd.
  rewrite app_nil_l in Hd. rewrite Hd; [done|]. rewrite length_app. simpl. lia.
Qed.

Lemma is_dir_insert p q n d : q ≠ p → is_dir p (<[q := n]> d) = is_dir p d.
Proof. intros Hne. unfold is_dir. case_match; [done|]. by rewrite lookup_insert_ne. Qed.

(** What may be new after a request: the directories down to that of the
    sender, and one file in it. *)
Definition confined (c : config) (clock : Z) (r : ServerRequest) (d d' : fs) : Prop :=
  ∀ p, d' !! p ≠ d !! p →
    ordinary (file_name clock r) ∧ p = below (save_path c r) (file_name clock r) ∨
    d !! p = None ∧ d' !! p = Some Dir ∧ ∃ k, p = ((save_path c r).1, take k (save_path c r).2).

Lemma MkdirAll_confined c clock r stop d :
  dir c ≠ "" → confined c clock r d (MkdirAll (Join (dir c) ("from-" +:+ sender (r_path r))) stop d).2.
Proof.
  intros Hd p Hp. right. unfold MkdirAll in *. rewrite parse_saveDir in * by done.
  destruct (d !! p) as [n|] eqn:Hdp.
  { by rewrite (mkdirs_keeps _ _ _ _ _ _ n) in Hp. }
  split; [done|]. destruct ((mkdirs _ _ _ _ _).2 !! p) as [n|] eqn:Hm; [|done].
  apply mkdirs_new in Hm as [-> [k ->]]; [|done]. split; [done|]. by exists k.
Qed.

Lemma confined_write c clock r d d1 d2 :
  confined c clock r d d1 → ordinary (file_name clock r) →
  (∀ p, p ≠ below (save_path c r) (file_name clock r) → d2 !! p = d1 !! p) → confined c clock r d d2.
Proof.
  intros Hc Ho H2 p Hp. destruct (decide (p = below (save_path c r) (file_name clock r))) as [->|Hne]; [by left|].
  rewrite H2 in * by done. by apply Hc.
Qed.

(** Past the checks of the request. *)
Lemma stored_outcome c o r d st text d' :
  dir c ≠ "" →
  let saveDir := Join (dir c) ("from-" +:+ sender (r_path r)) in
  let name := file_name (os_clock o) r in
  match MkdirAll saveDir (os_mkdir o) d with
  | (false, d) => (500%Z, os_error o, d)
  | (true, d) =>
    match Create (Join saveDir name) (os_create o) d with
    | None => (500%Z, os_error o, d)
    | Some d => store (Join saveDir name) o (r_body r) d
    end
  end = (st, text, d') →
  confined c (os_clock o) r d d' ∧
  (st = 200%Z ∧ ordinary name ∧ d' !! below (save_path c r) name = Some (File (r_body r)) ∨ st = 500%Z).
Proof.
  intros Hd saveDir name. pose proof (MkdirAll_confined c (os_clock o) r (os_mkdir o) d Hd) as Hc.
  assert (parse saveDir = save_path c r) as Hs by by apply parse_saveDir.
  fold saveDir in Hc. destruct (MkdirAll saveDir (os_mkdir o) d) as [[] d1] eqn:Hm; simpl in Hc.
  2:{ intros [= <- <- <-]. auto. }
  unfold MkdirAll in Hm. rewrite Hs in Hm.
  assert (is_dir (save_path c r) d1 = true ∧ is_dir (parse (dir c)) d1 = true) as [Hsd Hdd].
  { unfold save_path in *. cbn [fst snd] in Hm. destruct (parse (dir c)) as [rt base]. cbn [fst snd] in *.
    pose proof (made_is_dir rt base ["from-" +:+ sender (r_path r)] (os_mkdir o) d) as H1.
    pose proof (made_is_dir rt (base ++ ["from-" +:+ sender (r_path r)]) [] (os_mkdir o) d) as H2.
    rewrite app_nil_r, Hm in H2. rewrite Hm in H1. auto. }
  unfold Create. destruct (parse_file c r name Hd (file_name_component _ _)) as [[Ho Hp]|[Hp|Hp]]; fold saveDir in Hp.
  - rewrite Hp. destruct (os_create o && _ && _); [|intros [= <- <- <-]; auto]. unfold store, write, Remove. rewrite Hp.
    destruct (os_copy o) as [n|]; intros [= <- <- <-]; (split; [eapply confined_write; [exact Hc|done|]|]).
    + intros p Hne. fold name in Hne. apply not_eq_sym in Hne.
      by destruct (os_remove o); rewrite ?lookup_delete_ne, !lookup_insert_ne.
    + by right.
    + intros p Hne. fold name in Hne. apply not_eq_sym in Hne. by rewrite !lookup_insert_ne.
    + left. split; [done|]. split; [done|]. by rewrite lookup_insert_eq.
  - rewrite Hp, Hsd, andb_false_r. simpl. intros [= <- <- <-]. auto.
  - rewrite Hp, Hdd, andb_false_r. simpl. intros [= <- <- <-]. auto.
Qed.

(** C38: A request to the receiver of backups: without the secret it is refused and
    nothing changes; with it, whatever the path, the header with the name of
    the file and the errors of the system are, nothing changes but missing
    directories down to that of the sender, [dir/from-<sender>], and one file
    right below it; and when the answer is 200 that file holds the body. *)
Theorem receive_outcome c o r d st text d' :
  dir c ≠ "" → receive c o r d = (st, text, d') →
  let name := file_name (os_clock o) r in
  st = 405%Z ∧ r_method r ≠ "POST" ∧ d' = d ∨
  r_method r = "POST" ∧
    (st = 401%Z ∧ secret c ≠ "" ∧ S2S.header "X-Backup-Token" r ≠ secret c ∧ d' = d ∨
     (secret c = "" ∨ S2S.header "X-Backup-Token" r = secret c) ∧
     confined c (os_clock o) r d d' ∧
     (st = 200%Z ∧ ordinary name ∧ d' !! below (save_path c r) name = Some (File (r_body r)) ∨ st = 500%Z)).
Proof.
  intros Hd. cbv zeta. unfold receive. destruct (String.eqb_spec (r_method r) "POST") as [Hm|]; simpl.
  2:{ intros [= <- <- <-]. auto. }
  destruct (String.eqb_spec (secret c) "") as [Hs|Hs], (String.eqb_spec (S2S.header "X-Backup-Token" r) (secret c)) as [Ht|Ht];
    simpl; try (intros [= <- <- <-]; right; split; [done|]; left; done); intros Hr; right; (split; [done|]); right.
  all: split; [auto|]; clear Ht; try clear Hs.
  all: exact (stored_outcome c o r d st text d' Hd Hr).
Qed.

(** A sender named like a domain has a directory of that name. *)
Lemma drop_slashes_lacks s : lacks "/" s = true → drop_slashes s = s.
Proof.
  destruct s as [|a s]; [done|]. intros [Ha _]%lacks_cons_inv. simpl.
  by destruct a as [[] [] [] [] [] [] [] []].
Qed.

Lemma drop_dotdot_id s : contains s ".." = false → drop_dotdot s = s.
Proof.
  unfold contains. induction s as [|a s IH]; [done|]. rewrite drop_dotdot_eq. cbn [index].
  destruct (has_prefix (String a s) "..") eqn:Hp; [done|]. destruct (index s "..") as [i|]; [done|]. intros _.
  destruct s as [|b s]; [done|]. rewrite IH by done.
  destruct (Ascii.eqb_spec a "."), (Ascii.eqb_spec b "."); subst; try done. by destruct s.
Qed.

Lemma replace_byte_id c r s : lacks c s = true → replace_byte c r s = s.
Proof.
  induction s as [|a s IH]; [done|]. intros [Ha Hs]%lacks_cons_inv. simpl.
  apply Ascii.eqb_neq in Ha. by rewrite Ha, IH.
Qed.

Lemma sender_plain domain :
  domain ≠ "" → lacks "/" domain = true → contains domain ".." = false → sender ("/backup/" +:+ domain) = domain.
Proof.
  intros Hd Hl Hc. unfold sender, trim_prefix, drop_last_slashes.
  rewrite has_prefix_app, sdrop_app, (drop_slashes_lacks domain), drop_slashes_lacks, srev_involutive by
    auto using lacks_srev.
  apply String.eqb_neq in Hd. rewrite Hd. by rewrite drop_dotdot_id, replace_byte_id.
Qed.

(** ** A dump of b.org *)
Module Sample.
Definition a_config : config := mkConfig "/data/backups" "s".
Definition a_system : Os := mkOs None true None true "error" 0.
Definition from_b (name content : string) : ServerRequest := {|
  r_method := "POST"; r_path := "/backup/../b.org/"; r_rawquery := "";
  r_headers := {[ "X-Backup-Token" := "s"; "X-Backup-Filename" := name ]}; r_body := content |}.

Definition a_request : ServerRequest := from_b "../../etc/passwd" "dump".
Definition a_receipt : Z * string * fs := receive a_config a_system a_request ∅.

Lemma triple_eta {A B C} (p : A * B * C) : p = (p.1.1, p.1.2, p.2).
Proof. by destruct p as [[]]. Qed.

Lemma receive_outcome_witness :
  a_receipt.1.1 = 200%Z ∧
  a_receipt.2 !! (true, ["data"; "backups"; "from-_b.org"; "passwd"]) = Some (File "dump") ∧
  a_receipt.2 !! (true, ["etc"; "passwd"]) = None.
Proof.
  assert (a_receipt.1.1 = 200%Z) as Hst by by vm_compute. split; [exact Hst|].
  pose proof (receive_outcome a_config a_system a_request ∅ _ _ _ ltac:(done) (triple_eta a_receipt)) as Ho.
  revert Hst Ho. generalize a_receipt. intros [[st text] d] Hst Ho. cbn [fst snd] in *. subst st.
  destruct Ho as [(H & _)|(_ & [(H & _)|(_ & Hc & [(_ & _ & H)|H])])]; [done|done| |done].
  split; [exact H|]. destruct (d !! (true, ["etc"; "passwd"])) eqn:Hd; [|done].
  destruct (Hc (true, ["etc"; "passwd"]) ltac:(rewrite Hd; done)) as [[_ Hp]|(_ & _ & k & Hp)].
  - vm_compute in Hp. congruence.
  - do 5 (destruct k as [|k]; [vm_compute in Hp; congruence|]). vm_compute in Hp. congruence.
Defined.

(** A dump that breaks off destroys the one stored under its name. *)
Example broken_upload_deletes :
  let '(_, _, d) := receive a_config a_system (from_b "dump.gz" "old") ∅ in
  let '(st, _, d') := receive a_config (mkOs None true (Some 1) true "unexpected EOF" 0) (from_b "dump.gz" "new") d in
  let file := (true, ["data"; "backups"; "from-_b.org"; "dump.gz"]) in
  st = 500%Z ∧ d !! file = Some (File "old") ∧ d' !! file = None.
Proof. by vm_compute. Qed.

(** The stamp of a second: 1970-01-01 00:00:00. *)
Example stamp_epoch : stamp 0 = "19700101-000000".
Proof. by vm_compute. Qed.
End Sample.
End BackupReceiver.
