(* ===== verification/WgStats.v ===== *)
(** * Traffic of WireGuard peers ([server/internal/vpn/wg_stats.go])

    The text of [wg show] is another program's; what the server makes of it
    is defined here: two regular expressions over its lines, and sizes in
    binary units read as [float64]. *)

From Stdlib Require Import Ascii String.
From stdpp Require Import strings.
From S2P Require Import Prelude GoStrings Encoding Json Floats Config.
Set Default Goal Selector "!".
Open Scope stdpp_scope.

Module WgStats.
Import Config.

(** ** [regexp]

    The expressions of [parseWGShow] are sequences of: white space, a literal,
    the group [(.+)], the end of the text.  As Go's [regexp] does, a repetition
    takes as much as it can and gives back from the end; a text is a sequence
    of bytes, which makes no difference here, since what follows a repetition
    is ASCII. *)
Inductive item :=
| Spaces (least : nat)
| Lit (s : string)
| Group
| End_.

(** [\s] *)
Definition re_space (a : ascii) : bool :=
  let z := code a in ((z =? 9) || (z =? 10) || (z =? 12) || (z =? 13) || (z =? 32))%Z.

(** [.] *)
Definition re_dot (a : ascii) : bool := negb (Ascii.eqb a "010").

Fixpoint run_of (P : ascii → bool) (s : string) : nat :=
  match s with
  | "" => 0
  | String a s' => if P a then S (run_of P s') else 0
  end.

(** The first that succeeds of [f n], [f (n - 1)], ..., [f least]. *)
Fixpoint longest {A} (f : nat → option A) (least n : nat) : option A :=
  if n <? least then None else
  match f n with
  | Some r => Some r
  | None => match n with 0 => None | S n' => longest f least n' end
  end.

(** The groups of the first match at the start of [s]. *)
Fixpoint matches (p : list item) (s : string) : option (list string) :=
  match p with
  | [] => Some []
  | Lit t :: p => if has_prefix s t then matches p (sdrop (slen t) s) else None
  | Spaces least :: p => longest (λ n, matches p (sdrop n s)) least (run_of re_space s)
  | Group :: p => longest (λ n, cons (stake n s) <$> matches p (sdrop n s)) 1 (run_of re_dot s)
  | End_ :: p => if String.eqb s "" then matches p s else None
  end.

Definition peerRe : list item := [Spaces 0; Lit "peer:"; Spaces 0; Group; End_].
Definition transferRe : list item :=
  [Spaces 0; Lit "transfer:"; Spaces 0; Group; Spaces 1; Lit "received,"; Spaces 0; Group; Spaces 1; Lit "sent"].

(** ** The text of [wg show] *)
Definition parseWGTransfer (s : string) : Z :=
  let s := trim_space s in
  let '(mult, s) :=
    if has_suffix s " GiB" then ((1024 * 1024 * 1024)%Z, trim_suffix s " GiB")
    else if has_suffix s " MiB" then ((1024 * 1024)%Z, trim_suffix s " MiB")
    else if has_suffix s " KiB" then (1024%Z, trim_suffix s " KiB")
    else if has_suffix s " B" then (1%Z, trim_suffix s " B") else (1%Z, s) in
  Floats.to_int64 (Floats.scale (Floats.ParseFloat (trim_space s)).1 mult).

Abbreviation peer_stats := (gmap string (Z * Z)).

(** One line, with the statistics and the current peer so far. *)
Definition parse_line (st : peer_stats * string) (line : string) : peer_stats * string :=
  let '(result, currentPeer) := st in
  match matches peerRe line with
  | Some (key :: _) => (result, trim_space key)
  | _ => match matches transferRe line with
         | Some [rx; tx] =>
           if String.eqb currentPeer "" then st
           else (<[currentPeer := (parseWGTransfer rx, parseWGTransfer tx)]> result, "")
         | _ => st
         end
  end.

Definition parseWGShow (out : string) : peer_stats :=
  (foldl parse_line (∅, "") (split_byte "010" out)).1.

(** [wg]: what [wg show] prints for an interface; [None] when it fails. *)
Definition FetchWGStats (cfg : VPNConfig) (wg : string → option string) : option peer_stats :=
  let iface := StatsInterface (WireGuard cfg) in
  if String.eqb iface "" then None else parseWGShow <$> wg iface.

(** ** Facts *)
Example transfer_mib : parseWGTransfer "1.23 MiB" = 1289748%Z.
Proof. by vm_compute. Qed.
Example transfer_b : parseWGTransfer "123 B" = 123%Z.
Proof. by vm_compute. Qed.

(** Tebibytes are not a unit the code knows: the text with its unit is no
    number, and counts as nothing. *)
Example transfer_tib : parseWGTransfer "1.50 TiB" = 0%Z.
Proof. by vm_compute. Qed.

Example show_one : map_to_list (parseWGShow
  "interface: wg0
  public key: AAAA
  listening port: 51820

peer: BBBB=
  endpoint: 10.0.0.1:1234
  allowed ips: 10.66.66.2/32
  latest handshake: 1 minute, 2 seconds ago
  transfer: 1.00 KiB received, 2.50 MiB sent

peer: CCCC=
  allowed ips: 10.66.66.3/32
") = [("BBBB=", (1024, 2621440)%Z)].
Proof. by vm_compute. Qed.

(** *** Amounts

    [wg] prints bytes as such, and larger amounts with two decimals. *)
Inductive unit_ := KiB | MiB | GiB | TiB.

Inductive amount := Bytes (n : Z) | Units (h : Z) (u : unit_).

Definition unit_text (u : unit_) : string :=
  match u with KiB => " KiB" | MiB => " MiB" | GiB => " GiB" | TiB => " TiB" end.
Definition unit_log (u : unit_) : Z := match u with KiB => 10 | MiB => 20 | GiB => 30 | TiB => 40 end.

Definition number_text (a : amount) : string :=
  match a with Bytes n => itoa n | Units h _ => Floats.hundredths h end.
Definition suffix_text (a : amount) : string :=
  match a with Bytes _ => " B" | Units _ u => unit_text u end.
Definition amount_text (a : amount) : string := number_text a +:+ suffix_text a.

Definition amount_bytes (a : amount) : Z :=
  match a with Bytes n => n | Units h u => (h * 2 ^ unit_log u / 100)%Z end.

(** What the server makes of an amount: the whole bytes in it, and nothing
    of one in tebibytes, a unit that [parseWGTransfer] does not know. *)
Definition counted (a : amount) : Z :=
  match a with Units _ TiB => 0%Z | _ => amount_bytes a end.

(** Units run up to 1023.99, the largest without bound. *)
Definition amount_ok (a : amount) : Prop :=
  match a with
  | Bytes n => (0 ≤ n < 2 ^ 53)%Z
  | Units h TiB => (0 ≤ h)%Z
  | Units h _ => (0 ≤ h < 2 ^ 17)%Z
  end.

Lemma amount_ok_nonneg h u : amount_ok (Units h u) → (0 ≤ h)%Z.
Proof. destruct u; cbn; lia. Qed.

Definition number_byte (a : ascii) : bool := digit a || Ascii.eqb a ".".

Lemma number_byte_solid a : number_byte a = true → solid a = true.
Proof. destruct a as [[] [] [] [] [] [] [] []]; done. Qed.

Lemma number_text_bytes a :
  amount_ok a → sforall number_byte (number_text a) = true ∧ ∃ b s, number_text a = String b s.
Proof.
  assert (∀ s, sforall digit s = true → sforall number_byte s = true) as Hdig.
  { intros s. apply sforall_impl. intros b Hb. unfold number_byte. by rewrite Hb. }
  destruct a as [n|h u]; [cbn [amount_ok]|intros Ha%amount_ok_nonneg; revert Ha]; cbn [number_text]; intros Ha.
  - destruct (Floats.itoa_digits n) as (Hd & _ & Hne); [lia|]. split; [by apply Hdig|].
    destruct (itoa n); [done|eauto].
  - destruct (Floats.itoa_digits (h / 100)) as (Hd & _ & Hne); [apply Z.div_pos; lia|].
    destruct (Floats.pad2 (h mod 100)) as (Hp & _); [apply Z.mod_pos_bound; lia|].
    unfold Floats.hundredths. rewrite !sforall_app, (Hdig (itoa _)), (Hdig (pad _ _)) by done. split; [done|].
    destruct (itoa (h / 100)); [done|eauto].
Qed.

Lemma amount_trim a : amount_ok a → trim_space (amount_text a) = amount_text a.
Proof.
  intros Ha. destruct (number_text_bytes a Ha) as (Hs & b & s & He). unfold amount_text.
  rewrite He in *. cbn [sforall] in Hs. apply andb_true_iff in Hs as [Hb _].
  assert (∃ w, suffix_text a = w +:+ "B") as [w ->].
  { destruct a as [n|h []]; cbn; [by exists " "|by exists " Ki"|by exists " Mi"|by exists " Gi"|by exists " Ti"]. }
  rewrite string_app_assoc, string_app_cons. apply trim_space_solid; [by apply number_byte_solid|done].
Qed.

Lemma scale_1 neg n :
  (0 < n < 2 ^ 53)%Z → Floats.scale (Floats.round64 neg n 1) 1 = Floats.round64 neg n 1.
Proof.
  intros Hn. destruct (Floats.round64_int neg n Hn) as [-> Hl].
  pose proof (Z.log2_nonneg n). destruct (Z.log2_spec n) as [Hlo Hhi]; [lia|].
  set (m := (n * 2 ^ (52 - Z.log2 n))%Z).
  assert (2 ^ 52 <= m < 2 ^ 53)%Z.
  { pose proof (Z.pow_pos_nonneg 2 (52 - Z.log2 n)).
    pose proof (Z.pow_add_r 2 (Z.log2 n) (52 - Z.log2 n)) as E1.
    pose proof (Z.pow_add_r 2 (Z.succ (Z.log2 n)) (52 - Z.log2 n)) as E2.
    replace (Z.log2 n + (52 - Z.log2 n))%Z with 52%Z in E1 by lia.
    replace (Z.succ (Z.log2 n) + (52 - Z.log2 n))%Z with 53%Z in E2 by lia.
    rewrite E1, E2 by lia. subst m. nia. }
  pose proof (Floats.round64_exact neg m (52 - Z.log2 n) 0 ltac:(lia) ltac:(lia) ltac:(lia) ltac:(lia)) as E.
  rewrite Z.mul_1_r in E. replace (0 - (52 - Z.log2 n))%Z with (Z.log2 n - 52)%Z in E by lia.
  unfold Floats.scale. rewrite Z.mul_1_r. destruct (Z.ltb_spec (Z.log2 n - 52) 0).
  - by replace (- (Z.log2 n - 52))%Z with (52 - Z.log2 n)%Z by lia.
  - assert (Z.log2 n = 52%Z) as Hl52 by lia. rewrite Hl52 in *. by rewrite Z.mul_1_r.
Qed.

Lemma to_int64_bytes n :
  (0 ≤ n < 2 ^ 53)%Z → Floats.to_int64 (Floats.scale (Floats.ParseFloat (itoa n)).1 1) = n.
Proof.
  intros Hn. destruct (decide (n = 0%Z)) as [->|]; [by vm_compute|].
  rewrite Floats.ParseFloat_int by lia. cbn [fst]. replace (n <? 0)%Z with false by lia.
  rewrite Z.abs_eq, scale_1, Floats.to_int64_int by lia. done.
Qed.

(** No other unit is the end of one. *)
Lemma unit_suffix s u p :
  slen p = 4 → has_suffix (s +:+ unit_text u) p = String.eqb (unit_text u) p.
Proof. intros Hp. apply has_suffix_app. by destruct u. Qed.

(** What is printed is read as [counted] says. *)
Lemma parseWGTransfer_amount a : amount_ok a → parseWGTransfer (amount_text a) = counted a.
Proof.
  intros Ha. destruct (number_text_bytes a Ha) as (Hs & _). unfold parseWGTransfer.
  rewrite amount_trim by done.
  assert (trim_space (number_text a) = number_text a) as Ht.
  { eapply trim_space_all, sforall_impl, Hs. apply number_byte_solid. }
  pose proof (amount_trim a Ha) as Htrim. unfold amount_text in *.
  destruct a as [n|h u]; cbn [number_text suffix_text counted amount_bytes amount_ok] in *.
  - assert (∀ p, slen p = 4 → lacks "i" p = false → has_suffix (itoa n +:+ " B") p = false) as Hno.
    { intros p Hl Hi. destruct (has_suffix _ _) eqn:Hp; [|done].
      unfold has_suffix in Hp. apply has_prefix_inv in Hp. apply (f_equal (lacks "i")) in Hp.
      rewrite lacks_app in Hp. unfold lacks in Hp at 1 2. rewrite !sforall_srev in Hp. fold (lacks "i") in Hp.
      unfold lacks in Hi. rewrite Hi, sforall_app in Hp. cbn in Hp.
      pose proof (itoa_lacks "i" n eq_refl) as Hn. unfold lacks in Hn. by rewrite Hn in Hp. }
    rewrite !Hno, has_suffix_app, String.eqb_refl, trim_suffix_app, Ht by done. by apply to_int64_bytes.
  - rewrite !unit_suffix by done. destruct u; cbn [unit_text] in *;
      cbn [String.eqb Ascii.eqb eqb]; rewrite ?trim_suffix_app, ?Ht, ?Floats.ParseFloat_hundredths by done;
      cbn [fst]; [apply (Floats.to_int64_hundredths h 10)|apply (Floats.to_int64_hundredths h 20)|
        apply (Floats.to_int64_hundredths h 30)|]; try lia.
    replace (has_suffix (Floats.hundredths h +:+ " TiB") " B") with false
      by (symmetry; unfold has_suffix; by rewrite srev_of_app).
    rewrite Htrim. change " TiB" with (" " +:+ "TiB"). by rewrite Floats.ParseFloat_word.
Qed.

(** *** Matching *)
Lemma longest_at {A} (f : nat → option A) least n k r :
  f k = Some r → least ≤ k ≤ n → (∀ i, k < i ≤ n → f i = None) → longest f least n = Some r.
Proof.
  intros Hk. induction n as [|n IH]; intros Hle Hno.
  - assert (k = 0) as -> by lia. cbn [longest]. rewrite (proj2 (Nat.ltb_ge 0 least)) by lia. by rewrite Hk.
  - cbn [longest]. rewrite (proj2 (Nat.ltb_ge (S n) least)) by lia.
    destruct (decide (k = S n)) as [->|]; [by rewrite Hk|]. rewrite Hno by lia.
    apply IH; [lia|]. intros. apply Hno. lia.
Qed.

Lemma longest_none {A} (f : nat → option A) least n : (∀ i, f i = None) → longest f least n = None.
Proof. intros Hf. induction n as [|n IH]; cbn [longest]; case_match; rewrite ?Hf; done. Qed.

Lemma run_of_app P a t : sforall P a = true → run_of P (a +:+ t) = slen a + run_of P t.
Proof.
  induction a as [|x a IH]; [done|]. cbn [sforall]. intros [Hx Ha]%andb_true_iff.
  rewrite string_app_cons. cbn [run_of String.length]. by rewrite Hx, IH.
Qed.

Lemma run_of_le P s : run_of P s ≤ slen s.
Proof. induction s as [|a s IH]; cbn; [lia|]. destruct (P a); lia. Qed.

(** The text does not start with white space. *)
Definition starts_solid (s : string) : bool := match s with "" => true | String a _ => negb (re_space a) end.

Lemma run_starts s : starts_solid s = true → run_of re_space s = 0.
Proof. destruct s as [|a s]; [done|]. cbn. by destruct (re_space a). Qed.

Lemma match_lit t s p : matches (Lit t :: p) (t +:+ s) = matches p s.
Proof. cbn [matches]. by rewrite has_prefix_app, sdrop_app. Qed.

Lemma match_spaces w least s p r :
  sforall re_space w = true → least ≤ slen w → starts_solid s = true → matches p s = Some r →
  matches (Spaces least :: p) (w +:+ s) = Some r.
Proof.
  intros Hw Hl Hs Hm. cbn [matches]. rewrite run_of_app, run_starts, Nat.add_0_r by done.
  apply (longest_at _ _ _ (slen w)); [by rewrite sdrop_app|lia|intros; lia].
Qed.

Lemma match_spaces_fails s least p : starts_solid s = true → least ≠ 0 → matches (Spaces least :: p) s = None.
Proof. intros Hs Hl. cbn [matches]. rewrite run_starts by done. destruct least; done. Qed.

Lemma sdrop_lacks c n s : lacks c s = true → lacks c (sdrop n s) = true.
Proof. rewrite <- (stake_sdrop n s) at 1. rewrite lacks_app. by intros [_ ?]%andb_true_iff. Qed.

(** A literal with a byte that the text lacks. *)
Lemma match_lacks c t least p s : lacks c s = true → lacks c t = false → matches (Spaces least :: Lit t :: p) s = None.
Proof.
  intros Hs Ht. cbn [matches]. apply longest_none. intros i.
  destruct (has_prefix _ _) eqn:Hp; [|done]. apply has_prefix_inv in Hp.
  pose proof (sdrop_lacks c i s Hs) as H. rewrite Hp, lacks_app, Ht in H. done.
Qed.

Lemma sdrop_add n m s : sdrop (n + m) s = sdrop m (sdrop n s).
Proof. revert s. induction n as [|n IH]; intros s; [done|]. destruct s; cbn; [by destruct m|apply IH]. Qed.

Lemma match_group a t p r :
  a ≠ "" → lacks "010" (a +:+ t) = true → matches p t = Some r →
  (∀ j, 0 < j ≤ slen t → matches p (sdrop j t) = None) →
  matches (Group :: p) (a +:+ t) = Some (a :: r).
Proof.
  intros Ha Hl Hm Hno. cbn [matches]. apply (longest_at _ _ _ (slen a)).
  - by rewrite sdrop_app, Hm, stake_app.
  - rewrite <- (string_app_nil_r (a +:+ t)). rewrite run_of_app by done.
    rewrite slen_app. destruct a; [done|]. cbn. lia.
  - intros i Hi. replace i with (slen a + (i - slen a)) by lia. rewrite sdrop_add, sdrop_app, Hno; [done|].
    pose proof (run_of_le re_dot (a +:+ t)) as Hr. rewrite slen_app in Hr. lia.
Qed.

(** *** The report of [wg] *)
Record shown := mkShown {
  sh_key : string;
  sh_before : list string;
  sh_traffic : option (amount * amount);
  sh_after : list string;
}.

Definition transfer_line (t : amount * amount) : string :=
  "  transfer: " +:+ amount_text t.1 +:+ " received, " +:+ amount_text t.2 +:+ " sent".

Definition shown_lines (p : shown) : list string :=
  ("peer: " +:+ sh_key p) :: sh_before p ++ (transfer_line <$> option_list (sh_traffic p)) ++ sh_after p.

Definition report (header : list string) (ps : list shown) : string :=
  join (String "010" "") (header ++ mjoin (shown_lines <$> ps)).

(** A line of another kind. *)
Definition noise (l : string) : bool :=
  lacks "010" l && match matches peerRe l, matches transferRe l with None, None => true | _, _ => false end.

Definition shown_ok (p : shown) : Prop :=
  sh_key p ≠ "" ∧ sforall solid (sh_key p) = true ∧
  Forall (λ l, noise l = true) (sh_before p ++ sh_after p) ∧
  ∀ rx tx, sh_traffic p = Some (rx, tx) → amount_ok rx ∧ amount_ok tx.

Lemma amount_lacks c a :
  amount_ok a → number_byte c = false → lacks c (suffix_text a) = true → lacks c (amount_text a) = true.
Proof.
  intros Ha Hc Hs. unfold amount_text. rewrite lacks_app, Hs, andb_true_r.
  eapply sforall_impl, number_text_bytes, Ha. intros b Hb.
  rewrite negb_true_iff, Ascii.eqb_neq. intros ->. congruence.
Qed.

Lemma suffix_lacks a : lacks "010" (suffix_text a) = true ∧ lacks "v" (suffix_text a) = true.
Proof. by destruct a as [n|h []]. Qed.

Lemma amount_starts a t : amount_ok a → starts_solid (amount_text a +:+ t) = true ∧ amount_text a ≠ "".
Proof.
  intros Ha. destruct (number_text_bytes a Ha) as (Hs & b & s & He). unfold amount_text. rewrite He in *.
  cbn [sforall] in Hs. apply andb_true_iff in Hs as [Hb _]. split; [|done]. rewrite !string_app_cons.
  clear -Hb. destruct b as [[] [] [] [] [] [] [] []]; done.
Qed.

Lemma match_sent tx :
  amount_ok tx → matches [Group; Spaces 1; Lit "sent"] (amount_text tx +:+ " sent") = Some [amount_text tx].
Proof.
  intros Ha. destruct (suffix_lacks tx) as [Hn _]. apply match_group; [apply (amount_starts tx "" Ha)| |done|].
  - rewrite lacks_app, amount_lacks by done. done.
  - intros j Hj. destruct j as [|[|[|[|[|j]]]]]; try done; [lia|]. cbn [sdrop]. by destruct j.
Qed.

Lemma match_transfer rx tx :
  amount_ok rx → amount_ok tx →
  matches peerRe (transfer_line (rx, tx)) = None ∧
  matches transferRe (transfer_line (rx, tx)) = Some [amount_text rx; amount_text tx].
Proof.
  intros Hrx Htx. unfold transfer_line. cbn [fst snd]. split; [reflexivity|].
  destruct (suffix_lacks rx) as [Hn1 _]. destruct (suffix_lacks tx) as [Hn2 Hv2].
  destruct (amount_starts rx (" received, " +:+ amount_text tx +:+ " sent") Hrx) as [Hs1 Hne1].
  destruct (amount_starts tx " sent" Htx) as [Hs2 _].
  unfold transferRe. change "  transfer: " with ("  " +:+ "transfer:" +:+ " ").
  rewrite <- !string_app_assoc. apply match_spaces; [done|lia|done|]. rewrite match_lit.
  apply match_spaces; [done|lia|done|].
  change " received, " with (" " +:+ "received," +:+ " ") in *. rewrite <- !string_app_assoc.
  apply match_group; [done| | |].
  - rewrite !lacks_app, !amount_lacks by done. done.
  - apply match_spaces; [done|done|done|]. rewrite match_lit.
    apply match_spaces; [done|lia|done|]. by apply match_sent.
  - intros j Hj. do 10 (destruct j as [|j]; [lia || by apply match_spaces_fails|]).
    match goal with |- matches _ (sdrop _ ?t) = _ => change (sdrop _ t) with (sdrop (10 + j) t) end.
    rewrite sdrop_add. eapply (match_lacks "v"); [|done].
    apply sdrop_lacks. change (sdrop 10 _) with (" " +:+ amount_text tx +:+ " sent").
    rewrite !lacks_app, amount_lacks by done. done.
Qed.

Lemma solid_not_newline a : solid a = true → a ≠ "010"%char ∧ re_space a = false.
Proof. destruct a as [[] [] [] [] [] [] [] []]; done. Qed.

Lemma match_peer key :
  key ≠ "" → sforall solid key = true → matches peerRe ("peer: " +:+ key) = Some [key].
Proof.
  intros Hne Hs. unfold peerRe.
  apply (match_spaces "" 0 ("peer: " +:+ key)); [done|done|done|]. change "peer: " with ("peer:" +:+ " "). rewrite <- string_app_assoc, match_lit.
  apply match_spaces; [done|lia| |].
  - destruct key as [|a key]; [done|]. cbn [sforall starts_solid] in *. apply andb_true_iff in Hs as [Ha _].
    by rewrite (proj2 (solid_not_newline a Ha)).
  - rewrite <- (string_app_nil_r key) at 1. apply match_group; [done| |done|].
    + rewrite string_app_nil_r. eapply sforall_impl, Hs. intros a Ha.
      rewrite negb_true_iff, Ascii.eqb_neq. by apply solid_not_newline.
    + cbn. lia.
Qed.

Lemma parse_noise l st : Forall (λ l, noise l = true) l → foldl parse_line st l = st.
Proof.
  intros Hl. revert st. induction Hl as [|w l Hw _ IH]; intros [m cur]; [done|].
  unfold noise in Hw. apply andb_true_iff in Hw as [_ Hw]. cbn [foldl].
  unfold parse_line at 2. destruct (matches peerRe w); [done|]. by destruct (matches transferRe w).
Qed.

(** What the lines of a peer add to the statistics. *)
Definition recorded (m : peer_stats) (p : shown) : peer_stats :=
  match sh_traffic p with
  | Some (rx, tx) => <[sh_key p := (counted rx, counted tx)]> m
  | None => m
  end.

Lemma parse_shown p m cur : shown_ok p → (foldl parse_line (m, cur) (shown_lines p)).1 = recorded m p.
Proof.
  intros (Hne & Hs & Hn & Ht). apply Forall_app in Hn as [Hb Ha].
  unfold shown_lines. cbn [foldl]. rewrite !foldl_app, (parse_noise _ _ Hb), (parse_noise _ _ Ha).
  assert (parse_line (m, cur) ("peer: " +:+ sh_key p) = (m, sh_key p)) as ->.
  { unfold parse_line. by rewrite match_peer, trim_space_all by done. }
  unfold recorded. destruct (sh_traffic p) as [[rx tx]|]; [|done].
  destruct (Ht rx tx eq_refl) as [Hrx Htx]. destruct (match_transfer rx tx Hrx Htx) as [Hp Hm].
  change (transfer_line <$> option_list (Some (rx, tx))) with [transfer_line (rx, tx)].
  cbn [foldl]. unfold parse_line. rewrite Hp, Hm.
  rewrite !parseWGTransfer_amount by done. by destruct (String.eqb_spec (sh_key p) "").
Qed.

Lemma parse_shown_all ps m cur :
  Forall shown_ok ps → (foldl parse_line (m, cur) (mjoin (shown_lines <$> ps))).1 = foldl recorded m ps.
Proof.
  intros Hps. revert m cur. induction Hps as [|p ps Hp _ IH]; intros m cur; [done|].
  cbn [fmap list_fmap mjoin list_join]. rewrite foldl_app. cbn [foldl].
  pose proof (parse_shown p m cur Hp) as E. destruct (foldl _ _ (shown_lines p)) as [m' cur'].
  cbn [fst] in E. subst m'. apply IH.
Qed.

Lemma shown_lines_lack p : shown_ok p → Forall (λ w, lacks "010" w = true) (shown_lines p).
Proof.
  intros (Hne & Hs & Hn & Ht). apply Forall_app in Hn as [Hb Ha].
  assert (∀ l, Forall (λ l, noise l = true) l → Forall (λ w, lacks "010" w = true) l) as Hno.
  { intros l Hl. eapply Forall_impl; [done|]. intros w. unfold noise. by intros [? _]%andb_true_iff. }
  unfold shown_lines. constructor.
  - rewrite lacks_app. cbn [andb]. eapply sforall_impl, Hs. intros a Hsa.
    rewrite negb_true_iff, Ascii.eqb_neq. by apply solid_not_newline.
  - apply Forall_app. split; [by apply Hno|]. apply Forall_app. split; [|by apply Hno].
    destruct (sh_traffic p) as [[rx tx]|]; [|constructor]. destruct (Ht rx tx eq_refl) as [Hrx Htx].
    destruct (suffix_lacks rx), (suffix_lacks tx).
    constructor; [|constructor]. unfold transfer_line. rewrite !lacks_app, !amount_lacks by done. done.
Qed.

(** Whatever else [wg show] prints, each peer gets the bytes of its own
    transfer line, the whole bytes in the printed amounts, and a peer without
    such a line none. *)
Theorem parseWGShow_report header ps :
  header ≠ [] → Forall (λ l, noise l = true) header → Forall shown_ok ps →
  parseWGShow (report header ps) = foldl recorded ∅ ps.
Proof.
  intros Hh Hn Hps. unfold parseWGShow, report. rewrite split_byte_join.
  - by rewrite foldl_app, (parse_noise header), parse_shown_all.
  - apply Forall_app. split.
    + eapply Forall_impl; [done|]. intros w. unfold noise. by intros [? _]%andb_true_iff.
    + clear -Hps. induction Hps; [constructor|]. apply (Forall_app _ (shown_lines _)). split; [by apply shown_lines_lack|done].
  - by destruct header.
Qed.

Definition a_peer : shown :=
  mkShown "BBBB=" ["  endpoint: 10.0.0.1:1234"; "  allowed ips: 10.66.66.2/32"]
    (Some (Bytes 740, Units 250 MiB)) [""].
Definition two_peers : list shown := [a_peer; mkShown "CCCC=" ["  allowed ips: 10.66.66.3/32"] None [""]].

Lemma two_peers_ok : Forall shown_ok two_peers.
Proof.
  constructor; [|constructor; [|constructor]].
  - split_and!; [done|done|by repeat constructor|]. intros rx tx [= <- <-]. cbn. lia.
  - split_and!; [done|done|by repeat constructor|done].
Qed.

Example two_peers_read :
  map_to_list (parseWGShow (report ["interface: wg0"; ""] two_peers)) = [("BBBB=", (740, 2621440)%Z)].
Proof. by vm_compute. Qed.
End WgStats.
