(* ===== verification/VpnText.v ===== *)
(** * Keys and client configurations ([server/internal/vpn])

    The texts a VPN client is given: WireGuard keys and files ([keys.go],
    [wireguard.go]), and the URLs of the Xray protocols ([xray.go]). *)

From Stdlib Require Import Ascii String.
From stdpp Require Import strings.
From S2P Require Import Prelude GoStrings Encoding Json Schema Federation.
Set Default Goal Selector "!".
Open Scope stdpp_scope.

Module VpnText.

(** [curve25519.ScalarBaseMult]. *)
Class Curve25519 := { scalar_base_mult : string → string }.

(** ** Keys *)

(** [priv[0] &= 248; priv[31] &= 127; priv[31] |= 64] *)
Definition clamp (priv : string) : string :=
  match priv with
  | "" => ""
  | String a rest =>
    String (byte_of (Z.land (code a) 248))
      (stake 30 rest +:+
       match sdrop 30 rest with
       | String z _ => String (byte_of (Z.lor (Z.land (code z) 127) 64)) ""
       | "" => ""
       end)
  end.

(** [draw]: 32 random bytes, [None] when the source fails. *)
Definition WireGuardKeyPair `{Curve25519} (draw : option string) : option (string * string) :=
  priv ← clamp <$> draw; Some (b64_encode priv, b64_encode (scalar_base_mult priv)).

(** [draw]: 24 random bytes. *)
Definition GenerateTrojanPassword (draw : option string) : option string :=
  (λ b, stake 32 (b64_raw_url_encode b)) <$> draw.

Definition newline : string := String "010" "".

Definition BuildWireGuardConf (clientPrivKey clientPubKey serverPubKey endpoint clientAddress : string) :
    string :=
  "[Interface]" +:+ newline +:+ "PrivateKey = " +:+ clientPrivKey +:+ newline +:+
  "Address = " +:+ clientAddress +:+ newline +:+ "DNS = 1.1.1.1, 8.8.8.8" +:+ newline +:+ newline +:+
  "[Peer]" +:+ newline +:+ "PublicKey = " +:+ serverPubKey +:+ newline +:+
  "Endpoint = " +:+ endpoint +:+ newline +:+ "AllowedIPs = 0.0.0.0/0, ::/0" +:+ newline.

Definition vmess_payload (uuid host port remark : string) : json := JObj
  [("add", JStr host); ("aid", JStr "0"); ("alpn", JStr "h2,http/1.1"); ("host", JStr "");
   ("id", JStr uuid); ("net", JStr "tcp"); ("path", JStr ""); ("port", JStr port);
   ("ps", JStr remark); ("scy", JStr "auto"); ("sni", JStr host); ("tls", JStr "tls");
   ("type", JStr "none"); ("v", JStr "2")].

Definition BuildVMessURL (uuid host port remark : string) : string :=
  let port := if String.eqb port "" then "443" else port in
  let remark := if String.eqb remark "" then "messenger" else remark in
  "vmess://" +:+ b64_encode (marshal (vmess_payload uuid host port remark)).

(** [url.Values.Encode]: the parameters by name, both sides escaped. *)
Definition encode_values (l : list (string * string)) : string :=
  join "&" ((λ kv, QueryEscape kv.1 +:+ "=" +:+ QueryEscape kv.2) <$> l).

(** The remark is escaped before it is set. *)
Definition name_param (remark : string) : list (string * string) :=
  if String.eqb remark "" then [] else [("name", QueryEscape remark)].

Definition BuildVLESSURL (uuid host port remark : string) : string :=
  let port := if String.eqb port "" then "443" else port in
  "vless://" +:+ uuid +:+ "@" +:+ host +:+ ":" +:+ port +:+ "?" +:+
  encode_values ([("alpn", "h2,http/1.1"); ("flow", "xtls-rprx-vision")] ++ name_param remark ++
                 [("security", "xtls"); ("sni", host); ("type", "tcp")]).

Definition BuildTrojanURL (password host port remark : string) : string :=
  let port := if String.eqb port "" then "443" else port in
  "trojan://" +:+ PathEscape password +:+ "@" +:+ host +:+ ":" +:+ port +:+ "?" +:+
  encode_values ([("alpn", "h2,http/1.1")] ++ name_param remark ++ [("security", "tls"); ("sni", host)]).

Definition parseHostPort (endpoint : string) : string * string :=
  if String.eqb endpoint "" then ("", "443") else
  if has_prefix endpoint "[" then
    match index endpoint "]:" with
    | Some (S _ as idx) => (stake (idx + 1) endpoint, sdrop (idx + 2) endpoint)
    | _ => (endpoint, "443")
    end
  else match last_index endpoint ":" with
       | Some (S _ as idx) => (stake idx endpoint, sdrop (idx + 1) endpoint)
       | _ => (endpoint, "443")
       end.

(** ** Properties *)

(** [clamp] puts a key into the form curve25519 requires: a multiple of 8
    with bit 254 as its highest. *)
Lemma clamp_form a m z :
  slen m = 30 →
  ∃ a' z', clamp (String a (m +:+ String z "")) = String a' (m +:+ String z' "") ∧
    (code a' mod 8 = 0 ∧ 64 ≤ code z' < 128)%Z.
Proof.
  intros Hm. unfold clamp. rewrite <- Hm, stake_app, sdrop_app.
  assert (∀ x : ascii, code (byte_of (Z.land (code x) 248)) mod 8 = 0 ∧
    64 ≤ code (byte_of (Z.lor (Z.land (code x) 127) 64)) < 128)%Z as Hb.
  { intros [[] [] [] [] [] [] [] []]; vm_compute; repeat split; congruence. }
  eexists _, _. split; [done|]. destruct (Hb a), (Hb z). auto.
Qed.

Lemma bracketed_index h port :
  lacks "]" h = true → index ("[" +:+ h +:+ "]:" +:+ port) "]:" = Some (S (slen h)).
Proof.
  intros Hl. change ("[" +:+ h +:+ "]:" +:+ port) with (String "[" (h +:+ "]:" +:+ port)).
  cbn [index]. assert (index (h +:+ "]:" +:+ port) "]:" = Some (slen h)) as ->; [|by vm_compute].
  induction h as [|x h IH]; [by destruct port|]. unfold lacks in *. cbn [sforall] in Hl.
  apply andb_true_iff in Hl as [Hx Hl]. rewrite string_app_cons. cbn [index]. rewrite (IH Hl).
  unfold has_prefix. cbn [String.prefix]. apply negb_true_iff, Ascii.eqb_neq in Hx.
  by destruct (ascii_dec "]" x) as [<-|].
Qed.

(** An endpoint written [host:port] is read back as its two parts, for names
    and addresses and for IPv6 addresses in brackets. *)
Theorem parseHostPort_parts host port :
  host ≠ "" → lacks ":" port = true →
  has_prefix host "[" = false ∨ (∃ h, host = "[" +:+ h +:+ "]" ∧ lacks "]" h = true) →
  parseHostPort (host +:+ ":" +:+ port) = (host, port).
Proof.
  intros Hh Hp Hb. unfold parseHostPort.
  destruct host as [|x host]; [done|]. rewrite (string_app_cons x). cbn [String.eqb].
  destruct Hb as [Hb|(h & Hx & Hl)].
  - assert (has_prefix (String x (host +:+ ":" +:+ port)) "[" = false) as ->.
    { revert Hb. unfold has_prefix. cbn [String.prefix]. destruct (ascii_dec "[" x); [by destruct host|done]. }
    replace (String x (host +:+ ":" +:+ port)) with (String x host +:+ String ":" port) by done.
    rewrite last_index_char_app by done. cbn [String.length].
    f_equal; [apply (stake_app (String x host))|].
    replace (String x host +:+ String ":" port) with ((String x host +:+ ":") +:+ port)
      by by rewrite <- string_app_assoc.
    replace (S (slen host) + 1) with (slen (String x host +:+ ":")); [apply sdrop_app|].
    rewrite slen_app. cbn. lia.
  - injection Hx as -> ->. replace ("" +:+ h +:+ "]") with (h +:+ "]") by done.
    assert (String "[" ((h +:+ "]") +:+ ":" +:+ port) = "[" +:+ h +:+ "]:" +:+ port) as Heq.
    { by rewrite <- string_app_assoc. }
    rewrite Heq, bracketed_index by done. cbn [has_prefix String.prefix].
    assert (has_prefix ("[" +:+ h +:+ "]:" +:+ port) "[" = true) as -> by apply has_prefix_app.
    replace (String "[" (h +:+ "]")) with ("[" +:+ h +:+ "]") by done.
    f_equal.
    + replace ("[" +:+ h +:+ "]:" +:+ port) with (("[" +:+ h +:+ "]") +:+ ":" +:+ port)
        by by rewrite <- !string_app_assoc.
      replace (S (slen h) + 1) with (slen ("[" +:+ h +:+ "]")); [apply stake_app|].
      rewrite !slen_app. cbn. lia.
    + replace ("[" +:+ h +:+ "]:" +:+ port) with (("[" +:+ h +:+ "]:") +:+ port)
        by by rewrite <- !string_app_assoc.
      replace (S (slen h) + 2) with (slen ("[" +:+ h +:+ "]:")); [apply sdrop_app|].
      rewrite !slen_app. cbn. lia.
Qed.

(** A VMess URL carries its parameters. *)
Lemma vmess_decodes uuid host port remark :
  port ≠ "" → remark ≠ "" →
  is_ascii (uuid +:+ host +:+ port +:+ remark) = true →
  ∃ t, trim_prefix (BuildVMessURL uuid host port remark) "vmess://" = t ∧
    (b64_decode t ≫= unmarshal) = Some (vmess_payload uuid host port remark).
Proof.
  intros Hp Hr Ha. rewrite !is_ascii_app, !andb_true_iff in Ha. destruct Ha as (Hu & Hh & Hpo & Hre).
  eexists. split; [done|]. unfold BuildVMessURL.
  destruct (String.eqb_spec port ""), (String.eqb_spec remark ""); try done.
  unfold trim_prefix. rewrite has_prefix_app.
  rewrite (sdrop_app "vmess://"), b64_roundtrip. cbn [mbind option_bind].
  rewrite unmarshal_marshal by (done || (cbn; repeat split)).
  unfold vmess_payload. cbn [clean fmap list_fmap fst snd]. by rewrite !json_str_ascii by done.
Qed.

Lemma parseHostPort_parts_witness :
  parseHostPort "vpn.a.org:51820" = ("vpn.a.org", "51820") ∧
  parseHostPort "[::1]:443" = ("[::1]", "443").
Proof.
  split.
  - apply (parseHostPort_parts "vpn.a.org" "51820"); [done|done|by left].
  - apply (parseHostPort_parts "[::1]" "443"); [done|done|right; by exists "::1"].
Defined.
End VpnText.
