(* ===== verification/VpnNodes.v ===== *)
(** * VPN nodes ([server/internal/vpn/nodes.go])

    The servers a configuration can be for: the table, the default one, and
    the seeding of the table from the configuration. *)

From Stdlib Require Import Ascii String.
From stdpp Require Import strings.
From S2P Require Import Prelude GoStrings Encoding Json Schema Federation Config VpnText.
Set Default Goal Selector "!".
Open Scope stdpp_scope.

Module VpnNodes.

Import Config.

(** ** Nodes *)
Definition ping_host (ep : string) : string :=
  trim_space match last_index ep ":" with
             | Some (S _ as idx) => stake idx ep
             | _ => ep
             end.

Definition derivePingURL (wgEndpoint ovpnEndpoint xrayEndpoint : string) : string :=
  match List.find (λ ep, negb (String.eqb ep "") && negb (String.eqb (ping_host ep) "") &&
                         negb (has_prefix (ping_host ep) "[")) [xrayEndpoint; ovpnEndpoint; wgEndpoint] with
  | Some ep => "https://" +:+ ping_host ep +:+ "/"
  | None => ""
  end.

Record VPNNode := mkNode {
  NID : Z;
  NName : string;
  Region : string;
  WireGuardEndpoint : string;
  WireGuardServerPubKey : string;
  OpenVPNEndpoint : string;
  XrayEndpoint : string;
  IsDefault : bool;
  PingURL : string;
}.

Definition node_of (r : Z * vpn_node_row) : VPNNode :=
  let n := r.2 in
  mkNode r.1 (vn_name n) (vn_region n) (vn_wireguard n) (vn_pubkey n) (vn_openvpn n) (vn_xray n)
    (vn_default n) (derivePingURL (vn_wireguard n) (vn_openvpn n) (vn_xray n)).

(** [fmt.Errorf]'s messages; errors of the database, of [json], of the random
    source, and of the sequence of addresses. *)
Inductive err := Failed (message : string) | ErrDb | ErrJson | ErrRand | ErrPool.

Definition effective (own configured : string) : string :=
  if String.eqb own "" then configured else own.

Section nodes.
Context (cfg : VPNConfig).

Definition EffectiveWGEndpoint (n : VPNNode) : string :=
  effective (WireGuardEndpoint n) (WGEndpoint (WireGuard cfg)).
Definition EffectiveWGServerPubKey (n : VPNNode) : string :=
  effective (WireGuardServerPubKey n) (ServerPubKey (WireGuard cfg)).
Definition EffectiveOpenVPNEndpoint (n : VPNNode) : string := effective (OpenVPNEndpoint n) (OVPNEndpoint (OpenVPNTCP443 cfg)).
Definition EffectiveXrayEndpoint (n : VPNNode) : string := effective (XrayEndpoint n) (XEndpoint (Xray cfg)).

(** [by_name]: [ORDER BY is_default DESC, name] in the collation of the
    database. *)
Definition ListNodes (by_name : list (Z * vpn_node_row) → list (Z * vpn_node_row)) :
    M DB err (list VPNNode) :=
  rows ← or_raise ErrDb (query (λ d, by_name (map_to_list d.(vpn_nodes))));
  rows ← fetch rows;
  mret (node_of <$> rows).

Definition GetNode (id : Z) : M DB err VPNNode :=
  row ← or_raise ErrDb (query (λ d, d.(vpn_nodes) !! id));
  match row with
  | Some n => mret (node_of (id, n))
  | None => raise ErrDb
  end.

(** [ORDER BY is_default DESC NULLS LAST LIMIT 1] *)
Definition default_first (d : DB) : list (Z * vpn_node_row) :=
  take 1 (select_rows (λ _ n, vn_default n) d.(vpn_nodes) ++
          select_rows (λ _ n, negb (vn_default n)) d.(vpn_nodes)).

Definition synthetic : VPNNode :=
  let wg := WGEndpoint (WireGuard cfg) in
  mkNode 0 "Default" "" wg (ServerPubKey (WireGuard cfg)) (OVPNEndpoint (OpenVPNTCP443 cfg)) (XEndpoint (Xray cfg)) true
    (derivePingURL wg (OVPNEndpoint (OpenVPNTCP443 cfg)) (XEndpoint (Xray cfg))).

(** A row that cannot be fetched counts as none. *)
Definition GetDefaultNode : M DB err VPNNode :=
  rows ← or_raise ErrDb (query default_first);
  rows ← fetch rows;
  mret match rows with r :: _ => node_of r | [] => synthetic end.

Definition ResolveNode (nodeID : option Z) : M DB err VPNNode :=
  match nodeID with
  | Some id =>
    if (id =? 0)%Z then GetDefaultNode
    else n ← attempt (GetNode id); match n with Ok n => mret n | Err _ => GetDefaultNode end
  | None => GetDefaultNode
  end.
End nodes.

(** *** Statements on [vpn_nodes]: names are unique, and so is the default *)
Definition name_taken (except : Z → bool) (name : string) (d : DB) : bool :=
  exists_row (λ id n, negb (except id) && bool_decide (vn_name n = name)) d.(vpn_nodes).
Definition default_taken (except : Z → bool) (d : DB) : bool :=
  exists_row (λ id n, negb (except id) && vn_default n) d.(vpn_nodes).

Definition clear_default (except : Z → bool) (d : DB) : DB :=
  with_vpn_nodes (update_where (λ id _, negb (except id))
    (λ n, VpnNodeRow (vn_name n) (vn_region n) (vn_wireguard n) (vn_pubkey n) (vn_openvpn n) (vn_xray n)
            false) d.(vpn_nodes)) d.

(** A row is stored unless it violates an index. *)
Definition put_node (id : Z) (n : vpn_node_row) (d : DB) : option DB :=
  if name_taken (Z.eqb id) (vn_name n) d || vn_default n && default_taken (Z.eqb id) d then None
  else Some (with_vpn_nodes (<[id := n]> d.(vpn_nodes)) d).

Definition insert_node (id : Z) (n : vpn_node_row) (d : DB) : option DB :=
  match d.(vpn_nodes) !! id with Some _ => None | None => put_node id n d end.

(** [ON CONFLICT (name) DO UPDATE] *)
Definition upsert_node (id : Z) (n : vpn_node_row) (d : DB) : option DB :=
  match first_row (select_rows (λ _ m, bool_decide (vn_name m = vn_name n)) d.(vpn_nodes)) with
  | Some (old, _) => put_node old n d
  | None => insert_node id n d
  end.

Definition update_node (id : Z) (n : vpn_node_row) (d : DB) : option DB :=
  match d.(vpn_nodes) !! id with
  | Some old => put_node id (VpnNodeRow (vn_name n) (vn_region n) (vn_wireguard n) (vn_pubkey n)
                               (vn_openvpn n) (vn_xray old) (vn_default n)) d
  | None => Some d
  end.

(** [ON DELETE SET NULL] of [vpn_peers.node_id]. *)
Definition delete_node (id : Z) (d : DB) : DB :=
  with_vpn_nodes (delete id d.(vpn_nodes))
    (with_vpn_peers ((λ p, if bool_decide (vp_node p = Some id)
       then VpnPeerRow (vp_pubkey p) (vp_address p) (vp_created_at p) (vp_expires_at p) (vp_limit p) None
              (vp_client_id p) (vp_password p) else p) <$> d.(vpn_peers)) d).

Definition CreateNode (id : Z) (name region wgEndpoint wgPubKey ovpnEndpoint : string) (isDefault : bool) :
    M DB err VPNNode :=
  _ ← (if isDefault then exec (λ d, Some (clear_default (λ _, false) d)) else mret None);
  let n := VpnNodeRow name region wgEndpoint wgPubKey ovpnEndpoint "" isDefault in
  _ ← or_raise ErrDb (exec (insert_node id n));
  mret (mkNode id name region wgEndpoint wgPubKey ovpnEndpoint "" isDefault "").

Definition UpdateNode (id : Z) (name region wgEndpoint wgPubKey ovpnEndpoint : string) (isDefault : bool) :
    M DB err unit :=
  _ ← (if isDefault then exec (λ d, Some (clear_default (Z.eqb id) d)) else mret None);
  or_raise ErrDb (exec (update_node id (VpnNodeRow name region wgEndpoint wgPubKey ovpnEndpoint "" isDefault))).

Definition zero_node : vpn_node_row := VpnNodeRow "" "" "" "" "" "" false.

Definition dec_node `{GoUnicode} : Dec vpn_node_row := dec_struct
  [("name", at_field vn_name (λ v n, VpnNodeRow v (vn_region n) (vn_wireguard n) (vn_pubkey n)
      (vn_openvpn n) (vn_xray n) (vn_default n)) dec_string);
   ("region", at_field vn_region (λ v n, VpnNodeRow (vn_name n) v (vn_wireguard n) (vn_pubkey n)
      (vn_openvpn n) (vn_xray n) (vn_default n)) dec_string);
   ("wireguard_endpoint", at_field vn_wireguard (λ v n, VpnNodeRow (vn_name n) (vn_region n) v
      (vn_pubkey n) (vn_openvpn n) (vn_xray n) (vn_default n)) dec_string);
   ("wireguard_server_pubkey", at_field vn_pubkey (λ v n, VpnNodeRow (vn_name n) (vn_region n)
      (vn_wireguard n) v (vn_openvpn n) (vn_xray n) (vn_default n)) dec_string);
   ("openvpn_endpoint", at_field vn_openvpn (λ v n, VpnNodeRow (vn_name n) (vn_region n)
      (vn_wireguard n) (vn_pubkey n) v (vn_xray n) (vn_default n)) dec_string);
   ("xray_endpoint", at_field vn_xray (λ v n, VpnNodeRow (vn_name n) (vn_region n)
      (vn_wireguard n) (vn_pubkey n) (vn_openvpn n) v (vn_default n)) dec_string);
   ("is_default", at_field vn_default (λ v n, VpnNodeRow (vn_name n) (vn_region n)
      (vn_wireguard n) (vn_pubkey n) (vn_openvpn n) (vn_xray n) v) dec_bool)].

(** [fresh i]: the id the [i]-th node gets if it is new. *)
Definition seed_node (fresh : nat → Z) (in_ : nat * vpn_node_row) : M DB err unit :=
  let n := in_.2 in
  if String.eqb (vn_name n) "" then mret tt else
  _ ← (if vn_default n then exec (λ d, Some (clear_default (λ _, false) d)) else mret None);
  or_raise ErrDb (exec (upsert_node (fresh in_.1) n)).

Definition SeedFromJSON `{GoUnicode} (fresh : nat → Z) (jsonStr : string) : M DB err unit :=
  if String.eqb jsonStr "" then mret tt else
  match unmarshal jsonStr ≫= dec_slice zero_node dec_node nil_slice with
  | None => raise ErrJson
  | Some nodes => for_each (seed_node fresh) (imap pair (items nodes))
  end.

Definition DeleteNode (id : Z) : M DB err unit :=
  count ← or_raise ErrDb (query (λ d, length (select_rows (λ _ p, bool_decide (vp_node p = Some id)) d.(vpn_peers))));
  if (0 <? count) then
    raise (Failed ("cannot delete node with " +:+ itoa (Z.of_nat count) +:+ " peers"))
  else or_raise ErrDb (exec (λ d, Some (delete_node id d))).
End VpnNodes.
