(* ===== verification/XrayApi.v ===== *)
(** * Requests to the Xray API ([server/internal/vpn/xrayapi.go])

    The messages the server sends to Xray for its users, and how often.  The
    transport and Xray itself are other parties: whether a request succeeds is
    an argument. *)

From Stdlib Require Import Ascii String.
From stdpp Require Import strings.
From S2P Require Import Prelude.
Set Default Goal Selector "!".
Open Scope stdpp_scope.

Module XrayApi.

(** ** Messages *)
Inductive Account :=
| VMessAccount (Id : string) (AlterId : Z)
| VLESSAccount (Id Flow Encryption : string)
| TrojanAccount (Password : string).

Record User := mkUser { Email : string; Acc : Account }.

Inductive Operation :=
| AddUserOperation (u : User)
| RemoveUserOperation (email : string).

Record AlterInboundRequest := mkAlter { Tag : string; Op : Operation }.

#[export] Instance account_eq_dec : EqDecision Account.
Proof. solve_decision. Defined.
#[export] Instance user_eq_dec : EqDecision User.
Proof. solve_decision. Defined.
#[export] Instance operation_eq_dec : EqDecision Operation.
Proof. solve_decision. Defined.
#[export] Instance request_eq_dec : EqDecision AlterInboundRequest.
Proof. solve_decision. Defined.

Definition inboundTagVMess : string := "vmess-in".
Definition inboundTagVLESS : string := "vless-in".
Definition inboundTagTrojan : string := "trojan-in".
Definition xrayRetries : nat := 3.

(** ** Requests *)
Definition AddVMessUser (uuid email : string) : AlterInboundRequest :=
  mkAlter inboundTagVMess (AddUserOperation (mkUser email (VMessAccount uuid 0))).

Definition AddVLESSUser (uuid email : string) : AlterInboundRequest :=
  mkAlter inboundTagVLESS (AddUserOperation (mkUser email (VLESSAccount uuid "xtls-rprx-vision" "none"))).

Definition AddTrojanUser (password email : string) : AlterInboundRequest :=
  mkAlter inboundTagTrojan (AddUserOperation (mkUser email (TrojanAccount password))).

Definition RemoveUser (tag email : string) : AlterInboundRequest := mkAlter tag (RemoveUserOperation email).

(** The calls made, whose errors the callers ignore; [ends i]: whether the
    [i]-th is the last, because it succeeds or because the context ends while
    waiting for the next. *)
Fixpoint xrayRetry {A} (attempts : nat) (ends : nat → bool) (c : A) : list A :=
  match attempts with
  | 0 => []
  | S n => c :: (if ends 0 then [] else xrayRetry n (λ i, ends (S i)) c)
  end.

(** ** Properties *)

(** The same call at most [k] times, and never after one that was the last. *)
Lemma xrayRetry_calls {A} k ends (c : A) :
  ∃ n, xrayRetry k ends c = replicate n c ∧ n ≤ k ∧ (∀ i, S i < n → ends i = false) ∧
    (n = k ∨ ∃ i, n = S i ∧ ends i = true).
Proof.
  revert ends. induction k as [|k IH]; intros ends; [by exists 0; auto with lia|]. simpl.
  destruct (ends 0) eqn:He.
  - exists 1. split; [done|]. split; [lia|]. split; [lia|]. right. by exists 0.
  - destruct (IH (λ i, ends (S i))) as (n & -> & Hn & Hb & Hl). exists (S n). split; [done|]. split; [lia|].
    split; [|destruct Hl as [->|(i & -> & Hi)]; [by left|right; by exists (S i)]].
    intros [|i] Hi; [done|]. apply (Hb i). lia.
Qed.

Lemma xrayRetry_at_most {A} k ends (c : A) : length (xrayRetry k ends c) ≤ k ∧ ∀ c', c' ∈ xrayRetry k ends c → c' = c.
Proof.
  destruct (xrayRetry_calls k ends c) as (n & -> & Hn & _). rewrite length_replicate. split; [done|].
  by intros c' [? _]%elem_of_replicate.
Qed.

Lemma xrayRetry_once {A} k (c : A) : xrayRetry (S k) (λ _, true) c = [c].
Proof. done. Qed.

End XrayApi.
