(* ===== verification/Vpn.v ===== *)
(** * The VPN service ([server/internal/vpn/service.go])

    Configurations handed out to devices.  The Xray API ([xrayapi.go]) and the
    [wg] tool ([wg_stats.go]) are other processes: what they are asked is
    recorded in [v_calls], and what they answer is a parameter. *)

From Stdlib Require Import Ascii String.
From stdpp Require Import strings.
From S2P Require Import Prelude GoStrings Encoding Json Schema Samples Federation Config VpnText VpnNodes XrayApi.
Set Default Goal Selector "!".
Open Scope stdpp_scope.

Module Vpn.
Import Config VpnText VpnNodes XrayApi.

(** [time.Time.AddDate(0, 0, days)] in the server's time zone. *)
Class Calendar := { add_date : Z → Z → Z }.

(** ** State *)

(** The database, and what other processes were asked. *)
Inductive call :=
| XrayAlter (r : AlterInboundRequest)
| WGRemove (pubkey : string).

Record Vpn := mkVpn { v_db : DB; v_calls : list call }.

Definition on_pool {A} (m : M DB err A) : M Vpn err A := λ F w n,
  match m F (v_db w) n with (r, d, n') => (r, mkVpn d (v_calls w), n') end.

Definition ask (l : list call) : M Vpn err unit := λ F w n, (Ok tt, mkVpn (v_db w) (v_calls w ++ l), n).

(** ** Peers *)
Abbreviation peer_key := (Z * Z * string)%type.

(** The references of a row: its user, its device, its node. *)
Definition peer_refs (k : peer_key) (node : option Z) (d : DB) : bool :=
  match d.(users) !! k.1.1, d.(devices) !! k.1.2 with
  | Some _, Some _ =>
    match node with
    | None => true
    | Some id => match d.(vpn_nodes) !! id with Some _ => true | None => false end
    end
  | _, _ => false
  end.

(** [INSERT ... ON CONFLICT (user_id, device_id, protocol) DO UPDATE SET ...] *)
Definition upsert_peer (k : peer_key) (node : option Z) (new : vpn_peer_row)
    (update : vpn_peer_row → vpn_peer_row) (d : DB) : option DB :=
  if peer_refs k node d then
    Some (with_vpn_peers
      (<[k := match d.(vpn_peers) !! k with Some old => update old | None => new end]> d.(vpn_peers)) d)
  else None.

Definition upsert_wireguard (user dev : Z) (pubkey addr : string) (expires limit : Z) (node : option Z)
    (now : Z) : DB → option DB :=
  upsert_peer (user, dev, "wireguard") node
    (VpnPeerRow (Some pubkey) (Some addr) now (Some expires) limit node None None)
    (λ old, VpnPeerRow (Some pubkey) (Some (default addr (vp_address old))) now (Some expires) limit node
              (vp_client_id old) (vp_password old)).

Definition upsert_client_id (protocol : string) (user dev : Z) (id : string) (expires : Z)
    (node : option Z) (now : Z) : DB → option DB :=
  upsert_peer (user, dev, protocol) node
    (VpnPeerRow None None now (Some expires) 0 node (Some id) None)
    (λ old, VpnPeerRow (vp_pubkey old) (vp_address old) now (Some expires) (vp_limit old) node (Some id)
              (vp_password old)).

Definition upsert_password (user dev : Z) (password : string) (expires : Z) (node : option Z) (now : Z) :
    DB → option DB :=
  upsert_peer (user, dev, "trojan") node
    (VpnPeerRow None None now (Some expires) 0 node None (Some password))
    (λ old, VpnPeerRow (vp_pubkey old) (vp_address old) now (Some expires) (vp_limit old) node
              (vp_client_id old) (Some password)).

(** [nextval('vpn_wg_addr_seq')], whose last value is 253. *)
Definition next_addr (d : DB) : option (Z * DB) :=
  let n := d.(wg_addr_seq) in
  if (n <=? 253)%Z then Some (n, with_wg_addr_seq (n + 1) d) else None.

Definition wg_addr (n : Z) : string := "10.66.66." +:+ itoa n +:+ "/32".

Definition delete_peer (k : peer_key) (d : DB) : DB := with_vpn_peers (delete k d.(vpn_peers)) d.

(** ** The service *)
Record ProtocolInfo := mkProtocol { PID : string; PName : string; Hint : string }.

Section service.
Context `{HC : Curve25519, HT : Calendar, HU : UuidLib}.

(** [api]: whether the service is connected to the Xray API; [stats]: what
    [FetchWGStats] reads from the [wg] tool, received and sent bytes by key. *)
Context (cfg : VPNConfig) (api : bool) (answers : nat → bool)
  (stats : option (gmap string (Z * Z))).

Definition xrayEmail (userID deviceID : Z) : string :=
  "m:" +:+ itoa userID +:+ ":" +:+ uuid_string deviceID.

Definition xrayPort (protocol defaultPort : string) : string :=
  let port := if String.eqb protocol "vmess" then VmessPort (Xray cfg)
              else if String.eqb protocol "vless" then VlessPort (Xray cfg)
              else if String.eqb protocol "trojan" then TrojanPort (Xray cfg) else 0%Z in
  if (0 <? port)%Z then itoa port else defaultPort.

Definition ListProtocols : list ProtocolInfo :=
  if negb (Enabled cfg) then [] else
  (if WGEnabled (WireGuard cfg) && negb (String.eqb (ServerPubKey (WireGuard cfg)) "") then
     [mkProtocol "wireguard" "WireGuard" "Быстро, рекомендуется. Не работает? Попробуй Xray."] else []) ++
  (if OVPNEnabled (OpenVPNTCP443 cfg) then
     [mkProtocol "openvpn-tcp443" "OpenVPN (TCP 443)"
        "Если WireGuard заблокирован — маскируется под HTTPS."] else []) ++
  (if XrayEnabled (Xray cfg) && negb (String.eqb (XEndpoint (Xray cfg)) "") then
     [mkProtocol "vless" "VLESS (XTLS Vision)" "Рекомендуется. Xray, v2rayN, Nekoray, v2rayNG.";
      mkProtocol "vmess" "VMess (устаревший)" "Deprecated, предпочтительно VLESS.";
      mkProtocol "trojan" "Trojan (устаревший)" "Deprecated, предпочтительно VLESS."] else []).

(** [strconv.Atoi(v)] when the setting exists and parses to a positive number. *)
Definition positive_setting (key : string) (dflt : Z) (scale : Z → Z) : M DB err Z :=
  v ← query (λ d, d.(vpn_settings) !! key);
  mret match v with
       | Some (Some v) => match parse_int64 v with
                          | Some n => if (0 <? n)%Z then scale n else dflt
                          | None => dflt
                          end
       | _ => dflt
       end.

Definition getDefaultExpiryDays : M DB err Z :=
  positive_setting "default_expiry_days"
    (if (0 <? DefaultExpiryDays cfg)%Z then DefaultExpiryDays cfg else 30%Z) id.

Definition getDefaultTrafficLimitBytes : M DB err Z :=
  positive_setting "default_traffic_limit_mb" 0 (λ mb, wrap64 (mb * 1024 * 1024)).

Definition RemoveWGPeer (pubkey : string) : M Vpn err unit :=
  if String.eqb (StatsInterface (WireGuard cfg)) "" || String.eqb pubkey "" then mret tt
  else ask [WGRemove pubkey].

Definition node_ref (n : VPNNode) : option Z := if (NID n =? 0)%Z then None else Some (NID n).

(** [QueryRow(...).Scan(&v)] of a column that may be [NULL], with the error
    of no row, or of the statement, treated as the empty string. *)
Definition column (k : peer_key) (col : vpn_peer_row → option string) : M DB err string :=
  row ← query (λ d, d.(vpn_peers) !! k);
  mret match row with Some (Some p) => default "" (col p) | _ => "" end.

(** The address of the peer, or the next of the pool. *)
Definition client_address (k : peer_key) : M DB err string :=
  old ← column k vp_address;
  if negb (String.eqb old "") then mret old else
  n ← stmt next_addr;
  match n with
  | Some n => mret (wg_addr n)
  | None => raise ErrPool
  end.

(** [draw]: the random bytes of the key; [now], [dbnow]: the clocks of the
    process and of the database. *)
Definition getWireGuardConfig (draw : option string) (now dbnow : Z) (user dev : Z) (node : VPNNode) :
    M Vpn err (string * string) :=
  let k := (user, dev, "wireguard") in
  let pubKey := EffectiveWGServerPubKey cfg node in
  if negb (WGEnabled (WireGuard cfg)) || String.eqb pubKey "" then
    raise (Failed "wireguard disabled or not configured")
  else
    match WireGuardKeyPair draw with
    | None => raise ErrRand
    | Some (privKey, clientPubKey) =>
      old ← on_pool (column k vp_pubkey);
      _ ← (if negb (String.eqb old "") && negb (String.eqb old clientPubKey) then RemoveWGPeer old
           else mret tt);
      addr ← on_pool (client_address k);
      days ← on_pool getDefaultExpiryDays;
      limit ← on_pool getDefaultTrafficLimitBytes;
      _ ← on_pool (or_raise ErrDb (exec (upsert_wireguard user dev clientPubKey addr (add_date now days)
                                           limit (node_ref node) dbnow)));
      mret (BuildWireGuardConf privKey clientPubKey pubKey (EffectiveWGEndpoint cfg node) addr,
            "messenger-wireguard.conf")
    end.

Definition getOpenVPNConfig (node : VPNNode) : M Vpn err (string * string) :=
  if negb (OVPNEnabled (OpenVPNTCP443 cfg)) then raise (Failed "openvpn disabled") else
  mret ("# OpenVPN TCP 443 — мессенджер" +:+ newline +:+
        "# Установите OpenVPN клиент и замените этот файл на сгенерированный конфиг." +:+ newline +:+
        "# Админ сервера должен выдать .ovpn через панель OpenVPN." +:+ newline +:+
        "#" +:+ newline +:+ "# Endpoint: " +:+ EffectiveOpenVPNEndpoint cfg node +:+ newline +:+
        "# Протокол: TCP" +:+ newline +:+ "# Порт: 443" +:+ newline, "messenger-openvpn.ovpn").

(** The credential a device has for a protocol, or else the one drawn, which
    is then stored. *)
Definition credential (k : peer_key) (col : vpn_peer_row → option string) (fresh : option string)
    (store : string → Z → DB → option DB) (now : Z) : M Vpn err string :=
  old ← on_pool (column k col);
  if negb (String.eqb old "") then mret old else
  match fresh with
  | None => raise ErrRand
  | Some cred =>
    days ← on_pool getDefaultExpiryDays;
    _ ← on_pool (or_raise ErrDb (exec (store cred (add_date now days))));
    mret cred
  end.

(** A request to the API, when there is one. *)
Definition alter (r : AlterInboundRequest) : M Vpn err unit :=
  if api then ask (xrayRetry xrayRetries answers (XrayAlter r)) else mret tt.

(** The three Xray protocols: their request, file and URL. *)
Definition xray_config (protocol file : string) (add : string → string → AlterInboundRequest)
    (build : string → string → string → string → string) (cred : M Vpn err string)
    (user dev : Z) (node : VPNNode) : M Vpn err (string * string) :=
  if negb (XrayEnabled (Xray cfg)) then raise (Failed "xray disabled") else
  let endpoint := EffectiveXrayEndpoint cfg node in
  if String.eqb endpoint "" then raise (Failed "xray endpoint not configured") else
  let '(host, port) := parseHostPort endpoint in
  c ← cred;
  _ ← alter (add c (xrayEmail user dev));
  mret (build c host (xrayPort protocol port) ("messenger-" +:+ NName node), file).

(** [fresh]: the UUID drawn. *)
Definition getVMessConfig (fresh now dbnow : Z) (user dev : Z) (node : VPNNode) : M Vpn err (string * string) :=
  xray_config "vmess" "messenger-vmess.txt" AddVMessUser BuildVMessURL
    (credential (user, dev, "vmess") vp_client_id (Some (uuid_string fresh))
       (λ id exp, upsert_client_id "vmess" user dev id exp (node_ref node) dbnow) now) user dev node.

Definition getVLESSConfig (fresh now dbnow : Z) (user dev : Z) (node : VPNNode) : M Vpn err (string * string) :=
  xray_config "vless" "messenger-vless.txt" AddVLESSUser BuildVLESSURL
    (credential (user, dev, "vless") vp_client_id (Some (uuid_string fresh))
       (λ id exp, upsert_client_id "vless" user dev id exp (node_ref node) dbnow) now) user dev node.

Definition getTrojanConfig (draw : option string) (now dbnow : Z) (user dev : Z) (node : VPNNode) :
    M Vpn err (string * string) :=
  xray_config "trojan" "messenger-trojan.txt" AddTrojanUser BuildTrojanURL
    (credential (user, dev, "trojan") vp_password (GenerateTrojanPassword draw)
       (λ pw exp, upsert_password user dev pw exp (node_ref node) dbnow) now) user dev node.

(** Bytes used against the limit of a WireGuard peer. *)
Definition over_limit (protocol : string) (p : vpn_peer_row) : option Z :=
  match stats, vp_pubkey p with
  | Some st, Some key =>
    if ((0 <? vp_limit p)%Z && String.eqb protocol "wireguard") then
      '(rx, tx) ← st !! key;
      let used := wrap64 (rx + tx) in
      if (vp_limit p <=? used)%Z then Some used else None
    else None
  | _, _ => None
  end.

(** What the existing row of a device refuses; a failing query refuses
    nothing. *)
Definition admitted (protocol : string) (now : Z) (row : option (option vpn_peer_row)) : result err unit :=
  match row with
  | Some (Some p) =>
    if match vp_expires_at p with Some t => (t <? now)%Z | None => false end then
      Err (Failed "vpn config expired, request new one from admin")
    else match over_limit protocol p with
         | Some used => Err (Failed ("traffic limit exceeded (" +:+ itoa used +:+ " bytes used, limit " +:+
                                     itoa (vp_limit p) +:+ ")"))
         | None => Ok tt
         end
  | _ => Ok tt
  end.

(** [tick]: the clock of the process. *)
Definition GetConfig (draw : option string) (fresh : Z) (tick : nat → Z) (dbnow : Z) (protocol : string)
    (user dev : Z) (nodeID : option Z) : M Vpn err (string * string) :=
  if negb (Enabled cfg) then raise (Failed "vpn disabled") else
  row ← on_pool (query (λ d, d.(vpn_peers) !! (user, dev, protocol)));
  _ ← of_result (admitted protocol (tick 0) row);
  node ← on_pool (ResolveNode cfg nodeID);
  if String.eqb protocol "wireguard" then getWireGuardConfig draw (tick 1) dbnow user dev node
  else if String.eqb protocol "openvpn-tcp443" then getOpenVPNConfig node
  else if String.eqb protocol "vmess" then getVMessConfig fresh (tick 1) dbnow user dev node
  else if String.eqb protocol "vless" then getVLESSConfig fresh (tick 1) dbnow user dev node
  else if String.eqb protocol "trojan" then getTrojanConfig draw (tick 1) dbnow user dev node
  else raise (Failed ("unknown protocol: " +:+ protocol)).

Record MyConfigInfo := mkMyConfig {
  MDevice : string;
  MProtocol : string;
  MNodeName : string;
  MCreatedAt : Z;
  MExpiresAt : option Z;
  MIsExpired : bool;
  MTrafficRx : Z;
  MTrafficTx : Z;
  MTrafficLimit : Z;
}.

Definition my_config (now : Z) (k : peer_key) (p : vpn_peer_row) (node : string) : MyConfigInfo :=
  let used := default (0, 0)%Z (st ← stats; key ← vp_pubkey p; st !! key) in
  mkMyConfig (uuid_string k.1.2) k.2 node (vp_created_at p) (vp_expires_at p)
    match vp_expires_at p with Some t => (t <? now)%Z | None => false end used.1 used.2 (vp_limit p).

Definition created_desc (a b : peer_key * vpn_peer_row) : Prop :=
  (vp_created_at b.2 ≤ vp_created_at a.2)%Z.

#[export] Instance created_desc_dec a b : Decision (created_desc a b).
Proof. unfold created_desc. apply _. Defined.

(** [LEFT JOIN vpn_nodes] *)
Definition node_name (d : DB) (p : vpn_peer_row) : string :=
  default "Default" (id ← vp_node p; vn_name <$> d.(vpn_nodes) !! id).

Definition ListMyConfigs (now : nat → Z) (user : Z) : M DB err (list MyConfigInfo) :=
  rows ← or_raise ErrDb (query (λ d, (λ kp, (kp, node_name d kp.2)) <$>
    merge_sort created_desc (select_rows (λ k _, bool_decide (k.1.1 = user)) d.(vpn_peers))));
  rows ← fetch rows;
  mret (imap (λ i r, my_config (now i) r.1.1 r.1.2 r.2) rows).

Definition xray_tag (protocol : string) : option string :=
  if String.eqb protocol "vmess" then Some inboundTagVMess
  else if String.eqb protocol "vless" then Some inboundTagVLESS
  else if String.eqb protocol "trojan" then Some inboundTagTrojan else None.

Definition Revoke (user dev : Z) (protocol : string) : M Vpn err unit :=
  _ ← (match xray_tag protocol with
       | Some tag =>
         alter (RemoveUser tag (xrayEmail user dev))
       | None => mret tt
       end);
  on_pool (or_raise ErrDb (exec (λ d, Some (delete_peer (user, dev, protocol) d)))).
End service.

(** ** Well-formedness

    At most one node is the default and names are unique; peers refer to
    users, devices and nodes; addresses come from the pool, belong to
    WireGuard peers, and are never shared. *)
Definition nodes_ok (d : DB) : Prop :=
  ∀ i j n m, d.(vpn_nodes) !! i = Some n → d.(vpn_nodes) !! j = Some m →
    vn_name n = vn_name m ∨ vn_default n = true ∧ vn_default m = true → i = j.

Definition peers_ok (d : DB) : Prop :=
  ∀ k p, d.(vpn_peers) !! k = Some p → peer_refs k (vp_node p) d = true.

Definition addrs_ok (d : DB) : Prop :=
  (2 ≤ d.(wg_addr_seq) ≤ 254)%Z ∧
  (∀ k p a, d.(vpn_peers) !! k = Some p → vp_address p = Some a →
     k.2 = "wireguard" ∧ ∃ n, (2 ≤ n < d.(wg_addr_seq))%Z ∧ a = wg_addr n) ∧
  (∀ k k' p p' a, d.(vpn_peers) !! k = Some p → d.(vpn_peers) !! k' = Some p' →
     vp_address p = Some a → vp_address p' = Some a → k = k').

Definition vpn_inv (d : DB) : Prop := nodes_ok d ∧ peers_ok d ∧ addrs_ok d.

(** ** Lemmas *)
Lemma wg_addr_inj n m : wg_addr n = wg_addr m → n = m.
Proof.
  unfold wg_addr. intros H%string_app_inj_l%(f_equal (λ t, splitn2 t "/")).
  rewrite !(splitn2_app _ "/" "32") in H by by apply itoa_lacks.
  injection H as H. by apply itoa_inj in H.
Qed.

Lemma no_peers_inv d :
  nodes_ok d → d.(vpn_peers) = ∅ → (2 ≤ d.(wg_addr_seq) ≤ 254)%Z → vpn_inv d.
Proof.
  intros Hn Hp Hs. unfold vpn_inv, peers_ok, addrs_ok. rewrite Hp.
  split_and!; try done; try lia; intros *; rewrite lookup_empty; done.
Qed.

Lemma one_node_ok d node n : d.(vpn_nodes) ⊆ {[ node := n ]} → nodes_ok d.
Proof.
  intros Hs i j x y Hi Hj _. pose proof (lookup_weaken _ _ _ _ Hi Hs) as H1.
  pose proof (lookup_weaken _ _ _ _ Hj Hs) as H2. by simplify_map_eq.
Qed.

(** What the service may change of the database. *)
Definition outside (d0 d : DB) : Prop :=
  d = with_wg_addr_seq d.(wg_addr_seq) (with_vpn_peers d.(vpn_peers) (with_vpn_nodes d.(vpn_nodes) d0)).

(** Of the addresses handed out before [d0], a device has in [d] only the one
    it had. *)
Definition issued (d0 d : DB) : Prop :=
  (d0.(wg_addr_seq) ≤ d.(wg_addr_seq))%Z ∧
  ∀ k p n, d.(vpn_peers) !! k = Some p → vp_address p = Some (wg_addr n) → (n < d0.(wg_addr_seq))%Z →
    ∃ p0, d0.(vpn_peers) !! k = Some p0 ∧ vp_address p0 = Some (wg_addr n).

Record served (d0 d : DB) : Prop := mkServed {
  sv_inv : vpn_inv d;
  sv_outside : outside d0 d;
  sv_issued : issued d0 d;
}.

(** [a] may be stored for [k]. *)
Definition addr_for (d0 : DB) (k : peer_key) (a : string) (d : DB) : Prop :=
  k.2 = "wireguard" ∧
  (∀ k' p, d.(vpn_peers) !! k' = Some p → vp_address p = Some a → k' = k) ∧
  ∃ n, (2 ≤ n < d.(wg_addr_seq))%Z ∧ a = wg_addr n ∧
    ((n < d0.(wg_addr_seq))%Z → ∃ p0, d0.(vpn_peers) !! k = Some p0 ∧ vp_address p0 = Some a).

Lemma outside_trans d0 d d' : outside d0 d → outside d d' → outside d0 d'.
Proof. unfold outside. intros -> ->. by destruct d0. Qed.

Lemma served_refl d : vpn_inv d → served d d.
Proof. intros Hd. split; [done|by destruct d|]. split; [done|]. eauto. Qed.

Lemma addr_for_own d0 k p a d :
  served d0 d → d.(vpn_peers) !! k = Some p → vp_address p = Some a → addr_for d0 k a d.
Proof.
  intros [(_ & _ & Hs & Ha & Hu) _ [_ Hi]] Hk Hp. destruct (Ha _ _ _ Hk Hp) as (Hw & n & Hn & ->).
  split; [done|]. split; [intros k' p' Hk' Hp'; by eapply Hu|]. exists n. eauto.
Qed.

Lemma addr_for_next d0 k n d d' :
  k.2 = "wireguard" → served d0 d → next_addr d = Some (n, d') →
  served d0 d' ∧ addr_for d0 k (wg_addr n) d'.
Proof.
  intros Hw [(Hn & Hp & Hs & Ha & Hu) Ho [Hle Hi]]. unfold next_addr.
  destruct (Z.leb_spec (wg_addr_seq d) 253); [|done]. intros [= <- <-]. split.
  - split.
    + split; [done|]. split; [done|]. split; [simpl; lia|]. split; [|done]. intros k' p a Hk Hpa.
      destruct (Ha _ _ _ Hk Hpa) as (? & m & Hm & ->). simpl. split; [done|]. exists m. split; [lia|done].
    + eapply outside_trans; [done|]. by destruct d.
    + split; [simpl; lia|done].
  - split; [done|]. split.
    + intros k' p Hk Hpa. destruct (Ha _ _ _ Hk Hpa) as (_ & m & Hm & He%wg_addr_inj). lia.
    + exists (wg_addr_seq d). simpl. split; [lia|]. split; [done|lia].
Qed.

Lemma served_put d0 k p d :
  served d0 d → peer_refs k (vp_node p) d = true → (∀ a, vp_address p = Some a → addr_for d0 k a d) →
  served d0 (with_vpn_peers (<[k := p]> d.(vpn_peers)) d).
Proof.
  intros [(Hn & Hp & Hs & Ha & Hu) Ho [Hle Hi]] Hr Hf. split.
  - split; [done|]. split; [|split; [done|]].
    + intros k' p'. cbn [vpn_peers with_vpn_peers]. rewrite lookup_insert.
      case_decide as Hk; [intros [= <-]; by subst|by apply Hp].
    + split; intros k1.
      * intros p1 a. simpl. rewrite lookup_insert. case_decide as Hk; [|by apply Ha].
        intros [= <-] (? & _ & m & ? & ? & _)%Hf. subst. eauto.
      * intros k2 p1 p2 a. simpl. rewrite !lookup_insert.
        case_decide as Hk1; case_decide as Hk2; simplify_eq; [done|..|by apply Hu];
          intros H1 H2 Ha1 Ha2; simplify_eq.
        -- symmetry. by eapply (Hf a).
        -- by eapply (Hf a).
  - eapply outside_trans; [done|]. by destruct d.
  - split; [done|]. intros k' p' n. simpl. rewrite lookup_insert. case_decide as Hk; [|by apply Hi].
    intros [= <-] Hpa Hlt. subst. destruct (Hf _ Hpa) as (_ & _ & m & _ & ->%wg_addr_inj & He). auto.
Qed.

Lemma served_upsert d0 k node new upd d d' :
  served d0 d → upsert_peer k node new upd d = Some d' →
  vp_node new = node → (∀ old, vp_node (upd old) = node) →
  (∀ a, vp_address new = Some a → addr_for d0 k a d) →
  (∀ old a, d.(vpn_peers) !! k = Some old → vp_address (upd old) = Some a →
     vp_address old = Some a ∨ addr_for d0 k a d) →
  served d0 d'.
Proof.
  unfold upsert_peer. intros Hs Hu Hn1 Hn2 Ha1 Ha2. destruct (peer_refs k node d) eqn:Hr; [|done].
  injection Hu as <-. apply served_put; [done|..]; destruct (vpn_peers d !! k) as [old|] eqn:Hk.
  - by rewrite Hn2.
  - by rewrite Hn1.
  - intros a Ha. destruct (Ha2 _ _ eq_refl Ha); [|done]. by eapply addr_for_own.
  - done.
Qed.

Lemma served_delete d0 k d : served d0 d → served d0 (delete_peer k d).
Proof.
  intros [(Hn & Hp & Hs & Ha & Hu) Ho [Hle Hi]].
  assert (∀ k' p, delete k (vpn_peers d) !! k' = Some p → vpn_peers d !! k' = Some p) as Hd.
  { intros k' p. rewrite lookup_delete. by case_decide. }
  split.
  - split; [done|]. split; [intros ?? ?%Hd; by apply Hp|]. split; [done|].
    split; [intros ??? ?%Hd; by apply Ha|]. intros ????? ?%Hd ?%Hd. by apply Hu.
  - eapply outside_trans; [done|]. by destruct d.
  - split; [done|]. intros ??? ?%Hd. by apply Hi.
Qed.

(** *** Nodes *)
Lemma served_nodes d0 m d :
  served d0 d →
  (∀ i n, m !! i = Some n → ∀ j n', m !! j = Some n' →
     vn_name n = vn_name n' ∨ vn_default n = true ∧ vn_default n' = true → i = j) →
  (∀ i, is_Some (d.(vpn_nodes) !! i) → is_Some (m !! i)) →
  served d0 (with_vpn_nodes m d).
Proof.
  intros [(Hn & Hp & Hs) Ho Hi] Hm Hsub. split; [|eapply outside_trans; [done|]; by destruct d|done].
  split; [intros i j n n' H1 H2; by eapply Hm|]. split; [|done].
  intros k p Hk. pose proof (Hp k p Hk) as Hr. unfold peer_refs in *. cbn [users devices vpn_nodes with_vpn_nodes].
  destruct (users d !! k.1.1), (devices d !! k.1.2); try done. destruct (vp_node p) as [id|]; [|done].
  destruct (vpn_nodes d !! id) eqn:Hid; [|done]. destruct (Hsub id) as [n ->]; [by rewrite Hid|done].
Qed.

Lemma served_clear d0 P d : served d0 d → served d0 (clear_default P d).
Proof.
  intros Hs. assert (∀ i n, vpn_nodes (clear_default P d) !! i = Some n → ∃ n',
    vpn_nodes d !! i = Some n' ∧ vn_name n' = vn_name n ∧ (vn_default n = true → vn_default n' = true)) as Hc.
  { intros i n. unfold clear_default. cbn [vpn_nodes with_vpn_nodes]. rewrite lookup_update_where.
    destruct (vpn_nodes d !! i) as [n'|]; [|done]. simpl. case_match; intros [= <-]; by exists n'. }
  unfold clear_default in *. apply served_nodes; [done| |].
  - intros i n Hi j n' Hj Hor. apply Hc in Hi as (n1 & H1 & Hn1 & Hd1), Hj as (n2 & H2 & Hn2 & Hd2).
    destruct Hs as [[Hn _] _ _]. eapply (Hn i j); [done..|]. rewrite Hn1, Hn2.
    destruct Hor as [?|[? ?]]; auto.
  - intros i [n Hi]. rewrite lookup_update_where, Hi. by eexists.
Qed.

Lemma served_put_node d0 id n d d' : served d0 d → put_node id n d = Some d' → served d0 d'.
Proof.
  unfold put_node. intros Hs. destruct (name_taken (Z.eqb id) (vn_name n) d) eqn:Hname; [done|].
  destruct (vn_default n && default_taken (Z.eqb id) d) eqn:Hdef; [done|]. intros [= <-].
  assert (∀ j m, vpn_nodes d !! j = Some m → j ≠ id →
    vn_name m ≠ vn_name n ∧ (vn_default n && vn_default m = false)) as Hfree.
  { intros j m Hj Hne. split.
    - intros He. assert (name_taken (Z.eqb id) (vn_name n) d = true) as Ht; [|by rewrite Hname in Ht].
      apply exists_row_true. exists j, m. split; [done|]. rewrite He.
      by destruct (Z.eqb_spec id j); [subst|rewrite bool_decide_true].
    - apply andb_false_iff in Hdef as [->|Hd]; [done|]. apply andb_false_iff.
      destruct (vn_default m) eqn:Hm; [|by right]. assert (default_taken (Z.eqb id) d = true) as Ht; [|by rewrite Hd in Ht].
      apply exists_row_true. exists j, m. split; [done|]. rewrite Hm. by destruct (Z.eqb_spec id j); [subst|]. }
  apply served_nodes; [done| |].
  - intros i n1 Hi j n2 Hj Hor. destruct Hs as [[Hn _] _ _]. revert Hi Hj. rewrite !lookup_insert.
    case_decide as H1; case_decide as H2; subst; [done|..]; [| |intros; by eapply Hn].
    + intros [= <-] Hj. destruct (Hfree j n2 Hj) as [Hx Hy]; [done|]. destruct Hor as [He|[He1 He2]]; [by rewrite He in Hx|].
      by rewrite He1, He2 in Hy.
    + intros Hi [= <-]. destruct (Hfree i n1 Hi) as [Hx Hy]; [done|]. destruct Hor as [He|[He1 He2]]; [done|].
      by rewrite He1, He2 in Hy.
  - intros i [m Hm]. rewrite lookup_insert. case_decide; eauto.
Qed.

Lemma served_delete_node d0 id d : served d0 d → served d0 (delete_node id d).
Proof.
  intros [(Hn & Hp & Hs & Ha & Hu) Ho [Hle Hi]].
  assert (∀ k p, vpn_peers (delete_node id d) !! k = Some p → ∃ p', vpn_peers d !! k = Some p' ∧
    vp_address p = vp_address p' ∧ (vp_node p = None ∨ vp_node p = vp_node p' ∧ vp_node p ≠ Some id)) as Hd.
  { intros k p. unfold delete_node. cbn [vpn_peers with_vpn_nodes with_vpn_peers]. rewrite lookup_fmap.
    destruct (vpn_peers d !! k) as [p'|]; [|done]. simpl.
    case_bool_decide; intros [= <-]; simpl; eauto 6. }
  split.
  - split; [|split; [|split; [done|split]]].
    + intros i j n m. unfold delete_node. cbn [vpn_nodes with_vpn_nodes]. rewrite !lookup_delete.
      case_decide; [done|]. case_decide; [done|]. by apply Hn.
    + intros k p (p' & Hk & _ & Hnode)%Hd. pose proof (Hp _ _ Hk) as Hr. unfold peer_refs in *. simpl.
      destruct (users d !! k.1.1), (devices d !! k.1.2); try done.
      destruct Hnode as [->|[He Hne]]; [done|]. rewrite <- He in Hr. destruct (vp_node p) as [i|]; [|done].
      rewrite lookup_delete_ne by congruence. done.
    + intros k p a (p' & Hk & -> & _)%Hd. by apply Ha.
    + intros k k' p p' a (p1 & Hk & -> & _)%Hd (p2 & Hk' & -> & _)%Hd. by apply Hu.
  - eapply outside_trans; [done|]. by destruct d.
  - split; [done|]. intros k p n (p' & Hk & -> & _)%Hd. by apply Hi.
Qed.
(** ** Operations *)
Section operations.
Context `{HU : GoUnicode, HC : Curve25519, HT : Calendar, HI : UuidLib}.
Context (cfg : VPNConfig) (api : bool) (answers : nat → bool) (stats : option (gmap string (Z * Z))).

Inductive op :=
| OpGetConfig (draw : option string) (fresh : Z) (tick : nat → Z) (dbnow : Z) (protocol : string)
    (user dev : Z) (node : option Z)
| OpListMyConfigs (now : nat → Z) (user : Z)
| OpRevoke (user dev : Z) (protocol : string)
| OpListNodes (by_name : list (Z * vpn_node_row) → list (Z * vpn_node_row))
| OpCreateNode (id : Z) (name region wg pub ovpn : string) (dflt : bool)
| OpUpdateNode (id : Z) (name region wg pub ovpn : string) (dflt : bool)
| OpSeed (fresh : nat → Z) (text : string)
| OpDeleteNode (id : Z).

Definition run_op (o : op) : M Vpn err unit :=
  match o with
  | OpGetConfig draw fresh tick dbnow protocol user dev node =>
    _ ← GetConfig cfg api answers stats draw fresh tick dbnow protocol user dev node; mret tt
  | OpListMyConfigs now user => _ ← on_pool (ListMyConfigs stats now user); mret tt
  | OpRevoke user dev protocol => Revoke api answers user dev protocol
  | OpListNodes by_name => _ ← on_pool (ListNodes by_name); mret tt
  | OpCreateNode id name region wg pub ovpn dflt =>
    _ ← on_pool (CreateNode id name region wg pub ovpn dflt); mret tt
  | OpUpdateNode id name region wg pub ovpn dflt => on_pool (UpdateNode id name region wg pub ovpn dflt)
  | OpSeed fresh text => on_pool (SeedFromJSON fresh text)
  | OpDeleteNode id => on_pool (DeleteNode id)
  end.

(** *** Each keeps [served d0] *)
Lemma wp_on_pool {A} F (m : M DB err A) (Q : result err A → Vpn → Prop) w :
  wp F m (λ r d, Q r (mkVpn d (v_calls w))) (v_db w) → wp F (on_pool m) Q w.
Proof. intros H n. specialize (H n). unfold on_pool. by destruct (m F (v_db w) n) as [[r d] n']. Qed.

Lemma wp_ask F l (Q : result err unit → Vpn → Prop) w :
  Q (Ok tt) (mkVpn (v_db w) (v_calls w ++ l)) → wp F (ask l) Q w.
Proof. by intros H n. Qed.

Lemma keeps_on_pool {A} I (m : M DB err A) : keeps I m → keeps (λ w, I (v_db w)) (on_pool m).
Proof. intros Hm F w Hw. apply wp_on_pool. by apply Hm. Qed.

Lemma keeps_ask (I : DB → Prop) l : keeps (λ w, I (v_db w)) (ask l).
Proof. intros F w Hw. by apply wp_ask. Qed.

Lemma keeps_setting I key dflt scale : keeps I (positive_setting key dflt scale).
Proof. unfold positive_setting. keeps_go. Qed.
Lemma keeps_RemoveWGPeer (I : DB → Prop) key : keeps (λ w, I (v_db w)) (RemoveWGPeer cfg key).
Proof. unfold RemoveWGPeer. case_match; [apply keeps_ret|apply keeps_ask]. Qed.
Lemma keeps_alter (I : DB → Prop) r : keeps (λ w, I (v_db w)) (alter api answers r).
Proof. unfold alter. case_match; [apply keeps_ask|apply keeps_ret]. Qed.
Lemma keeps_column I k col : keeps I (column k col).
Proof. unfold column. keeps_go. Qed.
Lemma keeps_ResolveNode I node : keeps I (ResolveNode cfg node).
Proof. unfold ResolveNode, GetNode, GetDefaultNode. keeps_go. Qed.
End operations.

#[export] Hint Resolve keeps_ask keeps_setting keeps_RemoveWGPeer keeps_alter keeps_column
  keeps_ResolveNode : wp_db.

(** [keeps_go] on the service. *)
Ltac keeps_vpn := repeat first [keeps_step; cbn beta iota
  | lazymatch goal with |- keeps _ (on_pool _) => apply keeps_on_pool end].

Section proofs.
Context `{HU : GoUnicode, HC : Curve25519, HT : Calendar, HI : UuidLib}.
Context (cfg : VPNConfig) (api : bool) (answers : nat → bool) (stats : option (gmap string (Z * Z))).

Lemma wp_setting F key dflt scale (Q : result err Z → DB → Prop) d :
  (∀ z, Q (Ok z) d) → wp F (positive_setting key dflt scale) Q d.
Proof. intros HQ. unfold positive_setting. wp_go; apply HQ. Qed.

Lemma wp_client_address F d0 k d :
  k.2 = "wireguard" → served d0 d →
  wp F (client_address k) (λ r d', served d0 d' ∧ ∀ a, r = Ok a → addr_for d0 k a d') d.
Proof.
  intros Hw Hs.
  assert (∀ n d', next_addr d = Some (n, d') →
    served d0 d' ∧ ∀ a, Ok (E := err) (wg_addr n) = Ok a → addr_for d0 k a d') as Hnext.
  { intros n d' [? ?]%(addr_for_next d0 k); [|done..]. split; [done|]. by intros a [= <-]. }
  unfold client_address, column. repeat (wp_step; cbn beta iota); try (by apply Hnext);
    (split; [done|]; intros; simplify_eq).
  revert Heqb. destruct (vpn_peers d !! k) as [p|] eqn:Hk; [|done].
  destruct (vp_address p) eqn:Ha; [|done]. intros _. by eapply addr_for_own.
Qed.

Lemma served_wireguard d0 user dev pub addr exp lim node now d d' :
  served d0 d → addr_for d0 (user, dev, "wireguard") addr d →
  upsert_wireguard user dev pub addr exp lim node now d = Some d' → served d0 d'.
Proof.
  intros Hs Ha Hu. eapply served_upsert; [done|exact Hu|done|done|by intros a [= <-]|].
  intros old a _. simpl. destruct (vp_address old); intros [= ->]; auto.
Qed.

Lemma served_client_id d0 protocol user dev id exp node now d d' :
  served d0 d → upsert_client_id protocol user dev id exp node now d = Some d' → served d0 d'.
Proof. intros Hs Hu. eapply served_upsert; [done|exact Hu|done|done|done|]. simpl. auto. Qed.

Lemma served_password d0 user dev pw exp node now d d' :
  served d0 d → upsert_password user dev pw exp node now d = Some d' → served d0 d'.
Proof. intros Hs Hu. eapply served_upsert; [done|exact Hu|done|done|done|]. simpl. auto. Qed.

Lemma keeps_wireguard d0 draw now dbnow user dev node :
  keeps (λ w, served d0 (v_db w)) (getWireGuardConfig cfg draw now dbnow user dev node).
Proof.
  unfold getWireGuardConfig. cbv zeta. case_match; [apply keeps_raise|].
  destruct (WireGuardKeyPair draw) as [[priv pub]|]; [|apply keeps_raise].
  apply keeps_bind; [by apply keeps_on_pool; auto with wp_db|intros old].
  apply keeps_bind; [case_match; auto with wp_db|intros _].
  intros F w Hw. apply wp_bind, wp_on_pool. eapply wp_mono; [by apply wp_client_address|].
  intros [addr|e] d [Hd Ha]; [|done]. specialize (Ha _ eq_refl).
  apply wp_bind, wp_on_pool, wp_setting. intros days. apply wp_bind, wp_on_pool, wp_setting. intros limit.
  apply wp_bind, wp_on_pool, wp_or_raise, wp_exec; [done|]. intros d' Hu. apply wp_ret. simpl.
  by eapply served_wireguard.
Qed.

Lemma keeps_credential d0 k col fresh store now :
  (∀ cred t d d', served d0 d → store cred t d = Some d' → served d0 d') →
  keeps (λ w, served d0 (v_db w)) (credential cfg k col fresh store now).
Proof. intros Hs. unfold credential, getDefaultExpiryDays. keeps_vpn. by eapply Hs. Qed.

Lemma keeps_xray d0 protocol file add build cred user dev node :
  keeps (λ w, served d0 (v_db w)) cred →
  keeps (λ w, served d0 (v_db w)) (xray_config cfg api answers protocol file add build cred user dev node).
Proof.
  intros Hc. unfold xray_config. cbv zeta. repeat (case_match; [by apply keeps_raise|]).
  destruct (parseHostPort _). apply keeps_bind; [done|]. intros c.
  apply keeps_bind; [auto with wp_db|intros; apply keeps_ret].
Qed.

Lemma keeps_GetConfig d0 draw fresh tick dbnow protocol user dev node :
  keeps (λ w, served d0 (v_db w))
    (GetConfig cfg api answers stats draw fresh tick dbnow protocol user dev node).
Proof.
  unfold GetConfig. case_match; [apply keeps_raise|].
  apply keeps_bind; [apply keeps_on_pool; keeps_go|intros row].
  apply keeps_bind; [apply keeps_of_result|intros _].
  apply keeps_bind; [apply keeps_on_pool; auto with wp_db|intros n].
  repeat case_match; [apply keeps_wireguard|unfold getOpenVPNConfig; keeps_vpn|..|apply keeps_raise];
    apply keeps_xray, keeps_credential; intros.
  - by eapply served_client_id.
  - by eapply served_client_id.
  - by eapply served_password.
Qed.

Lemma keeps_SeedFromJSON d0 fresh text : keeps (served d0) (SeedFromJSON fresh text).
Proof.
  unfold SeedFromJSON, seed_node. keeps_go; simplify_eq; [by apply served_clear|].
  unfold upsert_node, insert_node in *. repeat case_match; simplify_eq; by eapply served_put_node.
Qed.

Lemma keeps_run_op d0 o : keeps (λ w, served d0 (v_db w)) (run_op cfg api answers stats o).
Proof.
  destruct o; cbn [run_op].
  - apply keeps_bind; [apply keeps_GetConfig|intros; apply keeps_ret].
  - unfold ListMyConfigs. keeps_vpn.
  - unfold Revoke. keeps_vpn. simplify_eq. by apply served_delete.
  - unfold ListNodes. keeps_vpn.
  - unfold CreateNode. keeps_vpn; simplify_eq; [by apply served_clear|].
    unfold insert_node in *. case_match; [done|]. by eapply served_put_node.
  - unfold UpdateNode. keeps_vpn; simplify_eq; [by apply served_clear|].
    unfold update_node in *. case_match; simplify_eq; [|done]. by eapply served_put_node.
  - apply keeps_on_pool, keeps_SeedFromJSON.
  - unfold DeleteNode. keeps_vpn. simplify_eq. by apply served_delete_node.
Qed.

(** *** What the node of a configuration is *)
Definition default_node (d : DB) : VPNNode :=
  match default_first d with r :: _ => node_of r | [] => synthetic cfg end.

Definition resolved (nodeID : option Z) (d : DB) : VPNNode :=
  match nodeID with
  | Some id => if (id =? 0)%Z then default_node d
               else match d.(vpn_nodes) !! id with Some n => node_of (id, n) | None => default_node d end
  | None => default_node d
  end.

Lemma wp_GetDefaultNode F (Q : result err VPNNode → DB → Prop) d :
  (∀ r, faulty F → Q r d) → Q (Ok (default_node d)) d → wp F (GetDefaultNode cfg) Q d.
Proof.
  intros Hf HQ. unfold GetDefaultNode. apply wp_bind, wp_or_raise, wp_query_fault; [by apply Hf|].
  apply wp_bind, wp_fetch. intros l' _ [?| ->]; apply wp_ret; auto.
Qed.

Lemma wp_ResolveNode F nodeID (Q : result err VPNNode → DB → Prop) d :
  (∀ r, faulty F → Q r d) → Q (Ok (resolved nodeID d)) d → wp F (ResolveNode cfg nodeID) Q d.
Proof.
  intros Hf HQ. unfold ResolveNode, resolved in *.
  destruct nodeID as [id|]; [|by apply wp_GetDefaultNode]. destruct (id =? 0)%Z; [by apply wp_GetDefaultNode|].
  apply wp_bind, wp_attempt. unfold GetNode.
  apply wp_bind, wp_or_raise, wp_query_fault.
  - intros ?. apply wp_GetDefaultNode; auto.
  - destruct (vpn_nodes d !! id); [by do 2 apply wp_ret|].
    apply wp_raise. by apply wp_GetDefaultNode.
Qed.

Lemma default_first_stored d r : r ∈ default_first d → d.(vpn_nodes) !! r.1 = Some r.2.
Proof.
  intros Hr. assert (r ∈ select_rows (λ _ n, vn_default n) (vpn_nodes d) ++
    select_rows (λ _ n, negb (vn_default n)) (vpn_nodes d)) as Hin.
  { unfold default_first in Hr. rewrite <- (take_drop 1 (_ ++ _)). apply elem_of_app. by left. }
  destruct r. apply elem_of_app in Hin as [[? _]%elem_of_select_rows|[? _]%elem_of_select_rows]; done.
Qed.

(** The node of a configuration can be stored with it. *)
Lemma resolved_ref nodeID d id :
  node_ref (resolved nodeID d) = Some id → is_Some (d.(vpn_nodes) !! id).
Proof.
  assert (node_ref (default_node d) = Some id → is_Some (vpn_nodes d !! id)) as Hd.
  { unfold default_node. pose proof (default_first_stored d) as Hs.
    destruct (default_first d) as [|r l]; [done|]. unfold node_ref. simpl.
    destruct (r.1 =? 0)%Z; [done|]. intros [= <-]. rewrite Hs by (by left). by eexists. }
  unfold resolved. destruct nodeID as [i|]; [|done]. destruct (i =? 0)%Z; [done|].
  destruct (vpn_nodes d !! i) eqn:Hi; [|done]. unfold node_ref. simpl.
  destruct (i =? 0)%Z; [done|]. intros [= <-]. by eexists.
Qed.

(** *** What is read *)
Definition stored (col : vpn_peer_row → option string) (k : peer_key) (d : DB) : string :=
  match d.(vpn_peers) !! k with Some p => default "" (col p) | None => "" end.

Definition setting_value (key : string) (dflt : Z) (scale : Z → Z) (d : DB) : Z :=
  match v ← d.(vpn_settings) !! key; parse_int64 v with
  | Some n => if (0 <? n)%Z then scale n else dflt
  | None => dflt
  end.

Definition expiry_days (d : DB) : Z :=
  setting_value "default_expiry_days"
    (if (0 <? DefaultExpiryDays cfg)%Z then DefaultExpiryDays cfg else 30%Z) id d.
Definition traffic_limit (d : DB) : Z :=
  setting_value "default_traffic_limit_mb" 0 (λ mb, wrap64 (mb * 1024 * 1024)) d.

Lemma wp_column F k col (Q : result err string → DB → Prop) d :
  (faulty F → Q (Ok "") d) → Q (Ok (stored col k d)) d → wp F (column k col) Q d.
Proof.
  intros Hf HQ. unfold column. apply wp_bind, wp_query_fault; [by intros; apply wp_ret; auto|by apply wp_ret].
Qed.

Lemma wp_setting_value F key dflt scale (Q : result err Z → DB → Prop) d :
  (faulty F → Q (Ok dflt) d) → Q (Ok (setting_value key dflt scale d)) d →
  wp F (positive_setting key dflt scale) Q d.
Proof.
  intros Hf HQ. unfold positive_setting, setting_value in *.
  apply wp_bind, wp_query_fault; [by intros; apply wp_ret; auto|]. apply wp_ret.
  destruct (vpn_settings d !! key) as [v|]; [|done]. simpl in *. by destruct (parse_int64 v).
Qed.

Lemma setting_value_seq key dflt scale n d :
  setting_value key dflt scale (with_wg_addr_seq n d) = setting_value key dflt scale d.
Proof. done. Qed.

(** The old key of the device on the interface. *)
Definition dropped_key (old new : string) : list call :=
  if negb (String.eqb old "") && negb (String.eqb old new) &&
     negb (String.eqb (StatsInterface (WireGuard cfg)) "") then [WGRemove old] else [].

Lemma wp_drop_old F old new (Q : result err unit → Vpn → Prop) w :
  Q (Ok tt) (mkVpn (v_db w) (v_calls w ++ dropped_key old new)) →
  wp F (if negb (String.eqb old "") && negb (String.eqb old new) then RemoveWGPeer cfg old else mret tt) Q w.
Proof.
  unfold dropped_key, RemoveWGPeer. destruct w as [d l]. simpl.
  destruct (String.eqb old "") eqn:Ho, (String.eqb old new), (String.eqb (StatsInterface _) "");
    simpl; rewrite ?app_nil_r; intros; by (apply wp_ret || apply wp_ask).
Qed.

(** What a device gets is what is stored for it: the key pair drawn and, when
    no statement failed, the address, the node, the expiry and the limit. *)
Definition wireguard_post F (draw : option string) (now dbnow : Z) (user dev : Z) (node : VPNNode)
    (w : Vpn) (c : string * string) (w' : Vpn) : Prop :=
  let k := (user, dev, "wireguard") in
  ∃ b addr p, draw = Some b ∧
    let pub := b64_encode (scalar_base_mult (clamp b)) in
    c = (BuildWireGuardConf (b64_encode (clamp b)) pub (EffectiveWGServerPubKey cfg node)
           (EffectiveWGEndpoint cfg node) addr, "messenger-wireguard.conf") ∧
    (v_db w').(vpn_peers) !! k = Some p ∧ vp_pubkey p = Some pub ∧ vp_node p = node_ref node ∧
    vp_created_at p = dbnow ∧
    (faulty F ∨
     vp_address p = Some addr ∧ (stored vp_address k (v_db w) ≠ "" → addr = stored vp_address k (v_db w)) ∧
     vp_expires_at p = Some (add_date now (expiry_days (v_db w))) ∧ vp_limit p = traffic_limit (v_db w) ∧
     v_calls w' = v_calls w ++ dropped_key (stored vp_pubkey k (v_db w)) pub).

(** The address a run gives, and what it leaves of the database. *)
Lemma wp_address F k d :
  addrs_ok d →
  wp F (client_address k) (λ r d', ∀ addr, r = Ok addr →
    d'.(vpn_peers) = d.(vpn_peers) ∧ d'.(vpn_settings) = d.(vpn_settings) ∧
    (faulty F ∨ (default addr (p ← d.(vpn_peers) !! k; vp_address p) = addr ∧
                 (stored vp_address k d ≠ "" → addr = stored vp_address k d)))) d.
Proof.
  intros (_ & Ha & _). unfold client_address.
  apply wp_bind, wp_column; intros; case_match eqn:He.
  - done.
  - apply wp_bind, wp_stmt; [by apply wp_raise|]. intros n d' Hn. apply wp_ret. intros addr [= <-].
    unfold next_addr in Hn. case_match; simplify_eq. auto.
  - apply wp_ret. intros addr [= <-]. split; [done|]. split; [done|]. right. split; [|done].
    unfold stored in *. destruct (vpn_peers d !! k) as [p|]; [|done]. simpl. by destruct (vp_address p).
  - apply negb_false_iff, String.eqb_eq in He. rewrite He.
    apply wp_bind, wp_stmt; [by apply wp_raise|]. intros n d' Hn. apply wp_ret. intros addr [= <-].
    unfold next_addr in Hn. case_match; simplify_eq. split; [done|]. split; [done|]. right. split; [|done].
    unfold stored in He. destruct (vpn_peers d !! k) as [p|] eqn:Hk; [|done]. simpl in *.
    destruct (vp_address p) as [a|] eqn:Hp; [|done]. simpl in *. subst.
    by destruct (Ha _ _ _ Hk Hp) as (_ & m & _ & ?).
Qed.

Lemma wp_getWireGuardConfig F draw now dbnow user dev node w :
  addrs_ok (v_db w) →
  wp F (getWireGuardConfig cfg draw now dbnow user dev node) (λ r w', ∀ c, r = Ok c →
    wireguard_post F draw now dbnow user dev node w c w') w.
Proof.
  intros Ha. unfold getWireGuardConfig. cbv zeta. case_match; [by apply wp_raise|].
  destruct draw as [b|]; [|by apply wp_raise]. cbn [WireGuardKeyPair fmap option_fmap option_map mbind option_bind].
  set (pub := b64_encode (scalar_base_mult (clamp b))).
  apply wp_bind, wp_on_pool, (wp_mono _ _ (λ r d, d = v_db w ∧ ∃ old, r = Ok old ∧
    (faulty F ∨ old = stored vp_pubkey (user, dev, "wireguard") (v_db w)))).
  { apply wp_column; eauto 6. }
  intros r d (-> & old & -> & Hold). apply wp_bind, wp_drop_old. simpl.
  apply wp_bind, wp_on_pool. eapply wp_mono; [by apply wp_address|]. simpl.
  intros [addr|e] d Hd; [|done]. destruct (Hd _ eq_refl) as (Hp & Hs & Haddr).
  assert (∀ key dflt scale, setting_value key dflt scale d = setting_value key dflt scale (v_db w)) as Hset.
  { intros. unfold setting_value. by rewrite Hs. }
  apply wp_bind, wp_on_pool, (wp_mono _ _ (λ r d', d' = d ∧ ∃ z, r = Ok z ∧
    (faulty F ∨ z = expiry_days (v_db w)))).
  { apply wp_setting_value; [eauto 6|]. unfold expiry_days. rewrite Hset. eauto 6. }
  intros r d' (-> & days & -> & Hdays).
  apply wp_bind, wp_on_pool, (wp_mono _ _ (λ r d', d' = d ∧ ∃ z, r = Ok z ∧
    (faulty F ∨ z = traffic_limit (v_db w)))).
  { apply wp_setting_value; [eauto 6|]. unfold traffic_limit. rewrite Hset. eauto 6. }
  intros r d' (-> & limit & -> & Hlimit).
  apply wp_bind, wp_on_pool, wp_or_raise, wp_exec; [done|]. intros d' Hu. apply wp_ret. intros c [= <-].
  unfold upsert_wireguard, upsert_peer in Hu. simpl in Hu. destruct (peer_refs _ _ _); [|done]. injection Hu as <-.
  exists b, addr. eexists. split; [done|]. cbv zeta. split; [done|]. simpl. rewrite lookup_insert_eq, Hp.
  split; [done|]. destruct (vpn_peers (v_db w) !! (user, dev, "wireguard")) as [p|] eqn:Hk; simpl in *;
    (split_and!; [done..|]);
    (destruct Hold as [?| ->]; [by left|]); (destruct Haddr as [?|[Had Hst]]; [by left|]);
    (destruct Hdays as [?| ->]; [by left|]); (destruct Hlimit as [?| ->]; [by left|]);
    right; split_and!; try done; by f_equal.
Qed.

(** With nothing failing, a configuration is made unless the addresses have
    run out. *)
Lemma wp_getWireGuardConfig_ok b now dbnow user dev node w :
  WGEnabled (WireGuard cfg) = true → EffectiveWGServerPubKey cfg node ≠ "" →
  stored vp_address (user, dev, "wireguard") (v_db w) ≠ "" ∨ ((v_db w).(wg_addr_seq) ≤ 253)%Z →
  peer_refs (user, dev, "wireguard") (node_ref node) (v_db w) = true →
  wp no_faults (getWireGuardConfig cfg (Some b) now dbnow user dev node) (λ r _, is_ok r = true) w.
Proof.
  intros He Hp Ha Hr. unfold getWireGuardConfig. rewrite He. apply String.eqb_neq in Hp. rewrite Hp. simpl.
  apply wp_bind, wp_on_pool, wp_column; [by intros ?%not_faulty|].
  apply wp_bind, wp_drop_old. apply wp_bind, wp_on_pool.
  apply (wp_mono _ _ (λ r d, is_ok r = true ∧ ∀ node, peer_refs (user, dev, "wireguard") node d =
    peer_refs (user, dev, "wireguard") node (v_db w))).
  { unfold client_address. apply wp_bind, wp_column; [by intros ?%not_faulty|]. case_match eqn:Hs; [by apply wp_ret|].
    apply negb_false_iff, String.eqb_eq in Hs. apply wp_bind, wp_stmt_nf. destruct Ha as [?|Ha]; [done|].
    unfold next_addr. simpl. destruct (Z.leb_spec (wg_addr_seq (v_db w)) 253); [|lia]. by apply wp_ret. }
  intros [addr|e] d [Hok Hd]; [|done]. apply wp_bind, wp_on_pool, wp_setting. intros days.
  apply wp_bind, wp_on_pool, wp_setting. intros limit. apply wp_bind, wp_on_pool, wp_or_raise, wp_exec_nf.
  unfold upsert_wireguard, upsert_peer. simpl. rewrite Hd, Hr. by apply wp_ret.
Qed.

Lemma wp_getWireGuardConfig_exhausted F draw now dbnow user dev node w :
  (253 < (v_db w).(wg_addr_seq))%Z → stored vp_address (user, dev, "wireguard") (v_db w) = "" →
  wp F (getWireGuardConfig cfg draw now dbnow user dev node) (λ r _, is_ok r = false) w.
Proof.
  intros Ha Hs. unfold getWireGuardConfig. cbv zeta. case_match; [by apply wp_raise|].
  destruct (WireGuardKeyPair draw) as [[priv pub]|]; [|by apply wp_raise].
  assert (∀ w1, v_db w1 = v_db w → wp F (on_pool (client_address (user, dev, "wireguard")))
    (λ r _, is_ok r = false) w1) as Hc.
  { intros w1 H1. apply wp_on_pool. rewrite H1. unfold client_address. apply wp_bind, wp_column.
    all: intros; rewrite ?Hs; simpl; apply wp_bind, wp_stmt; [by apply wp_raise|].
    all: intros ??; unfold next_addr; destruct (Z.leb_spec (wg_addr_seq (v_db w)) 253); [lia|done]. }
  apply wp_bind, wp_on_pool, wp_column; intros;
    apply wp_bind, wp_drop_old, wp_bind; (eapply wp_mono; [by apply Hc|]); by intros [].
Qed.

(** *** Xray configurations *)
Lemma vpn_eta w : mkVpn (v_db w) (v_calls w) = w.
Proof. by destruct w. Qed.

(** The column, the request, the file, the text and the draw of a protocol. *)
Definition xray_column (protocol : string) : vpn_peer_row → option string :=
  if String.eqb protocol "trojan" then vp_password else vp_client_id.
Definition xray_request (protocol : string) : string → string → AlterInboundRequest :=
  if String.eqb protocol "vmess" then AddVMessUser
  else if String.eqb protocol "vless" then AddVLESSUser else AddTrojanUser.
Definition xray_file (protocol : string) : string := "messenger-" +:+ protocol +:+ ".txt".
Definition xray_url (protocol : string) : string → string → string → string → string :=
  if String.eqb protocol "vmess" then BuildVMessURL
  else if String.eqb protocol "vless" then BuildVLESSURL else BuildTrojanURL.
Definition xray_draw (protocol : string) (draw : option string) (fresh : Z) : option string :=
  if String.eqb protocol "trojan" then GenerateTrojanPassword draw else Some (uuid_string fresh).

(** What a device gets is what is stored for it and what Xray is told. *)
Definition xray_post F (protocol : string) (draw : option string) (fresh now dbnow : Z) (user dev : Z)
    (node : VPNNode) (w : Vpn) (c : string * string) (w' : Vpn) : Prop :=
  let k := (user, dev, protocol) in
  let '(host, port) := parseHostPort (EffectiveXrayEndpoint cfg node) in
  let old := stored (xray_column protocol) k (v_db w) in
  ∃ cred,
    c = (xray_url protocol cred host (xrayPort cfg protocol port) ("messenger-" +:+ NName node),
         xray_file protocol) ∧
    v_calls w' = v_calls w ++
      (if api then xrayRetry xrayRetries answers (XrayAlter (xray_request protocol cred (xrayEmail user dev)))
       else []) ∧
    (old ≠ "" ∧ cred = old ∧ v_db w' = v_db w ∨
     (old = "" ∨ faulty F) ∧ xray_draw protocol draw fresh = Some cred ∧
     ∃ p, (v_db w').(vpn_peers) = <[k := p]> (v_db w).(vpn_peers) ∧ xray_column protocol p = Some cred ∧
       vp_node p = node_ref node ∧ vp_created_at p = dbnow ∧
       (faulty F ∨ vp_expires_at p = Some (add_date now (expiry_days (v_db w))))).

Lemma wp_credential F k col fresh store now w :
  wp F (credential cfg k col fresh store now) (λ r w', ∀ cred, r = Ok cred →
    v_calls w' = v_calls w ∧
    (stored col k (v_db w) ≠ "" ∧ cred = stored col k (v_db w) ∧ v_db w' = v_db w ∨
     (stored col k (v_db w) = "" ∨ faulty F) ∧ fresh = Some cred ∧
     ∃ days, (faulty F ∨ days = expiry_days (v_db w)) ∧
       store cred (add_date now days) (v_db w) = Some (v_db w'))) w.
Proof.
  assert (∀ (F' : Prop), F' → (F' → stored col k (v_db w) = "" ∨ faulty F) →
    wp F (match fresh with
          | None => raise ErrRand
          | Some cred =>
            days ← on_pool (getDefaultExpiryDays cfg);
            _ ← on_pool (or_raise ErrDb (exec (store cred (add_date now days))));
            mret cred
          end) (λ r w', ∀ cred, r = Ok cred → v_calls w' = v_calls w ∧
      (stored col k (v_db w) ≠ "" ∧ cred = stored col k (v_db w) ∧ v_db w' = v_db w ∨
       (stored col k (v_db w) = "" ∨ faulty F) ∧ fresh = Some cred ∧
       ∃ days, (faulty F ∨ days = expiry_days (v_db w)) ∧
         store cred (add_date now days) (v_db w) = Some (v_db w'))) w) as Hnew.
  { intros F' HF Hold. destruct fresh as [cred|]; [|by apply wp_raise].
    apply wp_bind, wp_on_pool, (wp_mono _ _ (λ r d', d' = v_db w ∧ ∃ z, r = Ok z ∧
      (faulty F ∨ z = expiry_days (v_db w)))).
    { apply wp_setting_value; eauto 6. }
    intros r d (-> & days & -> & Hdays). apply wp_bind, wp_on_pool, wp_or_raise, wp_exec; [done|].
    intros d' Hs. apply wp_ret. intros c [= <-]. simpl. split; [done|]. right. eauto 8. }
  unfold credential. apply wp_bind, wp_on_pool, wp_column.
  - intros Hf. rewrite vpn_eta. by eapply Hnew; [exact Hf|auto].
  - rewrite vpn_eta. destruct (String.eqb_spec (stored col k (v_db w)) ""); cbn [negb].
    + eapply Hnew; [done|auto].
    + apply wp_ret. intros c [= <-]. auto.
Qed.

Lemma wp_alter F r (Q : result err unit → Vpn → Prop) w :
  Q (Ok tt) (mkVpn (v_db w) (v_calls w ++ if api then xrayRetry xrayRetries answers (XrayAlter r) else [])) →
  wp F (alter api answers r) Q w.
Proof.
  unfold alter. destruct api; [by apply wp_ask|]. rewrite app_nil_r, vpn_eta. by apply wp_ret.
Qed.

Lemma wp_xray_config F protocol add build k col fresh store now draw fr dbnow user dev node w :
  k = (user, dev, protocol) → col = xray_column protocol → add = xray_request protocol →
  build = xray_url protocol → fresh = xray_draw protocol draw fr →
  (∀ cred exp d d', store cred exp d = Some d' → ∃ p,
     d'.(vpn_peers) = <[k := p]> d.(vpn_peers) ∧ col p = Some cred ∧ vp_node p = node_ref node ∧
     vp_created_at p = dbnow ∧ vp_expires_at p = Some exp) →
  wp F (xray_config cfg api answers protocol (xray_file protocol) add build
          (credential cfg k col fresh store now) user dev node)
    (λ r w', ∀ c, r = Ok c → xray_post F protocol draw fr now dbnow user dev node w c w') w.
Proof.
  intros -> -> -> -> -> Hst. unfold xray_config, xray_post. case_match; [by apply wp_raise|]. cbv zeta.
  case_match; [by apply wp_raise|]. destruct (parseHostPort _) as [host port].
  apply wp_bind. eapply wp_mono; [apply wp_credential|]. intros [cred|e] w1 Hc; [|done].
  destruct (Hc _ eq_refl) as [Hcalls Hcred]. apply wp_bind, wp_alter, wp_ret. intros c [= <-].
  exists cred. split; [done|]. simpl. rewrite Hcalls. split; [done|].
  destruct Hcred as [?|(Hold & Hf & days & Hd & Hs)]; [by left|]. right. split; [done|]. split; [done|].
  destruct (Hst _ _ _ _ Hs) as (p & ? & ? & ? & ? & He). exists p. split_and!; try done.
  destruct Hd as [?| ->]; auto.
Qed.

Lemma upsert_peer_row k node new upd d d' :
  upsert_peer k node new upd d = Some d' →
  ∃ p, d'.(vpn_peers) = <[k := p]> d.(vpn_peers) ∧ (p = new ∨ ∃ old, p = upd old).
Proof. unfold upsert_peer. case_match; [|done]. intros [= <-]. simpl. eexists. split; [done|]. case_match; eauto. Qed.

Lemma wp_xray_protocol F draw fresh now dbnow protocol user dev n w :
  protocol ∈ ["vmess"; "vless"; "trojan"] →
  wp F (if String.eqb protocol "wireguard" then getWireGuardConfig cfg draw now dbnow user dev n
        else if String.eqb protocol "openvpn-tcp443" then getOpenVPNConfig cfg n
        else if String.eqb protocol "vmess" then getVMessConfig cfg api answers fresh now dbnow user dev n
        else if String.eqb protocol "vless" then getVLESSConfig cfg api answers fresh now dbnow user dev n
        else if String.eqb protocol "trojan" then getTrojanConfig cfg api answers draw now dbnow user dev n
        else raise (Failed ("unknown protocol: " +:+ protocol)))
    (λ r w', ∀ c, r = Ok c → xray_post F protocol draw fresh now dbnow user dev n w c w') w.
Proof.
  intros Hp. repeat (apply elem_of_cons in Hp as [->|Hp]); [..|by apply elem_of_nil in Hp];
    cbn [String.eqb Ascii.eqb Bool.eqb]; apply wp_xray_config; try done;
    intros cred exp d d' (p & -> & Hr)%upsert_peer_row; exists p;
    by destruct Hr as [->|[old ->]].
Qed.

(** *** The whole request *)

(** What a request meets before the protocol is looked at. *)
Lemma wp_GetConfig F draw fresh tick dbnow protocol user dev nodeID w (Q : _ → Vpn → Prop) :
  (∀ e, faulty F ∨ Enabled cfg = false ∨
     admitted stats protocol (tick 0) (Some ((v_db w).(vpn_peers) !! (user, dev, protocol))) = Err e →
     Q (Err e) w) →
  (∀ n, Enabled cfg = true →
     faulty F ∨ n = resolved nodeID (v_db w) ∧
       admitted stats protocol (tick 0) (Some ((v_db w).(vpn_peers) !! (user, dev, protocol))) = Ok tt →
     wp F (if String.eqb protocol "wireguard" then getWireGuardConfig cfg draw (tick 1) dbnow user dev n
           else if String.eqb protocol "openvpn-tcp443" then getOpenVPNConfig cfg n
           else if String.eqb protocol "vmess" then getVMessConfig cfg api answers fresh (tick 1) dbnow user dev n
           else if String.eqb protocol "vless" then getVLESSConfig cfg api answers fresh (tick 1) dbnow user dev n
           else if String.eqb protocol "trojan" then getTrojanConfig cfg api answers draw (tick 1) dbnow user dev n
           else raise (Failed ("unknown protocol: " +:+ protocol))) Q w) →
  wp F (GetConfig cfg api answers stats draw fresh tick dbnow protocol user dev nodeID) Q w.
Proof.
  intros He Hk. unfold GetConfig. destruct (Enabled cfg) eqn:Hen; [|apply wp_raise, He; auto]. simpl.
  assert (∀ row, faulty F ∨ row = Some (vpn_peers (v_db w) !! (user, dev, protocol)) →
    wp F (of_result (admitted stats protocol (tick 0) row)) (λ r w1, w1 = w ∧
      (faulty F ∨ admitted stats protocol (tick 0) (Some (vpn_peers (v_db w) !! (user, dev, protocol))) = r)) w)
    as Hadm.
  { intros row Hrow. apply wp_of_result. split; [done|]. destruct Hrow as [?| ->]; [by left|by right]. }
  apply wp_bind, wp_on_pool, wp_query_fault; intros; apply wp_bind.
  all: destruct w as [d l]; (eapply wp_mono; [apply Hadm; auto|]); intros [[]|e] w1 [-> Hr]; [|apply He; destruct Hr; auto].
  all: apply wp_bind, wp_on_pool, wp_ResolveNode.
  all: try (intros [n|e] ?; [by apply Hk; [done|left]|apply He; auto]).
  all: apply Hk; [done|destruct Hr as [?|?]; auto].
Qed.

(** ** Theorems *)

(** Operations, each under faults of its own. *)
Definition op_step (w w' : Vpn) : Prop :=
  ∃ o F res, Exec F (run_op cfg api answers stats o) w res w'.

Lemma op_steps_served w w' : rtc op_step w w' → ∀ d0, served d0 (v_db w) → served d0 (v_db w').
Proof.
  induction 1 as [w|w1 w2 w3 (o & F & res & He) _ IH]; [done|]. intros d0 Hs. apply IH.
  exact (wp_Exec _ _ _ _ _ _ (keeps_run_op d0 o F w1 Hs) He).
Qed.

(** C34: Whatever configurations are given out and revoked and whatever nodes are
    created, changed, seeded and deleted, with any statement failing: node
    names stay unique and at most one node is the default, peers belong to
    existing users, devices and nodes, no two devices share an address, and an
    address once handed out is never another device's, even after it is
    revoked. *)
Theorem addresses_never_reused w w' :
  vpn_inv (v_db w) → rtc op_step w w' →
  vpn_inv (v_db w') ∧ issued (v_db w) (v_db w').
Proof.
  intros Hi Hs. destruct (op_steps_served _ _ Hs _ (served_refl _ Hi)) as [? _ ?]. done.
Qed.

(** C35: A WireGuard configuration that is returned holds the key pair drawn for
    it, and its public key, node and time are those stored for the device; when
    no statement failed so are the address (the one the device had, if any),
    the expiry and the traffic limit of the settings, the old key is taken
    from the interface, and the device was neither expired nor over its
    limit. *)
Theorem WireGuard_config F draw fresh tick dbnow user dev nodeID w c w' :
  vpn_inv (v_db w) →
  Exec F (GetConfig cfg api answers stats draw fresh tick dbnow "wireguard" user dev nodeID) w (Ok c) w' →
  ∃ node, wireguard_post F draw (tick 1) dbnow user dev node w c w' ∧
    (faulty F ∨ node = resolved nodeID (v_db w) ∧
       admitted stats "wireguard" (tick 0) (Some ((v_db w).(vpn_peers) !! (user, dev, "wireguard"))) = Ok tt).
Proof.
  intros (_ & _ & Ha).
  apply (wp_Exec_ok F _ (λ c w', ∃ node, wireguard_post F draw (tick 1) dbnow user dev node w c w' ∧
    (faulty F ∨ node = resolved nodeID (v_db w) ∧ admitted stats "wireguard" (tick 0)
       (Some ((v_db w).(vpn_peers) !! (user, dev, "wireguard"))) = Ok tt))).
  apply wp_GetConfig; [by intros e _ ?|]. intros n _ Hn.
  cbn [String.eqb Ascii.eqb Bool.eqb]. eapply wp_mono; [by apply wp_getWireGuardConfig|].
  intros r w1 Hp c1 ->. exists n. auto.
Qed.

(** With nothing failing, a device that is neither expired nor over its
    limit gets its WireGuard configuration, as long as it has an address or
    the 252 addresses have not been given out. *)
Theorem WireGuard_config_issued b fresh tick dbnow user dev nodeID w :
  Enabled cfg = true → WGEnabled (WireGuard cfg) = true →
  EffectiveWGServerPubKey cfg (resolved nodeID (v_db w)) ≠ "" →
  is_Some ((v_db w).(users) !! user) → is_Some ((v_db w).(devices) !! dev) →
  admitted stats "wireguard" (tick 0) (Some ((v_db w).(vpn_peers) !! (user, dev, "wireguard"))) = Ok tt →
  stored vp_address (user, dev, "wireguard") (v_db w) ≠ "" ∨ ((v_db w).(wg_addr_seq) ≤ 253)%Z →
  is_ok (run (GetConfig cfg api answers stats (Some b) fresh tick dbnow "wireguard" user dev nodeID) w).1 = true.
Proof.
  intros Hen Hwg Hpub [u Hu] [dv Hdv] Hadm Haddr. eapply (wp_run _ (λ r _, is_ok r = true)), wp_GetConfig.
  { intros e [Hf|[?|He]]; [by apply not_faulty in Hf|congruence|by rewrite Hadm in He]. }
  intros n _ [?%not_faulty|[-> _]]; [done|]. cbn [String.eqb Ascii.eqb Bool.eqb].
  apply wp_getWireGuardConfig_ok; [done..|]. unfold peer_refs. simpl. rewrite Hu, Hdv.
  destruct (node_ref _) eqn:Hn; [|done]. by destruct (resolved_ref _ _ _ Hn) as [? ->].
Qed.

(** C37: An Xray configuration that is returned names a credential that is the one
    stored for the device, and a new one only when it had none or the query for
    it failed; the Xray API, when there is one, is asked to admit that
    credential for the device's user, up to three times, and nothing else; with
    no statement failing, the node is the one asked for or the default, and a
    device with a credential leaves the database as it was. *)
Theorem Xray_config F draw fresh tick dbnow protocol user dev nodeID w c w' :
  protocol ∈ ["vmess"; "vless"; "trojan"] →
  Exec F (GetConfig cfg api answers stats draw fresh tick dbnow protocol user dev nodeID) w (Ok c) w' →
  ∃ node, xray_post F protocol draw fresh (tick 1) dbnow user dev node w c w' ∧
    (faulty F ∨ node = resolved nodeID (v_db w) ∧
       admitted stats protocol (tick 0) (Some ((v_db w).(vpn_peers) !! (user, dev, protocol))) = Ok tt).
Proof.
  intros Hp. apply (wp_Exec_ok F _ (λ c w', ∃ node, xray_post F protocol draw fresh (tick 1) dbnow user dev node w c w' ∧
    (faulty F ∨ node = resolved nodeID (v_db w) ∧ admitted stats protocol (tick 0)
       (Some ((v_db w).(vpn_peers) !! (user, dev, protocol))) = Ok tt))).
  apply wp_GetConfig; [by intros e _ ?|]. intros n _ Hn.
  eapply wp_mono; [by apply wp_xray_protocol|]. intros r w1 Hx c1 ->. exists n. auto.
Qed.

(** Once the 252 addresses have been given out, a device without one never
    gets a WireGuard configuration again, whatever is revoked. *)
Theorem addresses_exhausted F draw fresh tick dbnow user dev nodeID w w1 res w2 :
  vpn_inv (v_db w) → (253 < (v_db w).(wg_addr_seq))%Z → rtc op_step w w1 →
  stored vp_address (user, dev, "wireguard") (v_db w1) = "" →
  Exec F (GetConfig cfg api answers stats draw fresh tick dbnow "wireguard" user dev nodeID) w1 res w2 →
  is_ok res = false.
Proof.
  intros Hi Hseq Hs Haddr. destruct (op_steps_served _ _ Hs _ (served_refl _ Hi)) as [_ _ [Hle _]].
  apply (wp_Exec _ _ (λ r _, is_ok r = false)), wp_GetConfig; [done|]. intros n _ _.
  apply wp_getWireGuardConfig_exhausted; [lia|done].
Qed.

(** A device whose configuration has expired, or whose WireGuard traffic has
    reached its limit, is refused and nothing changes, unless a statement of
    the check fails. *)
Theorem GetConfig_refuses F draw fresh tick dbnow protocol user dev nodeID w e res w' :
  admitted stats protocol (tick 0) (Some ((v_db w).(vpn_peers) !! (user, dev, protocol))) = Err e →
  Exec F (GetConfig cfg api answers stats draw fresh tick dbnow protocol user dev nodeID) w res w' →
  faulty F ∨ is_ok res = false ∧ w' = w.
Proof.
  intros Hadm. apply (wp_Exec _ _ (λ r w', faulty F ∨ is_ok r = false ∧ w' = w)), wp_GetConfig; [auto|].
  intros n _ [?|[_ H]]; [|congruence]. apply Exec_wp. auto.
Qed.

(** A revoked configuration is gone, and no other; the server's Xray API was
    asked to drop the user, at most three times, but never the WireGuard
    interface; and nothing is left by which the device could be refused a new
    configuration of the protocol: expiry and traffic limit start afresh. *)
Theorem Revoke_outcome F user dev protocol w w' :
  Exec F (Revoke api answers user dev protocol) w (Ok tt) w' →
  v_db w' = delete_peer (user, dev, protocol) (v_db w) ∧
  (∀ now, admitted stats protocol now (Some ((v_db w').(vpn_peers) !! (user, dev, protocol))) = Ok tt) ∧
  ∃ calls, v_calls w' = v_calls w ++ calls ∧ length calls ≤ 3 ∧
    ∀ c, c ∈ calls → ∃ tag, xray_tag protocol = Some tag ∧ c = XrayAlter (RemoveUser tag (xrayEmail user dev)).
Proof.
  set (P l := length l ≤ 3 ∧ ∀ c, c ∈ l → ∃ tag, xray_tag protocol = Some tag ∧
    c = XrayAlter (RemoveUser tag (xrayEmail user dev))).
  pose (Q (_ : unit) w' := v_db w' = delete_peer (user, dev, protocol) (v_db w) ∧
    (∀ now, admitted stats protocol now (Some ((v_db w').(vpn_peers) !! (user, dev, protocol))) = Ok tt) ∧
    ∃ calls, v_calls w' = v_calls w ++ calls ∧ P calls).
  apply (wp_Exec_ok F _ Q).
  assert (∀ calls, P calls → wp F (on_pool (or_raise ErrDb (exec (λ d, Some (delete_peer (user, dev, protocol) d)))))
    (λ r w', ∀ a, r = Ok a → Q a w') (mkVpn (v_db w) (v_calls w ++ calls))) as Hdel.
  { intros calls Hc. apply wp_on_pool, wp_or_raise, wp_exec; [done|]. intros d Hd u _. injection Hd as <-.
    split; [done|]. split; [|by exists calls]. intros now. simpl. by rewrite lookup_delete_eq. }
  assert (P []) as Hnil by (split; [simpl; lia|by intros c ?%elem_of_nil]).
  specialize (Hdel [] Hnil) as Hdel0. rewrite app_nil_r, vpn_eta in Hdel0.
  unfold Revoke. destruct (xray_tag protocol) as [tag|] eqn:Ht; [|by apply wp_bind, wp_ret].
  apply wp_bind, wp_alter, Hdel. destruct api; [|done].
  destruct (xrayRetry_at_most xrayRetries answers (XrayAlter (RemoveUser tag (xrayEmail user dev)))) as [Hn Hin].
  split; [done|]. intros c ->%Hin. by exists tag.
Qed.
End proofs.

(** ** Ann's device *)
Module Sample.
#[local] Instance a_curve : Curve25519 := {| scalar_base_mult := λ k, "pub:" +:+ k |}.
#[local] Instance a_calendar : Calendar := {| add_date := λ t days, (t + days * day)%Z |}.

Definition a_cfg : VPNConfig := mkVPN true 0 "" (mkWireGuard true "vpn.a.org:51820" "server" "" "wg0")
  (mkOpenVPN true "vpn.a.org") (mkXray true "vpn.a.org:8443" "api:1" 0 0 0).

Definition a_db : DB := with_users {[ 1%Z := UserRow "ann" "a.org" None ]}
  (with_devices {[ 3%Z := DeviceRow 1 "" "" "" 0 None 0 0 ]} empty_db).

Definition a_start : Vpn := mkVpn a_db [].

Definition get (draw : string) (now : Z) : M Vpn err (string * string) :=
  GetConfig a_cfg true (λ _, false) None (Some draw) 9 (λ _, now) now "wireguard" 1 3 None.

Definition a_first : result err (string * string) * Vpn := run (get "one" 0) a_start.
Definition a_second : result err (string * string) * Vpn := run (get "two" 1) a_first.2.

Lemma a_start_inv : vpn_inv (v_db a_start).
Proof. apply no_peers_inv; [by apply (one_node_ok _ 0 (VpnNodeRow "" "" "" "" "" "" false)), map_empty_subseteq|done..]. Qed.

Lemma run_Exec {D E A} (m : M D E A) d : Exec no_faults m d (run m d).1 (run m d).2.
Proof. apply Exec_run. by destruct (run m d). Qed.

Lemma a_first_step : op_step a_cfg true (λ _, false) None a_start a_first.2.
Proof.
  exists (OpGetConfig (Some "one") 9 (λ _, 0%Z) 0 "wireguard" 1 3 None), no_faults.
  pose proof (run_Exec (run_op a_cfg true (λ _, false) None
    (OpGetConfig (Some "one") 9 (λ _, 0%Z) 0 "wireguard" 1 3 None)) a_start) as He.
  replace a_first.2 with (run (run_op a_cfg true (λ _, false) None
    (OpGetConfig (Some "one") 9 (λ _, 0%Z) 0 "wireguard" 1 3 None)) a_start).2; [by eexists|by vm_compute].
Qed.

Lemma addresses_never_reused_witness :
  (wg_addr_seq (v_db a_first.2) = 3)%Z ∧ vpn_inv (v_db a_first.2) ∧ issued a_db (v_db a_first.2).
Proof.
  split; [by vm_compute|].
  apply (addresses_never_reused a_cfg true (λ _, false) None a_start); [apply a_start_inv|].
  apply rtc_once, a_first_step.
Defined.

Lemma a_first_inv : vpn_inv (v_db a_first.2).
Proof.
  destruct (op_steps_served a_cfg true (λ _, false) None _ _ (rtc_once _ _ a_first_step) _
    (served_refl _ a_start_inv)) as [? _ _]. done.
Qed.

Lemma WireGuard_config_witness :
  ∃ c, a_second.1 = Ok c ∧ ∃ node,
    wireguard_post a_cfg no_faults (Some "two") 1 1 1 3 node a_first.2 c a_second.2.
Proof.
  destruct a_second.1 as [c|e] eqn:Hc; [|by vm_compute in Hc].
  exists c. split; [done|]. pose proof (run_Exec (get "two" 1) a_first.2) as He.
  change (Exec no_faults (get "two" 1) a_first.2 a_second.1 a_second.2) in He. rewrite Hc in He.
  destruct (WireGuard_config a_cfg true (λ _, false) None no_faults (Some "two") 9 (λ _, 1%Z) 1 1 3 None
    a_first.2 c a_second.2 a_first_inv He) as (node & Hp & _). by exists node.
Defined.

Lemma WireGuard_config_issued_witness : is_ok a_first.1 = true.
Proof.
  apply (WireGuard_config_issued a_cfg true (λ _, false) None "one" 9 (λ _, 0%Z) 0 1 3 None a_start);
    try done; [by eexists..|]. right. by vm_compute.
Defined.

Definition vless (now : Z) : M Vpn err (string * string) :=
  GetConfig a_cfg true (λ _, true) None (Some "one") 9 (λ _, now) now "vless" 1 3 None.

(** The second time the credential of the first is used. *)
Lemma Xray_config_witness :
  let first := run (vless 0) a_start in
  let again := run (vless 5) first.2 in
  ∃ c, again.1 = Ok c ∧ first.1 = Ok c ∧ ∃ node,
    xray_post a_cfg true (λ _, true) no_faults "vless" (Some "one") 9 5 5 1 3 node first.2 c again.2.
Proof.
  intros first again. destruct again.1 as [c|e] eqn:Hc; [|by vm_compute in Hc]. exists c. split; [done|].
  split; [rewrite <- Hc; by vm_compute|].
  pose proof (run_Exec (vless 5) first.2) as He.
  change (Exec no_faults (vless 5) first.2 again.1 again.2) in He. rewrite Hc in He.
  destruct (Xray_config a_cfg true (λ _, true) None no_faults (Some "one") 9 (λ _, 5%Z) 5 "vless" 1 3 None
    first.2 c again.2 ltac:(set_solver) He) as (node & Hp & _). by exists node.
Defined.

(** When 252 devices have had an address. *)
Definition a_full : Vpn := mkVpn (with_wg_addr_seq 254 a_db) [].

Lemma addresses_exhausted_witness : is_ok (run (get "one" 0) a_full).1 = false.
Proof.
  assert (vpn_inv (v_db a_full)) as Hi.
  { apply no_peers_inv; [|done..]. apply a_start_inv. }
  apply (addresses_exhausted a_cfg true (λ _, false) None no_faults (Some "one") 9 (λ _, 0%Z) 0 1 3 None a_full a_full
    _ (run (get "one" 0) a_full).2); [exact Hi|done|apply rtc_refl|by vm_compute|apply run_Exec].
Defined.

(** A year after. *)
Lemma GetConfig_refuses_witness :
  is_ok (run (get "two" (365 * day)) a_first.2).1 = false ∧ (run (get "two" (365 * day)) a_first.2).2 = a_first.2.
Proof.
  destruct (GetConfig_refuses a_cfg true (λ _, false) None no_faults (Some "two") 9 (λ _, 365 * day)%Z (365 * day)
    "wireguard" 1 3 None a_first.2 (Failed "vpn config expired, request new one from admin") _ _
    ltac:(by vm_compute) (run_Exec (get "two" (365 * day)) a_first.2)) as [Hf|?]; [|done].
  by apply not_faulty in Hf.
Defined.

Definition a_revoked : Vpn := (run (Revoke true (λ _, false) 1 3 "vless") a_first.2).2.

Lemma Revoke_outcome_witness : v_db a_revoked = delete_peer (1%Z, 3%Z, "vless") (v_db a_first.2).
Proof.
  pose proof (run_Exec (Revoke true (λ _, false) 1 3 "vless") a_first.2) as He.
  assert ((run (Revoke true (λ _, false) 1 3 "vless") a_first.2).1 = Ok tt) as Hr by by vm_compute.
  rewrite Hr in He. by destruct (Revoke_outcome true (λ _, false) None no_faults 1 3 "vless" _ _ He).
Defined.

(** An expired device is served again once it has revoked its
    configuration. *)
Example revoke_then_renew :
  let expired := run (get "two" (365 * day)) a_first.2 in
  let revoked := run (Revoke true (λ _, false) 1 3 "wireguard") a_first.2 in
  is_ok expired.1 = false ∧ is_ok (run (get "two" (365 * day)) revoked.2).1 = true ∧ v_calls revoked.2 = [].
Proof. by vm_compute. Qed.

(** When the query for the device's address fails, the file names another
    address than the one stored. *)
Example address_query_fault :
  match get "two" 1 (Nat.eqb 3) a_first.2 0 with
  | (Ok (conf, _), w, _) => contains conf (wg_addr 3) = true ∧ stored vp_address (1%Z, 3%Z, "wireguard") (v_db w) = wg_addr 2
  | _ => False
  end.
Proof. by vm_compute. Qed.
End Sample.
End Vpn.
