(* ===== verification/VpnRace.v ===== *)
(** * The VPN service under requests that run at the same time

    The methods of [vpn/service.go] and [vpn/nodes.go] that write, cut at
    their statements ([code]) and run together by [Interleave.step].  The
    ghost state of [Ownership] says which device owns an address. *)

From Stdlib Require Import Ascii String.
From stdpp Require Import strings.
From S2P Require Import Prelude Interleave Ownership GoStrings Encoding Json Schema Samples Federation Config VpnText VpnNodes XrayApi Vpn.
Set Default Goal Selector "!".
Open Scope stdpp_scope.

Module VpnRace.
Import Interleave Ownership Config VpnText VpnNodes XrayApi Vpn.

(** Statements on the database of the service. *)
Fixpoint pooled {A} (p : prog DB err A) : prog Vpn err A :=
  match p with
  | Stop r => Stop r
  | Stmt f k => Stmt (λ w, (λ xd, (xd.1, mkVpn xd.2 (v_calls w))) <$> f (v_db w)) (λ x, pooled (k x))
  | Atomic m k => Atomic (on_pool m) (λ r, pooled (k r))
  end.

Section service.
Context `{HC : Curve25519, HT : Calendar, HU : UuidLib, HG : GoUnicode}.
Context (cfg : VPNConfig) (api : bool) (answers : nat → bool)
  (stats : option (gmap string (Z * Z))).

(** ** Nodes *)
Definition getNode (id : Z) : prog DB err VPNNode :=
  row ← or_throw ErrDb (asks (λ d, d.(vpn_nodes) !! id));
  match row with
  | Some n => mret (node_of (id, n))
  | None => throw ErrDb
  end.

Definition getDefaultNode : prog DB err VPNNode :=
  rows ← or_throw ErrDb (asks default_first);
  rows ← fetched rows;
  mret match rows with r :: _ => node_of r | [] => synthetic cfg end.

Definition resolveNode (nodeID : option Z) : prog DB err VPNNode :=
  match nodeID with
  | Some id =>
    if (id =? 0)%Z then getDefaultNode
    else n ← try_ (getNode id); match n with Ok n => mret n | Err _ => getDefaultNode end
  | None => getDefaultNode
  end.

Definition createNode (id : Z) (name region wgEndpoint wgPubKey ovpnEndpoint : string) (isDefault : bool) :
    prog DB err VPNNode :=
  _ ← (if isDefault then does (λ d, Some (clear_default (λ _, false) d)) else mret None);
  let n := VpnNodeRow name region wgEndpoint wgPubKey ovpnEndpoint "" isDefault in
  _ ← or_throw ErrDb (does (insert_node id n));
  mret (mkNode id name region wgEndpoint wgPubKey ovpnEndpoint "" isDefault "").

Definition updateNode (id : Z) (name region wgEndpoint wgPubKey ovpnEndpoint : string) (isDefault : bool) :
    prog DB err unit :=
  _ ← (if isDefault then does (λ d, Some (clear_default (Z.eqb id) d)) else mret None);
  or_throw ErrDb (does (update_node id (VpnNodeRow name region wgEndpoint wgPubKey ovpnEndpoint "" isDefault))).

Definition seedNode (fresh : nat → Z) (in_ : nat * vpn_node_row) : prog DB err unit :=
  let n := in_.2 in
  if String.eqb (vn_name n) "" then mret tt else
  _ ← (if vn_default n then does (λ d, Some (clear_default (λ _, false) d)) else mret None);
  or_throw ErrDb (does (upsert_node (fresh in_.1) n)).

Definition seedFromJSON (fresh : nat → Z) (jsonStr : string) : prog DB err unit :=
  if String.eqb jsonStr "" then mret tt else
  match unmarshal jsonStr ≫= dec_slice zero_node dec_node nil_slice with
  | None => throw ErrJson
  | Some nodes => each (seedNode fresh) (imap pair (items nodes))
  end.

Definition deleteNode (id : Z) : prog DB err unit :=
  count ← or_throw ErrDb (asks (λ d, length (select_rows (λ _ p, bool_decide (vp_node p = Some id)) d.(vpn_peers))));
  if (0 <? count) then
    throw (Failed ("cannot delete node with " +:+ itoa (Z.of_nat count) +:+ " peers"))
  else or_throw ErrDb (does (λ d, Some (delete_node id d))).

(** ** Configurations *)
Definition settingOr (key : string) (dflt : Z) (scale : Z → Z) : prog DB err Z :=
  v ← asks (λ d, d.(vpn_settings) !! key);
  mret match v with
       | Some (Some v) => match parse_int64 v with
                          | Some n => if (0 <? n)%Z then scale n else dflt
                          | None => dflt
                          end
       | _ => dflt
       end.

Definition defaultExpiryDays : prog DB err Z :=
  settingOr "default_expiry_days"
    (if (0 <? DefaultExpiryDays cfg)%Z then DefaultExpiryDays cfg else 30%Z) id.

Definition defaultTrafficLimitBytes : prog DB err Z :=
  settingOr "default_traffic_limit_mb" 0 (λ mb, wrap64 (mb * 1024 * 1024)).

Definition removeWGPeer (pubkey : string) : prog Vpn err unit :=
  if String.eqb (StatsInterface (WireGuard cfg)) "" || String.eqb pubkey "" then mret tt
  else whole (ask [WGRemove pubkey]).

Definition columnOr (k : peer_key) (col : vpn_peer_row → option string) : prog DB err string :=
  row ← asks (λ d, d.(vpn_peers) !! k);
  mret match row with Some (Some p) => default "" (col p) | _ => "" end.

Definition clientAddress (k : peer_key) : prog DB err string :=
  old ← columnOr k vp_address;
  if negb (String.eqb old "") then mret old else
  n ← Stmt next_addr mret;
  match n with
  | Some n => mret (wg_addr n)
  | None => throw ErrPool
  end.

Definition wireGuardConfig (draw : option string) (now dbnow : Z) (user dev : Z) (node : VPNNode) :
    prog Vpn err (string * string) :=
  let k := (user, dev, "wireguard") in
  let pubKey := EffectiveWGServerPubKey cfg node in
  if negb (WGEnabled (WireGuard cfg)) || String.eqb pubKey "" then
    throw (Failed "wireguard disabled or not configured")
  else
    match WireGuardKeyPair draw with
    | None => throw ErrRand
    | Some (privKey, clientPubKey) =>
      old ← pooled (columnOr k vp_pubkey);
      _ ← (if negb (String.eqb old "") && negb (String.eqb old clientPubKey) then removeWGPeer old
           else mret tt);
      addr ← pooled (clientAddress k);
      days ← pooled defaultExpiryDays;
      limit ← pooled defaultTrafficLimitBytes;
      _ ← pooled (or_throw ErrDb (does (upsert_wireguard user dev clientPubKey addr (add_date now days)
                                          limit (node_ref node) dbnow)));
      mret (BuildWireGuardConf privKey clientPubKey pubKey (EffectiveWGEndpoint cfg node) addr,
            "messenger-wireguard.conf")
    end.

Definition openVPNConfig (node : VPNNode) : prog Vpn err (string * string) := whole (getOpenVPNConfig cfg node).

Definition credentialOr (k : peer_key) (col : vpn_peer_row → option string) (fresh : option string)
    (store : string → Z → DB → option DB) (now : Z) : prog Vpn err string :=
  old ← pooled (columnOr k col);
  if negb (String.eqb old "") then mret old else
  match fresh with
  | None => throw ErrRand
  | Some cred =>
    days ← pooled defaultExpiryDays;
    _ ← pooled (or_throw ErrDb (does (store cred (add_date now days))));
    mret cred
  end.

Definition alters (r : AlterInboundRequest) : prog Vpn err unit :=
  if api then whole (ask (xrayRetry xrayRetries answers (XrayAlter r))) else mret tt.

Definition xrayConfig (protocol file : string) (add : string → string → AlterInboundRequest)
    (build : string → string → string → string → string) (cred : prog Vpn err string)
    (user dev : Z) (node : VPNNode) : prog Vpn err (string * string) :=
  if negb (XrayEnabled (Xray cfg)) then throw (Failed "xray disabled") else
  let endpoint := EffectiveXrayEndpoint cfg node in
  if String.eqb endpoint "" then throw (Failed "xray endpoint not configured") else
  let '(host, port) := parseHostPort endpoint in
  c ← cred;
  _ ← alters (add c (xrayEmail user dev));
  mret (build c host (xrayPort cfg protocol port) ("messenger-" +:+ NName node), file).

Definition vmessConfig (fresh now dbnow : Z) (user dev : Z) (node : VPNNode) : prog Vpn err (string * string) :=
  xrayConfig "vmess" "messenger-vmess.txt" AddVMessUser BuildVMessURL
    (credentialOr (user, dev, "vmess") vp_client_id (Some (uuid_string fresh))
       (λ id exp, upsert_client_id "vmess" user dev id exp (node_ref node) dbnow) now) user dev node.

Definition vlessConfig (fresh now dbnow : Z) (user dev : Z) (node : VPNNode) : prog Vpn err (string * string) :=
  xrayConfig "vless" "messenger-vless.txt" AddVLESSUser BuildVLESSURL
    (credentialOr (user, dev, "vless") vp_client_id (Some (uuid_string fresh))
       (λ id exp, upsert_client_id "vless" user dev id exp (node_ref node) dbnow) now) user dev node.

Definition trojanConfig (draw : option string) (now dbnow : Z) (user dev : Z) (node : VPNNode) :
    prog Vpn err (string * string) :=
  xrayConfig "trojan" "messenger-trojan.txt" AddTrojanUser BuildTrojanURL
    (credentialOr (user, dev, "trojan") vp_password (GenerateTrojanPassword draw)
       (λ pw exp, upsert_password user dev pw exp (node_ref node) dbnow) now) user dev node.

Definition getConfig (draw : option string) (fresh : Z) (tick : nat → Z) (dbnow : Z) (protocol : string)
    (user dev : Z) (nodeID : option Z) : prog Vpn err (string * string) :=
  if negb (Enabled cfg) then throw (Failed "vpn disabled") else
  row ← pooled (asks (λ d, d.(vpn_peers) !! (user, dev, protocol)));
  _ ← Stop (admitted stats protocol (tick 0) row);
  node ← pooled (resolveNode nodeID);
  if String.eqb protocol "wireguard" then wireGuardConfig draw (tick 1) dbnow user dev node
  else if String.eqb protocol "openvpn-tcp443" then openVPNConfig node
  else if String.eqb protocol "vmess" then vmessConfig fresh (tick 1) dbnow user dev node
  else if String.eqb protocol "vless" then vlessConfig fresh (tick 1) dbnow user dev node
  else if String.eqb protocol "trojan" then trojanConfig draw (tick 1) dbnow user dev node
  else throw (Failed ("unknown protocol: " +:+ protocol)).

Definition revoke (user dev : Z) (protocol : string) : prog Vpn err unit :=
  _ ← (match xray_tag protocol with
       | Some tag => alters (RemoveUser tag (xrayEmail user dev))
       | None => mret tt
       end);
  pooled (or_throw ErrDb (does (λ d, Some (delete_peer (user, dev, protocol) d)))).

(** The two lists only read: a query, then the rows one by one. *)
Definition code (o : op) : prog Vpn err (option (string * string)) :=
  match o with
  | OpGetConfig draw fresh tick dbnow protocol user dev node =>
    c ← getConfig draw fresh tick dbnow protocol user dev node; mret (Some c)
  | OpListMyConfigs now user => _ ← whole (on_pool (ListMyConfigs stats now user)); mret None
  | OpRevoke user dev protocol => _ ← revoke user dev protocol; mret None
  | OpListNodes by_name => _ ← whole (on_pool (ListNodes by_name)); mret None
  | OpCreateNode id name region wg pub ovpn dflt =>
    _ ← pooled (createNode id name region wg pub ovpn dflt); mret None
  | OpUpdateNode id name region wg pub ovpn dflt =>
    _ ← pooled (updateNode id name region wg pub ovpn dflt); mret None
  | OpSeed fresh text => _ ← pooled (seedFromJSON fresh text); mret None
  | OpDeleteNode id => _ ← pooled (deleteNode id); mret None
  end.

(** *** Alone it is the service *)
Definition method (o : op) : M Vpn err (option (string * string)) :=
  match o with
  | OpGetConfig draw fresh tick dbnow protocol user dev node =>
    c ← GetConfig cfg api answers stats draw fresh tick dbnow protocol user dev node; mret (Some c)
  | OpListMyConfigs now user => _ ← on_pool (ListMyConfigs stats now user); mret None
  | OpRevoke user dev protocol => _ ← Revoke api answers user dev protocol; mret None
  | OpListNodes by_name => _ ← on_pool (ListNodes by_name); mret None
  | OpCreateNode id name region wg pub ovpn dflt =>
    _ ← on_pool (CreateNode id name region wg pub ovpn dflt); mret None
  | OpUpdateNode id name region wg pub ovpn dflt =>
    _ ← on_pool (UpdateNode id name region wg pub ovpn dflt); mret None
  | OpSeed fresh text => _ ← on_pool (SeedFromJSON fresh text); mret None
  | OpDeleteNode id => _ ← on_pool (DeleteNode id); mret None
  end.

Lemma ic_pooled {A} (p : prog DB err A) m : is_code p m → is_code (pooled p) (on_pool m).
Proof.
  intros Hp F w n. unfold on_pool. rewrite <- Hp. clear Hp m. destruct w as [d l]. cbn [v_db v_calls]. revert d n.
  induction p as [r|X f k IH|X m k IH]; intros d n; cbn [pooled interp]; [done|..].
  - unfold mbind, M_bind, stmt. destruct (F n); [apply IH|]. cbn. destruct (f d) as [[x d1]|]; apply IH.
  - unfold mbind, M_bind, attempt, on_pool. cbn. destruct (m F d n) as [[r d1] n1]. apply IH.
Qed.

Ltac ic := repeat first [apply ic_pooled | ic_step].

Lemma ic_resolveNode nodeID : is_code (resolveNode nodeID) (ResolveNode cfg nodeID).
Proof. unfold resolveNode, ResolveNode, getDefaultNode, GetDefaultNode, getNode, GetNode. ic. Qed.

Lemma ic_wireGuardConfig draw now dbnow user dev node :
  is_code (wireGuardConfig draw now dbnow user dev node) (getWireGuardConfig cfg draw now dbnow user dev node).
Proof.
  unfold wireGuardConfig, getWireGuardConfig, removeWGPeer, RemoveWGPeer, columnOr, column, clientAddress,
    client_address, defaultExpiryDays, getDefaultExpiryDays, defaultTrafficLimitBytes, getDefaultTrafficLimitBytes,
    settingOr, positive_setting, columnOr, column. ic.
Qed.

Lemma ic_credentialOr k col fresh store now :
  is_code (credentialOr k col fresh store now) (credential cfg k col fresh store now).
Proof.
  unfold credentialOr, credential, columnOr, column, defaultExpiryDays, getDefaultExpiryDays, settingOr,
    positive_setting. ic.
Qed.

Lemma ic_xrayConfig protocol file add build p m user dev node :
  is_code p m → is_code (xrayConfig protocol file add build p user dev node)
    (xray_config cfg api answers protocol file add build m user dev node).
Proof. unfold xrayConfig, xray_config, alters, alter. ic. Qed.

Lemma ic_getConfig draw fresh tick dbnow protocol user dev node :
  is_code (getConfig draw fresh tick dbnow protocol user dev node)
    (GetConfig cfg api answers stats draw fresh tick dbnow protocol user dev node).
Proof.
  unfold getConfig, GetConfig. case_match; [apply ic_throw|].
  apply ic_bind; [ic|]. intros row. apply ic_bind; [ic|]. intros _.
  apply ic_bind; [apply ic_pooled, ic_resolveNode|]. intros n.
  repeat (case_match; [first [apply ic_wireGuardConfig|apply ic_whole|apply ic_xrayConfig, ic_credentialOr]|]).
  apply ic_throw.
Qed.

Lemma vpn_ic_code o : is_code (code o) (method o).
Proof.
  destruct o; cbn [code method].
  - apply ic_bind; [apply ic_getConfig|]. intros c. apply ic_ret.
  - ic.
  - unfold revoke, Revoke, alters, alter. ic.
  - ic.
  - unfold createNode, CreateNode. ic.
  - unfold updateNode, UpdateNode. ic.
  - unfold seedFromJSON, SeedFromJSON, seedNode, seed_node. ic.
  - unfold deleteNode, DeleteNode. ic.
Qed.

(** What a method does when it runs alone are steps of its code. *)
Theorem vpn_code_alone F o w r w' : Exec F (method o) w r w' → alone (code o) w r w'.
Proof.
  intros (n & n' & He). rewrite <- vpn_ic_code in He. apply interp_alone with F. by exists n, n'.
Qed.

(** ** Who owns an address *)
Definition owners : Type := Z → option peer_key.

Definition extends (own own' : owners) : Prop := ∀ n k, own n = Some k → own' n = Some k.

#[local] Instance extends_pre : PreOrder extends.
Proof. split; [by intros ???|]. intros o1 o2 o3 H1 H2 n k Hn. by apply H2, H1. Qed.

(** Owned addresses have left the sequence, and a stored one belongs to its
    device. *)
Definition owned (own : owners) (d : DB) : Prop :=
  (2 ≤ d.(wg_addr_seq) ≤ 254)%Z ∧
  (∀ n k, own n = Some k → (2 ≤ n < d.(wg_addr_seq))%Z ∧ k.2 = "wireguard") ∧
  (∀ k p a, d.(vpn_peers) !! k = Some p → vp_address p = Some a → ∃ n, a = wg_addr n ∧ own n = Some k).

Definition owned_w (own : owners) (w : Vpn) : Prop := owned own (v_db w).

Abbreviation holds := (guards extends owned).
Abbreviation holds_w := (guards extends owned_w).

Lemma guards_pooled {A} (post : owners → result err A → Prop) own p :
  holds post own p → holds_w post own (pooled p).
Proof.
  revert own. induction p as [r|X f k IH|X m k IH]; intros own Hp; cbn [pooled guards]; [done|..].
  - intros o1 w Ho Hw. destruct (Hp o1 (v_db w) Ho Hw) as [H1 H2]. split; [|by apply IH].
    intros x w' Hf. destruct (f (v_db w)) as [[x1 d1]|] eqn:Hd; [|done]. cbn in Hf. simplify_eq.
    destruct (H1 _ _ eq_refl) as (o2 & Ho2 & Hi & Hg). exists o2. split; [done|]. split; [done|]. by apply IH.
  - intros o1 w Ho Hw F r w' (n & n' & Hm). unfold on_pool in Hm.
    destruct (m F (v_db w) n) as [[r1 d1] n1] eqn:Hd. simplify_eq.
    destruct (Hp o1 (v_db w) Ho Hw F r d1) as (o2 & Ho2 & Hi & Hg); [by exists n, n'|].
    exists o2. split; [done|]. split; [done|]. by apply IH.
Qed.

(** *** Statements that keep the owners *)
Lemma owned_peers own d d' :
  owned own d → d'.(wg_addr_seq) = d.(wg_addr_seq) →
  (∀ k p a, d'.(vpn_peers) !! k = Some p → vp_address p = Some a →
    (∃ p0, d.(vpn_peers) !! k = Some p0 ∧ vp_address p0 = Some a) ∨ ∃ n, a = wg_addr n ∧ own n = Some k) →
  owned own d'.
Proof.
  intros (Hs & Ho & Hp) Hq Hk. unfold owned. rewrite Hq. split; [done|]. split; [done|].
  intros k p a Hl Ha. destruct (Hk k p a Hl Ha) as [(p0 & ? & ?)|?]; [by eapply Hp|done].
Qed.

Lemma owned_same own d d' :
  owned own d → d'.(wg_addr_seq) = d.(wg_addr_seq) → d'.(vpn_peers) = d.(vpn_peers) → owned own d'.
Proof. intros Ho Hq Hp. eapply owned_peers; [done..|]. rewrite Hp. eauto. Qed.

Lemma owned_upsert own k node new update d d' :
  owned own d → upsert_peer k node new update d = Some d' →
  (∀ a, vp_address new = Some a → ∃ n, a = wg_addr n ∧ own n = Some k) →
  (∀ old a, vp_address (update old) = Some a →
     vp_address old = Some a ∨ ∃ n, a = wg_addr n ∧ own n = Some k) → owned own d'.
Proof.
  unfold upsert_peer. intros Ho Hu Hn Hup. case_match; [|done]. simplify_eq.
  eapply owned_peers; [done|done|]. cbn. intros k' p a Hl Ha.
  apply lookup_insert_Some in Hl as [[-> <-]|[_ Hl]]; [|by eauto].
  destruct (vpn_peers d !! k') as [old|] eqn:Hold; [|by right; apply Hn].
  destruct (Hup old a Ha); [left; by exists old|by right].
Qed.

Lemma owned_node own id n d d' : owned own d → put_node id n d = Some d' → owned own d'.
Proof. unfold put_node. intros Ho Hp. case_match; [done|]. simplify_eq. by eapply owned_same. Qed.

Lemma owned_insert_node own id n d d' : owned own d → insert_node id n d = Some d' → owned own d'.
Proof. unfold insert_node. intros Ho Hp. case_match; [done|]. by eapply owned_node. Qed.

Lemma owned_upsert_node own id n d d' : owned own d → upsert_node id n d = Some d' → owned own d'.
Proof.
  unfold upsert_node. intros Ho Hp. destruct (first_row _) as [[old m]|]; [by eapply owned_node|by eapply owned_insert_node].
Qed.

Lemma owned_update_node own id n d d' : owned own d → update_node id n d = Some d' → owned own d'.
Proof. unfold update_node. intros Ho Hp. case_match; [by eapply owned_node|by simplify_eq]. Qed.

Lemma owned_clear own f d d' : owned own d → Some (clear_default f d) = Some d' → owned own d'.
Proof. intros Ho [= <-]. by eapply owned_same. Qed.

Lemma owned_delete_node own id d d' : owned own d → Some (delete_node id d) = Some d' → owned own d'.
Proof.
  intros Ho [= <-]. eapply owned_peers; [done|done|]. cbn. intros k p a Hl Ha.
  rewrite lookup_fmap in Hl. apply fmap_Some in Hl as (p0 & Hp0 & ->). left. exists p0. split; [done|].
  by case_bool_decide.
Qed.

Lemma owned_delete_peer own k d d' : owned own d → Some (delete_peer k d) = Some d' → owned own d'.
Proof.
  intros Ho [= <-]. eapply owned_peers; [done|done|]. cbn. intros k' p a [_ Hl]%lookup_delete_Some Ha. eauto.
Qed.

Create HintDb vpn_race.
#[local] Hint Resolve owned_node owned_insert_node owned_upsert_node owned_update_node owned_clear
  owned_delete_node owned_delete_peer : vpn_race.

Ltac ev := repeat first
  [ done | progress intros | apply every_throws | apply every_asks | apply every_does; eauto with vpn_race
  | apply every_each | apply every_bind | case_match ].

Lemma every_resolveNode own nodeID : every (owned own) (resolveNode nodeID).
Proof.
  assert (every (owned own) getDefaultNode) as Hd.
  { unfold getDefaultNode. apply every_bind; [ev|]. intros rows. apply every_bind; [apply every_fetched|done]. }
  destruct nodeID as [id|]; [|exact Hd]. unfold resolveNode, getNode. case_match; [exact Hd|].
  cbn. split; [by intros d x d' Ho [= <- <-]|]. intros [[n|]|]; [done|exact Hd..].
Qed.

Lemma keep_pooled {A} own (p : prog DB err A) : (∀ own', every (owned own') p) → holds_w any own (pooled p).
Proof. intros Hp. by apply guards_pooled, (guards_every extends). Qed.

Lemma keep_ask own l : holds_w any own (whole (ask l)).
Proof. intros o1 w Ho Hw F r w' (n & n' & [= <- <- <-]). by exists o1. Qed.

Lemma keep_reads {A} own (m : M DB err A) : (∀ F d, wp F m (λ _ d', d' = d) d) → holds_w any own (whole (on_pool m)).
Proof.
  intros Hm o1 w Ho Hw F r w' (n & n' & He). unfold on_pool in He. specialize (Hm F (v_db w) n).
  destruct (m F (v_db w) n) as [[r1 d1] n1]. simplify_eq. by exists o1.
Qed.

(** *** A WireGuard configuration *)
Definition own_address (k : peer_key) (own : owners) (r : result err string) : Prop :=
  match r with Ok a => ∃ n, a = wg_addr n ∧ own n = Some k | Err _ => True end.

Lemma own_address_grows k own own' r : extends own own' → own_address k own r → own_address k own' r.
Proof. intros Ho. destruct r as [a|]; [|done]. intros (n & -> & Hn). exists n. eauto. Qed.

Lemma holds_clientAddress own k : k.2 = "wireguard" → holds (own_address k) own (clientAddress k).
Proof.
  intros Hk. unfold clientAddress. apply (guards_bind extends _ _ (λ o r, ∀ a, r = Ok a → a = "" ∨ own_address k o r)); [|intros o1 a Ho Ha|done].
  - apply (guards_bind extends _ _ (λ o r, ∀ p a, r = Ok (Some (Some p)) → vp_address p = Some a → ∃ n, a = wg_addr n ∧ o n = Some k)).
    + apply (guards_asks extends); [|by intros]. intros o1 d Ho1 (_ & _ & Hp) o2 Ho2 p a [= Hl] Ha.
      destruct (Hp k p a Hl Ha) as (n & -> & Hn). exists n. eauto.
    + intros o1 row Ho1 Hrow. intros o2 Ho2 a [= <-]. destruct row as [[p|]|]; [|by left..].
      destruct (vp_address p) as [a|] eqn:Ha; [|by left]. right. eapply own_address_grows; [done|]. by apply (Hrow p a).
    + done.
  - destruct (negb (String.eqb a "")) eqn:He.
    + intros o2 Ho2. destruct (Ha a eq_refl) as [->|Hown]; [done|]. by eapply own_address_grows.
    + intros o2 d Ho2 (Hs & Hown & Hp). split; [|by intros o3 _].
      intros n d' Hn. unfold next_addr in Hn. destruct (Z.leb_spec (wg_addr_seq d) 253); [|done]. simplify_eq.
      set (n := wg_addr_seq d) in *.
      assert (extends o2 (λ m, if (m =? n)%Z then Some k else o2 m)) as Hext.
      { intros m k' Hm. destruct (Hown _ _ Hm) as [Hlt _]. destruct (Z.eqb_spec m n); [lia|done]. }
      exists (λ m, if (m =? n)%Z then Some k else o2 m). split; [done|]. split.
      * split; [cbn; lia|]. split.
        -- intros m k'. cbn. destruct (Z.eqb_spec m n) as [->|]; [intros [= <-]; split; [lia|done]|].
           intros [Hm ?]%Hown. split; [lia|done].
        -- intros k' p a' Hl Ha'. destruct (Hp k' p a' Hl Ha') as (m & -> & Hm). exists m. split; [done|by apply Hext].
      * intros o3 Ho3. exists n. split; [done|]. apply Ho3. by rewrite Z.eqb_refl.
Qed.

Definition config_with (n : Z) (c : string * string) : Prop :=
  ∃ priv pub server endpoint, c.1 = BuildWireGuardConf priv pub server endpoint (wg_addr n).

Definition wg_answer (k : peer_key) (own : owners) (r : result err (string * string)) : Prop :=
  match r with
  | Ok c => ∃ n, config_with n c ∧ own n = Some k
  | Err _ => True
  end.

Lemma holds_wireGuardConfig own draw now dbnow user dev node :
  holds_w (wg_answer (user, dev, "wireguard")) own (wireGuardConfig draw now dbnow user dev node).
Proof.
  unfold wireGuardConfig. case_match; [by intros|]. case_match; [|by intros]. case_match.
  apply (guards_bind extends _ _ any); [|intros o1 old Ho1 _|by intros].
  { apply keep_pooled. intros. unfold columnOr. ev. }
  apply (guards_bind extends _ _ any); [|intros o2 [] Ho2 _|by intros].
  { case_match; [|done]. unfold removeWGPeer. case_match; [done|apply keep_ask]. }
  apply (guards_bind extends _ _ (own_address (user, dev, "wireguard"))); [by apply guards_pooled, holds_clientAddress| |by intros].
  intros o3 a Ho3 (n & -> & Hn).
  apply (guards_bind extends _ _ any); [|intros o4 days Ho4 _|by intros].
  { apply keep_pooled. intros. unfold defaultExpiryDays, settingOr. ev. }
  apply (guards_bind extends _ _ any); [|intros o5 limit Ho5 _|by intros].
  { apply keep_pooled. intros. unfold defaultTrafficLimitBytes, settingOr. ev. }
  apply (guards_bind extends _ _ any); [|intros o6 [] Ho6 _|by intros].
  - apply guards_pooled. apply (guards_throws extends _ _ _ _ any); [|done..].
    apply (guards_does extends). intros o6 d d' Ho6 Ho Hu. exists o6. split; [done|].
    assert (o6 n = Some (user, dev, "wireguard")) as Hn6 by eauto.
    eapply owned_upsert; [done|exact Hu|..]; cbn.
    + intros a [= <-]. eauto.
    + intros row a [= Ha]. destruct (vp_address row); cbn in Ha; subst; eauto.
  - intros o7 Ho7. exists n. split; [by do 4 eexists|]. eauto 8.
Qed.

(** What a request for a WireGuard configuration answers. *)
Definition post (o : op) (own : owners) (r : result err (option (string * string))) : Prop :=
  match o, r with
  | OpGetConfig _ _ _ _ protocol user dev _, Ok (Some c) =>
    protocol = "wireguard" → wg_answer (user, dev, "wireguard") own (Ok c)
  | _, _ => True
  end.

Lemma keep_alters own r : holds_w any own (alters r).
Proof. unfold alters. case_match; [apply keep_ask|done]. Qed.

Lemma every_credential own k col store :
  (∀ own' c exp d d', owned own' d → store c exp d = Some d' → owned own' d') →
  ∀ fresh now, holds_w any own (credentialOr k col fresh store now).
Proof.
  intros Hs fresh now. unfold credentialOr. apply (guards_bind extends _ _ any); [|intros o1 old Ho1 _|done].
  { apply keep_pooled. intros. unfold columnOr. ev. }
  case_match; [done|]. case_match; [|done].
  apply (guards_bind extends _ _ any); [|intros o2 days Ho2 _|done].
  { apply keep_pooled. intros. unfold defaultExpiryDays, settingOr. ev. }
  apply (guards_bind extends _ _ any); [|done..]. apply keep_pooled. ev.
Qed.

Lemma holds_xrayConfig own protocol file add build p user dev node :
  (∀ own, holds_w any own p) → holds_w any own (xrayConfig protocol file add build p user dev node).
Proof.
  intros Hp. unfold xrayConfig. do 2 (case_match; [done|]). case_match.
  apply (guards_bind extends _ _ any); [apply Hp| |done]. intros o1 c Ho1 _.
  apply (guards_bind extends _ _ any); [apply keep_alters|done..].
Qed.

Lemma owned_credential own k node d d' new update :
  owned own d → upsert_peer k node new update d = Some d' →
  vp_address new = None → (∀ old, vp_address (update old) = vp_address old) → owned own d'.
Proof.
  intros Ho Hu Hn Hold. eapply owned_upsert; [done|exact Hu|by rewrite Hn|]. intros old a. rewrite Hold. by left.
Qed.

Lemma holds_getConfig own draw fresh tick dbnow protocol user dev node :
  holds_w (λ own r, protocol = "wireguard" → wg_answer (user, dev, "wireguard") own r) own
    (getConfig draw fresh tick dbnow protocol user dev node).
Proof.
  unfold getConfig. case_match; [by intros|].
  apply (guards_bind extends _ _ any); [|intros o1 row Ho1 _|by intros].
  { apply keep_pooled. ev. }
  apply (guards_bind extends _ _ any); [done|intros o0 [] Ho0 _|by intros].
  apply (guards_bind extends _ _ any); [apply keep_pooled; intros; apply every_resolveNode|intros o2 n Ho2 _|by intros].
  destruct (String.eqb_spec protocol "wireguard") as [->|Hne].
  - eapply guards_weaken; [apply holds_wireGuardConfig|done].
  - apply guards_weaken with any; [|done].
    case_match; [intros o3 w Ho3 Hw F r w' He; unfold getOpenVPNConfig in He; case_match|].
    1,2: destruct He as (? & ? & [= <- <- <-]); by exists o3.
    repeat (case_match; [apply holds_xrayConfig; intros; apply every_credential; intros;
      by eapply owned_credential|]). done.
Qed.

Lemma holds_code o own : holds_w (post o) own (code o).
Proof.
  assert (∀ (A : Type) (p : prog Vpn err A), holds_w any own p →
    holds_w (λ _ _, True) own (_ ← p; mret None : prog Vpn err (option (string * string)))) as Hunit.
  { intros A p Hp. by apply (guards_bind extends _ _ any). }
  destruct o; cbn [code].
  - apply (guards_bind extends _ _ (λ own r, protocol = "wireguard" → wg_answer (user, dev, "wireguard") own r));
      [apply holds_getConfig| |done].
    intros o1 c Ho1 Hc o2 Ho2 Hp. destruct (Hc Hp) as (n & He & Hn).
    exists n. split; [done|by apply Ho2].
  - apply Hunit, keep_reads. intros F d. unfold ListMyConfigs. wp_go; [done|]. apply wp_fetch. intros. by apply wp_ret.
  - apply Hunit. unfold revoke. apply (guards_bind extends _ _ any); [|intros o1 [] Ho1 _|done].
    + case_match; [apply keep_alters|done].
    + apply keep_pooled. ev.
  - apply Hunit, keep_reads. intros F d. unfold ListNodes. wp_go; [done|]. apply wp_fetch. intros. by apply wp_ret.
  - apply Hunit, keep_pooled. intros. unfold createNode. ev.
  - apply Hunit, keep_pooled. intros. unfold updateNode. ev.
  - apply Hunit, keep_pooled. intros. unfold seedFromJSON, seedNode. ev.
  - apply Hunit, keep_pooled. intros. unfold deleteNode. ev.
Qed.

(** The owners at the start: who has the address. *)
Definition owner_of (d : DB) : owners := λ n,
  fst <$> first_row (select_rows (λ _ p, bool_decide (vp_address p = Some (wg_addr n))) d.(vpn_peers)).

Lemma owner_of_row d n k : owner_of d n = Some k → ∃ p, d.(vpn_peers) !! k = Some p ∧ vp_address p = Some (wg_addr n).
Proof.
  unfold owner_of. intros ([k' p] & Hf & ->)%fmap_Some. exists p.
  apply first_row_select in Hf as [Hl Ha%bool_decide_eq_true]. done.
Qed.

Lemma owned_start d : addrs_ok d → owned (owner_of d) d.
Proof.
  intros (Hs & Ha & Hu). split; [done|]. split.
  - intros n k (p & Hl & Hp)%owner_of_row. destruct (Ha _ _ _ Hl Hp) as (Hk & m & Hm & ->%wg_addr_inj). done.
  - intros k p a Hl Hp. destruct (Ha _ _ _ Hl Hp) as (Hk & n & Hn & ->). exists n. split; [done|].
    destruct (owner_of d n) as [k'|] eqn:Ho.
    + apply owner_of_row in Ho as (p' & Hl' & Hp'). f_equal. by eapply Hu.
    + unfold owner_of in Ho. apply fmap_None in Ho. unfold first_row in Ho.
      assert ((k, p) ∈ select_rows (λ _ p, bool_decide (vp_address p = Some (wg_addr n))) d.(vpn_peers)) as Hin.
      { apply elem_of_select_rows. split; [done|]. by apply bool_decide_eq_true. }
      destruct (select_rows _ _); [by apply elem_of_nil in Hin|done].
Qed.

(** ** Theorems *)
Definition finished (s : system op Vpn err (option (string * string))) (user dev : Z) (c : string * string) : Prop :=
  ∃ i draw fresh tick dbnow node l,
    sys_threads s !! i =
      Some (Thread (OpGetConfig draw fresh tick dbnow "wireguard" user dev node) l (Stop (Ok (Some c)))).

Abbreviation guarded_by own s := (guarded extends owned_w post own s).

Lemma finished_owned own s user dev c :
  guarded_by own s → finished s user dev c → ∃ n, config_with n c ∧ own n = Some (user, dev, "wireguard").
Proof.
  intros Hg (i & draw & fresh & tick & dbnow & node & l & Hi).
  by apply (guarded_result extends owned_w post own s i _ _ _ Hg Hi).
Qed.

(** However concurrent requests to the service and its administration are
    interleaved, an address is never stored for a device after it was stored
    for another. *)
Theorem addresses_never_reused_together w0 s1 s2 k1 k2 p1 p2 a :
  addrs_ok (v_db w0) → reach code w0 s1 → rtc (step code) s1 s2 →
  (v_db (sys_db s1)).(vpn_peers) !! k1 = Some p1 → vp_address p1 = Some a →
  (v_db (sys_db s2)).(vpn_peers) !! k2 = Some p2 → vp_address p2 = Some a → k1 = k2.
Proof.
  intros H0 Hr Hs Hk1 Hp1 Hk2 Hp2.
  destruct (guarded_reach extends owned_w code post holds_code _ _ s1 (owned_start _ H0) Hr) as (o1 & _ & Hg1).
  destruct (guarded_steps extends owned_w code post holds_code _ _ _ Hg1 Hs) as (o2 & Ho & Hg2).
  destruct Hg1 as [(_ & _ & Ha1) _]. destruct Hg2 as [(_ & _ & Ha2) _].
  destruct (Ha1 _ _ _ Hk1 Hp1) as (n & -> & Hn%Ho). destruct (Ha2 _ _ _ Hk2 Hp2) as (m & <-%wg_addr_inj & Hm).
  congruence.
Qed.

(** C33: However the statements of concurrent requests to the service and its
    administration are interleaved, and whichever of them fail, a WireGuard
    configuration that a device was given names an address that the
    configuration of another device, whenever it is given, does not name, and
    that is never stored for another device. *)
Theorem addresses_apart_together w0 s1 s2 u1 d1 c1 :
  addrs_ok (v_db w0) → reach code w0 s1 → rtc (step code) s1 s2 → finished s1 u1 d1 c1 →
  ∃ n, config_with n c1 ∧
    (∀ u2 d2 c2, finished s2 u2 d2 c2 → (u1, d1) ≠ (u2, d2) → ∃ m, config_with m c2 ∧ n ≠ m) ∧
    (∀ k p, (v_db (sys_db s2)).(vpn_peers) !! k = Some p → vp_address p = Some (wg_addr n) →
       k = (u1, d1, "wireguard")).
Proof.
  intros H0 Hr Hs Hf.
  destruct (guarded_reach extends owned_w code post holds_code _ _ s1 (owned_start _ H0) Hr) as (o1 & _ & Hg1).
  destruct (guarded_steps extends owned_w code post holds_code _ _ _ Hg1 Hs) as (o2 & Ho & Hg2).
  destruct (finished_owned _ _ _ _ _ Hg1 Hf) as (n & Hc & Hn%Ho). exists n. split; [done|]. split.
  - intros u2 d2 c2 Hf2 Hne. destruct (finished_owned _ _ _ _ _ Hg2 Hf2) as (m & Hc2 & Hm).
    exists m. split; [done|]. intros <-. congruence.
  - intros k p Hk Hp. destruct Hg2 as [(_ & _ & Ha2) _].
    destruct (Ha2 _ _ _ Hk Hp) as (m & <-%wg_addr_inj & Hm). congruence.
Qed.
End service.

(** ** Races *)
Module Sample.

#[local] Instance b_curve : Curve25519 := {| scalar_base_mult := λ k, "pub:" +:+ k |}.
#[local] Instance b_calendar : Calendar := {| add_date := λ t days, (t + days * day)%Z |}.

Definition b_db : DB := with_devices
  {[ 3%Z := DeviceRow 1 "" "" "" 0 None 0 0; 4%Z := DeviceRow 1 "" "" "" 0 None 0 0 ]} Vpn.Sample.a_db.
Definition b_start : Vpn := mkVpn b_db [].

Abbreviation sample_code := (code Vpn.Sample.a_cfg true (λ _, false) None).
Abbreviation sys := (system op Vpn err (option (string * string))).

Definition wants (draw : string) (dev : Z) : op := OpGetConfig (Some draw) 9 (λ _, 0%Z) 0 "wireguard" 1 dev None.

Definition after (us : list (turn (O:=op))) : sys := foldl (take_turn sample_code) (System b_start []) us.

(** [n] turns of each of two requests. *)
Definition in_turn (n : nat) : list (turn (O:=op)) := concat (replicate n [Runs 0; Runs 1]).

Definition answer_of (s : sys) (i : nat) : option (string * string) :=
  t ← sys_threads s !! i; match th_prog t with Stop (Ok c) => c | _ => None end.

Definition two_devices : sys := after (Arrives (wants "one" 3) :: Arrives (wants "two" 4) :: in_turn 9).
Definition same_device : sys := after (Arrives (wants "one" 3) :: Arrives (wants "two" 3) :: in_turn 9).

Lemma after_vpn_reach us : reach sample_code b_start (after us).
Proof. apply turns_reach. constructor. Qed.

Definition conf (key addr : string) : string * string :=
  (BuildWireGuardConf key "" "server" "vpn.a.org:51820" addr, "messenger-wireguard.conf").

Definition key_of (draw : string) : string * string := default ("", "") (WireGuardKeyPair (Some draw)).

(** The same device asks twice at the same time: the row has the key of the
    second configuration with the address of the first. *)
Lemma mixed_configuration :
  reach sample_code b_start same_device ∧
  answer_of same_device 0 = Some (conf (key_of "one").1 "10.66.66.2/32") ∧
  answer_of same_device 1 = Some (conf (key_of "two").1 "10.66.66.3/32") ∧
  (p ← (v_db (sys_db same_device)).(vpn_peers) !! (1, 3, "wireguard")%Z; Some (vp_pubkey p, vp_address p)) =
    Some (Some (key_of "two").2, Some "10.66.66.2/32").
Proof. split; [apply after_vpn_reach|]. split; [by vm_compute|]. split; by vm_compute. Qed.

Lemma b_start_ok : addrs_ok (v_db b_start).
Proof.
  assert (vpn_peers (v_db b_start) = ∅) as He by done. unfold addrs_ok. rewrite He.
  split; [done|]. split; intros *; by rewrite lookup_empty.
Qed.

Lemma addresses_apart_together_witness :
  ∃ n, config_with n (conf (key_of "one").1 "10.66.66.2/32") ∧
    (∃ m, config_with m (conf (key_of "two").1 "10.66.66.3/32") ∧ n ≠ m) ∧
    ∀ p, (v_db (sys_db two_devices)).(vpn_peers) !! (1, 4, "wireguard")%Z = Some p → vp_address p ≠ Some (wg_addr n).
Proof.
  assert (∀ i dev draw c, sys_threads two_devices !! i =
    Some (Thread (wants draw dev) (default [] (th_seen <$> sys_threads two_devices !! i)) (Stop (Ok (Some c)))) →
    finished two_devices 1 dev c) as Hfin.
  { intros i dev draw c Hi. do 7 eexists. exact Hi. }
  destruct (addresses_apart_together Vpn.Sample.a_cfg true (λ _, false) None b_start two_devices two_devices 1 3
    (conf (key_of "one").1 "10.66.66.2/32") b_start_ok (after_vpn_reach _) ltac:(done)
    (Hfin 0 3%Z "one" _ ltac:(by vm_compute))) as (n & Hn & Hapart & Hrow).
  exists n. split; [exact Hn|]. split.
  - by apply (Hapart 1%Z 4%Z); [apply (Hfin 1 4%Z "two"); by vm_compute|].
  - intros p Hp Ha. pose proof (Hrow _ _ Hp Ha) as He. discriminate He.
Defined.
End Sample.
End VpnRace.
