(* ===== verification/Push.v ===== *)
(** * Push notifications ([server/internal/push/service.go])

    Subscriptions of devices, and the notifications a new message causes.
    Delivery ([webpush-go]) is another party's: a notification is the value
    handed to it. *)

From Stdlib Require Import Ascii String.
From stdpp Require Import strings.
From S2P Require Import Prelude GoStrings Encoding Json Schema Samples.
Set Default Goal Selector "!".
Open Scope stdpp_scope.

Module Push.

Inductive err := ErrDb.

(** The argument of [webpush.SendNotification]. *)
Record Notification := mkNotification {
  n_endpoint : string;
  n_p256dh : string;
  n_auth : string;
  n_payload : string;
}.

(** ** Statements *)

(** [INSERT ... ON CONFLICT (endpoint) DO UPDATE]; a subscription refers to a
    user and a device. *)
Definition upsert_push (endpoint : string) (row : push_row) (d : DB) : option DB :=
  match d.(users) !! ps_user row, d.(devices) !! ps_device row with
  | Some _, Some _ => Some (with_pushes (<[endpoint := row]> d.(pushes)) d)
  | _, _ => None
  end.

Definition delete_push (endpoint : string) (d : DB) : DB := with_pushes (delete endpoint d.(pushes)) d.

Section service.
Context `{HP : PgText}.

(** [domain = ""]: any domain. *)
Definition user_named (username domain : string) (u : user_row) : bool :=
  String.eqb (pg_lower (u_username u)) (pg_lower username) &&
  (String.eqb domain "" || String.eqb (pg_lower (u_domain u)) (pg_lower domain)).

Definition find_user (username domain : string) (d : DB) : option Z :=
  fst <$> first_row (select_rows (λ _ u, user_named username domain u) d.(users)).

Definition subscriptions (user : Z) (d : DB) : list (string * push_row) :=
  select_rows (λ _ p, (ps_user p =? user)%Z) d.(pushes).

(** ** The service: both keys configured, or none *)
Context (vapidPublic vapidPrivate : string).

Definition Enabled : bool := negb (String.eqb vapidPublic "") && negb (String.eqb vapidPrivate "").

Definition Subscribe (user dev : Z) (endpoint p256dh auth : string) : M DB err unit :=
  if String.eqb endpoint "" || String.eqb p256dh "" || String.eqb auth "" then mret tt
  else or_raise ErrDb (exec (upsert_push endpoint (PushRow user dev p256dh auth))).

Definition Unsubscribe (endpoint : string) : M DB err unit :=
  or_raise ErrDb (exec (λ d, Some (delete_push endpoint d))).

(** [@username:domain]; [None] when there is nobody to look for. *)
Definition recipient (addr : string) : option (string * string) :=
  let addr := trim_space addr in
  if negb (has_prefix addr "@") then None else
  let parts := splitn2 (sdrop 1 addr) ":" in
  let username := trim_space (nth 0 parts "") in
  if String.eqb username "" then None else Some (username, trim_space (nth 1 parts "")).

(** The notifications sent; an error of a statement sends none. *)
Definition SendToUser (addr payload : string) : M DB err (list Notification) :=
  if negb Enabled then mret [] else
  match recipient addr with
  | None => mret []
  | Some (username, domain) =>
    user ← query (find_user username domain);
    match user with
    | Some (Some user) =>
      rows ← query (subscriptions user);
      rows ← fetch (default [] rows);
      mret ((λ r, mkNotification r.1 (ps_p256dh r.2) (ps_auth r.2) payload) <$> rows)
    | _ => mret []
    end
  end.

Definition message_payload (label : string) : string :=
  marshal (JObj [("body", JStr (label +:+ ": новое сообщение")); ("title", JStr "Новое сообщение")]).

Definition NotifyNewMessage (addr label : string) : M DB err (list Notification) :=
  SendToUser addr (message_payload label).

(** ** Properties *)

(** What the subscriptions of a user are sent. *)
Definition sent (user : Z) (payload : string) (d : DB) : list Notification :=
  (λ r, mkNotification r.1 (ps_p256dh r.2) (ps_auth r.2) payload) <$> subscriptions user d.

Lemma find_user_named username domain d user :
  find_user username domain d = Some user →
  ∃ u, d.(users) !! user = Some u ∧ user_named username domain u = true.
Proof.
  unfold find_user. intros Hf. destruct (first_row _) as [[k u]|] eqn:Hr; simplify_eq/=.
  apply first_row_select in Hr as [Hu Hn]. eauto.
Qed.

(** A notification of a new message goes to subscriptions of one user, whose
    name and domain are those of the address, letter case aside; with no
    statement failing, to all of them; the database does not change, and
    nothing is sent unless the service has both its keys. *)
Theorem NotifyNewMessage_outcome F addr label d res d' :
  Exec F (NotifyNewMessage addr label) d res d' →
  d' = d ∧ ∃ l, res = Ok l ∧
    (l = [] ∧ (faulty F ∨ Enabled = false ∨ recipient addr = None ∨
               ∃ username domain, recipient addr = Some (username, domain) ∧ find_user username domain d = None) ∨
     ∃ username domain user u, Enabled = true ∧ recipient addr = Some (username, domain) ∧
       d.(users) !! user = Some u ∧ user_named username domain u = true ∧
       l `prefix_of` sent user (message_payload label) d ∧
       (faulty F ∨ l = sent user (message_payload label) d)).
Proof.
  set (Q l := l = [] ∧ (faulty F ∨ Enabled = false ∨ recipient addr = None ∨
               ∃ username domain, recipient addr = Some (username, domain) ∧ find_user username domain d = None) ∨
     ∃ username domain user u, Enabled = true ∧ recipient addr = Some (username, domain) ∧
       d.(users) !! user = Some u ∧ user_named username domain u = true ∧
       l `prefix_of` sent user (message_payload label) d ∧
       (faulty F ∨ l = sent user (message_payload label) d)).
  apply (wp_Exec _ _ (λ r d', d' = d ∧ ∃ l, r = Ok l ∧ Q l)).
  assert (∀ l, Q l → wp F (mret l : M DB err _) (λ r d', d' = d ∧ ∃ l, r = Ok l ∧ Q l) d) as Hret.
  { intros l Hl. apply wp_ret. eauto. }
  unfold NotifyNewMessage, SendToUser. destruct Enabled eqn:He; simpl; [|apply Hret; left; auto].
  destruct (recipient addr) as [[username domain]|] eqn:Hr; [|apply Hret; left; auto].
  apply wp_bind, wp_query_fault; [intros; apply Hret; left; auto|].
  destruct (find_user username domain d) as [user|] eqn:Hu; [|apply Hret; left; split; eauto 8].
  destruct (find_user_named _ _ _ _ Hu) as (u & Hlu & Hn).
  apply wp_bind, wp_query_fault.
  - intros. apply wp_bind, wp_fetch. intros l' Hl' _. apply Hret. left. destruct Hl' as [k Hk].
    destruct l'; [auto|done].
  - apply wp_bind, wp_fetch. intros l' Hl' Hall. apply Hret. right.
    exists username, domain, user, u. split_and!; try done.
    + destruct Hl' as [k Hk]. simpl in Hk. unfold sent. rewrite Hk, fmap_app. by eexists.
    + destruct Hall as [?| ->]; [by left|by right].
Qed.

(** Subscriptions belong to users and devices. *)
Definition push_inv (d : DB) : Prop :=
  ∀ e p, d.(pushes) !! e = Some p → is_Some (d.(users) !! ps_user p) ∧ is_Some (d.(devices) !! ps_device p).

Lemma push_inv_upsert e p d d' : push_inv d → upsert_push e p d = Some d' → push_inv d'.
Proof.
  unfold upsert_push. intros Hi Hu. destruct (users d !! ps_user p) eqn:Hus; [|done].
  destruct (devices d !! ps_device p) eqn:Hd; [|done]. injection Hu as <-. intros e' p'. simpl.
  rewrite lookup_insert. case_decide; [intros [= <-]; by rewrite Hus, Hd|apply Hi].
Qed.

Lemma push_inv_delete e d : push_inv d → push_inv (delete_push e d).
Proof. intros Hi e' p'. unfold delete_push. simpl. rewrite lookup_delete. case_decide; [done|apply Hi]. Qed.
End service.

Lemma push_inv_frame d d' :
  (∀ e p, d'.(pushes) !! e = Some p → d.(pushes) !! e = Some p ∧
     (is_Some (d.(users) !! ps_user p) → is_Some (d'.(users) !! ps_user p)) ∧
     (is_Some (d.(devices) !! ps_device p) → is_Some (d'.(devices) !! ps_device p))) →
  push_inv d → push_inv d'.
Proof. intros Hf Hi e p Hp. destruct (Hf _ _ Hp) as (Hp' & ? & ?). destruct (Hi _ _ Hp'). auto. Qed.

Module Sample.
Definition a_db : DB :=
  with_users {[ 1%Z := UserRow "ann" "a.org" None ]}
  (with_devices {[ 3%Z := DeviceRow 1 "" "" "" 0 None 0 0 ]}
  (with_pushes {[ "https://push/1" := PushRow 1 3 "key" "secret" ]} empty_db)).

Lemma NotifyNewMessage_outcome_witness :
  (run (NotifyNewMessage "pub" "priv" "@Ann:a.org" "bob") a_db).1 =
    Ok [mkNotification "https://push/1" "key" "secret" (message_payload "bob")] ∧
  (run (NotifyNewMessage "pub" "priv" "@Ann:a.org" "bob") a_db).2 = a_db.
Proof.
  assert (Exec no_faults (NotifyNewMessage "pub" "priv" "@Ann:a.org" "bob") a_db
    (run (NotifyNewMessage "pub" "priv" "@Ann:a.org" "bob") a_db).1
    (run (NotifyNewMessage "pub" "priv" "@Ann:a.org" "bob") a_db).2) as He.
  { apply Exec_run. by destruct (run _ _). }
  destruct (NotifyNewMessage_outcome _ _ _ _ _ _ _ _ He) as [Hd _]. split; [by vm_compute|exact Hd].
Defined.
End Sample.
End Push.
