(* ===== verification/Media.v ===== *)
(** * Media ([server/internal/media/media.go])

    Files are stored under the hash of their content.  The object store is
    another process: the bucket is a map of keys to contents, a call of the
    store is a statement that may fail, and what a reader of an object
    delivers is a parameter. *)

From Stdlib Require Import Ascii String.
From stdpp Require Import strings.
From S2P Require Import Prelude GoStrings Encoding Crypto Samples.
Set Default Goal Selector "!".
Open Scope stdpp_scope.

Module Media.

(** [net/url]'s parser: scheme, [Hostname()] and [Port()]. *)
Class UrlLib := { url_host_port : string → option (string * string * string) }.

Definition sanitizeEndpoint `{UrlLib} (endpoint : string) : option string :=
  if negb (contains endpoint "://") then Some endpoint else
  '(scheme, host, port) ← url_host_port endpoint;
  Some (if negb (String.eqb port "") then host +:+ ":" +:+ port
        else if String.eqb scheme "https" then host +:+ ":443" else host +:+ ":9000").

Definition maxFileSize : Z := 100 * 1024 * 1024.

(** [io.ReadAll(io.LimitReader(r, maxFileSize))] *)
Definition limit_file (body : string) : string :=
  if (Z.of_nat (slen body) <=? maxFileSize)%Z then body else stake (Z.to_nat maxFileSize) body.

#[local] Opaque limit_file maxFileSize.

Inductive err := ErrTooLarge | ErrRead | ErrSize | ErrUri | ErrStore.

Definition uri_prefix : string := "blob:sha256:".

Definition objectKey (contentURI : string) : option string :=
  if negb (has_prefix contentURI uri_prefix) || (slen contentURI <=? slen uri_prefix) then None else
  let hexStr := sdrop (slen uri_prefix) contentURI in
  if negb (slen hexStr =? 64) then None else
  _ ← hex_decode hexStr; Some hexStr.

Abbreviation Bucket := (gmap string string).

(** [minio.Client.GetObject]: the bytes a reader of the object, [None] if there
    is none, delivers when [SetRange] was called with the pair given; [None]
    when the call fails. *)
Class Minio := { get_object : option (Z * Z) → option string → option string }.

(** An object is read back, and of a valid range [start..end] the bytes of
    both ends and between. *)
Class MinioLaws `{Minio} := {
  get_object_all data : get_object None (Some data) = Some data;
  get_object_range a b data : (0 ≤ a ≤ b)%Z → (b < Z.of_nat (slen data))%Z →
    get_object (Some (a, b)) (Some data) = Some (stake (Z.to_nat (b - a + 1)) (sdrop (Z.to_nat a) data));
}.

Record DownloadInfo := mkInfo {
  IsRange : bool;
  RangeOffset : Z;
  RangeLength : Z;
  TotalSize : Z;
}.

Section service.
Context `{HS : Sha256, HM : Minio}.

Definition hash_of (data : string) : string := hex_encode (sha256 data).

(** [body]: what the reader delivers before its end, [complete]: no error. *)
Definition Upload (body : string) (complete : bool) (size : Z) : M Bucket err string :=
  if (maxFileSize <? size)%Z then raise ErrTooLarge else
  if negb complete && (Z.of_nat (slen body) <? maxFileSize)%Z then raise ErrRead else
  let data := limit_file body in
  if ((0 <? size)%Z && negb (Z.of_nat (slen data) =? size)%Z) then raise ErrSize else
  _ ← or_raise ErrStore (exec (λ b, Some (<[hash_of data := data]> b)));
  mret (uri_prefix +:+ hash_of data).

Definition Download (contentURI : string) (rangeOffset rangeLength : Z) :
    M Bucket err (string * DownloadInfo) :=
  match objectKey contentURI with
  | None => raise ErrUri
  | Some key =>
    let ranged := (0 <? rangeOffset)%Z || (0 <? rangeLength)%Z in
    obj ← or_raise ErrStore (query (λ b : Bucket,
      get_object (if ranged then Some (rangeOffset, rangeLength) else None) (b !! key)));
    match obj with
    | None => raise ErrStore
    | Some out =>
      total ← (if ranged then
                 stat ← query (λ b : Bucket, b !! key);
                 mret match stat with Some (Some data) => Z.of_nat (slen data) | _ => 0%Z end
               else mret 0%Z);
      mret (out, mkInfo ranged rangeOffset rangeLength total)
    end
  end.

(** ** Properties *)
Lemma objectKey_uri key : slen key = 64 → is_Some (hex_decode key) → objectKey (uri_prefix +:+ key) = Some key.
Proof.
  intros Hk [x Hx]. unfold objectKey. rewrite has_prefix_app, slen_app, sdrop_app, Hk, Hx. done.
Qed.

Lemma objectKey_inv uri key :
  objectKey uri = Some key → uri = uri_prefix +:+ key ∧ slen key = 64 ∧ is_Some (hex_decode key).
Proof.
  unfold objectKey. destruct (has_prefix uri uri_prefix) eqn:Hp; [|done].
  destruct (slen uri <=? slen uri_prefix); [done|]. cbn [negb orb].
  destruct (Nat.eqb_spec (slen (sdrop (slen uri_prefix) uri)) 64) as [Hl|]; [|done]. cbn [negb].
  destruct (hex_decode (sdrop (slen uri_prefix) uri)) eqn:Hx; [|done]. intros [= <-].
  split; [by apply has_prefix_inv|]. split; [exact Hl|]. by eexists.
Qed.

(** Every object is stored under the hash of its content. *)
Definition content_addressed (b : Bucket) : Prop := ∀ key data, b !! key = Some data → key = hash_of data.

Definition transfer (body : string) (complete : bool) (size : Z) : M Bucket err unit :=
  _ ← Upload body complete size; mret tt.

Lemma keeps_Upload body complete size : keeps content_addressed (Upload body complete size).
Proof.
  unfold Upload. keeps_go. simplify_eq. intros key data. rewrite lookup_insert.
  case_decide; [by intros [= <-]|auto].
Qed.

Lemma keeps_Download I uri offset length : keeps I (Download uri offset length).
Proof. unfold Download. keeps_go. Qed.

(** The bucket after an upload. *)
Lemma Upload_stored F body complete size b uri b' :
  Exec F (Upload body complete size) b (Ok uri) b' →
  let data := limit_file body in
  uri = uri_prefix +:+ hash_of data ∧ b' = <[hash_of data := data]> b ∧
  ((0 < size)%Z → Z.of_nat (slen data) = size).
Proof.
  apply (wp_Exec_ok F (Upload body complete size) (λ uri b', let data := limit_file body in
    uri = uri_prefix +:+ hash_of data ∧ b' = <[hash_of data := data]> b ∧
    ((0 < size)%Z → Z.of_nat (slen data) = size))).
  unfold Upload. case_match; [by apply wp_raise|]. case_match; [by apply wp_raise|].
  cbv zeta. case_match eqn:Hs; [by apply wp_raise|]. apply wp_bind, wp_or_raise, wp_exec; [done|].
  intros d [= <-]. apply wp_ret. intros u [= <-]. split; [done|]. split; [done|].
  intros Hpos. apply andb_false_iff in Hs as [Hs|Hs%negb_false_iff%Z.eqb_eq]; [lia|done].
Qed.

(** More uploads, each under faults of its own. *)
Definition uploaded (b b' : Bucket) : Prop :=
  ∃ body complete size F res, Exec F (transfer body complete size) b res b'.

Lemma uploaded_mono b b' key data :
  rtc uploaded b b' → b !! key = Some data → ∃ data', b' !! key = Some data' ∧ (data' = data ∨ hash_of data' = key).
Proof.
  intros Hs. revert data. induction Hs as [b|b b1 b' (body & complete & size & F & res & He) _ IH]; [eauto|].
  intros data Hk. assert (∃ data', b1 !! key = Some data' ∧ (data' = data ∨ hash_of data' = key)) as (d1 & H1 & Ho).
  { revert He. apply (wp_Exec _ _ (λ _ b1, ∃ data', b1 !! key = Some data' ∧ (data' = data ∨ hash_of data' = key))).
    unfold transfer, Upload. wp_go; eauto. simplify_eq. rewrite lookup_insert. case_decide; eauto. }
  destruct (IH _ H1) as (d2 & H2 & Ho2). exists d2. split; [done|].
  destruct Ho2 as [->|?]; [|by right]. destruct Ho as [->|?]; auto.
Qed.
Lemma wp_Download_whole `{!MinioLaws} key data b :
  slen key = 64 → is_Some (hex_decode key) → b !! key = Some data →
  wp no_faults (Download (uri_prefix +:+ key) 0 0) (λ r b', r = Ok (data, mkInfo false 0 0 0) ∧ b' = b) b.
Proof.
  intros Hl Hx Hb. unfold Download. rewrite objectKey_uri by done. cbn [Z.ltb Z.compare orb].
  apply wp_bind, wp_or_raise, wp_query_nf. rewrite Hb, get_object_all. by apply wp_bind, wp_ret, wp_ret.
Qed.

(** What a range request delivers: from [offset] to the byte [length], not
    [length] bytes. *)
Lemma wp_Download_range `{!MinioLaws} key data offset length b :
  slen key = 64 → is_Some (hex_decode key) → b !! key = Some data →
  (0 ≤ offset ≤ length)%Z → (0 < length < Z.of_nat (slen data))%Z →
  wp no_faults (Download (uri_prefix +:+ key) offset length) (λ r b',
    r = Ok (stake (Z.to_nat (length - offset + 1)) (sdrop (Z.to_nat offset) data),
            mkInfo true offset length (Z.of_nat (slen data))) ∧ b' = b) b.
Proof.
  intros Hl Hx Hb Ho Hlen. unfold Download. rewrite objectKey_uri by done.
  assert ((0 <? offset) || (0 <? length) = true)%Z as Hr.
  { apply orb_true_iff. right. apply Z.ltb_lt. lia. }
  rewrite Hr. apply wp_bind, wp_or_raise, wp_query_nf. rewrite Hb, get_object_range by lia.
  apply wp_bind, wp_bind, wp_query_nf, wp_ret. rewrite Hb. by apply wp_ret.
Qed.

(** C39: A file that was uploaded completely is stored whole under the SHA-256 of
    its content, and whatever is uploaded later, under any faults, its address
    gives back that file, or another one with the same SHA-256. *)
Theorem Upload_Download `{!MinioLaws} F body complete size b uri b1 b2 :
  (∀ s, slen (sha256 s) = 32) → (0 < size)%Z → Z.of_nat (slen body) = size →
  Exec F (Upload body complete size) b (Ok uri) b1 → rtc uploaded b1 b2 →
  uri = uri_prefix +:+ hash_of body ∧ b1 = <[hash_of body := body]> b ∧
  ∃ data, run (Download uri 0 0) b2 = (Ok (data, mkInfo false 0 0 0), b2) ∧
    (data = body ∨ hash_of data = hash_of body).
Proof.
  intros Hsha Hpos Hsize He Hs.
  assert (limit_file body = body) as Hlim.
  { revert He. apply (wp_Exec_ok F _ (λ _ _, limit_file body = body)). unfold Upload.
    destruct (Z.ltb_spec maxFileSize size) as [|Hle]; [by apply wp_raise|]. apply Exec_wp. intros _ _ _ _ _.
    Transparent limit_file. unfold limit_file. Opaque limit_file.
    by rewrite (proj2 (Z.leb_le _ _)) by lia. }
  pose proof (Upload_stored _ _ _ _ _ _ _ He) as (-> & Hb1 & _). rewrite Hlim in *. subst b1.
  split; [done|]. split; [done|].
  destruct (uploaded_mono _ _ (hash_of body) body Hs) as (data & Hd & Ho); [by rewrite lookup_insert_eq|].
  exists data. split; [|done].
  assert (slen (hash_of body) = 64) as Hl by (unfold hash_of; by rewrite slen_hex_encode, Hsha).
  assert (is_Some (hex_decode (hash_of body))) as Hx by (unfold hash_of; rewrite hex_roundtrip; by eexists).
  destruct (wp_run _ _ _ (wp_Download_whole _ _ _ Hl Hx Hd)) as [H1 H2].
  destruct (run _ _) as [r b3]. simpl in *. by subst.
Qed.
End service.

Module Sample.
#[export] Existing Instance toy_sha256.

(** A store that reads nothing from an object it does not have. *)
#[export] Instance a_minio : Minio := {|
  get_object range obj :=
    let data := default "" obj in
    match range with
    | Some (a, b) => Some (stake (Z.to_nat (b - a + 1)) (sdrop (Z.to_nat a) data))
    | None => Some data
    end;
|}.

#[export] Instance a_minio_laws : MinioLaws.
Proof. by split. Defined.

Definition a_upload : result err string * Bucket := run (Upload "hello" true 5) ∅.
Definition a_later : Bucket := (run (Upload "world" true 5) a_upload.2).2.

Lemma Upload_Download_witness :
  ∃ uri, a_upload.1 = Ok uri ∧ ∃ data, run (Download uri 0 0) a_later = (Ok (data, mkInfo false 0 0 0), a_later) ∧
    (data = "hello" ∨ hash_of data = hash_of "hello").
Proof.
  assert (a_upload.1 = Ok (uri_prefix +:+ hash_of "hello")) as Hu by by vm_compute.
  assert (Exec no_faults (Upload "hello" true 5) ∅ (Ok (uri_prefix +:+ hash_of "hello")) a_upload.2) as He.
  { apply Exec_run. rewrite <- Hu. unfold a_upload. by destruct (run _ _). }
  exists (uri_prefix +:+ hash_of "hello"). split; [exact Hu|].
  destruct (Upload_Download no_faults "hello" true 5 ∅ (uri_prefix +:+ hash_of "hello") a_upload.2 a_later) as (_ & _ & Hd);
    [|done|done|exact He| |exact Hd].
  - intros s. apply slen_stake. rewrite slen_app. simpl. lia.
  - apply rtc_once. exists "world", true, 5%Z, no_faults, (Ok tt). apply Exec_run. unfold a_later.
    assert ((run (Upload "world" true 5) a_upload.2).1 = Ok (uri_prefix +:+ hash_of "world")) as Hr by by vm_compute.
    revert Hr. unfold run, transfer, mbind, M_bind. generalize a_upload.2. intros b.
    destruct (Upload "world" true 5 no_faults b 0) as [[r b'] n]. simpl. by intros ->.
Defined.
End Sample.
End Media.
