(* ===== verification/Invariant.v ===== *)
(** * The invariant of the shared database

    All services work on one database; what each needs of it is one conjunct,
    and here every kind of statement of one service is shown to keep the
    conjuncts of the others. *)

From Stdlib Require Import Ascii String.
From stdpp Require Import strings.
From S2P Require Import Prelude GoStrings Encoding Json Wire Crypto Schema Samples Dbenc Keydir Auth.
From S2P Require Import RoomChecker Rooms Relay VpnText VpnNodes Vpn Push.
Set Default Goal Selector "!".
Open Scope stdpp_scope.

Module Invariant.

(** ** The invariant of the shared database *)

(** Room members and creators are users. *)
Definition member_users (d : DB) : Prop :=
  (∀ room u m, d.(members) !! (room, u) = Some m → is_Some (d.(users) !! u)) ∧
  (∀ room x, d.(rooms) !! room = Some x → is_Some (d.(users) !! x.(r_creator_id))).

(** What is stored for devices by the VPN and push services. *)
Definition edge_inv (d : DB) : Prop := Vpn.vpn_inv d ∧ Push.push_inv d.

Definition server_inv (d : DB) : Prop :=
  Auth.auth_inv d ∧ Relay.relay_inv d ∧ Rooms.rooms_inv d ∧ member_users d ∧ edge_inv d.

Lemma server_inv_migrated node : server_inv (migrated_db node).
Proof.
  split_and!; [..|split; [apply Vpn.no_peers_inv; [eapply Vpn.one_node_ok; simpl; reflexivity|done..]|]];
    repeat split; try apply NoDup_nil_2; repeat intros ?; simplify_map_eq.
Qed.

(** *** What each part depends on *)
Lemma auth_inv_same d d' :
  d'.(users) = d.(users) → d'.(users_seq) = d.(users_seq) → d'.(devices) = d.(devices) →
  d'.(prekeys) = d.(prekeys) → d'.(tokens) = d.(tokens) → d'.(salts) = d.(salts) →
  d'.(backups) = d.(backups) → Auth.auth_inv d → Auth.auth_inv d'.
Proof.
  intros Hu Hs Hd Hp Ht Hsa Hb.
  unfold Auth.auth_inv, Auth.users_unique, Auth.users_below, Auth.device_fk, Auth.prekey_fk,
    Auth.token_owner, Auth.backup_fk, Auth.owns. by rewrite Hu, Hs, Hd, Hp, Ht, Hsa, Hb.
Qed.

Lemma relay_inv_same d d' :
  d'.(queue) = d.(queue) → d'.(receipts) = d.(receipts) → Relay.relay_inv d → Relay.relay_inv d'.
Proof. intros Hq Hr. unfold Relay.relay_inv, Relay.has_event. by rewrite Hq, Hr. Qed.

Lemma rooms_inv_same d d' :
  d'.(rooms) = d.(rooms) → d'.(members) = d.(members) → Rooms.rooms_inv d → Rooms.rooms_inv d'.
Proof.
  intros Hr Hm. unfold Rooms.rooms_inv, Rooms.member_fk, Rooms.creator_matches. by rewrite Hr, Hm.
Qed.

Lemma member_users_grow d d' :
  d'.(rooms) = d.(rooms) → d'.(members) = d.(members) →
  (∀ u, is_Some (d.(users) !! u) → is_Some (d'.(users) !! u)) → member_users d → member_users d'.
Proof. intros Hr Hm Hu [H1 H2]. unfold member_users. rewrite Hr, Hm. split; eauto. Qed.

(** Users and devices may come; a device that goes takes its rows with it. *)
Lemma edge_inv_cascade d d' :
  d'.(vpn_nodes) = d.(vpn_nodes) → d'.(wg_addr_seq) = d.(wg_addr_seq) →
  (∀ u, is_Some (d.(users) !! u) → is_Some (d'.(users) !! u)) →
  (∀ k p, d'.(vpn_peers) !! k = Some p → d.(vpn_peers) !! k = Some p ∧
     (is_Some (d.(devices) !! k.1.2) → is_Some (d'.(devices) !! k.1.2))) →
  (∀ e p, d'.(pushes) !! e = Some p → d.(pushes) !! e = Some p ∧
     (is_Some (d.(devices) !! ps_device p) → is_Some (d'.(devices) !! ps_device p))) →
  edge_inv d → edge_inv d'.
Proof.
  intros Hn Hs Hu Hp Hpu [(Hi & Hpe & Hb & Ha & Hq) Hpi]. split; [split; [|split; [|split; [|split]]]|].
  - unfold Vpn.nodes_ok. by rewrite Hn.
  - intros k p [Hk Hd]%Hp. pose proof (Hpe _ _ Hk) as Hr. unfold Vpn.peer_refs in *. rewrite Hn.
    destruct (users d !! k.1.1) eqn:Hu1; [|done]. destruct (devices d !! k.1.2) eqn:Hd1; [|done].
    destruct (Hu k.1.1) as [? ->]; [by rewrite Hu1|]. by destruct Hd as [? ->].
  - by rewrite Hs.
  - intros k p a [Hk _]%Hp. rewrite Hs. by apply Ha.
  - intros k k' p p' a [Hk _]%Hp [Hk' _]%Hp. by apply Hq.
  - eapply Push.push_inv_frame; [|done]. intros e p [He Hd]%Hpu. auto.
Qed.

Lemma edge_inv_grow d d' :
  d'.(vpn_nodes) = d.(vpn_nodes) → d'.(wg_addr_seq) = d.(wg_addr_seq) →
  d'.(vpn_peers) = d.(vpn_peers) → d'.(pushes) = d.(pushes) →
  (∀ u, is_Some (d.(users) !! u) → is_Some (d'.(users) !! u)) →
  (∀ k, is_Some (d.(devices) !! k) → is_Some (d'.(devices) !! k)) → edge_inv d → edge_inv d'.
Proof.
  intros Hn Hs Hp Hpu Hu Hd. apply edge_inv_cascade; try done; [rewrite Hp|rewrite Hpu]; auto.
Qed.

(** *** The statements of the services *)
Section statements.
Context `{HUu : UuidLib}.
Context (domain : string).

Lemma sql_frame J d d' :
  Auth.sql domain J d d' →
  d'.(queue) = d.(queue) ∧ d'.(receipts) = d.(receipts) ∧ d'.(rooms) = d.(rooms) ∧
  d'.(members) = d.(members) ∧ (∀ u, is_Some (d.(users) !! u) → is_Some (d'.(users) !! u)) ∧
  (edge_inv d → edge_inv d').
Proof.
  destruct 1 as [name hash id d' Hs|dev user ik spk sig id t d' Hs|dev k pk d' Hs
    |user dev th jti t d' _ _ Hs|user v d' Hs|user v d' Hs|P t|user dev name t|user dev|t n d' Hs|v].
  - apply Auth.insert_user_inv in Hs as (_ & _ & _ & ->).
    assert (∀ m k (x : user_row), is_Some (users d !! k) → is_Some (<[m := x]> (users d) !! k)) as Hu.
    { intros m k x Hk. rewrite lookup_insert. by case_decide. }
    split_and!; try done; [intros u; apply Hu|]. apply edge_inv_grow; try done. intros u. apply Hu.
  - apply Auth.insert_device_inv in Hs as (_ & _ & ->). split_and!; try done.
    apply edge_inv_grow; try done. intros k Hk. simpl. rewrite lookup_insert. by case_decide.
  - apply Auth.insert_prekey_inv in Hs as (_ & _ & ->). by split_and!.
  - apply Auth.insert_token_inv in Hs as (_ & ->). by split_and!.
  - apply Auth.upsert_salt_inv in Hs as (_ & ->). by split_and!.
  - apply Auth.upsert_backup_inv in Hs as (_ & ->). by split_and!.
  - by split_and!.
  - split_and!; try done. apply edge_inv_grow; try done. intros k Hk. simpl. unfold Auth.rename_device. simpl.
    by rewrite lookup_update_where, fmap_is_Some.
  - split_and!; try done. apply edge_inv_cascade; try done; simpl.
    + intros k p. rewrite !lookup_delete_where. destruct (vpn_peers d !! k) as [q|]; [|done]. simpl.
      destruct (devices d !! k.1.2) as [r|]; simpl; [|done]. by destruct (Auth.owned user dev k.1.2 r).
    + intros e p. rewrite !lookup_delete_where. destruct (pushes d !! e) as [q|]; [|done]. simpl.
      destruct (devices d !! ps_device q) as [r|] eqn:Hr; simpl.
      * destruct (Auth.owned user dev (ps_device q) r) eqn:Ho; [done|]. intros [= <-].
        split; [done|]. rewrite Hr. simpl. by rewrite Ho.
      * intros [= <-]. split; [done|]. by rewrite Hr.
  - injection Hs as _ <-. by split_and!.
  - by split_and!.
Qed.

Lemma server_inv_sql J d d' : server_inv d → Auth.sql domain J d d' → server_inv d'.
Proof.
  intros (Ha & Hre & Hro & Hm & Hed) Hs. destruct (sql_frame _ _ _ Hs) as (Hq & Hrc & Hr & Hme & Hu & He).
  split; [by eapply Auth.sql_inv|]. split; [by eapply relay_inv_same|].
  split; [by eapply rooms_inv_same|]. split; [by eapply member_users_grow|auto].
Qed.

Lemma server_inv_reaches J d d' : Auth.reaches domain J d d' → server_inv d → server_inv d'.
Proof. induction 1; eauto using server_inv_sql. Qed.

(** Rooms. *)
Lemma insert_room_some id n c t d d' :
  Rooms.insert_room domain id n c t d = Some d' →
  is_Some (d.(users) !! c) ∧ d' = with_rooms (<[id := RoomRow n domain c t]> d.(rooms)) d.
Proof.
  unfold Rooms.insert_room. destruct (rooms d !! id); [done|].
  destruct (users d !! c) eqn:Hu; [|done]. intros [= <-]. eauto.
Qed.

Lemma insert_member_some room u role t d d' :
  Rooms.insert_member room u role t d = Some d' →
  is_Some (d.(users) !! u) ∧ d' = with_members (<[(room, u) := MemberRow role t]> d.(members)) d.
Proof.
  unfold Rooms.insert_member, Rooms.member_refs. destruct (rooms d !! room); [|done].
  destruct (users d !! u) eqn:Hu; [|done]. destruct (members d !! (room, u)); [done|].
  intros [= <-]. eauto.
Qed.

Lemma update_role_some room u role d d' :
  Rooms.update_role room u role d = Some d' →
  d' = d ∨ ∃ m, d.(members) !! (room, u) = Some m ∧
    d' = with_members (<[(room, u) := MemberRow role m.(m_joined_at)]> d.(members)) d.
Proof.
  unfold Rooms.update_role. destruct (members d !! (room, u)) as [m|]; [|intros [= <-]; by left].
  case_bool_decide; [|done]. intros [= <-]. right. by exists m.
Qed.

Lemma update_creator_some room u d d' :
  Rooms.update_creator room u d = Some d' →
  d' = d ∨ ∃ r, is_Some (d.(users) !! u) ∧
    d' = with_rooms (<[room := RoomRow r.(r_name) r.(r_domain) u r.(r_created_at)]> d.(rooms)) d.
Proof.
  unfold Rooms.update_creator. destruct (rooms d !! room) as [r|]; [|intros [= <-]; by left].
  destruct (users d !! u) eqn:Hu; [|done]. intros [= <-]. right. exists r. split; [by eauto|done].
Qed.

(** One statement on the tables of rooms. *)
Inductive room_write (d : DB) : DB → Prop :=
| rw_same : room_write d d
| rw_room id x : is_Some (d.(users) !! x.(r_creator_id)) →
    room_write d (with_rooms (<[id := x]> d.(rooms)) d)
| rw_member room u m : is_Some (d.(users) !! u) ∨ is_Some (d.(members) !! (room, u)) →
    room_write d (with_members (<[(room, u) := m]> d.(members)) d)
| rw_leave k : room_write d (with_members (delete k d.(members)) d).

Lemma room_write_frame d d' :
  member_users d → room_write d d' →
  member_users d' ∧ d'.(users) = d.(users) ∧ d'.(users_seq) = d.(users_seq) ∧
  d'.(devices) = d.(devices) ∧ d'.(prekeys) = d.(prekeys) ∧ d'.(tokens) = d.(tokens) ∧
  d'.(salts) = d.(salts) ∧ d'.(backups) = d.(backups) ∧ d'.(queue) = d.(queue) ∧
  d'.(receipts) = d.(receipts) ∧ (edge_inv d → edge_inv d').
Proof.
  intros [Hm Hr] Hw. split; [|destruct Hw; split_and!; try done; by apply edge_inv_grow].
  destruct Hw as [|id x Hx|room u m Hu|k]; [done|..]; split; try exact Hm; try exact Hr.
  - intros r y. simpl. rewrite lookup_insert. case_decide; [|by eauto]. by intros [= <-].
  - intros r v y. simpl. rewrite lookup_insert. case_decide as He; [|by eauto].
    injection He as <- <-. intros _. destruct Hu as [?|[y' Hy]]; [done|by eapply Hm].
  - intros r v y. simpl. rewrite lookup_delete. case_decide; [done|]. apply Hm.
Qed.

Lemma granted_writes o d d' : Rooms.granted domain d o d' → rtc room_write d d'.
Proof.
  assert (∀ d1 d2, room_write d1 d2 → rtc room_write d1 d2) as Hone by (intros; by apply rtc_once).
  assert (∀ room u role d1 d2, Rooms.update_role room u role d1 = Some d2 → room_write d1 d2) as Hrole.
  { intros room u role d1 d2 [->|(m & Hm & ->)]%update_role_some; [constructor|].
    apply rw_member. right. eauto. }
  destruct 1 as [o|r n c t d1 H1|r n c t d1 d2 H1 H2|r a i t d1 _ H1|r a role _ _
    |r a t role d1 _ _ _ H1|r a t d1 d2 d3 _ _ _ H1 H2 H3|r a t tr _ _ _ _].
  - constructor.
  - apply Hone. apply insert_room_some in H1 as [Hu ->]. by apply rw_room.
  - apply insert_room_some in H1 as [Hu ->]. apply insert_member_some in H2 as [Hu2 ->].
    eapply rtc_l; [exact (rw_room _ r (RoomRow n domain c t) Hu)|]. apply Hone, rw_member. by left.
  - apply Hone. unfold Rooms.insert_member_do_nothing in H1.
    destruct (members d !! (r, i)); [injection H1 as <-; constructor|].
    apply insert_member_some in H1 as [Hu ->]. apply rw_member. by left.
  - apply Hone, rw_leave.
  - by eapply Hone, Hrole.
  - eapply rtc_l; [by eapply Hrole|]. eapply rtc_l; [by eapply Hrole|]. apply Hone.
    apply update_creator_some in H3 as [->|(x & Hu & ->)]; [constructor|]. by apply rw_room.
  - apply Hone, rw_leave.
Qed.

Lemma server_inv_granted o d d' : server_inv d → Rooms.granted domain d o d' → server_inv d'.
Proof.
  intros (Ha & Hre & Hro & Hm & Hed) Hg. pose proof (Rooms.rooms_inv_granted _ _ _ _ Hro Hg) as Hro'.
  apply granted_writes in Hg.
  assert (Auth.auth_inv d' ∧ Relay.relay_inv d' ∧ member_users d' ∧ edge_inv d') as (? & ? & ? & ?); [|by split_and!].
  clear Hro Hro'. induction Hg as [|d1 d2 d3 Hw _ IH]; [done|].
  destruct (room_write_frame _ _ Hm Hw) as (? & ? & ? & ? & ? & ? & ? & ? & ? & ? & ?).
  apply IH; [by eapply auth_inv_same|by eapply relay_inv_same|done|auto].
Qed.

(** The relay. *)
Lemma server_inv_relay d d' :
  d'.(users) = d.(users) → d'.(users_seq) = d.(users_seq) → d'.(devices) = d.(devices) →
  d'.(prekeys) = d.(prekeys) → d'.(tokens) = d.(tokens) → d'.(salts) = d.(salts) →
  d'.(backups) = d.(backups) → d'.(rooms) = d.(rooms) → d'.(members) = d.(members) →
  d'.(vpn_nodes) = d.(vpn_nodes) → d'.(wg_addr_seq) = d.(wg_addr_seq) →
  d'.(vpn_peers) = d.(vpn_peers) → d'.(pushes) = d.(pushes) →
  (Relay.relay_inv d → Relay.relay_inv d') → server_inv d → server_inv d'.
Proof.
  intros Hu Hs Hd Hp Ht Hsa Hb Hr Hm Hvn Hws Hvp Hpu Hre (Ha & ? & Hro & Hme & Hed).
  split; [by eapply auth_inv_same|]. split; [auto|]. split; [by eapply rooms_inv_same|]. split.
  - eapply member_users_grow; try done. intros u. by rewrite Hu.
  - revert Hed. apply edge_inv_grow; try done; intros k; [by rewrite Hu|by rewrite Hd].
Qed.

Lemma relay_statements : Relay.statements_keep server_inv.
Proof.
  constructor.
  - intros id s r dv ct cts se ts ex now d d' Hs. pose proof Hs as (_ & ->)%Relay.insert_message_inv.
    apply server_inv_relay; try done. by eapply Relay.relay_inv_insert.
  - intros k id d d' Hs. pose proof Hs as Hi. unfold Relay.insert_idempotency in Hs.
    case_match; simplify_eq; apply server_inv_relay; try done; by eapply Relay.relay_inv_idempotency.
  - intros id d. apply server_inv_relay; try done. apply Relay.relay_inv_mark.
  - intros id reader now d d' Hs. pose proof Hs as Hi. unfold Relay.insert_receipt in Hs.
    destruct (receipts d !! (id, reader)); [by simplify_eq|]. destruct (Relay.has_event id d); [|done].
    simplify_eq. apply server_inv_relay; try done. by eapply Relay.relay_inv_receipt.
  - intros u dev c d d' Hs. pose proof Hs as Hi. unfold Relay.upsert_cursor in Hs.
    case_match; simplify_eq; apply server_inv_relay; try done; by eapply Relay.relay_inv_cursor.
Qed.

(** The key directory. *)
Lemma server_inv_keys d d' :
  (Auth.auth_inv d → Auth.auth_inv d') → (∀ k, is_Some (d.(users) !! k) → is_Some (d'.(users) !! k)) →
  d'.(queue) = d.(queue) → d'.(receipts) = d.(receipts) → d'.(rooms) = d.(rooms) →
  d'.(members) = d.(members) → d'.(vpn_nodes) = d.(vpn_nodes) → d'.(wg_addr_seq) = d.(wg_addr_seq) →
  d'.(vpn_peers) = d.(vpn_peers) → d'.(pushes) = d.(pushes) →
  (∀ k, is_Some (d.(devices) !! k) → is_Some (d'.(devices) !! k)) → server_inv d → server_inv d'.
Proof.
  intros Ha Hu Hq Hrc Hr Hm Hvn Hws Hvp Hpu Hd (? & ? & ? & ? & ?). split; [auto|].
  split; [by eapply relay_inv_same|]. split; [by eapply rooms_inv_same|].
  split; [by eapply member_users_grow|by eapply edge_inv_grow].
Qed.

Lemma auth_inv_prekeys m d :
  (∀ k p, m !! k = Some p → is_Some (d.(prekeys) !! k) ∨ is_Some (d.(devices) !! k.1)) →
  Auth.auth_inv d → Auth.auth_inv (with_prekeys m d).
Proof.
  intros Hm (? & ? & ? & Hp & ? & ?). split_and!; try done. intros k p Hk. simpl in *.
  destruct (Hm _ _ Hk) as [[p' Hp']|]; [by eapply Hp|done].
Qed.

Lemma auth_inv_signed user dev spk sig id now d :
  Auth.auth_inv d → Auth.auth_inv (Keydir.update_signed_prekey user dev spk sig id now d).
Proof.
  intros (? & ? & Hd & Hp & Ht & ?). unfold Keydir.update_signed_prekey.
  split_and!; try done.
  - intros k r. simpl. rewrite lookup_update_where. destruct (devices d !! k) as [r0|] eqn:Hk; [|done].
    simpl. case_match; intros [= <-]; simpl; by eapply Hd.
  - intros k p Hk. simpl. rewrite lookup_update_where. destruct (Hp _ _ Hk) as [r ->]. simpl.
    by case_match.
  - intros j t Hj. destruct (Ht _ _ Hj) as (r & Hr & Ho). unfold Auth.owns. simpl.
    rewrite lookup_update_where, Hr. simpl. by case_match; eexists.
Qed.

Lemma keydir_statements : Keydir.statements_keep server_inv.
Proof.
  constructor.
  - intros dev now x d d' [->|(k & p & Hk & ->)]%Keydir.claim_prekey_row; [done|].
    apply server_inv_keys; try done. apply auth_inv_prekeys. intros k' p'.
    rewrite lookup_insert. case_decide; [intros _; subst; left; by rewrite Hk|by left].
  - intros user dev spk sig id now d. apply server_inv_keys; try done; [apply auth_inv_signed|].
    intros k. unfold Keydir.update_signed_prekey. simpl. by rewrite lookup_update_where, fmap_is_Some.
  - intros dev k pk d d'. unfold Keydir.insert_prekey_do_nothing. intros Hi.
    destruct (prekeys d !! (dev, k)); [by simplify_eq|]. destruct (devices d !! dev) eqn:Hd; [|done].
    simplify_eq. apply server_inv_keys; try done. apply auth_inv_prekeys. intros k' p'.
    rewrite lookup_insert. case_decide; [intros _; subst; right; simpl; by rewrite Hd|by left].
  - intros t n d d' Hc. unfold Keydir.delete_consumed_before in Hc. simplify_eq.
    apply server_inv_keys; try done. apply auth_inv_prekeys. intros k p. rewrite lookup_delete_where.
    intros Hk. left. by destruct (prekeys d !! k).
Qed.

(** The VPN service, and subscriptions to pushes. *)
Lemma server_inv_served d d' : server_inv d → Vpn.served d d' → server_inv d'.
Proof.
  intros (Ha & Hre & Hro & Hm & [_ Hp]) [Hv Ho _]. unfold Vpn.outside in Ho. rewrite Ho.
  split; [by eapply auth_inv_same|]. split; [by eapply relay_inv_same|]. split; [by eapply rooms_inv_same|].
  split; [by eapply member_users_grow|]. split; [by rewrite <- Ho|done].
Qed.

Lemma server_inv_push d d' :
  server_inv d → (∃ m, d' = with_pushes m d) → (Push.push_inv d → Push.push_inv d') → server_inv d'.
Proof. intros (? & ? & ? & ? & ? & ?) [m ->] Hp. split_and!; try done. split; [done|auto]. Qed.

(** The tables no invariant is about. *)
Lemma server_inv_peers m d : server_inv d → server_inv (with_peers m d).
Proof. by apply server_inv_keys. Qed.
Lemma server_inv_proxies m d : server_inv d → server_inv (with_proxies m d).
Proof. by apply server_inv_keys. Qed.
Lemma server_inv_salt user v d d' :
  Auth.upsert_salt user v d = Some d' → server_inv d → server_inv d'.
Proof. intros Hs Hd. eapply (server_inv_sql None); [done|]. by eapply Auth.sql_salt. Qed.
End statements.

(** The encryption of stored columns when the server starts. *)
Lemma auth_inv_columns d d' :
  (∀ k, u_username <$> d'.(users) !! k = u_username <$> d.(users) !! k ∧
        u_domain <$> d'.(users) !! k = u_domain <$> d.(users) !! k) →
  d'.(users_seq) = d.(users_seq) →
  (∀ k, d_user <$> d'.(devices) !! k = d_user <$> d.(devices) !! k) →
  (∀ k, is_Some (d'.(prekeys) !! k) → is_Some (d.(prekeys) !! k)) →
  (∀ k, t_user <$> d'.(tokens) !! k = t_user <$> d.(tokens) !! k ∧
        t_device <$> d'.(tokens) !! k = t_device <$> d.(tokens) !! k) →
  (∀ k, is_Some (d'.(salts) !! k) → is_Some (d.(salts) !! k)) → d'.(backups) = d.(backups) →
  Auth.auth_inv d → Auth.auth_inv d'.
Proof.
  intros Hu Hs Hd Hp Ht Hsa Hb (Hi1 & Hi2 & Hi3 & Hi4 & Hi5 & Hi6 & Hi7).
  assert (∀ k u, users d' !! k = Some u → ∃ v, users d !! k = Some v ∧
    u_username v = u_username u ∧ u_domain v = u_domain u) as Hu1.
  { intros k u Hk. destruct (Hu k) as [H1 H2]. rewrite Hk in H1, H2.
    destruct (users d !! k) as [v|]; simplify_eq/=; eauto. }
  assert (∀ k, is_Some (users d !! k) → is_Some (users d' !! k)) as Hu2.
  { intros k [v Hv]. destruct (Hu k) as [H1 _]. rewrite Hv in H1. by destruct (users d' !! k). }
  assert (∀ k r, devices d !! k = Some r → ∃ r', devices d' !! k = Some r' ∧ d_user r' = d_user r) as Hd1.
  { intros k r Hr. specialize (Hd k). rewrite Hr in Hd. destruct (devices d' !! k); simplify_eq/=; eauto. }
  split_and!.
  - intros i j u v (u' & Hu' & <- & <-)%Hu1 (v' & Hv' & <- & <-)%Hu1. by eapply Hi1.
  - intros i u (u' & Hu' & _)%Hu1. rewrite Hs. by eapply Hi2.
  - intros k r Hr. specialize (Hd k). rewrite Hr in Hd. destruct (devices d !! k) eqn:Hk; simplify_eq/=.
    apply Hu2. rewrite Hd. by eapply Hi3.
  - intros k p Hk. destruct (Hp k) as [p' Hp']; [by rewrite Hk|].
    destruct (Hi4 _ _ Hp') as [r Hr]. destruct (Hd1 _ _ Hr) as (r' & -> & _). by eexists.
  - intros j t Hj. destruct (Ht j) as [H1 H2]. rewrite Hj in H1, H2.
    destruct (tokens d !! j) as [t'|] eqn:Hk; simplify_eq/=.
    destruct (Hi5 _ _ Hk) as (r & Hr & Ho). destruct (Hd1 _ _ Hr) as (r' & Hr' & Hq).
    rewrite H1, H2. exists r'. by rewrite Hq.
  - split; [|rewrite Hb]; intros u x Hx; apply Hu2; [|by eapply Hi7].
    destruct (Hsa u) as [y Hy]; [by rewrite Hx|]. by eapply Hi6.
Qed.

Lemma boot_statements : Dbenc.statements_keep server_inv.
Proof.
  assert (∀ {K A B} `{Countable K} (f : A → A) (g : A → B) (m : gmap K A) i k, (∀ a, g (f a) = g a) →
    g <$> alter f i m !! k = g <$> m !! k) as Halter.
  { intros K A B ?? f g m i k Hf. rewrite lookup_alter. case_decide; [subst|done].
    destruct (m !! k); [|done]. simpl. by rewrite Hf. }
  assert (∀ {K A} `{Countable K} (f : A → A) (m : gmap K A) i k,
    is_Some (alter f i m !! k) ↔ is_Some (m !! k)) as Hsome.
  { intros K A ?? f m i k. rewrite lookup_alter. case_decide; [subst|done]. apply fmap_is_Some. }
  constructor; intros *; apply server_inv_keys; try done; try apply auth_inv_columns;
    intros *; try done; simpl; rewrite ?Halter by done; try done; by apply Hsome.
Qed.

End Invariant.
