(* ===== verification/Api.v ===== *)
(** * The HTTP layer ([server/internal/api])

    What every handler uses: replies ([response.go]), the state of the server
    process a request meets, calls to the services it is made of, the query
    of a URL, and the middleware of authenticated routes ([middleware.go],
    [ratelimit.go], [alert.go]).

    [server/cmd/server/main.go] builds every service, so the handlers' tests
    for a nil service always succeed and are not modelled; logs and counters
    leave no state and are not either. *)

From Stdlib Require Import Ascii String.
From stdpp Require Import strings.
From S2P Require Import Prelude GoStrings Encoding Json Wire Crypto Schema Samples Dbenc Keydir.
From S2P Require Import Auth Stream Federation VpnNodes Vpn.
Set Default Goal Selector "!".
Open Scope stdpp_scope.

Module Api.

(** ** Replies *)
Inductive content := Json (j : json) | Text (s : string).

Record Reply := mkReply { status : Z; reply : content }.

Definition writeJSON (st : Z) (j : json) : Reply := mkReply st (Json j).

Definition writeError (st : Z) (code message : string) : Reply :=
  writeJSON st (JObj [("error", JStr code); ("message", JStr message)]).

(** [json.NewEncoder(w).Encode] ends with a line break. *)
Definition reply_text (r : Reply) : string :=
  match reply r with Json j => marshal j +:+ String "010" "" | Text s => s end.

(** A nil slice is [null]. *)
Definition JStrings (l : list string) : json :=
  match l with [] => JNull | _ => JArr (JStr <$> l) end.

(** ** Requests

    [params]: what [chi.URLParam] gives for the route; [tls]: [r.TLS] is not
    nil; [content_length]: [r.ContentLength]; [cut_short]: the connection breaks
    after what [req] has of the body. *)
Record Request := mkRequest {
  req : ServerRequest;
  tls : bool;
  host : string;
  params : string → string;
  content_length : Z;
  cut_short : bool;
}.

Definition body (r : Request) : string := r_body (req r).
Definition hdr (k : string) (r : Request) : string := S2S.header k (req r).

(** [io.ReadAll(io.LimitReader(r.Body, n))] *)
Definition limited (n : Z) (r : Request) : string := stake (Z.to_nat n) (body r).

(** Whether it returns no error. *)
Definition whole (n : Z) (r : Request) : bool := negb (cut_short r) || (Z.to_nat n <=? slen (body r)).

(** [url.QueryUnescape] *)
Fixpoint query_unescape (s : string) : option string :=
  match s with
  | "" => Some ""
  | String a s' =>
    if Ascii.eqb a "%" then
      match s' with
      | String x (String y s'') =>
        h ← hex_val x; l ← hex_val y; t ← query_unescape s'';
        Some (String (byte_of (h * 16 + l)) t)
      | _ => None
      end
    else t ← query_unescape s'; Some (String (if Ascii.eqb a "+" then " "%char else a) t)
  end.

(** [strings.Cut] at one byte. *)
Definition cut (c : ascii) (s : string) : string * string :=
  match index s (String c "") with
  | Some i => (stake i s, sdrop (S i) s)
  | None => (s, "")
  end.

(** [url.ParseQuery] keeps the pairs it can read. *)
Definition query_pair (s : string) : option (string * string) :=
  if contains s ";" || String.eqb s "" then None else
  let '(k, v) := cut "=" s in
  k ← query_unescape k; v ← query_unescape v; Some (k, v).

Definition query_pairs (raw : string) : list (string * string) :=
  omap query_pair (split_byte "&" raw).

(** [r.URL.Query().Get(k)] *)
Definition query (k : string) (r : Request) : string :=
  match List.find (λ kv, String.eqb kv.1 k) (query_pairs (r_rawquery (req r))) with
  | Some (_, v) => v
  | None => ""
  end.

(** [if u, err := url.PathUnescape(s); err == nil { s = u }] *)
Definition unescaped (s : string) : string := default s (unescape s).

(** ** The state a request meets *)

(** [w_alerts] and [w_pushed]: the webhooks called, and the calls of
    [push.Service.NotifyNewMessage] (what each sends is [Push.NotifyNewMessage]);
    [w_asked]: what the VPN service asked of other processes; [w_objects]: the
    bucket of the object store. *)

(** The package variables of [peer_resolver.go]. *)
Record ServersCache := mkCache { cache_hub : string; cache_list : list string; cache_exp : Z }.

Record World := mkWorld {
  w_db : DB;
  w_hub : Stream.Hub;
  w_client : S2S.Client;
  w_security : Security.SecurityService;
  w_files : Security.files;
  w_cache : ServersCache;
  w_alerts : list (string * string);
  w_pushed : list (string * string);
  w_asked : list Vpn.call;
  w_objects : gmap string string;
}.

Definition with_db (d : DB) (w : World) : World :=
  mkWorld d (w_hub w) (w_client w) (w_security w) (w_files w) (w_cache w) (w_alerts w) (w_pushed w) (w_asked w) (w_objects w).
Definition with_hub (h : Stream.Hub) (w : World) : World :=
  mkWorld (w_db w) h (w_client w) (w_security w) (w_files w) (w_cache w) (w_alerts w) (w_pushed w) (w_asked w) (w_objects w).
Definition with_client (c : S2S.Client) (w : World) : World :=
  mkWorld (w_db w) (w_hub w) c (w_security w) (w_files w) (w_cache w) (w_alerts w) (w_pushed w) (w_asked w) (w_objects w).
Definition with_security (s : Security.SecurityService) (fs : Security.files) (w : World) : World :=
  mkWorld (w_db w) (w_hub w) (w_client w) s fs (w_cache w) (w_alerts w) (w_pushed w) (w_asked w) (w_objects w).
Definition with_cache (c : ServersCache) (w : World) : World :=
  mkWorld (w_db w) (w_hub w) (w_client w) (w_security w) (w_files w) c (w_alerts w) (w_pushed w) (w_asked w) (w_objects w).
Definition with_alerts (l : list (string * string)) (w : World) : World :=
  mkWorld (w_db w) (w_hub w) (w_client w) (w_security w) (w_files w) (w_cache w) l (w_pushed w) (w_asked w) (w_objects w).

Definition with_pushed (l : list (string * string)) (w : World) : World :=
  mkWorld (w_db w) (w_hub w) (w_client w) (w_security w) (w_files w) (w_cache w) (w_alerts w) l (w_asked w)
    (w_objects w).
Definition with_asked (l : list Vpn.call) (w : World) : World :=
  mkWorld (w_db w) (w_hub w) (w_client w) (w_security w) (w_files w) (w_cache w) (w_alerts w) (w_pushed w) l
    (w_objects w).
Definition with_objects (m : gmap string string) (w : World) : World :=
  mkWorld (w_db w) (w_hub w) (w_client w) (w_security w) (w_files w) (w_cache w) (w_alerts w) (w_pushed w)
    (w_asked w) m.

(** ** Handlers

    A handler is a computation on the state that ends in a reply.  An early
    [writeError(...); return] is an exit, and so is a panic. *)
Inductive exit :=
| Return (r : Reply)
| Panic.

Abbreviation H := (M World exit).

Definition require (b : bool) (r : Reply) : H unit := if b then mret tt else raise (Return r).

Definition gets {A} (f : World → A) : H A := λ F w n, (Ok (f w), w, n).
Definition modify (f : World → World) : H unit := λ F w n, (Ok tt, f w, n).

(** Statements on the pool, and calls to a service. *)
Definition lift {A} (m : M DB exit A) : H A := λ F w n,
  match m F (w_db w) n with (r, d, n') => (r, with_db d w, n') end.

Definition on_db {E A} (m : M DB E A) : H (result E A) := lift (attempt m).

(** The VPN service, on the pool and on the processes it asks. *)
Definition on_vpn {A} (m : M Vpn.Vpn VpnNodes.err A) : H (result VpnNodes.err A) := λ F w n,
  match m F (Vpn.mkVpn (w_db w) (w_asked w)) n with
  | (r, v, n') => (Ok r, with_asked (Vpn.v_calls v) (with_db (Vpn.v_db v) w), n')
  end.

(** The media service, on the bucket. *)
Definition on_objects {E A} (m : M (gmap string string) E A) : H (result E A) := λ F w n,
  match m F (w_objects w) n with (r, o, n') => (Ok r, with_objects o w, n') end.

(** The error of a service ends the request. *)
Definition or_reply {E A} (f : E → Reply) (m : H (result E A)) : H A :=
  r ← m; match r with Ok a => mret a | Err e => raise (Return (f e)) end.

(** A call of the federation client. *)
Definition remote {A} (f : S2S.Client → result S2S.cerr A * S2S.Client) : H (result S2S.cerr A) :=
  λ F w n, let '(r, c) := f (w_client w) in
  match r with
  | Err S2S.EPanic => (Err Panic, with_client c w, n)
  | _ => (Ok r, with_client c w, n)
  end.

Definition fetched {A} (r : result S2S.cerr A) : H (result S2S.cerr A) :=
  match r with Err S2S.EPanic => raise Panic | _ => mret r end.

Definition on_hub (f : Stream.Hub → Stream.Hub) : H unit := modify (λ w, with_hub (f (w_hub w)) w).

(** [SendFederationAlert]: the webhooks called. *)
Definition SendFederationAlert (webhookURL event domain : string) : H unit :=
  if String.eqb webhookURL "" then mret tt
  else modify (λ w, with_alerts (w_alerts w ++ [(event, domain)]) w).

(** What the client gets; [recovered] is the reply of the recovering
    middleware. *)
Definition respond (recovered : Reply) (r : result exit Reply) : Reply :=
  match r with
  | Ok r => r
  | Err (Return r) => r
  | Err Panic => recovered
  end.

(** [federationRecover], and the [Recoverer] of the router for the rest. *)
Definition federation_recovered : Reply := writeError 500 "internal_error" "Request failed".
Definition api_recovered : Reply := mkReply 500 (Text "").

Definition serve (recovered : Reply) (F : nat → bool) (m : H Reply) (w : World) : Reply * World :=
  match m F w 0 with (r, w', _) => (respond recovered r, w') end.

(** The texts of errors the backend passes on. *)
Class ErrText (E : Type) := err_text : E → string.

Definition bad (message : string) : Reply := writeError 400 "invalid_request" message.
Definition internal {E} `{!ErrText E} (e : E) : Reply := writeError 500 "internal_error" (err_text e).

(** [json.NewDecoder(r.Body).Decode(&req)] *)
Definition decoded_body {A} (d : Dec A) (zero : A) (r : Request) : H A :=
  match decode_first (body r) ≫= d zero with
  | Some q => mret q
  | None => raise (Return (bad "Invalid JSON"))
  end.

Lemma with_db_same w : with_db (w_db w) w = w.
Proof. by destruct w. Qed.

(** ** Rules for the predicate transformer *)
Section rules.
Context (F : nat → bool).
Implicit Types (w : World).

Lemma wp_require b r Q w :
  (b = true → Q (Ok tt) w) → (b = false → Q (Err (Return r)) w) → wp F (require b r) Q w.
Proof. intros H1 H2. unfold require. destruct b; [apply wp_ret|apply wp_raise]; auto. Qed.

Lemma wp_gets {A} (f : World → A) (Q : result exit A → World → Prop) w :
  Q (Ok (f w)) w → wp F (gets f) Q w.
Proof. by intros ? n. Qed.

Lemma wp_modify f Q w : Q (Ok tt) (f w) → wp F (modify f) Q w.
Proof. by intros ? n. Qed.

Lemma wp_lift {A} (m : M DB exit A) (Q : result exit A → World → Prop) w :
  wp F m (λ r d, Q r (with_db d w)) (w_db w) → wp F (lift m) Q w.
Proof. intros H n. specialize (H n). unfold lift. by destruct (m F (w_db w) n) as [[r d] n']. Qed.

Lemma wp_on_db {E A} (m : M DB E A) (Q : result exit (result E A) → World → Prop) w :
  wp F m (λ r d, Q (Ok r) (with_db d w)) (w_db w) → wp F (on_db m) Q w.
Proof. intros H. apply wp_lift. by apply wp_attempt. Qed.

Lemma wp_or_reply {E A} (f : E → Reply) (m : H (result E A)) (Q : result exit A → World → Prop) w :
  wp F m (λ r w', match r with
                  | Ok (Ok a) => Q (Ok a) w'
                  | Ok (Err e) => Q (Err (Return (f e))) w'
                  | Err x => Q (Err x) w'
                  end) w →
  wp F (or_reply f m) Q w.
Proof.
  intros H. apply wp_bind. eapply wp_mono; [exact H|]. intros [[a|e]|x] w' HQ; [..|done].
  - by apply wp_ret.
  - by apply wp_raise.
Qed.

Lemma wp_decoded_body {A} (d : Dec A) zero r (Q : result exit A → World → Prop) w :
  (∀ q, decode_first (body r) ≫= d zero = Some q → Q (Ok q) w) →
  (decode_first (body r) ≫= d zero = None → Q (Err (Return (bad "Invalid JSON"))) w) →
  wp F (decoded_body d zero r) Q w.
Proof.
  intros H1 H2. unfold decoded_body.
  destruct (decode_first (body r) ≫= d zero); [apply wp_ret|apply wp_raise]; auto.
Qed.

Lemma wp_remote {A} f (Q : result exit (result S2S.cerr A) → World → Prop) w :
  (∀ r c, f (w_client w) = (r, c) → r ≠ Err S2S.EPanic → Q (Ok r) (with_client c w)) →
  (∀ c, f (w_client w) = (Err S2S.EPanic, c) → Q (Err Panic) (with_client c w)) →
  wp F (remote f) Q w.
Proof.
  intros H1 H2 n. unfold remote. destruct (f (w_client w)) as [[a|[]] c] eqn:Hf;
    (by eapply H1) || by eapply H2.
Qed.

Lemma wp_fetched {A} (r : result S2S.cerr A) (Q : result exit (result S2S.cerr A) → World → Prop) w :
  (r ≠ Err S2S.EPanic → Q (Ok r) w) → (r = Err S2S.EPanic → Q (Err Panic) w) →
  wp F (fetched r) Q w.
Proof. intros H1 H2 n. unfold fetched. destruct r as [a|[]]; (by apply H1) || by apply H2. Qed.
End rules.

Ltac h_step :=
  lazymatch goal with
  | |- wp _ (require _ _) _ _ => apply wp_require; [intros ?Hg|intros ?Hg]
  | |- wp _ (gets _) _ _ => apply wp_gets
  | |- wp _ (modify _) _ _ => apply wp_modify
  | |- wp _ (on_hub _) _ _ => apply wp_modify
  | |- wp _ (lift _) _ _ => apply wp_lift
  | |- wp _ (on_db _) _ _ => apply wp_on_db
  | |- wp _ (or_reply _ _) _ _ => apply wp_or_reply
  | |- wp _ (remote _) _ _ => apply wp_remote; [intros ?r ?c ?Hf ?Hp|intros ?c ?Hf]
  | |- wp _ (decoded_body _ _ _) _ _ => apply wp_decoded_body; [intros ?q ?Hq|intros ?Hq]
  | |- wp _ (fetched _) _ _ => apply wp_fetched; [intros ?Hp|intros ?Hp]
  | |- wp _ (SendFederationAlert _ _ _) _ _ => unfold SendFederationAlert
  | |- _ => wp_step
  end.

Ltac h_go := repeat (h_step; cbn beta iota).

(** *** Invariants of the database, and of the hub *)
Definition of_db (J : DB → Prop) (w : World) : Prop := J (w_db w).
Definition of_hub (J : Stream.Hub → Prop) (w : World) : Prop := J (w_hub w).

Section keeps_handlers.
Context (I : World → Prop).

Lemma keeps_require b r : keeps I (require b r).
Proof. unfold require. destruct b; auto with wp_db. Qed.

Lemma keeps_gets {A} (f : World → A) : keeps I (gets f).
Proof. intros F w Hw. by apply wp_gets. Qed.

Lemma keeps_modify f : (∀ w, I w → I (f w)) → keeps I (modify f).
Proof. intros Hf F w Hw. apply wp_modify. auto. Qed.

Lemma keeps_or_reply {E A} (f : E → Reply) (m : H (result E A)) : keeps I m → keeps I (or_reply f m).
Proof. intros Hm. unfold or_reply. apply keeps_bind; [done|]. intros []; auto with wp_db. Qed.

Lemma keeps_decoded_body {A} (d : Dec A) zero r : keeps I (decoded_body d zero r).
Proof. unfold decoded_body. destruct (_ ≫= _); auto with wp_db. Qed.

Lemma keeps_fetched {A} (r : result S2S.cerr A) : keeps I (fetched r).
Proof. unfold fetched. destruct r as [|[]]; auto with wp_db. Qed.

Lemma keeps_remote {A} f : (∀ c w, I w → I (with_client c w)) → keeps (D := World) I (remote (A := A) f).
Proof. intros Hc F w Hw. apply wp_remote; auto. Qed.

Lemma keeps_alert u e d : (∀ l w, I w → I (with_alerts l w)) → keeps I (SendFederationAlert u e d).
Proof.
  intros Hl. unfold SendFederationAlert. destruct (String.eqb u ""); [auto with wp_db|].
  apply keeps_modify. auto.
Qed.
End keeps_handlers.

Lemma keeps_lift_db {A} (J : DB → Prop) (m : M DB exit A) : keeps J m → keeps (of_db J) (lift m).
Proof. intros Hm F w Hw. apply wp_lift. eapply wp_mono; [by apply Hm|done]. Qed.

Lemma keeps_lift_hub {A} J (m : M DB exit A) : keeps (of_hub J) (lift m).
Proof. intros F w Hw. apply wp_lift. intros n. by destruct (m F (w_db w) n) as [[? ?] ?]. Qed.

Lemma keeps_on_vpn_db {A} J (m : M Vpn.Vpn VpnNodes.err A) :
  keeps (λ v, J (Vpn.v_db v)) m → keeps (of_db J) (on_vpn m).
Proof.
  intros Hm F w Hw n. specialize (Hm F (Vpn.mkVpn (w_db w) (w_asked w)) Hw n). unfold on_vpn.
  by destruct (m F _ n) as [[? ?] ?].
Qed.

Lemma keeps_on_vpn_hub {A} J (m : M Vpn.Vpn VpnNodes.err A) : keeps (of_hub J) (on_vpn m).
Proof. intros F w Hw n. unfold on_vpn. by destruct (m F _ n) as [[? ?] ?]. Qed.

Lemma keeps_on_objects {E A} (I : World → Prop) (m : M (gmap string string) E A) :
  (∀ w o, I w → I (with_objects o w)) → keeps I (on_objects m).
Proof. intros HI F w Hw n. unfold on_objects. destruct (m F _ n) as [[? ?] ?]. by apply HI. Qed.

Lemma keeps_on_hub_hub J f : (∀ hub, J hub → J (f hub)) → keeps (of_hub J) (on_hub f).
Proof. intros Hf. apply keeps_modify. intros w. apply Hf. Qed.

Lemma keeps_on_hub_db J f : keeps (of_db J) (on_hub f).
Proof. by apply keeps_modify. Qed.

#[export] Hint Resolve keeps_require keeps_gets keeps_decoded_body keeps_fetched keeps_lift_hub keeps_on_hub_db : wp_db.

(** [keeps_h] follows a handler. *)
Ltac keeps_h_step :=
  lazymatch goal with
  | |- keeps _ (or_reply _ _) => apply keeps_or_reply
  | |- keeps _ (remote _) => apply keeps_remote; intros ?c ?w ?Hw; exact Hw
  | |- keeps _ (SendFederationAlert _ _ _) => apply keeps_alert; intros ?l ?w ?Hw; exact Hw
  | |- keeps (of_db _) (on_db _) => apply keeps_lift_db, keeps_attempt
  | |- keeps (of_db _) (lift _) => apply keeps_lift_db
  | |- keeps (of_hub _) (on_db _) => apply keeps_lift_hub
  | |- keeps (of_db _) (on_vpn _) => apply keeps_on_vpn_db
  | |- keeps (of_hub _) (on_vpn _) => apply keeps_on_vpn_hub
  | |- keeps _ (on_objects _) => apply keeps_on_objects; intros ?w ?o ?Hw; exact Hw
  | |- keeps (of_hub _) (on_hub _) => apply keeps_on_hub_hub; intros ?hub ?Hhub
  | |- keeps _ (modify _) => apply keeps_modify; intros ?w ?Hw
  | |- _ => keeps_step
  end.

Ltac keeps_h := repeat (keeps_h_step; cbn beta iota).

(** ** Authenticated requests ([middleware.go]) *)

(** The values of the request's context; absent ones are [0] and [""]. *)
Record Ctx := mkCtx {
  getUserID : Z;
  getDeviceID : string;
  getProxySession : option Auth.ProxySession;
}.

Definition extractToken (r : Request) : string :=
  let h := hdr "Authorization" r in
  if has_prefix h "Bearer " then trim_prefix h "Bearer " else "".

Section middleware.
Context `{HU : UuidLib, HA : Aead, HB : Bcrypt, HJ : Jwt, HS : Sha256, HH : S2S.Http}.
Context (domain jwt_key : string) (enc : Dbenc.Cipher) `{!ErrText S2S.cerr}.

(** [t0], [t1]: the clock when the token is validated, and when the proxy
    session is looked up. *)
Definition AuthMiddleware (t0 t1 : Z) (next : Ctx → H Reply) (r : Request) : H Reply :=
  let token := extractToken r in
  _ ← require (negb (String.eqb token ""))
        (writeError 401 "missing_token" "Authorization required");
  v ← on_db (Auth.ValidateToken domain jwt_key t0 token);
  match v with
  | Ok (user, dev) => next (mkCtx user (uuid_string dev) None)
  | Err _ =>
    ps ← on_db (Auth.GetProxySessionByToken t1 token);
    match ps with
    | Ok ps => next (mkCtx 0 "" (Some ps))
    | Err _ => mret (writeError 401 "invalid_token" "Invalid or expired token")
    end
  end.

Definition missing_token : Reply := writeError 401 "missing_token" "Authorization required".
Definition invalid_token : Reply := writeError 401 "invalid_token" "Invalid or expired token".

(** Only what the middleware could tie to a token runs: as the user and
    device the token names, or for the proxy session it names. *)
Lemma wp_AuthMiddleware F t0 t1 next r (Q : result exit Reply → World → Prop) w :
  (∀ user dev, Auth.accepts_token domain jwt_key t0 (extractToken r) (w_db w) user dev →
     wp F (next (mkCtx user (uuid_string dev) None)) Q w) →
  (∀ ps, Auth.accepts_proxy t1 (extractToken r) (w_db w) ps →
     wp F (next (mkCtx 0 "" (Some ps))) Q w) →
  (extractToken r = "" → Q (Err (Return missing_token)) w) →
  (∀ d', Auth.forgets_expired t1 (w_db w) d' → Q (Ok invalid_token) (with_db d' w)) →
  wp F (AuthMiddleware t0 t1 next r) Q w.
Proof.
  intros Hown Hproxy Hmissing Hinvalid. unfold AuthMiddleware.
  apply wp_bind, wp_require; intros Ht.
  2: { apply negb_false_iff, String.eqb_eq in Ht. by apply Hmissing. }
  apply wp_bind, wp_on_db, Auth.wp_ValidateToken; rewrite with_db_same.
  { intros user dev Hud. cbn. by apply Hown. }
  intros e. cbn.
  apply wp_bind, wp_on_db, Auth.wp_GetProxySession.
  - intros ps Hps. cbn. rewrite ?with_db_same. by apply Hproxy.
  - intros e' d' Hd. apply wp_ret. by apply Hinvalid.
Qed.

(** Requests of a federated login that this server answers itself. *)
Definition handled_locally (path : string) : bool :=
  String.eqb path "/api/v1/users/search" || has_prefix path "/api/v1/keys/bundle/" ||
  has_prefix path "/api/v1/keys/devices/".

Definition forwarded (ps : Auth.ProxySession) (r : Request) : HttpRequest := {|
  rq_method := r_method (req r);
  rq_url := (if negb (tls r) && has_prefix (host r) "localhost" then "http" else "https") +:+
            "://" +:+ Auth.HomeDomain ps +:+ S2S.request_path (req r);
  rq_headers := <["Authorization" := "Bearer " +:+ Auth.HomeToken ps]>
    (<["Content-Type" := hdr "Content-Type" r]>
    (<["X-Protocol-Version" := hdr "X-Protocol-Version" r]>
    {["X-Idempotency-Key" := hdr "X-Idempotency-Key" r]}));
  rq_body := body r
|}.

(** What the home server answers; the headers copied from its reply are not
    modelled. *)
Definition proxied (ps : Auth.ProxySession) (r : Request) : Reply :=
  let rq := forwarded ps r in
  if negb (S2S.url_ok (rq_url rq)) then writeError 500 "internal_error" (err_text S2S.EPanic)
  else match S2S.http_do rq with
       | None => writeError 502 "proxy_error" (err_text S2S.ENet)
       | Some rsp => mkReply (rs_status rsp) (Text (rs_body rsp))
       end.

Definition ProxyForwardMiddleware (next : Ctx → H Reply) (c : Ctx) (r : Request) : H Reply :=
  match getProxySession c with
  | None => next c
  | Some ps => if handled_locally (r_path (req r)) then next c else mret (proxied ps r)
  end.

(** The stack of the authenticated routes. *)
Definition authenticated (t0 t1 : Z) (next : Ctx → H Reply) (r : Request) : H Reply :=
  AuthMiddleware t0 t1 (λ c, ProxyForwardMiddleware next c r) r.

(** A request of an authenticated route: answered 401, with no effect but that
    an expired proxy session is forgotten; handled for the user of its token;
    or, for a proxy session, answered by the home server. *)
Definition authenticated_post (t0 t1 : Z) (r : Request) (handled : Ctx → Reply → World → Prop)
    (w : World) (rep : Reply) (w' : World) : Prop :=
  let tok := extractToken r in
  (status rep = 401%Z ∧ ∃ d', Auth.forgets_expired t1 (w_db w) d' ∧ w' = with_db d' w) ∨
  (∃ user dev, Auth.accepts_token domain jwt_key t0 tok (w_db w) user dev ∧
     handled (mkCtx user (uuid_string dev) None) rep w') ∨
  (∃ ps, Auth.accepts_proxy t1 tok (w_db w) ps ∧
     if handled_locally (r_path (req r)) then handled (mkCtx 0 "" (Some ps)) rep w'
     else rep = proxied ps r ∧ w' = w).

Lemma wp_authenticated F t0 t1 next r handled w :
  (∀ c, wp F (next c) (λ res w', handled c (respond api_recovered res) w') w) →
  wp F (authenticated t0 t1 next r)
    (λ res w', authenticated_post t0 t1 r handled w (respond api_recovered res) w') w.
Proof.
  intros Hnext. apply wp_AuthMiddleware.
  - intros user dev Hud. eapply wp_mono; [apply Hnext|]. intros res w' Hh. right; left. eauto.
  - intros ps Hps. unfold ProxyForwardMiddleware. cbn [getProxySession].
    destruct (handled_locally _) eqn:Hl; [eapply wp_mono; [apply Hnext|]; intros res w' Hh|apply wp_ret];
      right; right; exists ps; by rewrite Hl.
  - intros _. left. split; [done|]. exists (w_db w). by split; [left|rewrite with_db_same].
  - intros d' Hd. left. eauto.
Qed.
End middleware.

(** ** Rate limits ([ratelimit.go])

    The key a request is counted under; [ip] is its address. *)
Definition federation_key (r : Request) : string :=
  let origin := hdr "X-Server-Origin" r in
  if String.eqb origin "" then "unknown" else "fed:" +:+ origin.

Definition user_key (ip : string) (c : Ctx) : string :=
  if (getUserID c =? 0)%Z then ip else "user:" +:+ itoa (getUserID c).

(** A request over the limit of its key. *)
Definition federation_limited (webhook : string) (r : Request) : H Reply :=
  let origin := hdr "X-Server-Origin" r in
  _ ← SendFederationAlert webhook "rate_limit" (if String.eqb origin "" then "unknown" else origin);
  mret (writeError 429 "rate_limited" "Federation rate limit exceeded").

Definition limited_reply : Reply := writeError 429 "rate_limited" "Too many requests".

(** ** A server at rest, for the examples *)
#[local] Instance no_net : GoNet := {| url_parse _ := None; parse_ip _ := None |}.

Definition quiet_world (domain : string) (d : DB) : World := mkWorld d Stream.NewHub
  (S2S.NewClient domain {| S2S.PublicKey := ""; S2S.PrivateKey := "" |})
  (Security.NewSecurityService ∅ (λ _, Security.NoResponse) Security.DefaultSecurityConfig)
  ∅ (mkCache "" [] 0) [] [] [] ∅.
End Api.
