(* ===== verification/FedHandler.v ===== *)
(** * The federation endpoints ([server/internal/api/handlers_federation.go])

    What a server answers to the other servers, composed from the security
    service, the signatures, the key directory, the authentication service,
    the relay and the hub. *)

From Stdlib Require Import Ascii String.
From stdpp Require Import strings.
From S2P Require Import Prelude GoStrings Encoding Json Wire Crypto Schema Samples Dbenc Keydir.
From S2P Require Import Auth Relay Stream Federation Api.
Set Default Goal Selector "!".
Open Scope stdpp_scope.

Module FedHandler.
Import Api.

Record federationHandler := mkHandler {
  h_keys : S2S.ServerKeys;
  h_domain : string;
  h_maxBody : Z;
  h_mainOnlyDomain : string;
  h_alertWebhookURL : string;
}.

(** ** [authVerifyRequest] *)
Record KeysPayload := mkKeys {
  k_IdentityKey : string;
  k_SpkKey : string;
  k_SpkSignature : string;
  k_SpkKeyID : Z;
  k_OneTimePrekeys : slice (string * Z);
}.

Record authVerifyRequest := mkAuthVerify {
  av_user_id : string;
  av_password : string;
  av_device_id : string;
  av_restore : bool;
  av_keys : option KeysPayload;
}.

Definition zero_keys : KeysPayload := mkKeys "" "" "" 0 nil_slice.
Definition zero_auth_verify : authVerifyRequest := mkAuthVerify "" "" "" false None.

(** ** Peers *)

(** [INSERT INTO federation_peers ... ON CONFLICT (domain) DO UPDATE SET
    endpoint = $2, updated_at = NOW()], with [allowed = TRUE] as well in
    [register]. *)
Definition upsert_peer (allow : bool) (dom endpoint : string) (now : Z) (d : DB) : DB :=
  with_peers (<[dom := PeerRow endpoint
    (match peers d !! dom with Some p => allow || fp_allowed p | None => true end) now]> (peers d)) d.

Definition peer_endpoint (dom : string) : string := "https://" +:+ dom +:+ "/federation/v1".

(** What the origin's notice writes when its domain can be added to the
    allow list file: whether the file opens, and what is appended. *)
Record ListFile := mkListFile { open_ok : bool; written : string → string }.

Section handlers.
Context `{HU : GoUnicode, HN : GoNet, HS : Sha256, HE : Ed25519, HH : S2S.Http, HUu : UuidLib,
  HP : PgText, HAe : Aead, HB : Bcrypt, HJw : Jwt}.
Context `{!ErrText S2S.cerr, !ErrText Auth.err}.
Context (h : federationHandler) (jwt_key : string) (enc : Dbenc.Cipher).

(** The [k]-th reading of the clock while a request is handled. *)
Implicit Types (tick : nat → Z).

Definition dec_signed_prekey : Dec KeysPayload := dec_struct
  [("key", at_field k_SpkKey (λ v k, mkKeys (k_IdentityKey k) v (k_SpkSignature k)
      (k_SpkKeyID k) (k_OneTimePrekeys k)) dec_string);
   ("signature", at_field k_SpkSignature (λ v k, mkKeys (k_IdentityKey k) (k_SpkKey k) v
      (k_SpkKeyID k) (k_OneTimePrekeys k)) dec_string);
   ("key_id", at_field k_SpkKeyID (λ v k, mkKeys (k_IdentityKey k) (k_SpkKey k)
      (k_SpkSignature k) v (k_OneTimePrekeys k)) dec_int64)].

Definition dec_prekey : Dec (string * Z) := dec_struct
  [("key", at_field fst (λ v p, (v, p.2)) dec_string);
   ("key_id", at_field snd (λ v p, (p.1, v)) dec_int64)].

Definition dec_keys_payload : Dec KeysPayload := dec_struct
  [("identity_key", at_field k_IdentityKey (λ v k, mkKeys v (k_SpkKey k) (k_SpkSignature k)
      (k_SpkKeyID k) (k_OneTimePrekeys k)) dec_string);
   ("signed_prekey", dec_signed_prekey);
   ("one_time_prekeys", at_field k_OneTimePrekeys (λ v k, mkKeys (k_IdentityKey k) (k_SpkKey k)
      (k_SpkSignature k) (k_SpkKeyID k) v) (dec_slice ("", 0%Z) dec_prekey))].

Definition dec_auth_verify : Dec authVerifyRequest := dec_struct
  [("user_id", at_field av_user_id (λ v r, mkAuthVerify v (av_password r) (av_device_id r)
      (av_restore r) (av_keys r)) dec_string);
   ("password", at_field av_password (λ v r, mkAuthVerify (av_user_id r) v (av_device_id r)
      (av_restore r) (av_keys r)) dec_string);
   ("device_id", at_field av_device_id (λ v r, mkAuthVerify (av_user_id r) (av_password r) v
      (av_restore r) (av_keys r)) dec_string);
   ("request_keys_restore", at_field av_restore (λ v r, mkAuthVerify (av_user_id r)
      (av_password r) (av_device_id r) v (av_keys r)) dec_bool);
   ("keys", at_field av_keys (λ v r, mkAuthVerify (av_user_id r) (av_password r)
      (av_device_id r) (av_restore r) v) (dec_ptr zero_keys dec_keys_payload))].

(** ** Shared guards *)
Definition origin_of (r : Request) : string := hdr "X-Server-Origin" r.

Definition require_origin (r : Request) : H unit :=
  require (negb (String.eqb (origin_of r) ""))
    (writeError 400 "invalid_request" "X-Server-Origin required").

Definition not_blocked (origin : string) : H unit :=
  b ← gets (λ w, Security.IsBlocked origin (w_security w));
  require (negb b) (writeError 403 "blocked" "Domain is blocked").

(** The origin's key is fetched, and the request verified with it, the clock
    at [now]. *)
Definition verify_origin (origin body : string) (r : Request) (now : Z) : H unit :=
  k ← fetched (S2S.FetchServerKey origin);
  match k with
  | Err _ => raise (Return (writeError 401 "invalid_origin" "Cannot fetch origin server key"))
  | Ok key =>
    match S2S.VerifyRequest (req r) body key now with
    | Err e => raise (Return (writeError 401 "invalid_signature" e))
    | Ok _ => mret tt
    end
  end.

Definition max_body : Z :=
  if (h_maxBody h <=? 0)%Z then Security.MaxBodySize_default else h_maxBody h.

(** ** Discovery *)
Definition wellKnown (r : Request) : H Reply :=
  let scheme := if negb (tls r) && has_prefix (host r) "localhost" then "http" else "https" in
  mret (writeJSON 200 (JObj
    [("federation_endpoint", JStr (scheme +:+ "://" +:+ host r +:+ "/federation/v1"));
     ("server_key", JStr (S2S.PublicKeyBase64 (h_keys h))); ("version", JStr "0.1")])).

(** The loop over the rows: normalised, this server and duplicates left out. *)
Definition add_server (self : string) (servers : list string) (d : string) : list string :=
  let d := to_lower (trim_space d) in
  if String.eqb d "" || String.eqb d self || bool_decide (d ∈ servers) then servers
  else servers ++ [d].

(** [order_by]: the collation of the database. *)
Definition federationServers (order_by : list string → list string) : H Reply :=
  let self := to_lower (h_domain h) in
  rows ← lift (Prelude.query (λ d, order_by
    (fst <$> select_rows (λ _ p, fp_allowed p) (peers d))));
  servers ← match rows with
            | None => mret [self]
            | Some l => l ← lift (fetch l); mret (foldl (add_server self) [self] l)
            end;
  mret (writeJSON 200 (JObj [("servers", JArr (JStr <$> servers))])).

(** ** [register] *)
Definition register (tick : nat → Z) (r : Request) : H Reply :=
  _ ← require (String.eqb (r_method (req r)) "POST")
        (writeError 405 "method_not_allowed" "POST required");
  _ ← require_origin r;
  let origin := to_lower (trim_space (origin_of r)) in
  _ ← require (negb (String.eqb origin (to_lower (h_domain h))))
        (writeError 400 "invalid_request" "Cannot register self");
  _ ← verify_origin origin (limited 256 r) r (tick 0);
  _ ← lift (exec (λ d, Some (upsert_peer true origin (peer_endpoint origin) (tick 1) d)));
  mret (writeJSON 200 (JObj [("status", JStr "ok")])).

(** ** Keys of local users *)
Definition signal_id (id : string) : list (string * json) :=
  match uuid_parse id with
  | Some dev => [("signal_device_id", JInt (Keydir.UUIDToSignalDeviceID dev))]
  | None => []
  end.

(** A bundle, with the device it is for unless [deviceID] is empty. *)
Definition bundle_json (b : Keydir.Bundle) (deviceID : string) : json :=
  let named := negb (String.eqb deviceID "") in
  JObj ((if named then [("device_id", JStr deviceID)] else []) ++
    [("identity_key", JStr (b64_encode (Keydir.IdentityKey b)))] ++
    match Keydir.OneTimePrekey b with
    | Some p => [("one_time_prekey", JObj [("key", JStr (b64_encode (Keydir.Key p)));
                                           ("key_id", JInt (Keydir.KeyID p))])]
    | None => []
    end ++
    (if named then signal_id deviceID else []) ++
    [("signed_prekey", JObj
        [("key", JStr (b64_encode (Keydir.SignedPrekey b)));
         ("key_id", JInt (Keydir.SignedPrekeyID b));
         ("signature", JStr (b64_encode (Keydir.SignedPrekeySig b)))])]).

Definition getKeys (tick : nat → Z) (r : Request) : H Reply :=
  let userID := params r "userID" in
  let deviceID := params r "deviceID" in
  _ ← require (negb (String.eqb userID "" || String.eqb deviceID ""))
        (writeError 400 "invalid_request" "userID and deviceID required");
  b ← on_db (Keydir.GetBundle (h_domain h) enc (unescaped userID) (unescaped deviceID) (tick 0));
  match b with
  | Err _ => mret (writeError 404 "not_found" "Bundle not found")
  | Ok b => mret (writeJSON 200 (bundle_json b ""))
  end.

Definition device_json (id : string) : json :=
  JObj ([("device_id", JStr id)] ++ signal_id id ++ [("status", JStr "active")]).

(** A user id whose domain, when it has one, is this server's. *)
Definition on_this_server (userID : string) : bool :=
  match index userID ":" with
  | Some i => String.eqb (to_lower (trim_space (sdrop (S i) userID))) (to_lower (h_domain h))
  | None => true
  end.

Definition getDevices (r : Request) : H Reply :=
  let userID := params r "userID" in
  _ ← require (negb (String.eqb userID ""))
        (writeError 400 "invalid_request" "userID required");
  let userID := unescaped userID in
  _ ← require (on_this_server userID) (writeError 403 "wrong_domain" "User not on this server");
  ids ← on_db (Keydir.ListDevicesForUser (h_domain h) userID);
  match ids with
  | Err _ => mret (writeError 404 "not_found" "User not found")
  | Ok ids => mret (writeJSON 200 (JObj [("devices", JArr (device_json <$> ids))]))
  end.

(** ** Logins verified for other servers *)

(** [@username:domain], the domain this server's. *)
Definition split_user_id (userID : string) : option (string * string) :=
  match splitn2 (sdrop 1 userID) ":" with
  | [u; d] => Some (trim_space u, to_lower (trim_space d))
  | _ => None
  end.

Definition prekey_item (p : string * Z) : Keydir.PrekeyItem :=
  Keydir.mkPrekeyItem (b64_bytes p.1) p.2.

(** [auth.LoginInput]; keys that are not base64 are cut short. *)
Definition login_input (username password : string) (dev : Z) (restore : bool)
    (keys : option KeysPayload) : Auth.LoginInput :=
  match keys with
  | None => Auth.mkLoginInput username password dev restore "" "" "" 0 []
  | Some k => Auth.mkLoginInput username password dev restore (b64_bytes (k_IdentityKey k))
      (b64_bytes (k_SpkKey k)) (b64_bytes (k_SpkSignature k)) (k_SpkKeyID k)
      (prekey_item <$> items (k_OneTimePrekeys k))
  end.

Definition backup_json (b : option (string * string)) : list (string * json) :=
  match b with
  | Some (salt, blob) =>
    [("keys_backup", JObj [("blob", JStr (b64_encode blob)); ("salt", JStr (b64_encode salt))])]
  | None => []
  end.

Definition login_json (res : Auth.LoginResult) : json :=
  JObj ([("access_token", JStr (Auth.LRToken res));
         ("device_id", JStr (uuid_string (Auth.LRDeviceID res))); ("expires_in", JInt 86400)] ++
        backup_json (Auth.LRKeysBackup res) ++ [("user_id", JStr (Auth.LRUserID res))]).

(** [rand], [jti]: what the login draws. *)
Definition authVerify (rand : Auth.slot → option string) (jti : Z) (tick : nat → Z)
    (r : Request) : H Reply :=
  _ ← require_origin r;
  let origin := origin_of r in
  _ ← require (whole max_body r) (writeError 400 "invalid_request" "Invalid body");
  let body := limited max_body r in
  _ ← not_blocked origin;
  _ ← verify_origin origin body r (tick 0);
  let bad := writeError 400 "invalid_request" in
  match unmarshal body ≫= dec_auth_verify zero_auth_verify with
  | None => mret (bad "Invalid JSON")
  | Some q =>
    let userID := trim_space (av_user_id q) in
    _ ← require (has_prefix userID "@") (bad "user_id required (e.g. @user:domain)");
    match split_user_id userID with
    | None => mret (bad "user_id must be @username:domain")
    | Some (username, domain) =>
      _ ← require (String.eqb domain (h_domain h))
            (writeError 403 "wrong_domain" "user_id domain does not match this server");
      match uuid_parse (av_device_id q) with
      | None => mret (bad "Invalid device_id")
      | Some dev =>
        res ← on_db (Auth.Login (h_domain h) jwt_key enc rand
          (login_input username (av_password q) dev (av_restore q) (av_keys q)) jti (tick 1));
        mret match res with
             | Err Auth.ErrInvalidCredentials =>
               writeError 401 "invalid_credentials" "Invalid credentials"
             | Err e => writeError 500 "internal_error" (err_text e)
             | Ok res => writeJSON 200 (login_json res)
             end
      end
    end
  end.

Definition usersLookup (tick : nat → Z) (r : Request) : H Reply :=
  _ ← require (String.eqb (r_method (req r)) "GET")
        (writeError 405 "method_not_allowed" "GET required");
  let username := trim_space (Api.query "username" r) in
  _ ← require (negb (String.eqb username ""))
        (writeError 400 "invalid_request" "username query required");
  _ ← require_origin r;
  let origin := origin_of r in
  _ ← not_blocked origin;
  _ ← verify_origin origin "" r (tick 0);
  row ← lift (Prelude.query (λ d, first_row (select_rows (λ _ u,
    bool_decide (u_username u = username) && bool_decide (u_domain u = h_domain h)) (users d))));
  mret match row with
       | Some (Some (id, u)) =>
         if (id =? 0)%Z then mkReply 404 (Text (marshal (JObj [("error", JStr "not_found")])))
         else writeJSON 200 (JObj [("home_domain", JStr (u_domain u));
           ("user_id", JStr ("@" +:+ username +:+ ":" +:+ u_domain u))])
       | _ => mkReply 404 (Text (marshal (JObj [("error", JStr "not_found")])))
       end.

(** ** Transactions *)

(** What is forwarded of a transaction for another server. *)
Definition relayed (q : TransactionRequest) : Transaction := {|
  t_TransactionID := TransactionID q; t_Origin := Origin q; t_Destination := Destination q;
  t_Events := Events q
|}.

Definition federated_event (e : TransactionEvent) : Relay.FederatedEvent :=
  Relay.mkFederatedEvent (EventID e) (Type_ e) (Sender e) (Recipient e) (Sender e)
    (b64_bytes (Ciphertext (Content e))) (SessionID (Content e)) (Timestamp e).

(** The recipient of the [i]-th event is told the [i]-th accepted id. *)
Definition notify_accepted (events : list Relay.FederatedEvent) (accepted : list string)
    (hub : Stream.Hub) : Stream.Hub :=
  foldl (λ hub ea, Stream.Notify (Relay.FRecipient ea.1) ea.2 hub) hub (zip events accepted).

Definition rejected_json (id : string) : json :=
  JObj [("event_id", JStr id); ("reason", JStr "insert_failed")].

(** A transaction for another server: only the main hub relays, but every
    server is built with a client. *)
Definition forward (tick : nat → Z) (q : TransactionRequest) : H Reply :=
  f ← remote (S2S.ForwardTransaction (tick 3) (tick 4) (tick 5) (Destination q) (relayed q));
  mret match f with
       | Err e => writeError 502 "relay_failed" (err_text e)
       | Ok _ => writeJSON 200 (JObj [("accepted", JArr []); ("relayed", JBool true)])
       end.

(** A transaction for this server. *)
Definition accept (list : ListFile) (tick : nat → Z) (origin : string) (q : TransactionRequest) :
    H Reply :=
  let events := federated_event <$> Events q in
  _ ← modify (λ w,
        let '(s, fs) := Security.note_origin (open_ok list) (written list) origin
                          (w_security w, w_files w) in
        with_security s fs w);
  ar ← on_db (Relay.AcceptTransaction events (tick 6));
  match ar with
  | Err _ => raise Panic
  | Ok (accepted, rejected) =>
    _ ← on_hub (notify_accepted events accepted);
    mret (writeJSON 200 (JObj [("accepted", JStrings accepted);
      ("rejected", match rejected with [] => JNull | _ => JArr (rejected_json <$> rejected) end)]))
  end.

(** The checks before anything is stored: the request they let through. *)
Definition check_transaction (tick : nat → Z) (r : Request) : H TransactionRequest :=
  _ ← require_origin r;
  let origin := origin_of r in
  _ ← require (String.eqb (h_mainOnlyDomain h) "" || String.eqb origin (h_mainOnlyDomain h))
        (writeError 403 "main_only" "Only Main hub is allowed");
  _ ← require (whole max_body r) (writeError 400 "invalid_request" "Invalid body");
  let body := limited max_body r in
  b ← gets (λ w, Security.IsBlocked origin (w_security w));
  _ ← (if (b : bool) then SendFederationAlert (h_alertWebhookURL h) "blocklist" origin else mret tt);
  _ ← require (negb b) (writeError 403 "blocked" "Domain is blocked");
  a ← gets (λ w, Security.CheckAllowlistForTransaction origin (w_security w));
  _ ← or_reply (writeError 403 "not_allowed") (mret a);
  _ ← verify_origin origin body r (tick 0);
  match dec_transaction body with
  | None => raise (Return (writeError 400 "invalid_request" "Invalid JSON"))
  | Some q =>
    _ ← or_reply (writeError 400 "invalid_request")
          (mret (Security.ValidateTransaction q (unix (tick 1))));
    mret q
  end.

Definition transaction (list : ListFile) (tick : nat → Z) (r : Request) : H Reply :=
  q ← check_transaction tick r;
  let origin := origin_of r in
  let peer := to_lower (trim_space origin) in
  _ ← lift (exec (λ d, Some (upsert_peer false peer (peer_endpoint peer) (tick 2) d)));
  if negb (String.eqb (Destination q) (h_domain h)) then forward tick q
  else accept list tick origin q.
End handlers.

(** ** Specification *)

(** Everything but the webhook calls. *)
Definition same_state (w w' : World) : Prop := with_alerts [] w' = with_alerts [] w.

Section facts.
Context `{HU : GoUnicode, HN : GoNet, HS : Sha256, HE : Ed25519, HH : S2S.Http, HUu : UuidLib,
  HP : PgText, HAe : Aead, HB : Bcrypt, HJw : Jwt}.
Context `{!ErrText S2S.cerr, !ErrText Auth.err}.
Context (h : federationHandler).

(** The request carries a transaction [q] that this server has to deal with:
    it comes from the main hub if only that is allowed, from a server that
    is neither blocked nor kept out by the allow list, it is signed with the
    key this server publishes, body included, and is within the limits. *)
Definition admitted (tick : nat → Z) (r : Request) (w : World) (q : TransactionRequest) : Prop :=
  let origin := origin_of r in
  let body := limited (max_body h) r in
  origin ≠ "" ∧ (h_mainOnlyDomain h = "" ∨ origin = h_mainOnlyDomain h) ∧
  whole (max_body h) r = true ∧
  Security.IsBlocked origin (w_security w) = false ∧
  Security.CheckAllowlistForTransaction origin (w_security w) = Ok tt ∧
  (∃ key, S2S.FetchServerKey origin = Ok key ∧
          S2S.VerifyRequest (req r) body key (tick 0) = Ok tt) ∧
  dec_transaction body = Some q ∧ Security.ValidateTransaction q (unix (tick 1)) = Ok tt.

Lemma wp_verify_origin F origin body r now (Q : result exit unit → World → Prop) w :
  (∀ key, S2S.FetchServerKey origin = Ok key → S2S.VerifyRequest (req r) body key now = Ok tt →
     Q (Ok tt) w) →
  ((¬ ∃ key, S2S.FetchServerKey origin = Ok key ∧
             S2S.VerifyRequest (req r) body key now = Ok tt) →
   ∀ x, (x = Panic ∨ ∃ code e, x = Return (writeError 401 code e)) → Q (Err x) w) →
  wp F (verify_origin origin body r now) Q w.
Proof.
  intros H1 H2. unfold verify_origin. apply wp_bind, wp_fetched; intros Hp.
  - destruct (S2S.FetchServerKey origin) as [key|e] eqn:Hk.
    + destruct (S2S.VerifyRequest (req r) body key now) as [[]|e] eqn:Hv.
      * apply wp_ret. by eapply H1.
      * apply wp_raise, H2; [|eauto]. intros (key' & ? & ?). congruence.
    + apply wp_raise, H2; [|eauto]. intros (key' & ? & ?). congruence.
  - apply H2; [|by left]. intros (key' & ? & ?). congruence.
Qed.

Lemma wp_check_transaction F tick r w :
  wp F (check_transaction h tick r) (λ res w', same_state w w' ∧
    match res with
    | Ok q => w' = w ∧ admitted tick r w q
    | Err x => (∀ q, ¬ admitted tick r w q) ∧ (400 ≤ status (respond federation_recovered (Err x)) < 600)%Z
    end) w.
Proof.
  unfold check_transaction, require_origin.
  (* a failed check: nothing is admitted *)
  assert (∀ w' x, same_state w w' → (∀ q, ¬ admitted tick r w q) →
    (400 ≤ status (respond federation_recovered (Err x)) < 600)%Z →
    same_state w w' ∧ (∀ q, ¬ admitted tick r w q) ∧
    (400 ≤ status (respond federation_recovered (Err x)) < 600)%Z) as Hrej by done.
  apply wp_bind, wp_require; intros Ho; [|apply Hrej; [done| |done]].
  2: { apply negb_false_iff, String.eqb_eq in Ho. by intros q (? & _). }
  apply negb_true_iff, String.eqb_neq in Ho.
  apply wp_bind, wp_require; intros Hm; [|apply Hrej; [done| |done]].
  2: { apply orb_false_iff in Hm as [?%String.eqb_neq ?%String.eqb_neq]. by intros q (_ & [?|?] & _). }
  apply orb_true_iff in Hm. rewrite !String.eqb_eq in Hm.
  apply wp_bind, wp_require; intros Hw; [|apply Hrej; [done| |done]].
  2: { intros q (_ & _ & ? & _). congruence. }
  apply wp_bind, wp_gets. destruct (Security.IsBlocked (origin_of r) (w_security w)) eqn:Hb.
  { assert (∀ q, ¬ admitted tick r w q) as Hno by (intros q (_ & _ & _ & ? & _); congruence).
    apply wp_bind. unfold SendFederationAlert.
    destruct (String.eqb (h_alertWebhookURL h) ""); [apply wp_ret|apply wp_modify];
      (apply wp_bind, wp_require; intros ?; [done|by apply Hrej]). }
  apply wp_bind, wp_ret, wp_bind, wp_require; [intros _|done].
  apply wp_bind, wp_gets, wp_bind, wp_or_reply, wp_ret.
  destruct (Security.CheckAllowlistForTransaction (origin_of r) (w_security w)) as [[]|e] eqn:Ha.
  2: { apply Hrej; [done| |done]. intros q (_ & _ & _ & _ & ? & _). congruence. }
  apply wp_bind, wp_verify_origin; [intros key Hk Hv|intros Hno x Hx].
  2: { apply Hrej; [done|by intros q (_ & _ & _ & _ & _ & ? & _)|].
       by destruct Hx as [->|(? & ? & ->)]. }
  destruct (dec_transaction (limited (max_body h) r)) as [q|] eqn:Hd.
  2: { apply wp_raise, Hrej; [done| |done]. intros q (_ & _ & _ & _ & _ & _ & ? & _). congruence. }
  apply wp_bind, wp_or_reply, wp_ret.
  destruct (Security.ValidateTransaction q (unix (tick 1))) as [[]|e] eqn:Hv2.
  - apply wp_ret. split; [done|]. split; [done|]. unfold admitted. split_and!; eauto.
  - apply Hrej; [done| |done]. intros q' (_ & _ & _ & _ & _ & _ & ? & ?). congruence.
Qed.

(** The queue after the origin was noted as a peer, unless that statement
    failed. *)
Definition peer_noted (F : nat → bool) (tick : nat → Z) (r : Request) (d d1 : DB) : Prop :=
  let peer := to_lower (trim_space (origin_of r)) in
  (faulty F ∧ d1 = d) ∨ d1 = upsert_peer false peer (peer_endpoint peer) (tick 2) d.

Definition accepted_json (ar : list string * list string) : json :=
  JObj [("accepted", JStrings ar.1);
        ("rejected", match ar.2 with [] => JNull | _ => JArr (rejected_json <$> ar.2) end)].

(** What an admitted transaction does. *)
Definition transaction_done (F : nat → bool) (list : ListFile) (tick : nat → Z) (r : Request)
    (w : World) (q : TransactionRequest) (rep : Reply) (w' : World) : Prop :=
  let events := federated_event <$> Events q in
  ∃ d1, peer_noted F tick r (w_db w) d1 ∧
  if String.eqb (Destination q) (h_domain h) then
    ∃ ar, Relay.accept_post F events (tick 6) d1 ar (w_db w') ∧
      rep = writeJSON 200 (accepted_json ar) ∧
      w_hub w' = notify_accepted events ar.1 (w_hub w) ∧
      (w_security w', w_files w') =
        Security.note_origin (open_ok list) (written list) (origin_of r) (w_security w, w_files w) ∧
      w_client w' = w_client w
  else
    w_db w' = d1 ∧ w_hub w' = w_hub w ∧ w_security w' = w_security w ∧ w_files w' = w_files w ∧
    ∃ f c, S2S.ForwardTransaction (tick 3) (tick 4) (tick 5) (Destination q) (relayed q)
             (w_client w) = (f, c) ∧ w_client w' = c ∧
      rep = match f with
            | Ok _ => writeJSON 200 (JObj [("accepted", JArr []); ("relayed", JBool true)])
            | Err S2S.EPanic => federation_recovered
            | Err e => writeError 502 "relay_failed" (err_text e)
            end.

(** What [transaction] answers with [rep], leaving [w']. *)
Definition transaction_post (F : nat → bool) (list : ListFile) (tick : nat → Z) (r : Request)
    (w : World) (rep : Reply) (w' : World) : Prop :=
  ((∀ q, ¬ admitted tick r w q) ∧ same_state w w' ∧ (400 ≤ status rep < 600)%Z) ∨
  (∃ q, admitted tick r w q ∧ transaction_done F list tick r w q rep w').

Lemma wp_transaction F list tick r w :
  wp F (transaction h list tick r)
    (λ res w', transaction_post F list tick r w (respond federation_recovered res) w') w.
Proof.
  unfold transaction.
  apply wp_bind. eapply wp_mono; [apply wp_check_transaction|].
  intros [q|x] w1 [Hsame Hq]; [|left; naive_solver]. destruct Hq as [-> Hq]. clear Hsame.
  assert (∀ d1, peer_noted F tick r (w_db w) d1 →
    wp F (if negb (String.eqb (Destination q) (h_domain h)) then forward tick q
          else accept list tick (origin_of r) q)
      (λ res w', transaction_done F list tick r w q (respond federation_recovered res) w')
      (with_db d1 w)) as Hd.
  { intros d1 Hd1. unfold transaction_done. destruct (String.eqb (Destination q) (h_domain h)); cbn [negb].
    - unfold accept. apply wp_bind, wp_modify.
      destruct (Security.note_origin _ _ _ _) as [s fs] eqn:Hs. 
      apply wp_bind, wp_on_db. eapply wp_mono; [apply Relay.wp_AcceptTransaction|].
      intros res d2 ([acc rej] & -> & Hp). apply wp_bind, wp_modify, wp_ret.
      exists d1. split; [done|]. exists (acc, rej). by rewrite <- Hs.
    - unfold forward. apply wp_bind, wp_remote.
      + intros f c Hf Hn. apply wp_ret. exists d1. split; [done|]. split_and!; [done..|].
        exists f, c. split; [done|]. split; [done|]. by destruct f as [|[]].
      + intros c Hf. exists d1. split; [done|]. split_and!; [done..|]. by eexists _, c. }
  apply wp_bind, wp_lift, wp_exec_some; [intros HF|];
    (eapply wp_mono; [apply Hd|intros ? ? ?; right; by exists q]).
  - left. done.
  - by right.
Qed.


(** Registration: only a server whose signature this server could check with
    the key it publishes becomes an allowed peer, under the name it signed
    for; every other request changes nothing. *)
Theorem register_outcome F tick r w res w' :
  Exec F (register h tick r) w res w' →
  let rep := respond federation_recovered res in
  let origin := to_lower (trim_space (origin_of r)) in
  (rep = writeJSON 200 (JObj [("status", JStr "ok")]) ∧ r_method (req r) = "POST" ∧
   origin_of r ≠ "" ∧ origin ≠ to_lower (h_domain h) ∧
   (∃ key, S2S.FetchServerKey origin = Ok key ∧
           S2S.VerifyRequest (req r) (limited 256 r) key (tick 0) = Ok tt) ∧
   (faulty F ∧ w' = w ∨
    w' = with_db (upsert_peer true origin (peer_endpoint origin) (tick 1) (w_db w)) w)) ∨
  ((400 ≤ status rep < 600)%Z ∧ w' = w).
Proof.
  intros He rep origin. subst rep. revert res w' He. refine (wp_Exec_all _ _ (λ res w', _) _ _).
  unfold register, require_origin. fold origin.
  apply wp_bind, wp_require; intros Hm; [|by right]. apply String.eqb_eq in Hm.
  apply wp_bind, wp_require; intros Ho; [|by right]. apply negb_true_iff, String.eqb_neq in Ho.
  apply wp_bind, wp_require; intros Hs; [|by right]. apply negb_true_iff, String.eqb_neq in Hs.
  apply wp_bind, wp_verify_origin; [intros key Hk Hv|intros _ x [->|(? & ? & ->)]; by right].
  apply wp_bind, wp_lift, wp_exec_some; [intros HF|]; apply wp_ret; left; split_and!; eauto.
  left. split; [done|]. by destruct w.
Qed.

(** Hearing from a peer never lifts a ban: [allowed] is only set by
    registering. *)
Lemma upsert_peer_allowed dom ep now d p p' :
  peers d !! dom = Some p → peers (upsert_peer false dom ep now d) !! dom = Some p' →
  fp_allowed p' = fp_allowed p.
Proof. intros Hp. cbn. rewrite lookup_insert_eq, Hp. by intros [= <-]. Qed.
End facts.

(** ** Examples: [a.org] sends to [b.org] *)
Module Net.
#[export] Existing Instances toy_sha256 toy_ed25519 toy_bcrypt toy_jwt toy_aead.
#[export] Instance net_ips : GoNet := {| url_parse _ := None; parse_ip _ := None |}.
#[export] Instance any_text E : ErrText E := λ _, "error".

Definition a_keys : S2S.ServerKeys := {| S2S.PublicKey := pad32 "a"; S2S.PrivateKey := "a" |}.
Definition b_keys : S2S.ServerKeys := {| S2S.PublicKey := pad32 "b"; S2S.PrivateKey := "b" |}.

(** The two servers answer discovery; everything else fails. *)
Definition config (k : S2S.ServerKeys) : option HttpResponse :=
  Some {| rs_status := 200;
          rs_body := marshal (JObj [("server_key", JStr (S2S.PublicKeyBase64 k))]) |}.

#[export] Instance discovery_only : S2S.Http := {|
  S2S.http_do rq :=
    if String.eqb (rq_url rq) "https://a.org/.well-known/federation" then config a_keys
    else if String.eqb (rq_url rq) "https://b.org/.well-known/federation" then config b_keys
    else None;
  S2S.url_ok _ := true |}.

Definition b_handler : federationHandler := mkHandler b_keys "b.org" 0 "" "".
Definition b_files : ListFile := mkListFile true id.

Definition b_world : World := mkWorld (Schema.with_users {[ 1%Z := UserRow "bob" "b.org" None ]} empty_db)
  Stream.NewHub (S2S.NewClient "b.org" b_keys)
  (Security.NewSecurityService ∅ (λ _, Security.NoResponse) Security.DefaultSecurityConfig)
  ∅ (mkCache "" [] 0) [] [] [] ∅.

Definition sent_event : TransactionEvent :=
  {| EventID := "e1"; Type_ := "m.room.encrypted"; Sender := "@ann:a.org"; Recipient := "@bob:b.org";
     Timestamp := 1700000000; Content := {| Ciphertext := "Y3Q="; SessionID := "s" |} |}.

Definition sent_txn (es : list TransactionEvent) : Transaction :=
  {| t_TransactionID := "txn_1"; t_Origin := "a.org"; t_Destination := "b.org"; t_Events := es |}.

Definition noon : nat → Z := λ _, (1700000000 * second)%Z.

(** The request [a.org] makes for a transaction, as [b.org] receives it. *)
Definition arriving (t : Transaction) : Request :=
  mkRequest (default {| r_method := ""; r_path := ""; r_rawquery := ""; r_headers := ∅; r_body := "" |}
    (transmit (S2S.signed (S2S.NewClient "a.org" a_keys) (noon 0) "POST"
       "https://b.org/federation/v1/transaction" (enc_transaction t) true))) true "b.org" (λ _, "") 0 false.

Definition handled (t : Transaction) : Reply * World :=
  serve federation_recovered no_faults (transaction b_handler b_files noon (arriving t)) b_world.

Example delivered : Relay.find_event "e1" (w_db (handled (sent_txn [sent_event])).2) =
  Some (QueueRow "e1" "@ann:a.org" "@bob:b.org" "@ann:a.org" "m.room.encrypted" "ct" None "s"
    1700000000 "queued" (1700000000 * second + 7 * 24 * hour)%Z (1700000000 * second)%Z).
Proof. by vm_compute. Qed.


(** [a.org] registers with [b.org]. *)
Definition registering : Request :=
  mkRequest (default {| r_method := ""; r_path := ""; r_rawquery := ""; r_headers := ∅; r_body := "" |}
    (transmit (S2S.signed (S2S.NewClient "a.org" a_keys) (noon 0) "POST"
       "https://b.org/federation/v1/register" (S2S.register_body "a.org") true))) true "b.org" (λ _, "") 0 false.

Definition registered : Reply * World :=
  serve federation_recovered no_faults (register b_handler noon registering) b_world.

Lemma register_outcome_witness :
  registered.1 = writeJSON 200 (JObj [("status", JStr "ok")]) ∧
  peers (w_db registered.2) !! "a.org" = Some (PeerRow (peer_endpoint "a.org") true (noon 1)) ∧
  ∃ key, S2S.FetchServerKey "a.org" = Ok key ∧
    S2S.VerifyRequest (req registering) (limited 256 registering) key (noon 0) = Ok tt.
Proof.
  assert (status registered.1 = 200%Z) as Hs by by vm_compute.
  split; [by vm_compute|]. split; [by vm_compute|].
  destruct (register_outcome b_handler no_faults noon registering b_world _ _ (Exec_first _ _ _))
    as [(_ & _ & _ & _ & Hkey & _)|[Hbad _]]; [exact Hkey|exfalso].
  unfold registered, serve in Hs. destruct (register _ _ _ _ _ _) as [[res w'] n].
  cbn in Hs, Hbad. rewrite Hs in Hbad. lia.
Defined.

(** Nothing ties the sender of an event to the server that signs it. *)
Example foreign_sender :
  let e := {| EventID := "e9"; Type_ := "m.room.encrypted"; Sender := "@carol:c.org";
              Recipient := "@bob:b.org"; Timestamp := 1700000000; Content := Content sent_event |} in
  q_sender <$> Relay.find_event "e9" (w_db (handled (sent_txn [e])).2) = Some "@carol:c.org".
Proof. by vm_compute. Qed.

(** The [i]-th accepted id is announced to the [i]-th recipient, whose own
    event may have been rejected: here the insertion of the first of two
    events fails. *)
Example wrong_recipient_notified :
  let e2 := {| EventID := "e2"; Type_ := "m.room.encrypted"; Sender := "@ann:a.org";
               Recipient := "@cyd:b.org"; Timestamp := 1700000000; Content := Content sent_event |} in
  let w' := (serve federation_recovered (λ n, n =? 2)
    (transaction b_handler b_files noon (arriving (sent_txn [sent_event; e2]))) b_world).2 in
  Relay.has_event "e1" (w_db w') = false ∧
  Stream.broadcast (w_hub w') = [Stream.mkEvent "@bob:b.org" "e2"].
Proof. by vm_compute. Qed.

(** [b.org] is not a main hub, but passes on what is for others. *)
Example relays_for_anybody :
  let t := {| t_TransactionID := "txn_1"; t_Origin := "a.org"; t_Destination := "c.org";
              t_Events := [sent_event] |} in
  (handled t).1 = writeError 502 "relay_failed" "error".
Proof. by vm_compute. Qed.
End Net.
End FedHandler.
