(* ===== verification/Peers.v ===== *)
(** * Known servers and users ([peer_resolver.go], [handlers_users.go],
    [handlers_stats.go])

    The servers a request may be passed on to, the search for users on all of
    them, and the public counters. *)

From Stdlib Require Import Ascii String.
From stdpp Require Import strings.
From S2P Require Import Prelude GoStrings Encoding Json Wire Crypto Schema Samples Dbenc Keydir Auth.
From S2P Require Import Stream Federation Api FedHandler.
Set Default Goal Selector "!".
Open Scope stdpp_scope.

Module Peers.
Import Api.

(** [pg_ilike p s]: [s ILIKE p]. *)
Class PgLike := { pg_ilike : string → string → bool }.

Definition serversCacheTTL : Z := hour.

(** What the handlers are built with: the domain, [FEDERATION_PEERS] and
    [FEDERATION_DISCOVERY_HUB]. *)
Record config := mkConfig { p_domain : string; fedPeers : list string; discoveryHub : string }.

Section handlers.
Context `{HU : GoUnicode, HS : Sha256, HE : Ed25519, HH : S2S.Http, HL : PgLike}.
Context (h : config).

(** [order]: the order in which Go ranges over a map. *)
Implicit Types (tick : nat → Z) (order : gset string → list string).

(** The normalised domains but this server's. *)
Definition others (l : list string) : gset string :=
  list_to_set (List.filter (λ d, negb (String.eqb d "" || String.eqb d (norm (p_domain h)))) (norm <$> l)).

Definition stored_peers : H (gset string) :=
  rows ← lift (Prelude.query (λ d, fst <$> select_rows
    (λ k p, fp_allowed p && negb (String.eqb k (p_domain h))) (peers d)));
  match rows with
  | None => mret ∅
  | Some l => l ← lift (fetch l); mret (others l)
  end.

(** A server the discovery hub named is remembered as a peer. *)
Definition remember (now : Z) (s : string) : H unit :=
  _ ← lift (exec (λ d, Some (FedHandler.upsert_peer false s (FedHandler.peer_endpoint s) now d)));
  mret tt.

(** The servers the hub names, asked for once an hour. *)
Definition hub_peers tick (hub : string) : H (gset string) :=
  let mine := norm (p_domain h) in
  let listed l : gset string := list_to_set (List.filter (λ s, negb (String.eqb s mine)) l) in
  cache ← gets w_cache;
  if String.eqb (cache_hub cache) hub && (tick 0%nat <? cache_exp cache)%Z then mret (listed (cache_list cache))
  else
    l ← remote (S2S.FetchServersList hub);
    match l with
    | Err _ => mret ∅
    | Ok l =>
      _ ← modify (with_cache (mkCache hub l (tick 1%nat + serversCacheTTL)%Z));
      _ ← for_each (λ s, if String.eqb s mine then mret tt else remember (tick 2) s) l;
      mret (listed l)
    end.

Definition getFederationPeers tick : H (gset string) :=
  stored ← stored_peers;
  let hub := norm (discoveryHub h) in
  named ← (if String.eqb hub "" || String.eqb hub (norm (p_domain h)) then mret ∅
           else hub_peers tick hub);
  mret (others (fedPeers h) ∪ stored ∪ named).

(** ** [usersHandler.search] *)
Definition add_user (users : list string) (u : string) : list string :=
  if bool_decide (u ∈ users) then users else users ++ [u].

(** [order_by]: [ORDER BY username] in the collation of the database. *)
Definition local_users (order_by : list user_row → list user_row) (q : string) : H (list string) :=
  rows ← lift (Prelude.query (λ d, take 20 (order_by (snd <$> select_rows (λ _ u,
    String.eqb (u_domain u) (p_domain h) &&
    (String.eqb (u_username u) q || pg_ilike (q +:+ "%") (u_username u))) (users d)))));
  match rows with
  | None => mret []
  | Some l => l ← lift (fetch l);
    mret (foldl add_user [] ((λ u, "@" +:+ u_username u +:+ ":" +:+ u_domain u) <$> l))
  end.

(** Each peer is asked in turn; [clock i]: the clock while the [i]-th is. *)
Fixpoint lookup_all (clock : nat → nat → Z) (q : string) (found : list string) (i : nat)
    (ps : list string) : H (list string) :=
  match ps with
  | [] => mret found
  | p :: ps =>
    u ← remote (S2S.UserLookup (clock i 0) (clock i 1) (clock i 2) p q);
    lookup_all clock q
      match u with
      | Ok (Some (u, _)) => if String.eqb u "" then found else add_user found u
      | _ => found
      end (S i) ps
  end.

Definition search (order_by : list user_row → list user_row) order tick
    (clock : nat → nat → Z) (r : Request) : H Reply :=
  let q := trim_space (Api.query "q" r) in
  if slen q =? 0 then mret (writeJSON 200 (JObj [("users", JArr [])])) else
  let q := if 128 <? slen q then stake 128 q else q in
  here ← local_users order_by q;
  peers ← getFederationPeers tick;
  found ← lookup_all clock q here 0 (order peers);
  mret (writeJSON 200 (JObj [("users", match found with
    | [] => JNull
    | _ => JArr ((λ u, JObj [("user_id", JStr u)]) <$> found)
    end)])).

(** ** [statsHandler] *)
Definition stats : H Reply :=
  let failed := writeError 500 "internal_error" "Failed to get stats" in
  users ← lift (Prelude.query (λ d, size (users d)));
  match users with
  | None => mret failed
  | Some users =>
    servers ← lift (Prelude.query (λ d, size (peers d)));
    match servers with
    | None => mret failed
    | Some servers => mret (writeJSON 200 (JObj
        [("servers", JInt (Z.of_nat servers)); ("users", JInt (Z.of_nat users))]))
    end
  end.
End handlers.
End Peers.
