(* ===== verification/AuthHandler.v ===== *)
(** * Accounts over HTTP ([handlers_auth.go], [handlers_backup.go],
    [handlers_websocket.go])

    Registration and login, local or at the user's home server; devices and
    tokens; key backups; and the connection of a socket to the hub. *)

From Stdlib Require Import Ascii String.
From stdpp Require Import strings.
From S2P Require Import Prelude GoStrings Encoding Json Wire Crypto Schema Samples Dbenc Keydir Auth.
From S2P Require Import Stream Federation Api FedHandler Peers.
Set Default Goal Selector "!".
Open Scope stdpp_scope.

Module AuthHandler.
Import Api.

(** ** Requests *)
Record registerRequest := mkRegister {
  rr_username : string;
  rr_password : string;
  rr_device : string;
  rr_keys : FedHandler.KeysPayload;
  rr_backup : option (string * string);
}.

Record loginRequest := mkLogin {
  lr_username : string;
  lr_password : string;
  lr_device : string;
  lr_domain : string;
  lr_restore : bool;
  lr_keys : option FedHandler.KeysPayload;
}.

Section handlers.
Context `{HU : GoUnicode, HS : Sha256, HE : Ed25519, HH : S2S.Http, HUu : UuidLib, HAe : Aead,
  HB : Bcrypt, HJw : Jwt}.
Context `{!ErrText Auth.err}.
Context (h : Peers.config) (jwt_key : string) (enc : Dbenc.Cipher).

Implicit Types (tick : nat → Z) (c : Ctx) (r : Request) (order : gset string → list string).

Definition domain : string := Peers.p_domain h.

Definition dec_backup : Dec (string * string) := dec_struct
  [("salt", at_field fst (λ v p, (v, p.2)) dec_string);
   ("blob", at_field snd (λ v p, (p.1, v)) dec_string)].

Definition dec_register : Dec registerRequest := dec_struct
  [("username", at_field rr_username (λ v q, mkRegister v (rr_password q) (rr_device q)
      (rr_keys q) (rr_backup q)) dec_string);
   ("password", at_field rr_password (λ v q, mkRegister (rr_username q) v (rr_device q)
      (rr_keys q) (rr_backup q)) dec_string);
   ("device_id", at_field rr_device (λ v q, mkRegister (rr_username q) (rr_password q) v
      (rr_keys q) (rr_backup q)) dec_string);
   ("keys", at_field rr_keys (λ v q, mkRegister (rr_username q) (rr_password q) (rr_device q)
      v (rr_backup q)) FedHandler.dec_keys_payload);
   ("keys_backup", at_field rr_backup (λ v q, mkRegister (rr_username q) (rr_password q)
      (rr_device q) (rr_keys q) v) (dec_ptr ("", "") dec_backup))].

Definition zero_register : registerRequest := mkRegister "" "" "" FedHandler.zero_keys None.

Definition dec_login : Dec loginRequest := dec_struct
  [("username", at_field lr_username (λ v q, mkLogin v (lr_password q) (lr_device q) (lr_domain q)
      (lr_restore q) (lr_keys q)) dec_string);
   ("password", at_field lr_password (λ v q, mkLogin (lr_username q) v (lr_device q) (lr_domain q)
      (lr_restore q) (lr_keys q)) dec_string);
   ("device_id", at_field lr_device (λ v q, mkLogin (lr_username q) (lr_password q) v (lr_domain q)
      (lr_restore q) (lr_keys q)) dec_string);
   ("domain", at_field lr_domain (λ v q, mkLogin (lr_username q) (lr_password q) (lr_device q) v
      (lr_restore q) (lr_keys q)) dec_string);
   ("request_keys_restore", at_field lr_restore (λ v q, mkLogin (lr_username q) (lr_password q)
      (lr_device q) (lr_domain q) v (lr_keys q)) dec_bool);
   ("keys", at_field lr_keys (λ v q, mkLogin (lr_username q) (lr_password q) (lr_device q)
      (lr_domain q) (lr_restore q) v) (dec_ptr FedHandler.zero_keys FedHandler.dec_keys_payload))].

Definition zero_login : loginRequest := mkLogin "" "" "" "" false None.

(** ** Registration *)
Definition register_input (q : registerRequest) (dev : Z) : Auth.RegisterInput :=
  let k := rr_keys q in
  let '(salt, blob) := match rr_backup q with
    | Some (s, b) => if negb (String.eqb s "") && negb (String.eqb b "")
                     then (b64_bytes s, b64_bytes b) else ("", "")
    | None => ("", "")
    end in
  Auth.mkRegisterInput (rr_username q) (rr_password q) dev (b64_bytes (FedHandler.k_IdentityKey k))
    (b64_bytes (FedHandler.k_SpkKey k)) (b64_bytes (FedHandler.k_SpkSignature k))
    (FedHandler.k_SpkKeyID k) (FedHandler.prekey_item <$> items (FedHandler.k_OneTimePrekeys k))
    salt blob.

(** [rand], [hash], [jti]: what registration draws. *)
Definition register (rand : Auth.slot → option string) (hash : string) (jti : Z) tick r : H Reply :=
  q ← decoded_body dec_register zero_register r;
  match uuid_parse (rr_device q) with
  | None => mret (bad "Invalid device_id")
  | Some dev =>
    _ ← require (negb (slen (rr_password q) <? 6)) (bad "Password must be at least 6 characters");
    res ← on_db (Auth.Register domain jwt_key enc rand (register_input q dev) hash jti (tick 0));
    mret match res with
         | Err Auth.ErrUsernameTaken =>
           writeError 400 "username_taken" "Username already taken"
         | Err e => internal e
         | Ok (userID, devID, token) => writeJSON 201 (JObj
             [("access_token", JStr token); ("device_id", JStr (uuid_string devID));
              ("expires_in", JInt 86400); ("user_id", JStr userID)])
         end
  end.

(** ** Login *)

(** [username@domain], or the domain of its own field. *)
Definition login_name (q : loginRequest) : string * string :=
  let username := trim_space (lr_username q) in
  let dom := norm (lr_domain q) in
  match splitn2 username "@" with
  | [u; d] => (trim_space u, if String.eqb dom "" then norm d else dom)
  | _ => (username, dom)
  end.

Definition prekey_json (p : string * Z) : json := JObj [("key", JStr p.1); ("key_id", JInt p.2)].

Definition keys_json (k : FedHandler.KeysPayload) : json :=
  JObj [("identity_key", JStr (FedHandler.k_IdentityKey k));
        ("signed_prekey", JObj [("key", JStr (FedHandler.k_SpkKey k));
          ("signature", JStr (FedHandler.k_SpkSignature k)); ("key_id", JInt (FedHandler.k_SpkKeyID k))]);
        ("one_time_prekeys", JSlice prekey_json (FedHandler.k_OneTimePrekeys k))].

(** What the home server is sent: the password included. *)
Definition verify_body (q : loginRequest) (username dom : string) : string :=
  marshal (JObj ([("device_id", JStr (lr_device q))] ++
    match lr_keys q with Some k => [("keys", keys_json k)] | None => [] end ++
    [("password", JStr (lr_password q)); ("request_keys_restore", JBool (lr_restore q));
     ("user_id", JStr ("@" +:+ username +:+ ":" +:+ dom))])).

Definition proxy_json (f : AuthVerifyResult) (token : string) : json :=
  JObj ([("access_token", JStr token); ("device_id", JStr (av_DeviceID f)); ("expires_in", JInt 86400)] ++
    match av_KeysBackup f with Some m => [("keys_backup", map_json m)] | None => [] end ++
    [("user_id", JStr (av_UserID f))]).

(** The login at the home server, and the session that forwards to it;
    [draw]: the 32 random bytes of its token. *)
Definition federated_login (draw : option string) tick (q : loginRequest) (username dom : string) :
    H (option (result Auth.err Reply)) :=
  f ← remote (S2S.AuthVerify (tick 1) (tick 2) (tick 3) dom (verify_body q username dom));
  match f with
  | Err _ => mret None
  | Ok f =>
    t ← on_db (Auth.CreateProxySession draw dom (av_AccessToken f) (av_UserID f) (av_DeviceID f)
                 (24 * hour) (tick 4));
    mret (Some match t with
               | Err e => Err e
               | Ok token => Ok (writeJSON 200 (proxy_json f token))
               end)
  end.

(** The first peer that claims the user. *)
Fixpoint discover (clock : nat → nat → Z) (username : string) (i : nat) (ps : list string) :
    H (option string) :=
  match ps with
  | [] => mret None
  | p :: ps =>
    u ← remote (S2S.UserLookup (clock i 0) (clock i 1) (clock i 2) p username);
    match u with
    | Ok (Some (_, home)) => mret (Some home)
    | _ => discover clock username (S i) ps
    end
  end.

Definition invalid_credentials : Reply := writeError 401 "invalid_credentials" "Invalid credentials".

(** A login the local accounts refuse is tried at the peers. *)
Definition discovered_login (draw : option string) order tick (clock : nat → nat → Z)
    (q : loginRequest) (username : string) : H Reply :=
  peers ← Peers.getFederationPeers h (λ i, tick (10 + i));
  home ← discover clock username 0 (order peers);
  let dom := default domain home in
  if String.eqb dom domain then mret invalid_credentials else
  f ← federated_login draw tick q username dom;
  mret match f with Some (Ok rep) => rep | _ => invalid_credentials end.

(** [rand], [jti], [draw]: what a login draws. *)
Definition login (rand : Auth.slot → option string) (jti : Z) (draw : option string) order tick
    (clock : nat → nat → Z) r : H Reply :=
  q ← decoded_body dec_login zero_login r;
  let '(username, dom) := login_name q in
  let dom := if String.eqb dom "" then domain else dom in
  match uuid_parse (lr_device q) with
  | None => mret (bad "Invalid device_id")
  | Some dev =>
    if negb (String.eqb dom domain) then
      f ← federated_login draw tick q username dom;
      mret match f with
           | None => writeError 401 "invalid_credentials" "Invalid credentials or federation error"
           | Some (Err e) => internal e
           | Some (Ok rep) => rep
           end
    else
      res ← on_db (Auth.Login domain jwt_key enc rand
        (FedHandler.login_input username (lr_password q) dev (lr_restore q) (lr_keys q)) jti (tick 0));
      match res with
      | Ok res => mret (writeJSON 200 (FedHandler.login_json res))
      | Err Auth.ErrInvalidCredentials => discovered_login draw order tick clock q username
      | Err e => mret (internal e)
      end
  end.

(** ** Tokens and devices *)
Definition caller (rep : Reply) c (k : Z → H Reply) : H Reply :=
  _ ← require (negb ((getUserID c =? 0)%Z || String.eqb (getDeviceID c) "")) rep;
  match uuid_parse (getDeviceID c) with
  | None => mret (writeError 500 "internal_error" "Invalid device")
  | Some dev => k dev
  end.

Definition wsToken tick c : H Reply :=
  caller (writeError 401 "missing_context" "Auth context required") c (λ dev,
    mret match Auth.IssueWSToken domain jwt_key (getUserID c) dev (tick 0) with
         | Err e => internal e
         | Ok t => writeJSON 200 (JObj [("expires_in", JInt Auth.wsTokenExpirySec); ("ws_token", JStr t)])
         end).

(** [minutes]: [Format("2006-01-02 15:04")] in the server's time zone. *)
Definition listDevices (minutes : Z → string) c : H Reply :=
  caller (writeError 401 "missing_context" "Auth required") c (λ dev,
    l ← or_reply internal (on_db (Auth.ListDevices (getUserID c) dev));
    mret (writeJSON 200 (JObj [("devices", JArr ((λ d, JObj
      ([("device_id", JStr (Auth.DIDeviceID d))] ++
       (if String.eqb (Auth.DIName d) "" then [] else [("name", JStr (Auth.DIName d))]) ++
       [("created_at", JStr (minutes (Auth.DICreatedAt d)));
        ("is_current", JBool (Auth.DIIsCurrent d))])) <$> l))]))).

Definition device_param c r : H Z :=
  let id := params r "deviceID" in
  _ ← require (negb ((getUserID c =? 0)%Z || String.eqb id "")) (bad "deviceID required");
  match uuid_parse id with
  | Some dev => mret dev
  | None => raise (Return (bad "Invalid device_id"))
  end.

Definition ok_reply : Reply := writeJSON 200 (JObj [("status", JStr "ok")]).

Definition revokeDevice tick c r : H Reply :=
  dev ← device_param c r;
  _ ← or_reply internal (on_db (Auth.RevokeDevice (getUserID c) dev (tick 0)));
  mret ok_reply.

Definition renameDevice tick c r : H Reply :=
  dev ← device_param c r;
  name ← decoded_body (dec_struct [("name", dec_string)]) "" r;
  _ ← or_reply internal (on_db (Auth.RenameDevice (getUserID c) dev name (tick 0)));
  mret ok_reply.

Definition logout tick r : H Reply :=
  let token := trim_space (trim_prefix (hdr "Authorization" r) "Bearer ") in
  _ ← require (negb (String.eqb token "")) missing_token;
  _ ← or_reply (λ e, match e with Auth.ErrInvalidToken => invalid_token | e => internal e end)
        (on_db (Auth.RevokeToken domain jwt_key (tick 0) token));
  mret ok_reply.
End handlers.
End AuthHandler.
