(* ===== verification/Backup.v ===== *)
(** * Key backups over HTTP ([server/internal/api/handlers_backup.go]) *)

From Stdlib Require Import Ascii String.
From stdpp Require Import strings.
From S2P Require Import Prelude GoStrings Encoding Json Wire Crypto Schema Samples Dbenc Keydir Auth.
From S2P Require Import Stream Federation Api.
Set Default Goal Selector "!".
Open Scope stdpp_scope.

Module Backup.
Import Api.

Section handlers.
Context `{HU : GoUnicode, HAe : Aead, !ErrText Auth.err}.
Context (enc : Dbenc.Cipher).

Implicit Types (c : Ctx) (r : Request).

Definition unauthorized : Reply := writeError 401 "unauthorized" "auth required".
Definition salt_reply (salt : string) : Reply := writeJSON 200 (JObj [("salt", JStr (b64_encode salt))]).

(** [draw]: the 32 random bytes of the salt, [None] when the source fails;
    [nonce]: what its encryption draws. *)
Definition prepare (draw nonce : option string) c : H Reply :=
  _ ← require (negb (getUserID c =? 0)%Z) unauthorized;
  match draw with
  | None => mret (writeError 500 "internal_error" "failed to generate salt")
  | Some salt =>
    match Dbenc.Encrypt enc nonce salt with
    | Err _ => mret (writeError 500 "internal_error" "failed to encrypt salt")
    | Ok stored =>
      _ ← or_reply internal (on_db (or_raise Auth.ErrDb (exec (Auth.upsert_salt (getUserID c) stored))));
      mret (salt_reply salt)
    end
  end.

Definition dec_backup_sync : Dec (string * string) := dec_struct
  [("salt", at_field fst (λ v p, (v, p.2)) dec_string);
   ("blob", at_field snd (λ v p, (p.1, v)) dec_string)].

Definition syncKeys (rand : Auth.slot → option string) c r : H Reply :=
  _ ← require (negb (getUserID c =? 0)%Z) unauthorized;
  q ← decoded_body dec_backup_sync ("", "") r;
  _ ← require (negb (String.eqb q.1 "" || String.eqb q.2 "")) (bad "salt and blob required");
  match b64_decode q.1, b64_decode q.2 with
  | None, _ => mret (bad "invalid salt base64")
  | _, None => mret (bad "invalid blob base64")
  | Some salt, Some blob =>
    _ ← or_reply internal (on_db (Auth.StoreKeyBackup enc rand (getUserID c) salt blob));
    mret (writeJSON 200 (JObj [("status", JStr "ok")]))
  end.

Definition getSalt c : H Reply :=
  _ ← require (negb (getUserID c =? 0)%Z) unauthorized;
  row ← lift (Prelude.query (λ d, d.(salts) !! getUserID c));
  mret match row with
       | Some (Some salt) =>
         match Dbenc.Decrypt enc salt with
         | Err _ => writeError 500 "internal_error" "failed to decrypt salt"
         | Ok salt => salt_reply salt
         end
       | _ => writeError 404 "not_found" "no backup salt for this device"
       end.
End handlers.

(** Preparing a new backup overwrites the salt of the stored one, whose blob
    stays: the account then restores the old blob with the new salt. *)
Module Sample.
#[local] Existing Instance toy_aead.
#[local] Instance auth_errors : ErrText Auth.err := λ _, "error".

Definition no_cipher : Dbenc.Cipher := None.

Definition backup_db : DB :=
  Schema.with_users {[ 1%Z := UserRow "ann" "a.org" None ]}
  (Schema.with_salts {[ 1%Z := "old salt" ]} (Schema.with_backups {[ 1%Z := "old blob" ]} empty_db)).

Example prepare_orphans_backup :
  let w' := (serve api_recovered no_faults (prepare no_cipher (Some "new salt") None (mkCtx 1 "" None))
               (quiet_world "a.org" backup_db)).2 in
  (Prelude.run (Auth.GetKeyBackup no_cipher 1) (w_db w')).1 = Ok ("new salt", "old blob").
Proof. by vm_compute. Qed.
End Sample.
End Backup.
