(* ===== verification/Sockets.v ===== *)
(** * Sockets ([server/internal/api/handlers_websocket.go])

    A socket is registered with the hub for the recipient it names, and
    unregistered when it closes. *)

From Stdlib Require Import Ascii String.
From stdpp Require Import strings.
From S2P Require Import Prelude GoStrings Encoding Json Wire Crypto Schema Samples Dbenc Keydir Auth.
From S2P Require Import Stream Federation Api.
Set Default Goal Selector "!".
Open Scope stdpp_scope.

Module Sockets.
Import Api.

(** [p[7:]] of the first protocol [bearer.TOKEN]. *)
Fixpoint first_bearer (l : list string) : string :=
  match l with
  | [] => ""
  | p :: l =>
    let p := trim_space p in
    if has_prefix p "bearer." && (7 <? slen p) then sdrop 7 p else first_bearer l
  end.

Definition extractWSToken (r : Request) : string :=
  first_bearer (split_byte "," (hdr "Sec-WebSocket-Protocol" r)).

(** The reply of a successful upgrade. *)
Definition switching : Reply := mkReply 101 (Text "").

Section handlers.
Context `{HUu : UuidLib, HJw : Jwt, !ErrText Auth.err}.
Context (domain jwt_key : string).

(** Up to the registration; [upgrade]: the reply of a failed
    [upgrader.Upgrade]; [conn], [m]: the new client and map. *)
Definition serveWs (now : Z) (upgrade : option Reply) (conn m : nat) (r : Request) : H Reply :=
  let tok := extractWSToken r in
  _ ← require (negb (String.eqb tok "")) (writeError 401 "missing_token"
        "ws_token required via Sec-WebSocket-Protocol: bearer.TOKEN (query param not accepted)");
  match Auth.ValidateWSToken domain jwt_key now tok with
  | Err _ => mret (writeError 401 "invalid_token" "Invalid token")
  | Ok (user, _) =>
    let recipient := Api.query "as" r in
    _ ← require (negb (String.eqb recipient "")) (bad "Query param 'as' (@user:domain) required");
    name ← on_db (Auth.GetUsername domain user);
    let addr := "@" +:+ match name with Ok n => n | Err _ => "" end +:+ ":" +:+ domain in
    match upgrade with
    | Some rep => mret rep
    | None => _ ← on_hub (Stream.Register recipient addr conn m); mret switching
    end
  end.

(** The deferred [Unregister], when reading from the socket fails. *)
Definition closed (conn : nat) : H unit := on_hub (Stream.Unregister conn).

(** ** A socket is registered only with a valid token. *)
Definition socket_post (now : Z) (conn m : nat) (r : Request) (w : World) (rep : Reply) (w' : World)
  : Prop :=
  w' = w ∨
  rep = switching ∧ ∃ user dev addr, Auth.ValidateWSToken domain jwt_key now (extractWSToken r) = Ok (user, dev) ∧
    w' = with_hub (Stream.Register (Api.query "as" r) addr conn m (w_hub w)) w.

Lemma wp_GetUsername_same F user (Q : result Auth.err string → DB → Prop) d :
  (∀ x, Q x d) → wp F (Auth.GetUsername domain user) Q d.
Proof. intros HQ. unfold Auth.GetUsername. wp_go; auto. Qed.

Lemma wp_serveWs F now upgrade conn m r w :
  wp F (serveWs now upgrade conn m r)
    (λ res w', socket_post now conn m r w (respond api_recovered res) w') w.
Proof.
  unfold serveWs. h_step. h_step; [|by left].
  destruct (Auth.ValidateWSToken _ _ _ _) as [[user dev]|e] eqn:Hv; [|h_step; by left].
  h_step. h_step; [|by left]. h_step. h_step. apply wp_GetUsername_same. rewrite with_db_same.
  intros name. cbn. destruct upgrade; [h_step; by left|]. h_step. h_step. h_step.
  right. split; [done|]. eexists user, dev, _. done.
Qed.
End handlers.
End Sockets.
