(* ===== verification/RoomsHandler.v ===== *)
(** * Rooms over HTTP ([server/internal/api/handlers_rooms.go])

    The routes of [roomsHandler], and the proof that they give their callers
    no more than the access-control matrix [Rooms.granted] allows. *)

From Stdlib Require Import Ascii String.
From stdpp Require Import strings.
From S2P Require Import Prelude GoStrings Encoding Json Wire Crypto Schema Samples Dbenc Keydir Auth.
From S2P Require Import RoomChecker Rooms Stream Federation Api.
Set Default Goal Selector "!".
Open Scope stdpp_scope.

Module RoomsHandler.
Import Api.

Section handlers.
Context `{HU : GoUnicode, HUu : UuidLib, HP : PgText, !ErrText Rooms.err}.
Context (domain : string).

Implicit Types (c : Ctx) (r : Request).

Definition forbidden : Reply := writeError 403 "forbidden" "Not allowed".
Definition not_member : Reply := writeError 403 "forbidden" "Not a room member".

(** [uuid.Parse(chi.URLParam(r, "roomID"))] *)
Definition room_param r : H Z :=
  match uuid_parse (params r "roomID") with
  | Some id => mret id
  | None => raise (Return (bad "invalid room ID"))
  end.

Definition dec_name : Dec string := dec_struct [("name", dec_string)].

(** [user_id] and [username] of a request. *)
Definition dec_target : Dec (Z * string) := dec_struct
  [("user_id", at_field fst (λ v p, (v, p.2)) dec_int64);
   ("username", at_field snd (λ v p, (p.1, v)) dec_string)].

(** Whom a request is about. *)
Definition target_user (q : Z * string) : H Z :=
  if negb (String.eqb q.2 "") then
    or_reply (λ e, match e with
                   | Rooms.ErrUserNotFound => writeError 404 "not_found" "User not found"
                   | e => internal e
                   end) (on_db (Rooms.ResolveUserID domain q.2))
  else if (0 <? q.1)%Z then mret q.1
  else raise (Return (bad "user_id or username required")).

Definition room_json (room : Rooms.Room) : list (string * json) :=
  [("address", JStr (Rooms.RoomAddr (Rooms.ID room) (Rooms.Domain room)));
   ("domain", JStr (Rooms.Domain room)); ("id", JStr (uuid_string (Rooms.ID room)));
   ("name", JStr (Rooms.Name room))].

Definition member_json (m : Rooms.Member) : json :=
  JObj [("address", JStr ("@" +:+ Rooms.Username m +:+ ":" +:+ Rooms.MDomain m));
        ("domain", JStr (Rooms.MDomain m)); ("joined_at", JStr (format_nano (Rooms.JoinedAt m)));
        ("role", JStr (Rooms.Role m)); ("user_id", JInt (Rooms.UserID m));
        ("username", JStr (Rooms.Username m))].

Definition done (st : string) : Reply := writeJSON 200 (JObj [("status", JStr st)]).

Definition created_json (room : Rooms.Room) : json := JObj
  [("address", JStr (Rooms.RoomAddr (Rooms.ID room) (Rooms.Domain room)));
   ("creator_id", JInt (Rooms.CreatorID room)); ("domain", JStr (Rooms.Domain room));
   ("id", JStr (uuid_string (Rooms.ID room))); ("name", JStr (Rooms.Name room))].

Definition rooms_json (l : list Rooms.Room) : json :=
  JObj [("rooms", JArr ((λ room, JObj (room_json room)) <$> l))].

Definition members_json (l : list Rooms.Member) : json := JObj [("members", JArr (member_json <$> l))].

(** [fresh]: the [uuid.New()] of the room; [now]: the clock of the database. *)
Definition create (fresh now : Z) c r : H Reply :=
  name ← decoded_body dec_name "" r;
  _ ← require (negb (String.eqb name "")) (bad "name required");
  room ← or_reply internal (on_db (Rooms.Create domain fresh name (getUserID c) now));
  mret (writeJSON 201 (created_json room)).

Definition list c : H Reply :=
  l ← or_reply internal (on_db (Rooms.List_ (getUserID c)));
  mret (writeJSON 200 (rooms_json l)).

Definition membership (e : Rooms.err) : Reply :=
  match e with Rooms.ErrNotMember => not_member | e => internal e end.

Definition get c r : H Reply :=
  id ← room_param r;
  room ← or_reply membership (on_db (Rooms.Get id (getUserID c)));
  mret (writeJSON 200 (JObj (room_json room))).

Definition permission (e : Rooms.err) : Reply :=
  match e with Rooms.ErrForbidden => forbidden | e => internal e end.

Definition invite (now : Z) c r : H Reply :=
  id ← room_param r;
  q ← decoded_body dec_target (0%Z, "") r;
  invitee ← target_user q;
  _ ← or_reply permission (on_db (Rooms.Invite id (getUserID c) invitee now));
  mret (done "invited").

Definition leave c r : H Reply :=
  id ← room_param r;
  _ ← or_reply (λ e, match e with
         | Rooms.ErrCreatorCannotLeave =>
           writeError 400 "bad_request" "Creator cannot leave without transferring ownership"
         | e => membership e
         end) (on_db (Rooms.Leave id (getUserID c)));
  mret (done "left").

Definition members c r : H Reply :=
  id ← room_param r;
  l ← or_reply membership (on_db (Rooms.Members id (getUserID c)));
  mret (writeJSON 200 (members_json l)).

Definition transferCreator c r : H Reply :=
  id ← room_param r;
  q ← decoded_body dec_target (0%Z, "") r;
  target ← target_user q;
  _ ← or_reply (λ e, match e with
         | Rooms.ErrForbidden => forbidden
         | e => writeError 400 "bad_request" (err_text e)
         end) (on_db (Rooms.TransferCreator id (getUserID c) target));
  mret (done "transferred").

Definition removeMember c r : H Reply :=
  id ← room_param r;
  q ← decoded_body dec_target (0%Z, "") r;
  target ← target_user q;
  _ ← or_reply permission (on_db (Rooms.Remove id (getUserID c) target));
  mret (done "removed").

(** ** The routes *)
Inductive route := RCreate | RList | RGet | RInvite | RLeave | RMembers | RTransfer | RRemove.

Definition run (k : route) (fresh now : Z) c r : H Reply :=
  match k with
  | RCreate => create fresh now c r
  | RList => list c
  | RGet => get c r
  | RInvite => invite now c r
  | RLeave => leave c r
  | RMembers => members c r
  | RTransfer => transferCreator c r
  | RRemove => removeMember c r
  end.
End handlers.

(** ** Specification *)
Section facts.
Context `{HU : GoUnicode, HUu : UuidLib, HP : PgText, !ErrText Rooms.err}.
Context (domain : string).

(** The operation of the service a route may run, for the room its path
    names, its caller the user of the token. *)
Definition made_by (k : route) (c : Ctx) (r : Request) (o : Rooms.op) : Prop :=
  Rooms.op_actor o = getUserID c ∧
  match k, o with
  | RCreate, Rooms.OpCreate _ _ _ _ => True
  | RInvite, Rooms.OpInvite room _ _ _ | RLeave, Rooms.OpLeave room _
  | RTransfer, Rooms.OpTransfer room _ _ | RRemove, Rooms.OpRemove room _ _ =>
    uuid_parse (params r "roomID") = Some room
  | _, _ => False
  end.

(** A room as its member [user] may see it. *)
Definition room_seen (user : Z) (d : DB) (x : Rooms.Room) : Prop :=
  ∃ row, d.(Schema.rooms) !! Rooms.ID x = Some row ∧ x = Rooms.room_of (Rooms.ID x, row) ∧
    is_Some (d.(Schema.members) !! (Rooms.ID x, user)).

(** A member of a room, as the tables say. *)
Definition member_seen (room : Z) (d : DB) (m : Rooms.Member) : Prop :=
  ∃ u mr, d.(users) !! Rooms.UserID m = Some u ∧
    d.(Schema.members) !! (room, Rooms.UserID m) = Some mr ∧
    m = Rooms.mkMember (Rooms.UserID m) u.(u_username) u.(u_domain) mr.(m_role) mr.(m_joined_at).

(** What a route answers when it does not refuse, on the database [d]. *)
Definition shown (F : nat → bool) (k : route) (fresh : Z) (c : Ctx) (r : Request) (d : DB) (rep : Reply)
  : Prop :=
  let user := getUserID c in
  match k with
  | RCreate => ∃ name, rep = writeJSON 201 (created_json (Rooms.mkRoom fresh name domain user 0))
  | RList => ∃ l, rep = writeJSON 200 (rooms_json l) ∧ (∀ x, x ∈ l → room_seen user d x) ∧
      (faulty F ∨ ∀ x, room_seen user d x → x ∈ l)
  | RGet => ∃ x, uuid_parse (params r "roomID") = Some (Rooms.ID x) ∧ room_seen user d x ∧
      rep = writeJSON 200 (JObj (room_json x))
  | RMembers => ∃ room l, uuid_parse (params r "roomID") = Some room ∧
      is_Some (d.(Schema.members) !! (room, user)) ∧ rep = writeJSON 200 (members_json l) ∧
      (∀ m, m ∈ l → member_seen room d m) ∧ (faulty F ∨ ∀ m, member_seen room d m → m ∈ l)
  | RInvite => rep = done "invited"
  | RLeave => rep = done "left"
  | RTransfer => rep = done "transferred"
  | RRemove => rep = done "removed"
  end.

(** Who asks for rooms, or for a room of his, is not refused. *)
Definition entitled (k : route) (c : Ctx) (r : Request) (d : DB) : Prop :=
  match k with
  | RList => True
  | RGet | RMembers => ∃ room, uuid_parse (params r "roomID") = Some room ∧
      is_Some (d.(Schema.rooms) !! room) ∧ is_Some (d.(Schema.members) !! (room, getUserID c))
  | _ => False
  end.

Definition route_post (F : nat → bool) (k : route) (fresh : Z) (c : Ctx) (r : Request) (w : World)
    (rep : Reply) (w' : World) : Prop :=
  w' = with_db (w_db w') w ∧
  (w_db w' = w_db w ∨ ∃ o, made_by k c r o ∧ Rooms.granted domain (w_db w) o (w_db w')) ∧
  ((status rep < 300)%Z → shown F k fresh c r (w_db w) rep) ∧
  (entitled k c r (w_db w) → faulty F ∨ status rep = 200%Z).

Lemma rooms_of_user_seen user d x :
  x ∈ Rooms.room_of <$> Rooms.rooms_of_user user d ↔ room_seen user d x.
Proof.
  unfold Rooms.rooms_of_user, room_seen. rewrite list_elem_of_fmap. split.
  - intros ([k row] & -> & [Hr Hm]%elem_of_select_rows). exists row. cbn in *.
    destruct (Schema.members d !! (k, user)); [by eauto|done].
  - intros (row & Hr & Hx & [m Hm]). exists (Rooms.ID x, row). split; [done|].
    apply elem_of_select_rows. cbn. by rewrite Hm.
Qed.

Lemma members_of_room_seen room d m :
  m ∈ Rooms.members_of_room room d ↔ member_seen room d m.
Proof.
  unfold Rooms.members_of_room, member_seen. rewrite list_elem_of_omap. split.
  - intros ([[k user] mr] & [Hm Hk]%elem_of_select_rows & Hu). cbn in *.
    apply bool_decide_eq_true in Hk as ->. destruct (users d !! user) as [u|] eqn:Hl; simplify_eq/=.
    by exists u, mr.
  - intros (u & mr & Hu & Hm & He). exists (room, Rooms.UserID m, mr). split.
    + apply elem_of_select_rows. split; [done|]. by apply bool_decide_eq_true.
    + cbn [fst snd]. by rewrite Hu, <- He.
Qed.

Lemma wp_List F user (Q : result Rooms.err (Datatypes.list Rooms.Room) → DB → Prop) d :
  (∀ l, (∀ x, x ∈ l → room_seen user d x) → (faulty F ∨ ∀ x, room_seen user d x → x ∈ l) → Q (Ok l) d) →
  (∀ e, faulty F → Q (Err e) d) → wp F (Rooms.List_ user) Q d.
Proof.
  intros Hok He. unfold Rooms.List_. apply wp_bind, wp_or_raise, wp_query_fault; [by apply He|]. cbn beta iota.
  apply wp_bind, wp_fetch. intros rows Hpre Hall. apply wp_ret, Hok.
  - intros x (kr & -> & Hin)%list_elem_of_fmap. apply rooms_of_user_seen, list_elem_of_fmap.
    exists kr. split; [done|]. eapply elem_of_prefix in Hin; [|exact Hpre].
    by rewrite merge_sort_Permutation in Hin.
  - destruct Hall as [?| ->]; [by left|right]. intros x Hx. apply rooms_of_user_seen in Hx.
    by rewrite merge_sort_Permutation.
Qed.

Lemma wp_Get F room user (Q : result Rooms.err Rooms.Room → DB → Prop) d :
  (∀ x, room = Rooms.ID x → room_seen user d x → Q (Ok x) d) →
  (∀ e, (is_Some (d.(Schema.rooms) !! room) → is_Some (d.(Schema.members) !! (room, user)) → faulty F) →
     Q (Err e) d) →
  wp F (Rooms.Get room user) Q d.
Proof.
  intros Hok He. unfold Rooms.Get. apply wp_bind, wp_or_raise, wp_query_fault; [by intros; apply He|].
  cbn beta iota.
  destruct (Schema.rooms d !! room) as [row|] eqn:Hr; [|by apply wp_raise, He; intros []].
  destruct (Schema.members d !! (room, user)) eqn:Hm; [|by apply wp_raise, He; intros ? []].
  apply wp_ret, Hok; [done|]. exists row. cbn. by rewrite Hr, Hm.
Qed.

Lemma wp_Members F room user (Q : result Rooms.err (Datatypes.list Rooms.Member) → DB → Prop) d :
  (∀ l, is_Some (d.(Schema.members) !! (room, user)) → (∀ m, m ∈ l → member_seen room d m) →
     (faulty F ∨ ∀ m, member_seen room d m → m ∈ l) → Q (Ok l) d) →
  (∀ e, (is_Some (d.(Schema.rooms) !! room) → is_Some (d.(Schema.members) !! (room, user)) → faulty F) →
     Q (Err e) d) →
  wp F (Rooms.Members room user) Q d.
Proof.
  intros Hok He. unfold Rooms.Members. apply wp_bind, wp_Get; [|exact He]. intros x -> (? & _ & _ & Hm).
  apply wp_bind, wp_or_raise, wp_query_fault; [by intros; apply He|]. cbn beta iota.
  apply wp_fetch. intros l Hpre Hall. apply Hok; [done|..].
  - intros m Hin. apply members_of_room_seen. eapply elem_of_prefix in Hin; [|exact Hpre].
    by rewrite merge_sort_Permutation in Hin.
  - destruct Hall as [?| ->]; [by left|right]. intros m Hin. apply members_of_room_seen in Hin.
    by rewrite merge_sort_Permutation.
Qed.

Lemma wp_ResolveUserID F name (Q : result Rooms.err Z → DB → Prop) d :
  (∀ x, Q x d) → wp F (Rooms.ResolveUserID domain name) Q d.
Proof. intros HQ. unfold Rooms.ResolveUserID. wp_go; auto. Qed.

(** A refusal, and a reply without effect. *)
Lemma route_same F k fresh c r w rep :
  ((status rep < 300)%Z → shown F k fresh c r (w_db w) rep) →
  (entitled k c r (w_db w) → faulty F ∨ status rep = 200%Z) → route_post F k fresh c r w rep w.
Proof. intros Hs He. split; [by rewrite with_db_same|]. split; [by left|by split]. Qed.

Lemma wp_room_param F r (Q : result exit Z → World → Prop) w :
  (∀ id, uuid_parse (params r "roomID") = Some id → Q (Ok id) w) →
  (uuid_parse (params r "roomID") = None → Q (Err (Return (bad "invalid room ID"))) w) →
  wp F (room_param r) Q w.
Proof. intros H1 H2. unfold room_param. destruct (uuid_parse _); [apply wp_ret|apply wp_raise]; auto. Qed.

Lemma wp_target_user F q (Q : result exit Z → World → Prop) w :
  (∀ t, Q (Ok t) w) → (∀ rep, (400 ≤ status rep)%Z → Q (Err (Return rep)) w) →
  wp F (target_user domain q) Q w.
Proof.
  intros Hok He. unfold target_user. destruct (negb _).
  - apply wp_or_reply, wp_on_db, wp_ResolveUserID. rewrite with_db_same.
    intros [t|e]; [apply Hok|]. apply He. by destruct e.
  - destruct (0 <? q.1)%Z; [by apply wp_ret|]. apply wp_raise. by apply He.
Qed.

(** A call of the service that the access-control matrix bounds. *)
Lemma wp_granted {A} F k fresh c r o (f : Rooms.err → Reply) (m : M DB Rooms.err A) (g : A → Reply) w :
  (∀ d, ¬ entitled k c r d) → made_by k c r o → (∀ e, (400 ≤ status (f e))%Z) →
  wp F m (λ res d', Rooms.granted domain (w_db w) o d' ∧
    ∀ a, res = Ok a → shown F k fresh c r (w_db w) (g a)) (w_db w) →
  wp F (a ← or_reply f (on_db m); mret (g a))
    (λ res w', route_post F k fresh c r w (respond api_recovered res) w') w.
Proof.
  intros Hk Ho Hf Hm. apply wp_bind, wp_or_reply, wp_on_db. eapply wp_mono; [exact Hm|].
  intros [a|e] d' [Hg Hd]; [apply wp_ret|];
    (split; [done|]; split; [right; by exists o|]; split; [|by intros []%Hk]).
  - intros _. by apply Hd.
  - cbn. specialize (Hf e). lia.
Qed.

(** The same for a fixed answer. *)
Lemma wp_granted_done F k fresh c r o f (m : M DB Rooms.err unit) rep w :
  (∀ d, ¬ entitled k c r d) → made_by k c r o → (∀ e, (400 ≤ status (f e))%Z) →
  shown F k fresh c r (w_db w) rep →
  wp F m (λ _ d', Rooms.granted domain (w_db w) o d') (w_db w) →
  wp F (_ ← or_reply f (on_db m); mret rep)
    (λ res w', route_post F k fresh c r w (respond api_recovered res) w') w.
Proof.
  intros Hk Ho Hf Hs Hm. apply (wp_granted F k fresh c r o f m (λ _, rep)); [done..|].
  eapply wp_mono; [exact Hm|]. auto.
Qed.

(** A call of the service that only reads. *)
Lemma wp_shown {A} F k fresh c r (f : Rooms.err → Reply) (m : M DB Rooms.err A) (g : A → Reply) w :
  (∀ e, (400 ≤ status (f e))%Z) → (∀ a, status (g a) = 200%Z) →
  wp F m (λ res d', d' = w_db w ∧
    match res with
    | Ok a => shown F k fresh c r (w_db w) (g a)
    | Err _ => entitled k c r (w_db w) → faulty F
    end) (w_db w) →
  wp F (a ← or_reply f (on_db m); mret (g a))
    (λ res w', route_post F k fresh c r w (respond api_recovered res) w') w.
Proof.
  intros Hf Hg Hm. apply wp_bind, wp_or_reply, wp_on_db. eapply wp_mono; [exact Hm|].
  intros [a|e] d' [-> Hs]; rewrite with_db_same; [apply wp_ret|]; apply route_same; cbn in *; auto.
  specialize (Hf e). lia.
Qed.

Lemma wp_Create F fresh name user now d :
  wp F (Rooms.Create domain fresh name user now) (λ res d',
    Rooms.granted domain d (Rooms.OpCreate fresh name user now) d' ∧
    ∀ room, res = Ok room → room = Rooms.mkRoom fresh name domain user 0) d.
Proof.
  apply wp_conj; [apply Rooms.Create_granted|]. unfold Rooms.Create. wp_go; by intros ? [= <-].
Qed.

(** A route that names a room, and one that also names a user. *)
Ltac no_claim := first [by intros [] | by intros (? & ? & ?); congruence].
Ltac at_room := apply wp_bind, wp_room_param; [intros id Hid|intros Hid; apply route_same; [done|no_claim]].
Ltac at_target :=
  h_step; h_step; [|apply route_same; [done|no_claim]]; apply wp_bind, wp_target_user;
    [|intros rep Hr; apply route_same; [cbn; lia|no_claim]]; intros t.

Lemma wp_route F k fresh now c r w :
  wp F (run domain k fresh now c r)
    (λ res w', route_post F k fresh c r w (respond api_recovered res) w') w.
Proof.
  destruct k; cbn [run].
  - unfold create. h_step. h_step; [|apply route_same; [done|no_claim]]. h_step.
    h_step; [|apply route_same; [done|no_claim]].
    apply (wp_granted F RCreate fresh c r (Rooms.OpCreate fresh q (getUserID c) now)); [by intros ? []|done..|].
    eapply wp_mono; [apply wp_Create|]. intros res d' [Hgr Hres]. split; [done|].
    intros room ->%Hres. by exists q.
  - apply (wp_shown F RList fresh); [done..|]. apply wp_List; [|done]. intros l H1 H2. split; [done|].
    by exists l.
  - unfold get. at_room. apply (wp_shown F RGet fresh); [by intros []|done|]. apply wp_Get.
    + intros x -> Hx. split; [done|]. by exists x.
    + intros e He. split; [done|]. intros (room & Hroom & ? & ?). simplify_eq. auto.
  - unfold invite. at_room. at_target.
    apply (wp_granted_done F RInvite fresh c r (Rooms.OpInvite id (getUserID c) t now)); [by intros ? []|done|by intros []|done|].
    apply Rooms.Invite_granted.
  - unfold leave. at_room.
    apply (wp_granted_done F RLeave fresh c r (Rooms.OpLeave id (getUserID c))); [by intros ? []|done|by intros []|done|].
    apply Rooms.Leave_granted.
  - unfold members. at_room. apply (wp_shown F RMembers fresh); [by intros []|done|]. apply wp_Members.
    + intros l Hm H1 H2. split; [done|]. by exists id, l.
    + intros e He. split; [done|]. intros (room & Hroom & ? & ?). simplify_eq. auto.
  - unfold transferCreator. at_room. at_target.
    apply (wp_granted_done F RTransfer fresh c r (Rooms.OpTransfer id (getUserID c) t)); [by intros ? []|done|by intros []|done|].
    apply Rooms.TransferCreator_granted.
  - unfold removeMember. at_room. at_target.
    apply (wp_granted_done F RRemove fresh c r (Rooms.OpRemove id (getUserID c) t)); [by intros ? []|done|by intros []|done|].
    apply Rooms.Remove_granted.
Qed.

(** C7: The routes of rooms, whatever statements fail.  All that a request
    changes is what the access-control matrix grants the user of its token for
    the room of its path.  A list of rooms holds rooms that the user is a
    member of and no others, and all of them unless a statement failed.  A room
    is shown as the tables say, and so are its members, all of them unless a
    statement failed, to its members only; who lists rooms, or asks for a room
    he is a member of or for its members, is answered 200 unless a statement
    failed.  The routes that change a room answer a fixed text. *)
Theorem rooms_authorised F k fresh now c r w res w' :
  Exec F (run domain k fresh now c r) w res w' →
  route_post F k fresh c r w (respond api_recovered res) w'.
Proof. intros He. by apply (wp_Exec _ _ _ _ _ _ (wp_route F k fresh now c r w)). Qed.
End facts.

(** ** Ann, who created room 5, invites Bob *)
Module Sample.
#[local] Instance room_errors : ErrText Rooms.err := λ _, "error".

Definition rooms_db : DB :=
  Schema.with_users {[ 1%Z := UserRow "ann" "a.org" None; 2%Z := UserRow "bob" "a.org" None ]}
  (Schema.with_rooms {[ 5%Z := RoomRow "r" "a.org" 1 0 ]}
  (Schema.with_members {[ (5, 1)%Z := MemberRow "creator" 0 ]} empty_db)).

Definition rooms_world : World := quiet_world "a.org" rooms_db.

Definition inviting : Request := mkRequest
  {| r_method := "POST"; r_path := "/api/v1/rooms/5/invite"; r_rawquery := ""; r_headers := ∅;
     r_body := marshal (JObj [("username", JStr "bob")]) |} true "a.org" (λ _, "5") 0 false.

Definition invited : Reply * World :=
  serve api_recovered no_faults (run "a.org" RInvite 7 9 (mkCtx 1 "" None) inviting) rooms_world.

Lemma rooms_authorised_witness :
  is_Some (Schema.members (w_db invited.2) !! (5, 2)%Z) ∧
  ∃ o, made_by RInvite (mkCtx 1 "" None) inviting o ∧
       Rooms.granted "a.org" rooms_db o (w_db invited.2).
Proof.
  assert (∃ m, Schema.members (w_db invited.2) !! (5, 2)%Z = Some m) as [m Hm]
    by (eexists; by vm_compute).
  split; [by rewrite Hm|].
  pose proof (rooms_authorised "a.org" no_faults RInvite 7 9 (mkCtx 1 "" None) inviting rooms_world
    _ _ (Exec_first _ _ _)) as (_ & Hd & _).
  unfold invited, serve in *. destruct (run _ _ _ _ _ _ _ _ _) as [[res w'] n].
  destruct Hd as [Hd|Hd]; [|exact Hd]. exfalso. cbn [fst snd] in Hd, Hm. rewrite Hd in Hm.
  vm_compute in Hm. discriminate.
Defined.
End Sample.
End RoomsHandler.
