(* ===== verification/MsgHandler.v ===== *)
(** * Keys and messages of this server's clients ([server/internal/api/handlers.go])

    [keysHandler] and [relayHandler], composed from the key directory, the
    relay, the rooms, the hub and the federation client. *)

From Stdlib Require Import Ascii String.
From stdpp Require Import strings.
From S2P Require Import Prelude GoStrings Encoding Json Floats Wire Crypto Schema Samples Dbenc Keydir Auth.
From S2P Require Import RoomChecker Rooms Relay Stream Federation Api FedHandler.
Set Default Goal Selector "!".
Open Scope stdpp_scope.

Module MsgHandler.
Import Api.

Definition extractDomain (addr : string) : string :=
  match index addr ":" with
  | Some idx => if idx + 1 <? slen addr then sdrop (idx + 1) addr else ""
  | None => ""
  end.

Definition signalPrefix : string := "sig1:".

(** ** [map[string]interface{}]

    Decoding into an empty interface and encoding again: objects come out
    with their last members, sorted, numbers as the [float64] they are read
    as. *)
Fixpoint generic (j : json) : option json :=
  match j with
  | JNum n => JNum <$> Floats.float_text n
  | JArr l => JArr <$> (fix go l := match l with
                        | [] => Some []
                        | x :: l => y ← generic x; t ← go l; Some (y :: t)
                        end) l
  | JObj l => (JObj ∘ sorted_members) <$> (fix go l := match l with
                        | [] => Some []
                        | (k, x) :: l => y ← generic x; t ← go l; Some ((k, y) :: t)
                        end) l
  | _ => Some j
  end.

(** ** [updateKeys]: the request *)
Record keysUpdate := mkKeysUpdate {
  ku_signing : string;
  ku_signed : option FedHandler.KeysPayload;
  ku_one_time : slice (string * Z);
}.

Definition zero_update : keysUpdate := mkKeysUpdate "" None nil_slice.

(** ** [send]: the request *)
Record sendRequest := mkSend {
  sr_type : string;
  sr_sender : string;
  sr_recipient : string;
  sr_device : string;
  sr_timestamp : Z;
  sr_ciphertext : string;
  sr_ciphertexts : gmap string string;
  sr_session : string;
}.

Definition zero_send : sendRequest := mkSend "" "" "" "" 0 "" ∅ "".

(** The handlers' configuration: the domain, whether push is enabled, and
    [E2EE_STRICT_ONLY]. *)
Record config := mkConfig { h_domain : string; h_push : bool; e2eeStrictOnly : bool }.

Section handlers.
Context `{HU : GoUnicode, HS : Sha256, HE : Ed25519, HH : S2S.Http, HUu : UuidLib, HP : PgText,
  HAe : Aead}.
Context `{!ErrText S2S.cerr, !ErrText Auth.err, !ErrText Keydir.err, !ErrText Relay.err}.
Context (h : config) (enc : Dbenc.Cipher).

Implicit Types (tick : nat → Z) (c : Ctx).

Definition dec_signed : Dec FedHandler.KeysPayload := FedHandler.dec_signed_prekey.

Definition dec_keys_update : Dec keysUpdate := dec_struct
  [("identity_signing_key", at_field ku_signing
      (λ v k, mkKeysUpdate v (ku_signed k) (ku_one_time k)) dec_string);
   ("signed_prekey", at_field ku_signed (λ v k, mkKeysUpdate (ku_signing k) v (ku_one_time k))
      (dec_ptr FedHandler.zero_keys dec_signed));
   ("one_time_prekeys", at_field ku_one_time (λ v k, mkKeysUpdate (ku_signing k) (ku_signed k) v)
      (dec_slice ("", 0%Z) FedHandler.dec_prekey))].

Definition dec_send_content : Dec sendRequest := dec_struct
  [("ciphertext", at_field sr_ciphertext (λ v q, mkSend (sr_type q) (sr_sender q) (sr_recipient q)
      (sr_device q) (sr_timestamp q) v (sr_ciphertexts q) (sr_session q)) dec_string);
   ("ciphertexts", at_field sr_ciphertexts (λ v q, mkSend (sr_type q) (sr_sender q)
      (sr_recipient q) (sr_device q) (sr_timestamp q) (sr_ciphertext q) v (sr_session q)) dec_map);
   ("session_id", at_field sr_session (λ v q, mkSend (sr_type q) (sr_sender q) (sr_recipient q)
      (sr_device q) (sr_timestamp q) (sr_ciphertext q) (sr_ciphertexts q) v) dec_string)].

Definition dec_send : Dec sendRequest := dec_struct
  [("type", at_field sr_type (λ v q, mkSend v (sr_sender q) (sr_recipient q) (sr_device q)
      (sr_timestamp q) (sr_ciphertext q) (sr_ciphertexts q) (sr_session q)) dec_string);
   ("sender", at_field sr_sender (λ v q, mkSend (sr_type q) v (sr_recipient q) (sr_device q)
      (sr_timestamp q) (sr_ciphertext q) (sr_ciphertexts q) (sr_session q)) dec_string);
   ("recipient", at_field sr_recipient (λ v q, mkSend (sr_type q) (sr_sender q) v (sr_device q)
      (sr_timestamp q) (sr_ciphertext q) (sr_ciphertexts q) (sr_session q)) dec_string);
   ("device_id", at_field sr_device (λ v q, mkSend (sr_type q) (sr_sender q) (sr_recipient q) v
      (sr_timestamp q) (sr_ciphertext q) (sr_ciphertexts q) (sr_session q)) dec_string);
   ("timestamp", at_field sr_timestamp (λ v q, mkSend (sr_type q) (sr_sender q) (sr_recipient q)
      (sr_device q) v (sr_ciphertext q) (sr_ciphertexts q) (sr_session q)) dec_int64);
   ("content", dec_send_content)].

Definition dec_typing : Dec (string * bool) := dec_struct
  [("recipient", at_field fst (λ v p, (v, p.2)) dec_string);
   ("typing", at_field snd (λ v p, (p.1, v)) dec_bool)].

Definition dec_read : Dec (slice string) := dec_struct
  [("event_ids", dec_slice "" dec_string)].

(** ** [keysHandler] *)

(** The device of the token; [uuid.Nil] is refused. *)
Definition own_device c : H Z :=
  match uuid_parse (getDeviceID c) with
  | Some dev => if (dev =? 0)%Z then raise (Return (bad "Invalid device")) else mret dev
  | None => raise (Return (bad "Invalid device"))
  end.

Definition no_bundle : Reply := writeError 404 "not_found" "Bundle not found".

(** The bundle of another server, with the device it is for. *)
Definition relabelled (dev data : string) : H Reply :=
  match unmarshal data with
  | Some JNull => raise Panic
  | Some (JObj l) =>
    match generic (JObj (l ++ [("device_id", JStr dev)])) with
    | Some j => mret (mkReply 200 (Text (marshal j)))
    | None => mret (mkReply 200 (Text data))
    end
  | _ => mret (mkReply 200 (Text data))
  end.

Definition remote_bundle tick (userID : string) : H Reply :=
  match sscanf user_id_format userID 2 with
  | Some [_; domain] =>
    _ ← require (negb (String.eqb domain "")) no_bundle;
    _ ← require (negb (String.eqb (to_lower (trim_space domain)) (to_lower (h_domain h)))) no_bundle;
    devices ← remote (S2S.FetchDeviceList (tick 1) (tick 2) (tick 3) domain userID);
    match devices with
    | Ok (dev :: _) =>
      data ← remote (S2S.FetchKeys (tick 4) (tick 5) (tick 6) domain userID dev);
      match data with Ok data => relabelled dev data | Err _ => mret no_bundle end
    | _ => mret no_bundle
    end
  | _ => mret no_bundle
  end.

Definition getBundleForUser tick (r : Request) : H Reply :=
  let userID := params r "userID" in
  _ ← require (negb (String.eqb userID "")) (bad "userID required");
  let userID := unescaped userID in
  b ← on_db (Keydir.GetBundleForUser enc userID (tick 0));
  match b with
  | Ok (b, dev) => mret (writeJSON 200 (FedHandler.bundle_json b dev))
  | Err (Keydir.ErrNotFound | Keydir.ErrInvalidUserID | Keydir.ErrRemoteUser) =>
    remote_bundle tick userID
  | Err e => mret (internal e)
  end.

(** Prekeys with their bytes; those that decode to nothing are skipped. *)
Definition uploaded (l : list (string * Z)) : list Keydir.PrekeyItem :=
  List.filter (λ it, negb (String.eqb (Keydir.Key it) ""))
    ((λ p, Keydir.mkPrekeyItem (b64_bytes p.1) p.2) <$> l).

Definition updateKeys (rand : nat → option string) tick c (r : Request) : H Reply :=
  q ← decoded_body dec_keys_update zero_update r;
  dev ← own_device c;
  let spk := match ku_signed q with Some k => b64_bytes (FedHandler.k_SpkKey k) | None => "" end in
  let sig := match ku_signed q with Some k => b64_bytes (FedHandler.k_SpkSignature k) | None => "" end in
  let id := match ku_signed q with Some k => FedHandler.k_SpkKeyID k | None => 0%Z end in
  let signed := match ku_signed q with Some _ => true | None => false end in
  _ ← require (negb (signed && (String.eqb spk "" || String.eqb sig ""))) (bad "signed_prekey required");
  let otks := uploaded (items (ku_one_time q)) in
  _ ← require (signed || (0 <? length otks)) (bad "signed_prekey or one_time_prekeys required");
  res ← on_db (Keydir.UpdateKeys enc rand (getUserID c) dev spk sig id otks
                 (b64_bytes (ku_signing q)) (tick 0));
  mret match res with
       | Err Keydir.ErrInvalidSignature => bad "signed prekey signature invalid"
       | Err Keydir.ErrPrekeyQuotaExceeded => bad "one-time prekeys quota exceeded (max 500 per device)"
       | Err e => internal e
       | Ok _ => writeJSON 200 (JObj [])
       end.

Definition keysStatus c : H Reply :=
  dev ← own_device c;
  st ← on_db (Keydir.GetKeyStatus dev);
  mret match st with
       | Err e => internal e
       | Ok st => writeJSON 200 (JObj
           [("next_one_time_key_id", JInt (Keydir.NextOneTimePrekeyKeyID st));
            ("signed_prekey_updated_at", JStr (Keydir.SignedPrekeyUpdatedAt st));
            ("unconsumed_prekeys", JInt (Keydir.UnconsumedPrekeys st))])
       end.

Definition remote_keys tick (userID deviceID : string) : H Reply :=
  let failed := writeError 404 "remote_user" "Could not fetch remote keys" in
  match sscanf user_id_format userID 2 with
  | Some [_; domain] =>
    data ← remote (S2S.FetchKeys (tick 1) (tick 2) (tick 3) domain userID deviceID);
    mret match data with Ok data => mkReply 200 (Text data) | Err _ => failed end
  | _ => mret failed
  end.

Definition getBundle tick (r : Request) : H Reply :=
  let userID := params r "userID" in
  let deviceID := params r "deviceID" in
  _ ← require (negb (String.eqb userID "" || String.eqb deviceID "")) (bad "userID and deviceID required");
  let userID := unescaped userID in
  let deviceID := unescaped deviceID in
  b ← on_db (Keydir.GetBundle (h_domain h) enc userID deviceID (tick 0));
  match b with
  | Err (Keydir.ErrNotFound | Keydir.ErrInvalidUserID | Keydir.ErrInvalidDeviceID) => mret no_bundle
  | Err Keydir.ErrRemoteUser => remote_keys tick userID deviceID
  | Err e => mret (internal e)
  | Ok b => mret (writeJSON 200 (FedHandler.bundle_json b ""))
  end.

(** The devices of a user of another server, when none are known here. *)
Definition remote_devices tick (userID : string) : H (list string) :=
  match sscanf user_id_format userID 2 with
  | Some [_; domain] =>
    if String.eqb domain "" || String.eqb (to_lower (trim_space domain)) (to_lower (h_domain h))
    then mret []
    else
      ids ← remote (S2S.FetchDeviceList (tick 0) (tick 1) (tick 2) domain userID);
      mret match ids with Ok ids => ids | Err _ => [] end
  | _ => mret []
  end.

Definition listDevicesForUser tick (r : Request) : H Reply :=
  let userID := params r "userID" in
  _ ← require (negb (String.eqb userID "")) (bad "userID required");
  let userID := unescaped userID in
  ids ← on_db (Keydir.ListDevicesForUser (h_domain h) userID);
  match ids with
  | Err Keydir.ErrInvalidUserID => mret (bad "Invalid userID")
  | Err e => mret (internal e)
  | Ok ids =>
    ids ← (if length ids =? 0 then remote_devices tick userID else mret ids);
    mret (writeJSON 200 (JObj [("devices", JArr (FedHandler.device_json <$> ids))]))
  end.

(** ** [relayHandler] *)
Definition rooms_service : RoomChecker := Rooms.rooms_checker (h_domain h).

Definition strict_text (ct : string) : bool := has_prefix ct signalPrefix || has_prefix ct "sk1:".

(** [E2EE_STRICT_ONLY]: every ciphertext announces the Signal protocol. *)
Definition strict_ok (q : sendRequest) : bool :=
  let ct := b64_bytes (sr_ciphertext q) in
  if bool_decide (sr_ciphertexts q = ∅) then String.eqb ct "" || strict_text ct
  else forallb (λ kv, String.eqb kv.2 "" || strict_text kv.2) (map_to_list (sr_ciphertexts q)).

Definition send_input c (r : Request) (q : sendRequest) : Relay.SendInput :=
  Relay.mkSendInput "" (sr_sender q) (sr_recipient q) (getUserID c) (sr_device q)
    (b64_bytes (sr_ciphertext q)) (sr_ciphertexts q) (sr_session q) (sr_timestamp q)
    (hdr "X-Idempotency-Key" r).

Definition sender_label (sender : string) : string :=
  let label := match index sender ":" with
               | Some (S idx) => trim_prefix (stake (S idx) sender) "@"
               | _ => trim_prefix sender "@"
               end in
  if String.eqb label "" then "Кто-то" else label.

Definition NotifyNewMessage (addr label : string) : H unit :=
  modify (λ w, with_pushed (w_pushed w ++ [(addr, label)]) w).

(** Whom a message for a room is pushed to: its members but the sender. *)
Definition push_room (recipient sender label : string) : H unit :=
  match Rooms.ParseRoomAddr recipient with
  | (room, _, true) =>
    match uuid_parse room with
    | None => mret tt
    | Some rid =>
      addrs ← on_db (Rooms.MemberAddresses rid);
      match addrs with
      | Err _ => mret tt
      | Ok l => for_each (λ a, if String.eqb a sender then mret tt else NotifyNewMessage a label) l
      end
    end
  | _ => mret tt
  end.

Definition push_message (recipient sender : string) : H unit :=
  let label := sender_label sender in
  if negb (h_push h) then mret tt
  else if has_prefix recipient "!" then push_room recipient sender label
  else NotifyNewMessage recipient label.

Definition queued (eventID : string) : Reply :=
  writeJSON 202 (JObj [("event_id", JStr eventID); ("status", JStr "queued")]).

(** The transaction of a message for a user of another server; [txn]: the
    UUID drawn for it. *)
Definition outgoing (txn : Z) (eventID : string) (q : sendRequest) : Transaction := {|
  t_TransactionID := "txn_" +:+ uuid_string txn; t_Origin := ""; t_Destination := "";
  t_Events := [{|
    Wire.EventID := eventID; Type_ := "m.room.encrypted"; Sender := sr_sender q;
    Recipient := sr_recipient q; Timestamp := sr_timestamp q;
    Content := {| Ciphertext := b64_encode (b64_bytes (sr_ciphertext q)); SessionID := sr_session q |} |}] |}.

Definition send_remote tick (txn : Z) (eventID domain : string) (q : sendRequest) : H Reply :=
  res ← remote (S2S.SendTransaction (tick 1) (tick 2) (tick 3) domain (outgoing txn eventID q));
  match res with
  | Err e => mret (writeError 502 "federation_failed" (err_text e))
  | Ok _ =>
    _ ← on_hub (Stream.Notify (sr_recipient q) eventID);
    mret (queued eventID)
  end.

Definition send_local (eventID : string) (q : sendRequest) : H Reply :=
  _ ← on_hub (Stream.Notify (sr_recipient q) eventID);
  _ ← push_message (sr_recipient q) (sr_sender q);
  mret (queued eventID).

(** [fresh], [txn]: the UUIDs drawn. *)
Definition send (fresh txn : Z) tick c (r : Request) : H Reply :=
  q ← decoded_body dec_send zero_send r;
  _ ← require (negb (e2eeStrictOnly h) || strict_ok q)
        (writeError 400 "strict_signal_only" "Server requires Signal Protocol only (no MVP/plain)");
  id ← on_db (Relay.Send (h_domain h) (Some rooms_service) fresh (send_input c r q) (tick 0));
  match id with
  | Err Relay.ErrNotRoomMember => mret (writeError 403 "forbidden" "Not a room member")
  | Err Relay.ErrRecipientNotFound => mret (writeError 404 "not_found" "Recipient not found")
  | Err Relay.ErrReplayTimestamp =>
    mret (writeError 400 "replay_protection" "Message timestamp outside acceptable window")
  | Err (Relay.ErrRemoteRecipient eventID as e) =>
    let domain := extractDomain (sr_recipient q) in
    if String.eqb domain "" then mret (internal e) else send_remote tick txn eventID domain q
  | Err e => mret (internal e)
  | Ok eventID => send_local eventID q
  end.

(** The address of the user of a request. *)
Definition own_address c : H string :=
  let unknown := writeError 401 "invalid_request" "user not found" in
  name ← or_reply (λ _, unknown) (on_db (Auth.GetUsername (h_domain h) (getUserID c)));
  _ ← require (negb (String.eqb name "")) unknown;
  mret ("@" +:+ name +:+ ":" +:+ h_domain h).

Definition ok_reply : Reply := writeJSON 200 (JObj [("status", JStr "ok")]).

Definition typing c (r : Request) : H Reply :=
  q ← decoded_body dec_typing ("", false) r;
  let recipient := q.1 in
  _ ← require (negb (String.eqb recipient "")) (bad "recipient required");
  sender ← own_address c;
  _ ← (if Rooms.IsRoomAddr recipient then
         match Rooms.ParseRoomAddr recipient with
         | (room, _, true) =>
           match uuid_parse room with
           | None => raise (Return (bad "invalid room id"))
           | Some rid =>
             ms ← or_reply (λ _, writeError 403 "forbidden" "not a room member")
                    (on_db (Rooms.Members rid (getUserID c)));
             on_hub (λ hub, foldl (λ hub m, Stream.NotifyTypingToMember
               ("@" +:+ Rooms.Username m +:+ ":" +:+ Rooms.MDomain m) sender q.2 recipient hub) hub ms)
           end
         | _ => raise (Return (bad "invalid room address"))
         end
       else on_hub (Stream.NotifyTyping recipient sender q.2));
  mret ok_reply.

Definition read tick c (r : Request) : H Reply :=
  q ← decoded_body dec_read nil_slice r;
  let ids := items q in
  if length ids =? 0 then mret ok_reply else
  reader ← own_address c;
  told ← or_reply internal
    (on_db (Relay.MarkRead (Some rooms_service) reader (getUserID c) (tick 0) ids));
  let readAt := format_nano (tick 1) in
  _ ← on_hub (λ hub, foldl (λ hub u,
        Stream.read_told (Relay.SenderAddr u) (Relay.DEventID u) readAt hub) hub told);
  mret ok_reply.

Definition sync_limit (s : string) : Z :=
  if String.eqb s "" then 100
  else match parse_int64 s with
       | Some l => if ((0 <? l) && (l <=? 100))%Z then l else 100
       | None => 100
       end.

Definition omitempty (k v : string) : list (string * json) :=
  if String.eqb v "" then [] else [(k, JStr v)].

Definition event_resp (e : Relay.SyncEvent) : json :=
  JObj ([("event_id", JStr (Relay.SEventID e)); ("type", JStr (Relay.SType e));
         ("sender", JStr (Relay.SSender e)); ("recipient", JStr (Relay.SRecipient e))] ++
        omitempty "sender_device" (Relay.SSenderDevice e) ++
        [("timestamp", JInt (Relay.STimestamp e));
         ("ciphertext", JStr (b64_encode (Relay.SCiphertext e)));
         ("session_id", JStr (Relay.SSessionID e))] ++
        omitempty "status" (Relay.SStatus e)).

Definition sync c (r : Request) : H Reply :=
  let limit := sync_limit (Api.query "limit" r) in
  page ← or_reply internal (on_db (Relay.Sync (Some rooms_service) (getUserID c)
    (uuid_parsed (getDeviceID c)) (Api.query "since" r) limit));
  let '(events, nextCursor, delivered) := page in
  _ ← on_hub (λ hub, foldl (λ hub u,
        Stream.delivery_told (Relay.SenderAddr u) (Relay.DEventID u) "delivered" hub) hub delivered);
  mret (writeJSON 200 (JObj [("events", JArr (event_resp <$> events));
                             ("next_cursor", JStr nextCursor)])).
End handlers.

(** ** Specification *)
Section facts.
Context `{HU : GoUnicode, HS : Sha256, HE : Ed25519, HH : S2S.Http, HUu : UuidLib, HP : PgText,
  HAe : Aead}.
Context `{!ErrText S2S.cerr, !ErrText Auth.err, !ErrText Keydir.err, !ErrText Relay.err}.
Context (h : config).

(** A request answered with an error that left no trace. *)
Definition refused (w : World) (rep : Reply) (w' : World) : Prop :=
  w' = w ∧ (400 ≤ status rep < 600)%Z.

(** Whom the push service is told about a message. *)
Definition push_list (q : sendRequest) (d : DB) : list (string * string) :=
  let label := sender_label (sr_sender q) in
  if negb (h_push h) then []
  else if has_prefix (sr_recipient q) "!" then
    match Rooms.ParseRoomAddr (sr_recipient q) with
    | (room, _, true) =>
      match uuid_parse room with
      | None => []
      | Some rid => (λ a, (a, label)) <$> List.filter (λ a, negb (String.eqb a (sr_sender q)))
          ((λ m, "@" +:+ Rooms.Username m +:+ ":" +:+ Rooms.MDomain m) <$> Rooms.members_of_room rid d)
      end
    | _ => []
    end
  else [(sr_recipient q, label)].

(** A message for this server: the relay stored it, the hub was told, and the
    push service about as many of the members as could be read, in the order
    of the rows; about all of them unless a statement failed. *)
Definition sent_here F fresh tick c r q (w : World) (rep : Reply) (w' : World) : Prop :=
  ∃ id d' l, rep = queued id ∧
    Relay.send_post (h_domain h) F fresh (send_input c r q) (tick 0) (w_db w) (Ok id) d' ∧
    l `prefix_of` push_list q d' ∧ (faulty F ∨ l = push_list q d') ∧
    w' = with_pushed (w_pushed w ++ l)
           (with_hub (Stream.Notify (sr_recipient q) id (w_hub w)) (with_db d' w)).

(** A message for another server: nothing is stored here; it counts as sent
    when the other server, or the main hub, answers 200. *)
Definition sent_away fresh txn tick c r q (w : World) (rep : Reply) (w' : World) : Prop :=
  let i := send_input c r q in
  let id := Relay.send_event_id fresh i in
  Relay.in_window (sr_timestamp q) (tick 0) ∧
  ¬ Relay.local_recipient (h_domain h) (sr_recipient q) ∧
  ∃ res cl, S2S.SendTransaction (tick 1) (tick 2) (tick 3) (extractDomain (sr_recipient q))
              (outgoing txn id q) (w_client w) = (res, cl) ∧
    match res with
    | Ok _ => rep = queued id ∧
        w' = with_hub (Stream.Notify (sr_recipient q) id (w_hub w)) (with_client cl w)
    | Err e => (400 ≤ status rep < 600)%Z ∧ w' = with_client cl w
    end.

Lemma with_pushed_nil w : with_pushed (w_pushed w ++ []) w = w.
Proof. rewrite app_nil_r. by destruct w. Qed.

Lemma wp_push_each F sender label l (Q : result exit unit → World → Prop) w :
  Q (Ok tt) (with_pushed (w_pushed w ++
    ((λ a, (a, label)) <$> List.filter (λ a, negb (String.eqb a sender)) l)) w) →
  wp F (for_each (λ a, if String.eqb a sender then mret tt else NotifyNewMessage a label) l) Q w.
Proof.
  revert w. induction l as [|a l IH]; intros w HQ; cbn [for_each].
  - apply wp_ret. by rewrite with_pushed_nil in HQ.
  - cbn [List.filter] in HQ. destruct (String.eqb a sender); cbn [negb] in HQ.
    + by apply wp_bind, wp_ret, IH.
    + apply wp_bind, wp_modify, IH. cbn. by rewrite <- app_assoc.
Qed.

Lemma wp_push_message F q (Q : result exit unit → World → Prop) w :
  (∀ l, l `prefix_of` push_list q (w_db w) → faulty F ∨ l = push_list q (w_db w) →
     Q (Ok tt) (with_pushed (w_pushed w ++ l) w)) →
  wp F (push_message h (sr_recipient q) (sr_sender q)) Q w.
Proof.
  unfold push_message, push_list. intros HQ.
  assert (∀ l, l = [] → (faulty F ∨ l = push_list q (w_db w)) → Q (Ok tt) w) as Hnil.
  { intros l -> Hl. rewrite <- with_pushed_nil. apply HQ; [apply prefix_nil|done]. }
  unfold push_list in Hnil.
  destruct (h_push h); cbn [negb] in *; [|apply wp_ret; eapply Hnil; eauto].
  destruct (has_prefix (sr_recipient q) "!"); [|apply wp_modify, HQ; [done|by right]].
  unfold push_room. destruct (Rooms.ParseRoomAddr (sr_recipient q)) as [[room dom] []];
    [|apply wp_ret; eapply Hnil; eauto].
  destruct (uuid_parse room) as [rid|]; [|apply wp_ret; eapply Hnil; eauto].
  apply wp_bind, wp_on_db. unfold Rooms.MemberAddresses.
  apply wp_bind, wp_or_raise, wp_query_fault; rewrite ?with_db_same.
  - intros HF. apply wp_ret. eapply Hnil; [done|]. by left.
  - apply wp_bind, wp_fetch. intros ms Hpre Hall. apply wp_ret. rewrite with_db_same.
    apply wp_push_each, HQ; [|destruct Hall as [?| ->]; [by left|by right]].
    destruct Hpre as [ms' ->]. rewrite fmap_app, List.filter_app, fmap_app. by eexists.
Qed.

(** The status an error of the relay is answered with. *)
Definition send_status (e : Relay.err) : Z :=
  match e with
  | Relay.ErrNotRoomMember => 403
  | Relay.ErrRecipientNotFound => 404
  | Relay.ErrReplayTimestamp => 400
  | _ => 500
  end.

(** Why [send] refuses a request. *)
Definition send_refused F fresh tick c r (w : World) (rep : Reply) : Prop :=
  match decode_first (body r) ≫= dec_send zero_send with
  | None => status rep = 400%Z
  | Some q =>
    e2eeStrictOnly h = true ∧ strict_ok q = false ∧ status rep = 400%Z ∨
    ∃ e, Relay.send_error (h_domain h) F fresh (send_input c r q) (tick 0) (w_db w) e ∧
      status rep = send_status e
  end.

Lemma wp_send_remote F fresh txn tick c r q w :
  Relay.in_window (sr_timestamp q) (tick 0) →
  ¬ Relay.local_recipient (h_domain h) (sr_recipient q) →
  wp F (send_remote tick txn (Relay.send_event_id fresh (send_input c r q))
          (extractDomain (sr_recipient q)) q)
    (λ res w', sent_away fresh txn tick c r q w (respond api_recovered res) w') w.
Proof.
  intros Hwin Hloc. unfold send_remote. apply wp_bind, wp_remote.
  - intros f cl Hf Hp. destruct f as [[]|e].
    + apply wp_bind, wp_modify, wp_ret. do 2 (split; [done|]). by exists (Ok tt), cl.
    + apply wp_ret. do 2 (split; [done|]). by exists (Err e), cl.
  - intros cl Hf. do 2 (split; [done|]). by exists (Err S2S.EPanic), cl.
Qed.

Lemma wp_send_local F fresh tick c r q id d' w :
  Relay.send_post (h_domain h) F fresh (send_input c r q) (tick 0) (w_db w) (Ok id) d' →
  wp F (send_local h id q)
    (λ res w', sent_here F fresh tick c r q w (respond api_recovered res) w') (with_db d' w).
Proof.
  intros Hp. unfold send_local. apply wp_bind, wp_modify, wp_bind, wp_push_message.
  intros l Hl Hall. apply wp_ret. by exists id, d', l.
Qed.

(** What [send] answers with [rep], leaving [w']. *)
Definition sent_post F fresh txn tick c r (w : World) (rep : Reply) (w' : World) : Prop :=
  refused w rep w' ∧ send_refused F fresh tick c r w rep ∨
  ∃ q, decode_first (body r) ≫= dec_send zero_send = Some q ∧
    (e2eeStrictOnly h = true → strict_ok q = true) ∧
    (sent_here F fresh tick c r q w rep w' ∨ sent_away fresh txn tick c r q w rep w').

Lemma wp_send F fresh txn tick c r w :
  wp F (send h fresh txn tick c r)
    (λ res w', sent_post F fresh txn tick c r w (respond api_recovered res) w') w.
Proof.
  unfold send, sent_post, send_refused. apply wp_bind, wp_decoded_body.
  2: { intros Hq. left. by rewrite Hq. }
  intros q Hq. rewrite Hq. apply wp_bind, wp_require; intros Hs.
  2: { apply orb_false_iff in Hs as [Hs1%negb_false_iff Hs2]. left. split; [done|]. by left. }
  apply wp_bind, wp_on_db.
  eapply wp_mono; [eapply (Relay.wp_Send _ _ _ (RoomCheckerLaws0 := Rooms.rooms_checker_laws (h_domain h)))|].
  intros rs d' Hpost.
  assert (e2eeStrictOnly h = true → strict_ok q = true) as Hst.
  { intros Hon. by rewrite Hon in Hs. }
  destruct rs as [id|e].
  - eapply wp_mono; [by apply wp_send_local|]. intros rs w' Hd. right. eauto.
  - destruct Hpost as [-> He]. rewrite with_db_same. destruct e.
    2: { destruct He as (-> & Hwin & Hloc). destruct (String.eqb _ "") eqn:Hdom.
         - exfalso. apply Hloc. left. by apply String.eqb_eq.
         - eapply wp_mono; [by eapply wp_send_remote|]. intros rs w' Hd. right. eauto. }
    all: apply wp_ret; left; split; [done|]; right; eexists; by split; [exact He|].
Qed.

(** C3: Sending a message, whatever statements fail.  A request is refused and
    leaves no trace, for a reason its status tells; or the message is stored
    for a recipient of this server, the hub is told to notify its sockets, and
    the push service, if there is one, is told about the recipient, or about
    the members of the room but the sender: about all of them when no
    statement fails, and else about those read before the failure, perhaps
    nobody, of which the sender learns nothing; or it is handed to the
    recipient's server, which is reported as queued only if that server, or
    the main hub, answered 200. *)
Theorem send_outcome F fresh txn tick c r w res w' :
  Exec F (send h fresh txn tick c r) w res w' →
  sent_post F fresh txn tick c r w (respond api_recovered res) w'.
Proof. intros He. by apply (wp_Exec _ _ _ _ _ _ (wp_send F fresh txn tick c r w)). Qed.

(** *** Bundles *)

(** What the route of a bundle answers with [rep], leaving [w']. *)
Definition bundle_route_post (enc : Dbenc.Cipher) F tick (r : Request) (w : World) (rep : Reply) (w' : World)
  : Prop :=
  let user := unescaped (params r "userID") in
  let name := Keydir.bare_username user in
  w' = with_db (w_db w') w ∧
  ((∃ dev row b, Keydir.oldest_device name (w_db w) dev row ∧ Keydir.row_bundle enc row b ∧
      rep = writeJSON 200 (FedHandler.bundle_json b (uuid_string dev)) ∧
      match Keydir.OneTimePrekey b with
      | None => w' = w ∧ (faulty F ∨ Keydir.exhausted dev (w_db w))
      | Some it => ∃ pk, Keydir.takes dev (tick 0) (Keydir.KeyID it) pk (w_db w) (w_db w') ∧
                         Dbenc.Decrypt enc pk = Ok (Keydir.Key it)
      end) ∨
   (status rep = 400%Z ∧ params r "userID" = "" ∧ w' = w) ∨
   (status rep = 404%Z ∧ (name = "" ∨ Keydir.no_device name (w_db w)) ∧ w' = w) ∨
   (status rep = 500%Z ∧ (w' = w ∨ ∃ dev k pk, Keydir.takes dev (tick 0) k pk (w_db w) (w_db w')))).

Lemma wp_remote_bundle F enc tick (r : Request) w :
  let user := unescaped (params r "userID") in
  Keydir.bare_username user = "" ∨ Keydir.no_device (Keydir.bare_username user) (w_db w) →
  wp F (remote_bundle h tick user)
    (λ res w', bundle_route_post enc F tick r w (respond api_recovered res) w') w.
Proof.
  intros user Hno. unfold remote_bundle. rewrite sscanf_user_id_fails. apply wp_ret.
  split; [by rewrite with_db_same|]. right; right; left. done.
Qed.

Lemma wp_getBundleForUser F enc tick (r : Request) w :
  wp F (getBundleForUser h enc tick r)
    (λ res w', bundle_route_post enc F tick r w (respond api_recovered res) w') w.
Proof.
  unfold getBundleForUser. apply wp_bind, wp_require; intros Hu.
  2: { split; [by rewrite with_db_same|]. right; left. split; [done|].
       by apply negb_false_iff, String.eqb_eq in Hu. }
  apply wp_bind, wp_on_db, Keydir.wp_GetBundleForUser.
  - intros e He. rewrite with_db_same. destruct e; try done;
      try (apply (wp_remote_bundle F enc tick r w); by auto);
      apply wp_ret; (split; [by rewrite with_db_same|]); right; right; right; (split; [done|]); by left.
  - intros dev row b Hold Hb. split_and!.
    + intros Hn Hex. rewrite with_db_same. apply wp_ret. split; [by rewrite with_db_same|]. left.
      exists dev, row, b. by rewrite Hn.
    + intros k pk d' key Ht Hdec Hit. apply wp_ret. split; [done|]. left. exists dev, row, b.
      rewrite Hit. split_and!; [done..|]. by exists pk.
    + intros k pk d' e Ht. apply wp_ret. split; [done|]. right; right; right. split; [done|]. right.
      by exists dev, k, pk.
Qed.


(** *** The hub

    With the loops of requests at rest, what a handler does to the hub is a
    run of the hub, so that its invariants hold whatever the requests. *)
Definition hub_runs (hub hub' : Stream.Hub) : Prop :=
  Stream.iters hub !! 2 = None →
  (∃ tr, Stream.runs hub tr hub') ∧ Stream.iters hub' = Stream.iters hub.

Lemma hub_runs_refl hub : hub_runs hub hub.
Proof. intros Hi. split; [exists []; constructor|done]. Qed.

Lemma hub_runs_trans h1 h2 h3 : hub_runs h1 h2 → hub_runs h2 h3 → hub_runs h1 h3.
Proof.
  intros H1 H2 Hi. destruct (H1 Hi) as [[tr1 Hr1] He1]. rewrite <- He1 in Hi.
  destruct (H2 Hi) as [[tr2 Hr2] He2]. split; [|by rewrite He2].
  exists (tr2 ++ tr1). by eapply Stream.runs_app.
Qed.

Lemma hub_runs_step hub l hub' :
  Stream.step hub l hub' → Stream.iters hub' = Stream.iters hub → hub_runs hub hub'.
Proof. intros Hs He _. split; [|done]. exists [l]. eapply Stream.runs_step; [constructor|done]. Qed.

Lemma hub_runs_foldl {A} (f : Stream.Hub → A → Stream.Hub) l hub :
  (∀ hub a, hub_runs hub (f hub a)) → hub_runs hub (foldl f hub l).
Proof.
  intros Hf. revert hub. induction l as [|a l IH]; intros hub; [apply hub_runs_refl|].
  eapply hub_runs_trans; [apply Hf|apply IH].
Qed.

Lemma hub_runs_publish p hub : Stream.iters (Stream.publish p hub) = Stream.iters hub.
Proof. unfold Stream.publish. by destruct (Stream.redis hub). Qed.

Lemma hub_runs_notify rcpt id hub : hub_runs hub (Stream.Notify rcpt id hub).
Proof. eapply hub_runs_step; [constructor|]. unfold Stream.Notify. simpl. apply hub_runs_publish. Qed.

Lemma hub_runs_typing rcpt sender on room hub : hub_runs hub (Stream.notifyTyping rcpt sender on room hub).
Proof.
  eapply hub_runs_step; [apply (Stream.st_typing _ (Stream.mkTypingEvent rcpt sender on room))|].
  unfold Stream.notifyTyping. simpl. apply hub_runs_publish.
Qed.

Lemma hub_runs_read a id t hub : hub_runs hub (Stream.read_told a id t hub).
Proof.
  intros Hi. destruct (Stream.read_told_runs 2 a id t hub) as [tr Hr]; [lia|done|].
  split; [by eexists|]. unfold Stream.read_told, Stream.push_all.
  rewrite <- (hub_runs_publish (Stream.PRead a id t) hub). by destruct (Stream.clients _ !! _).
Qed.

Lemma hub_runs_delivery a id st hub : hub_runs hub (Stream.delivery_told a id st hub).
Proof.
  intros Hi. destruct (Stream.delivery_told_runs 2 a id st hub) as [tr Hr]; [lia|done|].
  split; [by eexists|]. unfold Stream.delivery_told, Stream.push_all.
  rewrite <- (hub_runs_publish (Stream.PDelivery a id st) hub). by destruct (Stream.clients _ !! _).
Qed.

Definition from (hub hub' : Stream.Hub) : Prop := hub_runs hub hub'.

Lemma from_then hub h1 h2 : from hub h1 → hub_runs h1 h2 → from hub h2.
Proof. apply hub_runs_trans. Qed.

Lemma from_foldl {A} hub (f : Stream.Hub → A → Stream.Hub) l h1 :
  (∀ hub a, hub_runs hub (f hub a)) → from hub h1 → from hub (foldl f h1 l).
Proof. intros Hf H1. eapply from_then; [exact H1|]. by apply hub_runs_foldl. Qed.

Lemma keeps_hub_push hub q : keeps (of_hub (from hub)) (push_message h (sr_recipient q) (sr_sender q)).
Proof. unfold push_message, push_room, NotifyNewMessage. keeps_h; done. Qed.

Lemma keeps_hub_send hub fresh txn tick c r : keeps (of_hub (from hub)) (send h fresh txn tick c r).
Proof.
  unfold send, decoded_body, send_remote, send_local. keeps_h; eauto using from_then, hub_runs_notify.
  apply keeps_hub_push.
Qed.

Lemma keeps_hub_typing hub c r : keeps (of_hub (from hub)) (typing h c r).
Proof.
  unfold typing, decoded_body, own_address. keeps_h.
  - apply from_foldl; [|done]. intros hub1 m. apply hub_runs_typing.
  - eapply from_then; [done|]. apply hub_runs_typing.
Qed.

Lemma keeps_hub_read hub tick c r : keeps (of_hub (from hub)) (read h tick c r).
Proof.
  unfold read, decoded_body, own_address. keeps_h.
  apply from_foldl; [|done]. intros hub1 u. apply hub_runs_read.
Qed.

Lemma keeps_hub_sync hub c r : keeps (of_hub (from hub)) (sync h c r).
Proof.
  unfold sync. keeps_h. apply from_foldl; [|done]. intros hub1 u. apply hub_runs_delivery.
Qed.
End facts.

(** ** Ann writes to herself, and to a stranger *)
Module Sample.
Import FedHandler.Net.

Definition a_config : MsgHandler.config := mkConfig "a.org" true true.

Definition a_world : World :=
  quiet_world "a.org" (Schema.with_users {[ 1%Z := UserRow "ann" "a.org" None ]} empty_db).

Definition writing (to : string) : Request := mkRequest
  {| r_method := "POST"; r_path := "/api/v1/messages/send"; r_rawquery := ""; r_headers := ∅;
     r_body := marshal (JObj [("sender", JStr "@ann:a.org"); ("recipient", JStr to);
       ("timestamp", JInt 1700000000);
       ("content", JObj [("ciphertext", JStr (b64_encode "sig1:hello"))])]) |}
  true "a.org" (λ _, "") 0 false.

Definition written (to : string) : Reply * World :=
  serve api_recovered no_faults (send a_config 7 8 noon (mkCtx 1 "3" None) (writing to)) a_world.

Lemma send_outcome_witness :
  status (written "@ann:a.org").1 = 202%Z ∧ status (written "@eve:a.org").1 = 404%Z ∧
  sent_post a_config no_faults 7 8 noon (mkCtx 1 "3" None) (writing "@ann:a.org") a_world
    (written "@ann:a.org").1 (written "@ann:a.org").2.
Proof.
  split; [by vm_compute|]. split; [by vm_compute|].
  pose proof (send_outcome a_config no_faults 7 8 noon (mkCtx 1 "3" None) (writing "@ann:a.org") a_world
    _ _ (Exec_first _ _ _)) as Hp.
  unfold written, serve. destruct (send _ _ _ _ _ _ _) as [[res w'] n]. exact Hp.
Defined.

(** Ann of [a.org] has a device with one prekey left. *)
Definition keys_world : World := quiet_world "a.org" Keydir.sample_db.

Definition naming (user : string) : Request := mkRequest
  {| r_method := "GET"; r_path := ""; r_rawquery := ""; r_headers := ∅; r_body := "" |}
  true "a.org" (λ k, if String.eqb k "userID" then user else "") 0 false.

Definition bundle_of (user : string) : Reply * World :=
  serve api_recovered no_faults (getBundleForUser a_config None noon (naming user)) keys_world.


(** Whoever asks for Ann of another server is given the keys of the Ann of
    this one; for anybody else of another server there are none. *)
Example keys_of_namesake :
  (bundle_of "@ann:b.org").1 = (bundle_of "@ann:a.org").1 ∧
  status (bundle_of "@eve:b.org").1 = 404%Z ∧
  S2S.requests (w_client (bundle_of "@eve:b.org").2) = [].
Proof. by vm_compute. Qed.
End Sample.
End MsgHandler.
