(* ===== verification/VpnHandler.v ===== *)
(** * VPN configurations over HTTP ([server/internal/api/handlers_vpn.go]) *)

From Stdlib Require Import Ascii String.
From stdpp Require Import strings.
From S2P Require Import Prelude GoStrings Encoding Json Crypto Schema Samples Auth Stream Federation.
From S2P Require Import Config WgStats VpnText VpnNodes Vpn Api.
Set Default Goal Selector "!".
Open Scope stdpp_scope.

Module VpnHandler.
Import Api.

(** What the service is built with: its configuration, and whether it is
    connected to the Xray API. *)
Record config := mkConfig { v_cfg : Config.VPNConfig; v_api : bool }.

Section handlers.
Context `{HU : GoUnicode, HC : VpnText.Curve25519, HT : Vpn.Calendar, HI : UuidLib, HP : PgText,
  !ErrText VpnNodes.err}.
Context (h : config).

Implicit Types (c : Ctx) (r : Request).

(** A field with [omitempty]. *)
Definition omit_empty (k v : string) : list (string * json) :=
  if String.eqb v "" then [] else [(k, JStr v)].
Definition omit_zero (k : string) (z : Z) : list (string * json) :=
  if (z =? 0)%Z then [] else [(k, JInt z)].

(** A slice declared with [var]. *)
Definition JSlice (l : list json) : json := match l with [] => JNull | _ => JArr l end.

Definition protocol_json (p : Vpn.ProtocolInfo) : json :=
  JObj [("id", JStr (Vpn.PID p)); ("name", JStr (Vpn.PName p)); ("hint", JStr (Vpn.Hint p))].

Definition node_json (n : VpnNodes.VPNNode) : json := JObj
  ([("id", JStr (uuid_string (VpnNodes.NID n))); ("name", JStr (VpnNodes.NName n));
    ("region", JStr (VpnNodes.Region n)); ("wireguard_endpoint", JStr (VpnNodes.WireGuardEndpoint n));
    ("wireguard_server_pubkey", JStr (VpnNodes.WireGuardServerPubKey n));
    ("openvpn_endpoint", JStr (VpnNodes.OpenVPNEndpoint n)); ("xray_endpoint", JStr (VpnNodes.XrayEndpoint n));
    ("is_default", JBool (VpnNodes.IsDefault n))] ++ omit_empty "ping_url" (VpnNodes.PingURL n)).

Definition config_json (c : Vpn.MyConfigInfo) : json := JObj
  ([("device_id", JStr (Vpn.MDevice c)); ("protocol", JStr (Vpn.MProtocol c))] ++
   omit_empty "node_name" (Vpn.MNodeName c) ++ [("created_at", JStr (format_nano (Vpn.MCreatedAt c)))] ++
   match Vpn.MExpiresAt c with Some t => [("expires_at", JStr (format_nano t))] | None => [] end ++
   [("is_expired", JBool (Vpn.MIsExpired c)); ("traffic_rx_bytes", JInt (Vpn.MTrafficRx c));
    ("traffic_tx_bytes", JInt (Vpn.MTrafficTx c))] ++ omit_zero "traffic_limit_bytes" (Vpn.MTrafficLimit c)).

Definition listProtocols : Reply :=
  writeJSON 200 (JObj [("protocols", JArr (protocol_json <$> Vpn.ListProtocols (v_cfg h)))]).

Definition listNodes (by_name : list (Z * vpn_node_row) → list (Z * vpn_node_row)) : H Reply :=
  l ← or_reply internal (on_db (VpnNodes.ListNodes by_name));
  mret (writeJSON 200 (JObj [("nodes", JSlice (node_json <$> l))])).

(** [wg]: what [wg show] prints for an interface. *)
Definition myConfigs (wg : string → option string) (tick : nat → Z) c : H Reply :=
  l ← or_reply internal (on_db (Vpn.ListMyConfigs (WgStats.FetchWGStats (v_cfg h) wg) tick (getUserID c)));
  mret (writeJSON 200 (JObj [("configs", JSlice (config_json <$> l))])).

(** [answers]: whether each call of the Xray API succeeds. *)
Definition revoke (answers : nat → bool) c r : H Reply :=
  let dev := query "device_id" r in
  match uuid_parse (if String.eqb dev "" then getDeviceID c else dev) with
  | None => mret (bad "invalid device_id")
  | Some dev =>
    let protocol := query "protocol" r in
    _ ← require (negb (String.eqb protocol "")) (bad "protocol required");
    _ ← or_reply internal (on_vpn (Vpn.Revoke (v_api h) answers (getUserID c) dev protocol));
    mret (writeJSON 200 (JObj [("status", JStr "ok")]))
  end.

Definition vpn_error (e : VpnNodes.err) : Reply := writeError 400 "vpn_error" (err_text e).

Definition getConfig (answers : nat → bool) (wg : string → option string) (draw : option string)
    (fresh : Z) (tick : nat → Z) (dbnow : Z) c r : H Reply :=
  let protocol := params r "protocol" in
  _ ← require (negb (String.eqb protocol "")) (bad "protocol required");
  match uuid_parse (getDeviceID c) with
  | None => mret (bad "invalid device")
  | Some dev =>
    let node := query "node_id" r in
    let nodeID := if String.eqb node "" then None else uuid_parse node in
    out ← or_reply vpn_error (on_vpn (Vpn.GetConfig (v_cfg h) (v_api h) answers
             (WgStats.FetchWGStats (v_cfg h) wg) draw fresh tick dbnow protocol (getUserID c) dev nodeID));
    mret (if String.eqb (query "format" r) "json" then
            writeJSON 200 (JObj [("config", JStr out.1); ("filename", JStr out.2)])
          else mkReply 200 (Text out.1))
  end.

(** *** What the handlers leave *)
Lemma keeps_listNodes I by_name : keeps (of_db I) (listNodes by_name).
Proof. unfold listNodes, VpnNodes.ListNodes. keeps_h. Qed.

Lemma keeps_myConfigs I wg tick c : keeps (of_db I) (myConfigs wg tick c).
Proof. unfold myConfigs, Vpn.ListMyConfigs. keeps_h. Qed.

Lemma keeps_revoke d0 answers c r : keeps (of_db (Vpn.served d0)) (revoke answers c r).
Proof.
  unfold revoke. keeps_h. apply (Vpn.keeps_run_op (v_cfg h) (v_api h) answers None d0 (Vpn.OpRevoke _ _ _)).
Qed.

Lemma keeps_getConfig d0 answers wg draw fresh tick dbnow c r :
  keeps (of_db (Vpn.served d0)) (getConfig answers wg draw fresh tick dbnow c r).
Proof. unfold getConfig. keeps_h. apply Vpn.keeps_GetConfig. Qed.
End handlers.

(** ** The traffic limit *)
Import WgStats.

Lemma recorded_other ps m key :
  key ∉ sh_key <$> ps → foldl recorded m ps !! key = m !! key.
Proof.
  revert m. induction ps as [|p ps IH]; intros m Hk; [done|]. cbn in Hk.
  apply not_elem_of_cons in Hk as [Hne Hk]. cbn [foldl]. rewrite IH by done.
  unfold recorded. destruct (sh_traffic p) as [[rx tx]|]; [|done]. by rewrite lookup_insert_ne.
Qed.

Lemma recorded_own ps m p rx tx :
  NoDup (sh_key <$> ps) → p ∈ ps → sh_traffic p = Some (rx, tx) →
  foldl recorded m ps !! sh_key p = Some (counted rx, counted tx).
Proof.
  intros Hnd Hp Ht. revert m. induction ps as [|q ps IH]; intros m; [by apply elem_of_nil in Hp|].
  cbn in Hnd. apply NoDup_cons in Hnd as [Hq Hnd]. cbn [foldl]. apply elem_of_cons in Hp as [->|Hp].
  - rewrite recorded_other by done. unfold recorded. by rewrite Ht, lookup_insert_eq.
  - by apply IH.
Qed.

Lemma counted_bounds a : amount_ok a → (0 ≤ counted a < 2 ^ 53)%Z.
Proof.
  assert (∀ h u, (0 ≤ h < 2 ^ 17)%Z → (0 < 2 ^ unit_log u ≤ 2 ^ 30)%Z →
    (0 ≤ amount_bytes (Units h u) < 2 ^ 53)%Z) as Hu.
  { intros h u Hh Hl. cbn [amount_bytes]. split; [apply Z.div_pos; nia|]. apply Z.div_lt_upper_bound; nia. }
  destruct a as [n|h []]; cbn [amount_ok counted]; intros Ha; [done|by apply Hu..|done].
Qed.

(** What the row of a peer and its printed traffic decide. *)
Lemma admitted_reported cfg wg header ps p rx tx (row : vpn_peer_row) now :
  Config.StatsInterface (Config.WireGuard cfg) ≠ "" →
  wg (Config.StatsInterface (Config.WireGuard cfg)) = Some (report header ps) →
  header ≠ [] → Forall (λ l, noise l = true) header → Forall shown_ok ps → NoDup (sh_key <$> ps) →
  p ∈ ps → sh_traffic p = Some (rx, tx) → vp_pubkey row = Some (sh_key p) →
  match vp_expires_at row with Some t => (t <? now)%Z | None => false end = false → (0 < vp_limit row)%Z →
  let used := (counted rx + counted tx)%Z in
  Vpn.admitted (FetchWGStats cfg wg) "wireguard" now (Some (Some row)) =
  if (vp_limit row <=? used)%Z then
    Err (VpnNodes.Failed ("traffic limit exceeded (" +:+ itoa used +:+ " bytes used, limit " +:+
                          itoa (vp_limit row) +:+ ")"))
  else Ok tt.
Proof.
  intros Hi Hwg Hh Hn Hps Hnd Hp Ht Hkey Hexp Hlim used.
  assert (FetchWGStats cfg wg = Some (foldl recorded ∅ ps)) as Hst.
  { unfold FetchWGStats. destruct (String.eqb_spec (Config.StatsInterface (Config.WireGuard cfg)) ""); [done|].
    rewrite Hwg. cbn. by rewrite parseWGShow_report. }
  pose proof (proj1 (Forall_forall _ _) Hps p Hp) as (_ & _ & _ & Hok).
  destruct (Hok rx tx Ht) as [Hrx%counted_bounds Htx%counted_bounds].
  unfold Vpn.admitted, Vpn.over_limit. rewrite Hexp, Hst, Hkey, (recorded_own ps ∅ p rx tx) by done.
  replace (0 <? vp_limit row)%Z with true by lia. cbn [andb String.eqb Ascii.eqb eqb mbind option_bind].
  cbn -[wrap64 Z.leb itoa counted]. rewrite wrap64_id by (unfold two63; lia).
  fold used. by destruct (vp_limit row <=? used)%Z.
Qed.

Section limit.
Context `{HU : GoUnicode, HC : VpnText.Curve25519, HT : Vpn.Calendar, HI : UuidLib, HP : PgText,
  !ErrText VpnNodes.err}.
Context (h : config).

Lemma query_then {A B} (f : DB → A) (k : option A → M Vpn.Vpn VpnNodes.err B) w n :
  (x ← Vpn.on_pool (Prelude.query f); k x) no_faults w n = k (Some (f (Vpn.v_db w))) no_faults w (S n).
Proof. by destruct w. Qed.

(** The statistics serve the limit only. *)
Lemma GetConfig_stats stats answers draw fresh tick dbnow protocol user dev node w n :
  Config.Enabled (v_cfg h) = true →
  let row := Some ((Vpn.v_db w).(vpn_peers) !! (user, dev, protocol)) in
  Vpn.admitted None protocol (tick 0) row = Ok tt →
  Vpn.GetConfig (v_cfg h) (v_api h) answers stats draw fresh tick dbnow protocol user dev node no_faults w n =
  match Vpn.admitted stats protocol (tick 0) row with
  | Err e => (Err e, w, S n)
  | Ok _ => Vpn.GetConfig (v_cfg h) (v_api h) answers None draw fresh tick dbnow protocol user dev node no_faults w n
  end.
Proof.
  intros Hen row Hnone. unfold Vpn.GetConfig. rewrite Hen. cbn [negb]. rewrite !query_then. cbv beta.
  fold row. rewrite Hnone. by destruct (Vpn.admitted stats protocol (tick 0) row) as [[]|e].
Qed.

(** C36: Let [wg] list peers with different keys, and print for the WireGuard
    peer of a device the traffic received and sent, each in bytes or with two
    decimals in KiB, MiB, GiB or TiB, with lines of other kinds around.  When
    that peer has a limit above zero and its configuration has not expired, the
    request for the configuration, served without a failing statement, is
    refused exactly when the two amounts reach the limit together, with both
    numbers in the message and nothing changed; below the limit the answer is
    the one without any report.  An amount in bytes, KiB, MiB or GiB counts
    with the whole bytes in it, and one in TiB counts as nothing, so that a
    limit of the peer no longer bounds the traffic that is printed so. *)
Theorem traffic_limit header ps p rx tx (row : vpn_peer_row) wg answers draw fresh
    (tick : nat → Z) dbnow c r dev w :
  let cfg := v_cfg h in
  Config.Enabled cfg = true → Config.StatsInterface (Config.WireGuard cfg) ≠ "" →
  wg (Config.StatsInterface (Config.WireGuard cfg)) = Some (report header ps) →
  header ≠ [] → Forall (λ l, noise l = true) header → Forall shown_ok ps → NoDup (sh_key <$> ps) →
  p ∈ ps → sh_traffic p = Some (rx, tx) →
  params r "protocol" = "wireguard" → uuid_parse (getDeviceID c) = Some dev →
  (w_db w).(vpn_peers) !! (getUserID c, dev, "wireguard") = Some row →
  vp_pubkey row = Some (sh_key p) → (0 < vp_limit row)%Z →
  match vp_expires_at row with Some t => (t <? tick 0%nat)%Z | None => false end = false →
  let used := (counted rx + counted tx)%Z in
  serve api_recovered no_faults (getConfig h answers wg draw fresh tick dbnow c r) w =
  if (vp_limit row <=? used)%Z then
    (vpn_error (VpnNodes.Failed ("traffic limit exceeded (" +:+ itoa used +:+ " bytes used, limit " +:+
                                 itoa (vp_limit row) +:+ ")")), w)
  else serve api_recovered no_faults (getConfig h answers (λ _, None) draw fresh tick dbnow c r) w.
Proof.
  intros cfg Hen Hi Hwg Hh Hn Hps Hnd Hp Ht Hproto Hdev Hrow Hkey Hlim Hexp used.
  assert (FetchWGStats cfg (λ _, None) = None) as Hno by (unfold FetchWGStats; destruct (String.eqb _ _); reflexivity).
  pose proof (admitted_reported cfg wg header ps p rx tx row (tick 0)) as Had. cbv zeta in Had.
  specialize (Had Hi Hwg Hh Hn Hps Hnd Hp Ht Hkey Hexp Hlim).
  assert (Vpn.admitted None "wireguard" (tick 0) (Some (Some row)) = Ok tt) as Hnone
    by (unfold Vpn.admitted, Vpn.over_limit; rewrite Hexp; reflexivity).
  unfold serve, getConfig. rewrite Hproto, Hdev. cbn [String.eqb negb require].
  unfold or_reply, on_vpn. fold cfg. rewrite Hno.
  unfold mbind, M_bind, mret, M_ret, raise. cbn beta iota.
  rewrite (GetConfig_stats (FetchWGStats cfg wg)); [|done|cbn [Vpn.v_db]; by rewrite Hrow].
  cbn [Vpn.v_db]. rewrite Hrow, Had. fold used. destruct (vp_limit row <=? used)%Z; [|done].
  by destruct w.
Qed.
End limit.

(** A limit that is reached, and one byte more. *)
Module Sample.
#[local] Existing Instances Vpn.Sample.a_curve Vpn.Sample.a_calendar.
#[local] Instance texts : ErrText VpnNodes.err :=
  λ e, match e with VpnNodes.Failed m => m | _ => "error" end.

Definition a_handler : config := mkConfig
  (Config.mkVPN true 30 "" (Config.mkWireGuard true "vpn.a.org:51820" "server" "10.66.66.0/24" "wg0")
     (Config.mkOpenVPN false "") (Config.mkXray false "" "" 0 0 0)) false.

Definition wg_says (iface : string) : option string := Some (report ["interface: wg0"; ""] two_peers).

Definition limited (limit : Z) : World := quiet_world "a.org" (Schema.with_vpn_peers
  {[ (1%Z, 3%Z, "wireguard") := VpnPeerRow (Some "BBBB=") (Some "10.66.66.2") 0 None limit None None None ]} Vpn.Sample.a_db).

Definition asking : Request := mkRequest
  {| r_method := "GET"; r_path := "/api/v1/vpn/config/wireguard"; r_rawquery := ""; r_headers := ∅; r_body := "" |}
  true "a.org" (λ k, if String.eqb k "protocol" then "wireguard" else "") 0 false.

Definition asked (wg : string → option string) (limit : Z) : Reply * World :=
  serve api_recovered no_faults (getConfig a_handler (λ _, true) wg (Some (pad32 "d")) 7 (λ _, 0%Z) 0
    (mkCtx 1 "3" None) asking) (limited limit).

Lemma traffic_limit_witness :
  asked wg_says 2622180 =
    (vpn_error (VpnNodes.Failed "traffic limit exceeded (2622180 bytes used, limit 2622180)"), limited 2622180) ∧
  asked wg_says 2622181 = asked (λ _, None) 2622181 ∧ status (asked wg_says 2622181).1 = 200%Z.
Proof.
  assert (Forall (λ l, noise l = true) ["interface: wg0"; ""]) as Hn by repeat constructor.
  assert (NoDup (sh_key <$> two_peers)) as Hnd by by apply (bool_decide_unpack _); vm_compute.
  assert (a_peer ∈ two_peers) as Hin by left.
  pose proof two_peers_ok as Hok.
  split; [|split; [|by vm_compute]].
  - by apply (traffic_limit a_handler ["interface: wg0"; ""] two_peers a_peer (Bytes 740) (Units 250 MiB)
      (VpnPeerRow (Some "BBBB=") (Some "10.66.66.2") 0 None 2622180 None None None) wg_says _ _ _ _ _ _ asking 3%Z).
  - by apply (traffic_limit a_handler ["interface: wg0"; ""] two_peers a_peer (Bytes 740) (Units 250 MiB)
      (VpnPeerRow (Some "BBBB=") (Some "10.66.66.2") 0 None 2622181 None None None) wg_says _ _ _ _ _ _ asking 3%Z).
Defined.

(** Above 1024 GiB a limit of 1000 bytes is not noticed. *)
Example tebibytes_not_counted :
  let wg (_ : string) := Some (report ["interface: wg0"; ""]
    [mkShown "BBBB=" [] (Some (Units 150 TiB, Bytes 0)) []]) in
  status (asked wg 1000).1 = 200%Z ∧ status (asked wg_says 1000).1 ≠ 200%Z.
Proof. by vm_compute. Qed.
End Sample.
End VpnHandler.
