(* ===== verification/PushHandler.v ===== *)
(** * Push subscriptions over HTTP ([server/internal/api/handlers_push.go]) *)

From Stdlib Require Import Ascii String.
From stdpp Require Import strings.
From S2P Require Import Prelude GoStrings Encoding Json Crypto Schema Samples Auth Stream Federation.
From S2P Require Import Push Api.
Set Default Goal Selector "!".
Open Scope stdpp_scope.

Module PushHandler.
Import Api.

Record config := mkConfig { vapid_public : string; vapid_private : string }.

Section handlers.
Context `{HU : GoUnicode, HI : UuidLib, !ErrText Push.err}.
Context (h : config).

Implicit Types (c : Ctx) (r : Request).

Definition enabled : bool := Push.Enabled (vapid_public h) (vapid_private h).

Definition ok_reply : Reply := writeJSON 200 (JObj [("status", JStr "ok")]).

Definition vapidPublic : Reply :=
  if enabled then writeJSON 200 (JObj [("public_key", JStr (vapid_public h))])
  else writeError 404 "not_available" "Push not configured".

Record subscribeRequest := mkSubscribe { sb_endpoint : string; sb_p256dh : string; sb_auth : string }.

Definition dec_subscribe : Dec subscribeRequest := dec_struct
  [("endpoint", at_field sb_endpoint (λ v q, mkSubscribe v (sb_p256dh q) (sb_auth q)) dec_string);
   ("keys", dec_struct
     [("p256dh", at_field sb_p256dh (λ v q, mkSubscribe (sb_endpoint q) v (sb_auth q)) dec_string);
      ("auth", at_field sb_auth (λ v q, mkSubscribe (sb_endpoint q) (sb_p256dh q) v) dec_string)])].

Definition subscribe c r : H Reply :=
  if negb enabled then mret ok_reply else
  q ← decoded_body dec_subscribe (mkSubscribe "" "" "") r;
  _ ← require (negb (String.eqb (sb_endpoint q) "" || String.eqb (sb_p256dh q) "" || String.eqb (sb_auth q) ""))
        (bad "endpoint and keys required");
  match uuid_parse (getDeviceID c) with
  | None => mret (bad "invalid device")
  | Some dev =>
    _ ← or_reply internal (on_db (Push.Subscribe (getUserID c) dev (sb_endpoint q) (sb_p256dh q) (sb_auth q)));
    mret ok_reply
  end.

(** The error of the service is dropped. *)
Definition unsubscribe r : H Reply :=
  endpoint ← decoded_body (dec_struct [("endpoint", dec_string)]) "" r;
  _ ← (if String.eqb endpoint "" then mret tt else _ ← on_db (Push.Unsubscribe endpoint); mret tt);
  mret ok_reply.

(** *** What the handlers leave *)
Lemma keeps_subscribe I c r :
  (∀ e p d d', I d → Push.upsert_push e p d = Some d' → I d') → keeps (of_db I) (subscribe c r).
Proof. intros Hs. unfold subscribe, Push.Subscribe. keeps_h. by eapply Hs. Qed.

Lemma keeps_unsubscribe I r :
  (∀ e d, I d → I (Push.delete_push e d)) → keeps (of_db I) (unsubscribe r).
Proof. intros Hs. unfold unsubscribe, Push.Unsubscribe. keeps_h. simplify_eq. by apply Hs. Qed.
End handlers.
End PushHandler.
