(* ===== verification/MediaHandler.v ===== *)
(** * Media over HTTP ([server/internal/api/handlers_media.go]) *)

From Stdlib Require Import Ascii String.
From stdpp Require Import strings.
From S2P Require Import Prelude GoStrings Encoding Json Crypto Schema Samples Auth Stream Federation.
From S2P Require Import Media Api.
Set Default Goal Selector "!".
Open Scope stdpp_scope.

Module MediaHandler.
Import Api.

(** An empty part is 0. *)
Definition range_part (s : string) : option Z :=
  if String.eqb s "" then Some 0%Z else parse_int64 s.

(** Offset and length, which is 0 when the range is open. *)
Definition parseRange `{GoUnicode} (s : string) : option (Z * Z) :=
  let s := trim_space s in
  if negb (has_prefix (to_lower s) "bytes=") then None else
  match splitn2 (sdrop 6 s) "-" with
  | [first; last] =>
    n ← range_part first; m ← range_part last;
    Some (n, if String.eqb last "" then 0%Z else wrap64 (m - n + 1))
  | _ => None
  end.

Section handlers.
Context `{HU : GoUnicode, HS : Sha256, HM : Media.Minio, !ErrText Media.err}.

Implicit Types (r : Request).

(** The body ends early when the client closes the connection. *)
Definition upload r : H Reply :=
  let size := content_length r in
  _ ← require (0 <? size)%Z (bad "Content-Length required");
  _ ← require (size <=? Media.maxFileSize)%Z (writeError 413 "file_too_large" "Max file size 100MB");
  uri ← or_reply (λ e, writeError 500 "upload_failed" (err_text e))
    (on_objects (Media.Upload (body r) (size <=? Z.of_nat (slen (body r)))%Z size));
  mret (writeJSON 201 (JObj [("content_uri", JStr uri)])).

(** The URI of a path, which may be escaped and may lack its prefix. *)
Definition content_uri (path : string) : string :=
  let uri := unescaped path in
  if has_prefix uri Media.uri_prefix then uri else Media.uri_prefix +:+ uri.

Definition not_found : Reply := writeError 404 "not_found" "File not found".

(** The reply, and its [Content-Range]. *)
Definition download_range r : H (Reply * option string) :=
  let path := trim_prefix (params r "*") "/" in
  _ ← require (negb (String.eqb path "")) (bad "content_uri required");
  let range := parseRange (hdr "Range" r) in
  let '(offset, length) := default (0%Z, 0%Z) range in
  out ← or_reply (λ _, not_found) (on_objects (Media.Download (content_uri path) offset length));
  let '(data, info) := out in
  mret (match range with
        | Some _ =>
          if Media.IsRange info && (0 <? Media.TotalSize info)%Z then
            let last := if (length <=? 0)%Z then (Media.TotalSize info - 1)%Z else wrap64 (offset + length - 1) in
            (mkReply 206 (Text data),
             Some ("bytes " +:+ itoa offset +:+ "-" +:+ itoa last +:+ "/" +:+ itoa (Media.TotalSize info)))
          else (mkReply 200 (Text data), None)
        | None => (mkReply 200 (Text data), None)
        end).

Definition download r : H Reply := out ← download_range r; mret out.1.

(** ** Properties *)
Lemma keeps_upload (I : World → Prop) r :
  (∀ w o, I w → I (with_objects o w)) → keeps I (upload r).
Proof. intros HI. unfold upload. keeps_h; by apply keeps_on_objects. Qed.

Lemma keeps_download (I : World → Prop) r :
  (∀ w o, I w → I (with_objects o w)) → keeps I (download r).
Proof. intros HI. unfold download, download_range. keeps_h; by apply keeps_on_objects. Qed.

Lemma with_objects_same w : with_objects (w_objects w) w = w.
Proof. by destruct w. Qed.

Lemma wp_on_objects {E A} F (m : M (gmap string string) E A) (Q : result exit (result E A) → World → Prop) w :
  wp F m (λ out o, Q (Ok out) (with_objects o w)) (w_objects w) → wp F (on_objects m) Q w.
Proof. intros Hm n. specialize (Hm n). unfold on_objects. by destruct (m F _ n) as [[out o] n']. Qed.

(** A request for the [length] bytes of a file from [offset] on is answered
    206 with a [Content-Range] of just these bytes; the body has the bytes from
    [offset] to [length], both included, so it is the range announced only
    when [offset] is 1. *)
Theorem download_range_reply `{!Media.MinioLaws} r key data offset length w res w' :
  slen key = 64 → is_Some (hex_decode key) → w_objects w !! key = Some data →
  params r "*" = Media.uri_prefix +:+ key → unescaped (params r "*") = params r "*" →
  parseRange (hdr "Range" r) = Some (offset, length) →
  (0 ≤ offset ≤ length)%Z → (0 < length < Z.of_nat (slen data))%Z → (offset + length - 1 < two63)%Z →
  Exec no_faults (download_range r) w res w' →
  w' = w ∧
  res = Ok (mkReply 206 (Text (stake (Z.to_nat (length - offset + 1)) (sdrop (Z.to_nat offset) data))),
            Some ("bytes " +:+ itoa offset +:+ "-" +:+ itoa (offset + length - 1) +:+ "/" +:+
                  itoa (Z.of_nat (slen data)))).
Proof.
  intros Hl Hx Hk Hp Hu Hr Ho Hlen Hmax. apply (wp_Exec _ _ (λ res w', w' = w ∧ res = _)).
  unfold download_range. rewrite Hr. cbn [default].
  assert (trim_prefix (params r "*") "/" = params r "*") as -> by by rewrite Hp.
  assert (content_uri (params r "*") = Media.uri_prefix +:+ key) as ->.
  { unfold content_uri. rewrite Hu, Hp, has_prefix_app. done. }
  rewrite Hp. apply wp_bind, wp_ret, wp_bind, wp_or_reply, wp_on_objects.
  eapply wp_mono; [by apply (Media.wp_Download_range key data)|]. intros out o [-> ->].
  rewrite with_objects_same. apply wp_ret. cbn [fst snd Media.IsRange Media.TotalSize andb].
  rewrite (proj2 (Z.ltb_lt _ _)) by lia. rewrite (proj2 (Z.leb_gt _ _)) by lia.
  rewrite wrap64_id by (unfold two63 in *; lia). done.
Qed.
End handlers.

Module Sample.
Import Media.Sample.
#[local] Existing Instances toy_sha256 a_minio a_minio_laws.
#[local] Instance media_errors : ErrText Media.err := λ _, "error".

Definition a_key : string := Media.hash_of "0123456789".

Definition a_request : Request := mkRequest
  {| r_method := "GET"; r_path := ""; r_rawquery := ""; r_headers := {[ "Range" := "bytes=2-5" ]}; r_body := "" |}
  true "a.org" (λ _, Media.uri_prefix +:+ a_key) 0 false.

Definition a_world : World := with_objects {[ a_key := "0123456789" ]} (quiet_world "a.org" empty_db).

(** Bytes 2 to 5 are asked for and announced, and 2 to 4 are sent. *)
Lemma download_range_reply_witness :
  let out := download_range a_request no_faults a_world 0 in
  out.1.1 = Ok (mkReply 206 (Text "234"), Some "bytes 2-5/10").
Proof.
  intros out. assert (Exec no_faults (download_range a_request) a_world out.1.1 out.1.2) as He by apply Exec_first.
  destruct (download_range_reply a_request a_key "0123456789" 2 4 a_world _ _ ltac:(by vm_compute)
    ltac:(by eexists) ltac:(by apply lookup_singleton_eq) eq_refl ltac:(by vm_compute) ltac:(by vm_compute)
    ltac:(lia) ltac:(by vm_compute) ltac:(by vm_compute) He) as [_ Hr].
  exact Hr.
Defined.
End Sample.
End MediaHandler.
