(* ===== verification/Routes.v ===== *)
(** * The table of routes ([server/internal/api/router.go])

    Methods, patterns, middleware and limits of the routes, and the CORS
    options.  Matching a request against the patterns is chi's. *)

From Stdlib Require Import Ascii String.
From stdpp Require Import strings.
From S2P Require Import Prelude GoStrings Encoding Api RoomsHandler.
Set Default Goal Selector "!".
Open Scope stdpp_scope.

Module Routes.

(** The routes of [NewRouter] but health and metrics. *)
Inductive route :=
| WellKnown | FederationServers | FedKeys | FedDevices | FedRegister | FedVerify | FedLookup
| FedTransaction
| Stats | RegisterUser | Login | Stream_
| WsToken | Logout | ListDevices | RenameDevice | RevokeDevice
| KeysStatus | UpdateKeys | BundleForUser | BundleFor | DevicesForUser | SearchUsers
| SendMessage | Typing | Read | SyncMessages
| Rooms_ (k : RoomsHandler.route)
| BackupPrepare | BackupSalt | KeysSync
| MediaUpload | MediaDownload
| VpnProtocols | VpnNodes_ | VpnMyConfigs | VpnRevoke | VpnConfig
| VapidPublic | PushSubscribe | PushUnsubscribe.

(** Method and pattern. *)
Definition rooms_pattern (k : RoomsHandler.route) : string * string :=
  match k with
  | RoomsHandler.RCreate => ("POST", "/rooms")
  | RoomsHandler.RList => ("GET", "/rooms")
  | RoomsHandler.RGet => ("GET", "/rooms/{roomID}")
  | RoomsHandler.RInvite => ("POST", "/rooms/{roomID}/invite")
  | RoomsHandler.RLeave => ("POST", "/rooms/{roomID}/leave")
  | RoomsHandler.RTransfer => ("POST", "/rooms/{roomID}/transfer")
  | RoomsHandler.RRemove => ("POST", "/rooms/{roomID}/remove")
  | RoomsHandler.RMembers => ("GET", "/rooms/{roomID}/members")
  end.

Definition federation_prefix : string := "/federation/v1".
Definition api_prefix : string := "/api/v1".

Definition local_pattern (k : route) : string * (string * string) :=
  match k with
  | WellKnown => ("", ("GET", "/.well-known/federation"))
  | FederationServers => ("", ("GET", "/.well-known/federation-servers"))
  | FedKeys => (federation_prefix, ("GET", "/keys/bundle/{userID}/{deviceID}"))
  | FedDevices => (federation_prefix, ("GET", "/keys/devices/{userID}"))
  | FedRegister => (federation_prefix, ("POST", "/register"))
  | FedVerify => (federation_prefix, ("POST", "/auth/verify"))
  | FedLookup => (federation_prefix, ("GET", "/users/lookup"))
  | FedTransaction => (federation_prefix, ("POST", "/transaction"))
  | Stats => (api_prefix, ("GET", "/stats"))
  | RegisterUser => (api_prefix, ("POST", "/auth/register"))
  | Login => (api_prefix, ("POST", "/auth/login"))
  | Stream_ => (api_prefix, ("GET", "/messages/stream"))
  | WsToken => (api_prefix, ("POST", "/auth/ws-token"))
  | Logout => (api_prefix, ("POST", "/auth/logout"))
  | ListDevices => (api_prefix, ("GET", "/auth/devices"))
  | RenameDevice => (api_prefix, ("PATCH", "/auth/devices/{deviceID}"))
  | RevokeDevice => (api_prefix, ("POST", "/auth/devices/{deviceID}/revoke"))
  | KeysStatus => (api_prefix, ("GET", "/auth/keys/status"))
  | UpdateKeys => (api_prefix, ("PUT", "/auth/keys"))
  | BundleForUser => (api_prefix, ("GET", "/keys/bundle/{userID}"))
  | BundleFor => (api_prefix, ("GET", "/keys/bundle/{userID}/{deviceID}"))
  | DevicesForUser => (api_prefix, ("GET", "/keys/devices/{userID}"))
  | SearchUsers => (api_prefix, ("GET", "/users/search"))
  | SendMessage => (api_prefix, ("POST", "/messages/send"))
  | Typing => (api_prefix, ("POST", "/messages/typing"))
  | Read => (api_prefix, ("POST", "/messages/read"))
  | SyncMessages => (api_prefix, ("GET", "/messages/sync"))
  | Rooms_ k => (api_prefix, rooms_pattern k)
  | MediaUpload => (api_prefix, ("POST", "/media/upload"))
  | MediaDownload => (api_prefix, ("GET", "/media/*"))
  | VpnProtocols => (api_prefix, ("GET", "/vpn/protocols"))
  | VpnNodes_ => (api_prefix, ("GET", "/vpn/nodes"))
  | VpnMyConfigs => (api_prefix, ("GET", "/vpn/my-configs"))
  | VpnRevoke => (api_prefix, ("POST", "/vpn/revoke"))
  | VpnConfig => (api_prefix, ("GET", "/vpn/config/{protocol}"))
  | BackupPrepare => (api_prefix, ("POST", "/backup/prepare"))
  | BackupSalt => (api_prefix, ("GET", "/backup/salt"))
  | KeysSync => (api_prefix, ("POST", "/keys/sync"))
  | VapidPublic => (api_prefix, ("GET", "/push/vapid-public"))
  | PushSubscribe => (api_prefix, ("POST", "/push/subscribe"))
  | PushUnsubscribe => (api_prefix, ("POST", "/push/unsubscribe"))
  end.

Definition method (k : route) : string := (local_pattern k).2.1.
Definition pattern (k : route) : string := (local_pattern k).1 +:+ (local_pattern k).2.2.

(** [r.Use(AuthMiddleware(authSvc)); r.Use(ProxyForwardMiddleware())] *)
Definition protected (k : route) : bool :=
  match k with
  | WellKnown | FederationServers | FedKeys | FedDevices | FedRegister | FedVerify | FedLookup
  | FedTransaction | Stats | RegisterUser | Login | Stream_ => false
  | _ => true
  end.

(** Requests per minute, and what they are counted by. *)
Inductive limited_by := ByIP (n : Z) | ByUser (n : Z) | ByOrigin (n : Z).

Definition limit (fedRateLimit : Z) (k : route) : option limited_by :=
  match k with
  | FedDevices | FedRegister | FedLookup => Some (ByIP 60)
  | FedVerify | Stats => Some (ByIP 30)
  | FedTransaction => Some (ByOrigin (if (fedRateLimit <=? 0)%Z then 100 else fedRateLimit))
  | RegisterUser => Some (ByIP 5)
  | Login => Some (ByIP 10)
  | KeysStatus | DevicesForUser | SearchUsers | SendMessage => Some (ByUser 60)
  | UpdateKeys => Some (ByUser 20)
  | BundleForUser | BundleFor => Some (ByUser 120)
  | BackupPrepare | KeysSync => Some (ByUser 10)
  | BackupSalt => Some (ByUser 30)
  | _ => None
  end.

(** Routes behind [LimitByIP] or [LimitByUser]. *)
Definition limited_route (k : route) : bool :=
  match limit 0 k with Some (ByIP _) | Some (ByUser _) => true | _ => false end.

(** ** CORS *)
Record Options := mkOptions {
  AllowedOrigins : list string;
  AllowedMethods : list string;
  AllowedHeaders : list string;
  ExposedHeaders : list string;
  AllowCredentials : bool;
  MaxAge : Z;
}.

Definition corsForDomain (domain : string) : Options := mkOptions
  (["http://localhost:3000"; "http://127.0.0.1:3000"] ++
   (if negb (String.eqb domain "") && negb (String.eqb domain "localhost") then
      ["http://" +:+ domain; "https://" +:+ domain] else []))
  ["GET"; "POST"; "PUT"; "DELETE"; "OPTIONS"]
  ["Accept"; "Authorization"; "Content-Type"; "X-Protocol-Version"; "X-Idempotency-Key"]
  ["Link"] true 300.

(** ** Properties *)
Definition all_routes : list route :=
  [WellKnown; FederationServers; FedKeys; FedDevices; FedRegister; FedVerify; FedLookup; FedTransaction;
   Stats; RegisterUser; Login; Stream_; WsToken; Logout; ListDevices; RenameDevice; RevokeDevice;
   KeysStatus; UpdateKeys; BundleForUser; BundleFor; DevicesForUser; SearchUsers;
   SendMessage; Typing; Read; SyncMessages] ++
  (Rooms_ <$> [RoomsHandler.RCreate; RoomsHandler.RList; RoomsHandler.RGet; RoomsHandler.RInvite;
               RoomsHandler.RLeave; RoomsHandler.RMembers; RoomsHandler.RTransfer; RoomsHandler.RRemove]) ++
  [BackupPrepare; BackupSalt; KeysSync; MediaUpload; MediaDownload; VpnProtocols; VpnNodes_; VpnMyConfigs;
   VpnRevoke; VpnConfig; VapidPublic; PushSubscribe; PushUnsubscribe].

Lemma all_routes_all k : k ∈ all_routes.
Proof. unfold all_routes. destruct k as [| | | | | | | | | | | | | | | | | | | | | | | | | | |[]| | | | | | | | | | | | |]; set_solver. Qed.

(** No two routes have the same method and pattern. *)
Lemma patterns_distinct : NoDup ((λ k, (method k, pattern k)) <$> all_routes).
Proof. apply (bool_decide_unpack _). by vm_compute. Qed.

Lemma pattern_inj k k' : method k = method k' → pattern k = pattern k' → k = k'.
Proof.
  intros Hm Hp. destruct (list_elem_of_lookup_1 _ _ (all_routes_all k)) as [i Hi].
  destruct (list_elem_of_lookup_1 _ _ (all_routes_all k')) as [j Hj].
  assert (i = j) as ->; [|congruence].
  eapply (NoDup_lookup _ _ _ _ patterns_distinct); rewrite list_lookup_fmap.
  - by rewrite Hi.
  - by rewrite Hj, Hm, Hp.
Qed.

(** The protected routes are those of clients. *)
Lemma protected_api k : protected k = true → (local_pattern k).1 = api_prefix.
Proof. by destruct k. Qed.

(** A browser on another origin can use every route but the renaming of
    devices. *)
Lemma cors_methods domain k : method k ∈ AllowedMethods (corsForDomain domain) ↔ k ≠ RenameDevice.
Proof.
  unfold corsForDomain. cbn [AllowedMethods].
  destruct k as [| | | | | | | | | | | | | | | | | | | | | | | | | | |[]| | | | | | | | | | | | |]; cbn [method local_pattern rooms_pattern fst snd]; set_solver.
Qed.
End Routes.
