(* ===== verification/Server.v ===== *)
(** * The server ([server/internal/api/router.go], [server/cmd/server/main.go])

    All routes with their middleware, sockets, the steps of the hub and the
    periodic cleanup, as one transition system; what holds in every state it
    reaches: the invariants of all services on the one database they share,
    and those of the hub. *)

From Stdlib Require Import Ascii String.
From stdpp Require Import strings.
From S2P Require Import Prelude GoStrings Encoding Json Wire Crypto Schema Samples Dbenc Keydir Auth.
From S2P Require Import RoomChecker Rooms Relay Stream Federation Api FedHandler Peers AuthHandler.
From S2P Require Import Config VpnText VpnNodes Vpn Push Media Invariant Backup Sockets RoomsHandler MsgHandler.
From S2P Require Import VpnHandler PushHandler MediaHandler Routes.
Set Default Goal Selector "!".
Open Scope stdpp_scope.

Module Server.
Import Api Invariant Routes.

(** ** The server *)

(** What [main.go] configures. *)
Record settings := mkSettings {
  s_domain : string;
  s_jwt : string;
  s_enc : Dbenc.Cipher;
  s_keys : S2S.ServerKeys;
  s_maxBody : Z;
  s_mainOnly : string;
  s_webhook : string;
  s_push : PushHandler.config;
  s_vpn : VpnHandler.config;
  s_strict : bool;
  s_peers : list string;
  s_hub : string;
}.

(** The handlers [NewRouter] builds. *)
Definition fedH (s : settings) : FedHandler.federationHandler :=
  FedHandler.mkHandler (s_keys s) (s_domain s) (s_maxBody s) (s_mainOnly s) (s_webhook s).
Definition relayH (s : settings) : MsgHandler.config :=
  MsgHandler.mkConfig (s_domain s) (PushHandler.enabled (s_push s)) (s_strict s).
Definition usersH (s : settings) : Peers.config := Peers.mkConfig (s_domain s) (s_peers s) (s_hub s).

(** What a request meets besides its own content: readings of the clock,
    random draws, the orders of maps and of the database, the outcome of file
    and socket operations, and whether its rate limit is exceeded. *)
Record Draws := mkDraws {
  dr_tick : nat → Z;
  dr_clock : nat → nat → Z;
  dr_uuid : nat → Z;
  dr_slots : Auth.slot → option string;
  dr_keys : nat → option string;
  dr_bytes : option string;
  dr_nonce : option string;
  dr_salt : string;
  dr_order : gset string → list string;
  dr_by_name : list user_row → list user_row;
  dr_by_domain : list string → list string;
  dr_minutes : Z → string;
  dr_list : FedHandler.ListFile;
  dr_upgrade : option Reply;
  dr_client : nat;
  dr_map : nat;
  dr_limited : bool;
  dr_nodes : list (Z * vpn_node_row) → list (Z * vpn_node_row);
  dr_answers : nat → bool;
  dr_wg : string → option string;
}.

Section server.
Context `{HU : GoUnicode, HN : GoNet, HS : Sha256, HE : Ed25519, HH : S2S.Http, HUu : UuidLib,
  HP : PgText, HAe : Aead, HB : Bcrypt, HJw : Jwt, HL : Peers.PgLike,
  HC : VpnText.Curve25519, HT : Vpn.Calendar, HM : Media.Minio}.
Context `{!ErrText S2S.cerr, !ErrText Auth.err, !ErrText Keydir.err, !ErrText Relay.err,
  !ErrText Rooms.err, !ErrText VpnNodes.err, !ErrText Push.err, !ErrText Media.err}.
Context (s : settings).

Implicit Types (k : route) (x : Draws) (r : Request) (c : Ctx).

(** The handlers of the routes that need no token. *)
Definition public k x r : H Reply :=
  let t := dr_tick x in
  match k with
  | WellKnown => FedHandler.wellKnown (fedH s) r
  | FederationServers => FedHandler.federationServers (fedH s) (dr_by_domain x)
  | FedKeys => FedHandler.getKeys (fedH s) (s_enc s) t r
  | FedDevices => FedHandler.getDevices (fedH s) r
  | FedRegister => FedHandler.register (fedH s) t r
  | FedVerify => FedHandler.authVerify (fedH s) (s_jwt s) (s_enc s) (dr_slots x) (dr_uuid x 0) t r
  | FedLookup => FedHandler.usersLookup (fedH s) t r
  | FedTransaction => FedHandler.transaction (fedH s) (dr_list x) t r
  | Stats => Peers.stats
  | RegisterUser => AuthHandler.register (usersH s) (s_jwt s) (s_enc s) (dr_slots x) (dr_salt x)
                      (dr_uuid x 0) t r
  | Login => AuthHandler.login (usersH s) (s_jwt s) (s_enc s) (dr_slots x) (dr_uuid x 0) (dr_bytes x)
               (dr_order x) t (dr_clock x) r
  | Stream_ => Sockets.serveWs (s_domain s) (s_jwt s) (t 0%nat) (dr_upgrade x) (dr_client x) (dr_map x) r
  | _ => mret (mkReply 404 (Text "404 page not found"))
  end.

(** The handlers behind the middleware. *)
Definition private k x c r : H Reply :=
  let t := dr_tick x in
  match k with
  | WsToken => AuthHandler.wsToken (usersH s) (s_jwt s) t c
  | Logout => AuthHandler.logout (usersH s) (s_jwt s) t r
  | ListDevices => AuthHandler.listDevices (dr_minutes x) c
  | RenameDevice => AuthHandler.renameDevice t c r
  | RevokeDevice => AuthHandler.revokeDevice t c r
  | KeysStatus => MsgHandler.keysStatus c
  | UpdateKeys => MsgHandler.updateKeys (s_enc s) (dr_keys x) t c r
  | BundleForUser => MsgHandler.getBundleForUser (relayH s) (s_enc s) t r
  | BundleFor => MsgHandler.getBundle (relayH s) (s_enc s) t r
  | DevicesForUser => MsgHandler.listDevicesForUser (relayH s) t r
  | SearchUsers => Peers.search (usersH s) (dr_by_name x) (dr_order x) t (dr_clock x) r
  | SendMessage => MsgHandler.send (relayH s) (dr_uuid x 0) (dr_uuid x 1) t c r
  | Typing => MsgHandler.typing (relayH s) c r
  | Read => MsgHandler.read (relayH s) t c r
  | SyncMessages => MsgHandler.sync (relayH s) c r
  | Rooms_ k => RoomsHandler.run (s_domain s) k (dr_uuid x 0) (t 0%nat) c r
  | BackupPrepare => Backup.prepare (s_enc s) (dr_bytes x) (dr_nonce x) c
  | BackupSalt => Backup.getSalt (s_enc s) c
  | KeysSync => Backup.syncKeys (s_enc s) (dr_slots x) c r
  | MediaUpload => MediaHandler.upload r
  | MediaDownload => MediaHandler.download r
  | VpnProtocols => mret (VpnHandler.listProtocols (s_vpn s))
  | VpnNodes_ => VpnHandler.listNodes (dr_nodes x)
  | VpnMyConfigs => VpnHandler.myConfigs (s_vpn s) (dr_wg x) t c
  | VpnRevoke => VpnHandler.revoke (s_vpn s) (dr_answers x) c r
  | VpnConfig => VpnHandler.getConfig (s_vpn s) (dr_answers x) (dr_wg x) (dr_bytes x) (dr_uuid x 0) t
                   (dr_clock x 0 0) c r
  | VapidPublic => mret (PushHandler.vapidPublic (s_push s))
  | PushSubscribe => PushHandler.subscribe (s_push s) c r
  | PushUnsubscribe => PushHandler.unsubscribe r
  | _ => mret (mkReply 404 (Text "404 page not found"))
  end.

(** A request that has been routed: the rate limit, the middleware of the
    route and its handler. *)
Definition handle k x r : H Reply :=
  let over := dr_limited x in
  if protected k then
    authenticated (s_domain s) (s_jwt s) (dr_clock x 0 0) (dr_clock x 0 1) (λ c,
      if limited_route k && over then mret limited_reply else private k x c r) r
  else match k with
       | FedTransaction => if over then federation_limited (s_webhook s) r else public k x r
       | _ => if limited_route k && over then mret limited_reply else public k x r
       end.

(** The periodic cleanup. *)
Definition cleanup (tick : nat → Z) : H unit :=
  _ ← on_db (Auth.CleanupExpiredTokens (tick 0%nat));
  _ ← on_db (Keydir.CleanupOldConsumedPrekeys (tick 1%nat));
  mret tt.
End server.

(** ** Every handler keeps the invariant of the database *)
Section database.
Context `{HU : GoUnicode, HN : GoNet, HS : Sha256, HE : Ed25519, HH : S2S.Http, HUu : UuidLib,
  HP : PgText, HAe : Aead, HB : Bcrypt, HJw : Jwt, HL : Peers.PgLike,
  HC : VpnText.Curve25519, HT : Vpn.Calendar, HM : Media.Minio}.
Context `{!ErrText S2S.cerr, !ErrText Auth.err, !ErrText Keydir.err, !ErrText Relay.err,
  !ErrText Rooms.err, !ErrText VpnNodes.err, !ErrText Push.err, !ErrText Media.err}.
Context (s : settings).

Abbreviation inv := server_inv.

Lemma keeps_auth dom jwt enc o : keeps inv (Auth.run_op dom jwt enc o).
Proof.
  intros F d Hd. eapply wp_mono; [eapply (Auth.wp_reaches _ _ _ F o d); constructor|].
  intros res d' Hr. exact (server_inv_reaches _ _ _ _ Hr Hd).
Qed.

Lemma keeps_rooms dom o : keeps inv (Rooms.run_op dom o).
Proof.
  intros F d Hd. eapply wp_mono; [apply Rooms.run_op_granted|].
  intros res d' Hr. exact (server_inv_granted _ _ _ _ Hd Hr).
Qed.

Lemma keeps_relay dom o : keeps inv (Relay.run_op dom (Rooms.rooms_checker dom) o).
Proof.
  eapply (Relay.relay_keeps _ _ _ (RoomCheckerLaws0 := Rooms.rooms_checker_laws dom)).
  apply relay_statements.
Qed.

Lemma keeps_keydir dom enc o : keeps inv (Keydir.run_op dom enc o).
Proof. apply Keydir.keydir_keeps, keydir_statements. Qed.

(** *** The services, one operation each *)
Lemma keeps_Register dom jwt enc rand i salt jti t :
  keeps inv (Auth.Register dom jwt enc rand i salt jti t).
Proof. apply keeps_forget, (keeps_auth dom jwt enc (Auth.OpRegister rand i salt jti t)). Qed.
Lemma keeps_Login dom jwt enc rand i jti t : keeps inv (Auth.Login dom jwt enc rand i jti t).
Proof. apply keeps_forget, (keeps_auth dom jwt enc (Auth.OpLogin rand i jti t)). Qed.
Lemma keeps_RevokeToken dom jwt t tok : keeps inv (Auth.RevokeToken dom jwt t tok).
Proof. apply (keeps_auth dom jwt None (Auth.OpRevokeToken t tok)). Qed.
Lemma keeps_StoreBackup enc rand u sa bl : keeps inv (Auth.StoreKeyBackup enc rand u sa bl).
Proof. apply (keeps_auth "" "" enc (Auth.OpStoreKeyBackup rand u sa bl)). Qed.
Lemma keeps_RenameDevice u dev name t : keeps inv (Auth.RenameDevice u dev name t).
Proof. apply (keeps_auth "" "" None (Auth.OpRenameDevice u dev name t)). Qed.
Lemma keeps_RevokeDevice u dev t : keeps inv (Auth.RevokeDevice u dev t).
Proof. apply (keeps_auth "" "" None (Auth.OpRevokeDevice u dev t)). Qed.
Lemma keeps_CleanupTokens t : keeps inv (Auth.CleanupExpiredTokens t).
Proof. apply keeps_forget, (keeps_auth "" "" None (Auth.OpCleanup t)). Qed.
Lemma keeps_CreateProxy b hd ht u dev ttl t : keeps inv (Auth.CreateProxySession b hd ht u dev ttl t).
Proof. apply keeps_forget, (keeps_auth "" "" None (Auth.OpCreateProxy b hd ht u dev ttl t)). Qed.
Lemma keeps_GetProxy t tok : keeps inv (Auth.GetProxySessionByToken t tok).
Proof. apply keeps_forget, (keeps_auth "" "" None (Auth.OpGetProxy t tok)). Qed.
Lemma keeps_GetUsername dom u : keeps inv (Auth.GetUsername dom u).
Proof. unfold Auth.GetUsername. keeps_go. Qed.
Lemma keeps_AuthListDevices u dev : keeps inv (Auth.ListDevices u dev).
Proof. unfold Auth.ListDevices. keeps_go. Qed.

Lemma keeps_GetBundle dom enc u dev t : keeps inv (Keydir.GetBundle dom enc u dev t).
Proof. apply keeps_forget, (keeps_keydir dom enc (Keydir.OpGetBundle u dev t)). Qed.
Lemma keeps_GetBundleForUser enc u t : keeps inv (Keydir.GetBundleForUser enc u t).
Proof. apply keeps_forget, (keeps_keydir "" enc (Keydir.OpGetBundleForUser u t)). Qed.
Lemma keeps_UpdateKeys enc rand u dev spk sg id otks si t :
  keeps inv (Keydir.UpdateKeys enc rand u dev spk sg id otks si t).
Proof. apply (keeps_keydir "" enc (Keydir.OpUpdateKeys rand u dev spk sg id otks si t)). Qed.
Lemma keeps_CleanupPrekeys t : keeps inv (Keydir.CleanupOldConsumedPrekeys t).
Proof. apply keeps_forget, (keeps_keydir "" None (Keydir.OpCleanup t)). Qed.

Lemma keeps_Send dom fresh i t : keeps inv (Relay.Send dom (Some (Rooms.rooms_checker dom)) fresh i t).
Proof. apply keeps_forget, (keeps_relay dom (Relay.OpSend fresh i t)). Qed.
Lemma keeps_Accept evs t : keeps inv (Relay.AcceptTransaction evs t).
Proof. apply keeps_forget, (keeps_relay "" (Relay.OpAccept evs t)). Qed.
Lemma keeps_Sync dom u dev since l : keeps inv (Relay.Sync (Some (Rooms.rooms_checker dom)) u dev since l).
Proof. apply keeps_forget, (keeps_relay dom (Relay.OpSync u dev since l)). Qed.
Lemma keeps_MarkRead dom reader u t ids :
  keeps inv (Relay.MarkRead (Some (Rooms.rooms_checker dom)) reader u t ids).
Proof. apply keeps_forget, (keeps_relay dom (Relay.OpMarkRead reader u t ids)). Qed.

Lemma keeps_Create dom id name u t : keeps inv (Rooms.Create dom id name u t).
Proof. apply keeps_forget, (keeps_rooms dom (Rooms.OpCreate id name u t)). Qed.
Lemma keeps_Invite room u i t : keeps inv (Rooms.Invite room u i t).
Proof. apply (keeps_rooms "" (Rooms.OpInvite room u i t)). Qed.
Lemma keeps_Leave room u : keeps inv (Rooms.Leave room u).
Proof. apply (keeps_rooms "" (Rooms.OpLeave room u)). Qed.
Lemma keeps_Transfer room u t : keeps inv (Rooms.TransferCreator room u t).
Proof. apply (keeps_rooms "" (Rooms.OpTransfer room u t)). Qed.
Lemma keeps_Remove room u t : keeps inv (Rooms.Remove room u t).
Proof. apply (keeps_rooms "" (Rooms.OpRemove room u t)). Qed.
Lemma keeps_Get room u : keeps inv (Rooms.Get room u).
Proof. unfold Rooms.Get. keeps_go. Qed.
Lemma keeps_Members room u : keeps inv (Rooms.Members room u).
Proof. unfold Rooms.Members, Rooms.Get. keeps_go. Qed.
Lemma keeps_MemberAddresses room : keeps inv (Rooms.MemberAddresses room).
Proof. unfold Rooms.MemberAddresses. keeps_go. Qed.
Lemma keeps_RoomList u : keeps inv (Rooms.List_ u).
Proof. unfold Rooms.List_. keeps_go. Qed.
Lemma keeps_ResolveUserID dom name : keeps inv (Rooms.ResolveUserID dom name).
Proof. unfold Rooms.ResolveUserID. keeps_go. Qed.
End database.

#[export] Hint Resolve keeps_Register keeps_Login keeps_RevokeToken keeps_StoreBackup
  keeps_RenameDevice keeps_RevokeDevice keeps_CleanupTokens keeps_CreateProxy keeps_GetProxy
  keeps_GetUsername keeps_AuthListDevices keeps_GetBundle keeps_GetBundleForUser keeps_UpdateKeys
  keeps_CleanupPrekeys keeps_Send keeps_Accept keeps_Sync keeps_MarkRead keeps_Create keeps_Invite
  keeps_Leave keeps_Transfer keeps_Remove keeps_Get keeps_Members keeps_MemberAddresses keeps_RoomList
  keeps_ResolveUserID Auth.keeps_ValidateToken Auth.keeps_GetKeyBackup Keydir.keeps_ListDevicesForUser
  Keydir.keeps_GetKeyStatus : wp_db.

(** ** Every handler keeps the invariant of the database *)
Section handlers.
Context `{HU : GoUnicode, HN : GoNet, HS : Sha256, HE : Ed25519, HH : S2S.Http, HUu : UuidLib,
  HP : PgText, HAe : Aead, HB : Bcrypt, HJw : Jwt, HL : Peers.PgLike,
  HC : VpnText.Curve25519, HT : Vpn.Calendar, HM : Media.Minio}.
Context `{!ErrText S2S.cerr, !ErrText Auth.err, !ErrText Keydir.err, !ErrText Relay.err,
  !ErrText Rooms.err, !ErrText VpnNodes.err, !ErrText Push.err, !ErrText Media.err}.
Context (s : settings).

Abbreviation winv := (of_db server_inv).

Lemma keeps_rooms_routes k fresh now c r : keeps winv (RoomsHandler.run (s_domain s) k fresh now c r).
Proof.
  destruct k; cbn [RoomsHandler.run];
    unfold RoomsHandler.create, RoomsHandler.list, RoomsHandler.get, RoomsHandler.invite,
      RoomsHandler.leave, RoomsHandler.members, RoomsHandler.transferCreator,
      RoomsHandler.removeMember, RoomsHandler.room_param, RoomsHandler.target_user; keeps_h.
Qed.

Lemma keeps_send fresh txn t c r : keeps winv (MsgHandler.send (relayH s) fresh txn t c r).
Proof.
  unfold MsgHandler.send, MsgHandler.send_remote, MsgHandler.send_local, MsgHandler.push_message,
    MsgHandler.push_room, MsgHandler.NotifyNewMessage, MsgHandler.rooms_service. keeps_h; done.
Qed.

Lemma keeps_getFederationPeers cfg t : keeps winv (Peers.getFederationPeers cfg t).
Proof.
  unfold Peers.getFederationPeers, Peers.stored_peers, Peers.hub_peers, Peers.remember.
  keeps_h; try done. simplify_eq. by apply server_inv_peers.
Qed.
#[local] Hint Resolve keeps_rooms_routes keeps_send keeps_getFederationPeers : wp_db.

Lemma keeps_lookup_all clock q found i ps : keeps winv (Peers.lookup_all clock q found i ps).
Proof. revert found i. induction ps as [|p ps IH]; intros found i; cbn [Peers.lookup_all]; keeps_h; apply IH. Qed.

Lemma keeps_discover clock u i ps : keeps winv (AuthHandler.discover clock u i ps).
Proof. revert i. induction ps as [|p ps IH]; intros i; cbn [AuthHandler.discover]; keeps_h; apply IH. Qed.
#[local] Hint Resolve keeps_lookup_all keeps_discover : wp_db.

Lemma keeps_federated_login draw t q u dom : keeps winv (AuthHandler.federated_login draw t q u dom).
Proof. unfold AuthHandler.federated_login. keeps_h. Qed.
#[local] Hint Resolve keeps_federated_login : wp_db.

Lemma keeps_verify_origin o b r t : keeps winv (FedHandler.verify_origin o b r t).
Proof. unfold FedHandler.verify_origin. keeps_h. Qed.
#[local] Hint Resolve keeps_verify_origin : wp_db.

Lemma keeps_public k x r : keeps winv (public s k x r).
Proof.
  destruct k; cbn [public]; try solve [auto with wp_db].
  - unfold FedHandler.wellKnown. keeps_h.
  - unfold FedHandler.federationServers. keeps_h.
  - unfold FedHandler.getKeys. keeps_h.
  - unfold FedHandler.getDevices. keeps_h.
  - unfold FedHandler.register, FedHandler.require_origin. keeps_h. simplify_eq. by apply server_inv_peers.
  - unfold FedHandler.authVerify, FedHandler.require_origin, FedHandler.not_blocked. keeps_h.
  - unfold FedHandler.usersLookup, FedHandler.require_origin, FedHandler.not_blocked. keeps_h.
  - unfold FedHandler.transaction, FedHandler.check_transaction, FedHandler.require_origin,
      FedHandler.forward, FedHandler.accept. keeps_h; simplify_eq.
    + by apply server_inv_peers.
    + by destruct (Security.note_origin _ _ _ _).
  - unfold Peers.stats. keeps_h.
  - unfold AuthHandler.register. keeps_h.
  - unfold AuthHandler.login, AuthHandler.discovered_login. keeps_h.
  - unfold Sockets.serveWs. keeps_h.
Qed.

Lemma keeps_served (m : H Reply) :
  (∀ d0, keeps (of_db (Vpn.served d0)) m) → keeps winv m.
Proof.
  intros Hm F w Hw. assert (of_db (Vpn.served (w_db w)) w) as Hs.
  { destruct Hw as (_ & _ & _ & _ & Hv & _). by apply Vpn.served_refl. }
  eapply wp_mono; [apply (Hm (w_db w) F w Hs)|]. intros rep w' Hw'. by eapply server_inv_served.
Qed.

Lemma keeps_private k x c r : keeps winv (private s k x c r).
Proof.
  destruct k; cbn [private]; try solve [auto with wp_db].
  - unfold AuthHandler.wsToken, AuthHandler.caller. keeps_h.
  - unfold AuthHandler.logout. keeps_h.
  - unfold AuthHandler.listDevices, AuthHandler.caller. keeps_h.
  - unfold AuthHandler.renameDevice, AuthHandler.device_param. keeps_h.
  - unfold AuthHandler.revokeDevice, AuthHandler.device_param. keeps_h.
  - unfold MsgHandler.keysStatus, MsgHandler.own_device. keeps_h.
  - unfold MsgHandler.updateKeys, MsgHandler.own_device. keeps_h.
  - unfold MsgHandler.getBundleForUser, MsgHandler.remote_bundle, MsgHandler.relabelled. keeps_h.
  - unfold MsgHandler.getBundle, MsgHandler.remote_keys. keeps_h.
  - unfold MsgHandler.listDevicesForUser, MsgHandler.remote_devices. keeps_h.
  - unfold Peers.search, Peers.local_users. keeps_h.
  - unfold MsgHandler.typing, MsgHandler.own_address. keeps_h.
  - unfold MsgHandler.read, MsgHandler.own_address, MsgHandler.rooms_service. keeps_h.
  - unfold MsgHandler.sync, MsgHandler.rooms_service. keeps_h.
  - unfold Backup.prepare. keeps_h. by eapply server_inv_salt.
  - unfold Backup.getSalt. keeps_h.
  - unfold Backup.syncKeys. keeps_h.
  - by apply MediaHandler.keeps_upload.
  - by apply MediaHandler.keeps_download.
  - apply VpnHandler.keeps_listNodes.
  - apply VpnHandler.keeps_myConfigs.
  - apply keeps_served. intros d0. apply VpnHandler.keeps_revoke.
  - apply keeps_served. intros d0. apply VpnHandler.keeps_getConfig.
  - apply PushHandler.keeps_subscribe. intros e p d d' Hd Hu. eapply server_inv_push; [done| |].
    + unfold Push.upsert_push in Hu. repeat case_match; simplify_eq. by eexists.
    + intros Hp. by eapply Push.push_inv_upsert.
  - apply PushHandler.keeps_unsubscribe. intros e d Hd. eapply server_inv_push; [done|by eexists|].
    apply Push.push_inv_delete.
Qed.
#[local] Hint Resolve keeps_public keeps_private : wp_db.

Lemma keeps_handle k x r : keeps winv (handle s k x r).
Proof.
  unfold handle, authenticated, AuthMiddleware, ProxyForwardMiddleware, federation_limited.
  destruct (protected k); [keeps_h|]. destruct k; keeps_h.
Qed.

Lemma keeps_cleanup t : keeps winv (cleanup t).
Proof. unfold cleanup. keeps_h. Qed.
End handlers.

(** ** The hub *)
Section hub.
Context `{HU : GoUnicode, HN : GoNet, HS : Sha256, HE : Ed25519, HH : S2S.Http, HUu : UuidLib,
  HP : PgText, HAe : Aead, HB : Bcrypt, HJw : Jwt, HL : Peers.PgLike,
  HC : VpnText.Curve25519, HT : Vpn.Calendar, HM : Media.Minio}.
Context `{!ErrText S2S.cerr, !ErrText Auth.err, !ErrText Keydir.err, !ErrText Relay.err,
  !ErrText Rooms.err, !ErrText VpnNodes.err, !ErrText Push.err, !ErrText Media.err}.
Context (s : settings) (hub0 : Stream.Hub).

Abbreviation hinv := (of_hub (MsgHandler.from hub0)).

Lemma from_accepted evs acc hub :
  MsgHandler.from hub0 hub → MsgHandler.from hub0 (FedHandler.notify_accepted evs acc hub).
Proof. apply MsgHandler.from_foldl. intros hub1 ea. apply MsgHandler.hub_runs_notify. Qed.

Lemma keeps_hub_peers cfg t : keeps hinv (Peers.getFederationPeers cfg t).
Proof.
  unfold Peers.getFederationPeers, Peers.stored_peers, Peers.hub_peers, Peers.remember. keeps_h; done.
Qed.
#[local] Hint Resolve keeps_hub_peers : wp_db.

Lemma keeps_hub_lookup_all clock q found i ps : keeps hinv (Peers.lookup_all clock q found i ps).
Proof. revert found i. induction ps as [|p ps IH]; intros found i; cbn [Peers.lookup_all]; keeps_h; apply IH. Qed.

Lemma keeps_hub_discover clock u i ps : keeps hinv (AuthHandler.discover clock u i ps).
Proof. revert i. induction ps as [|p ps IH]; intros i; cbn [AuthHandler.discover]; keeps_h; apply IH. Qed.
#[local] Hint Resolve keeps_hub_lookup_all keeps_hub_discover : wp_db.

Lemma keeps_hub_public k x r : k ≠ Stream_ → keeps hinv (public s k x r).
Proof.
  intros Hk. destruct k; cbn [public]; try solve [auto with wp_db].
  - unfold FedHandler.wellKnown. keeps_h.
  - unfold FedHandler.federationServers. keeps_h.
  - unfold FedHandler.getKeys. keeps_h.
  - unfold FedHandler.getDevices. keeps_h.
  - unfold FedHandler.register, FedHandler.require_origin, FedHandler.verify_origin. keeps_h.
  - unfold FedHandler.authVerify, FedHandler.require_origin, FedHandler.not_blocked,
      FedHandler.verify_origin. keeps_h.
  - unfold FedHandler.usersLookup, FedHandler.require_origin, FedHandler.not_blocked,
      FedHandler.verify_origin. keeps_h.
  - unfold FedHandler.transaction, FedHandler.check_transaction, FedHandler.require_origin,
      FedHandler.verify_origin, FedHandler.forward, FedHandler.accept. keeps_h.
    + by destruct (Security.note_origin _ _ _ _).
    + by apply from_accepted.
  - unfold Peers.stats. keeps_h.
  - unfold AuthHandler.register. keeps_h.
  - unfold AuthHandler.login, AuthHandler.discovered_login, AuthHandler.federated_login. keeps_h.
  - done.
Qed.

Lemma keeps_hub_private k x c r : keeps hinv (private s k x c r).
Proof.
  destruct k; cbn [private]; try solve [auto with wp_db].
  - unfold AuthHandler.wsToken, AuthHandler.caller. keeps_h.
  - unfold AuthHandler.logout. keeps_h.
  - unfold AuthHandler.listDevices, AuthHandler.caller. keeps_h.
  - unfold AuthHandler.renameDevice, AuthHandler.device_param. keeps_h.
  - unfold AuthHandler.revokeDevice, AuthHandler.device_param. keeps_h.
  - unfold MsgHandler.keysStatus, MsgHandler.own_device. keeps_h.
  - unfold MsgHandler.updateKeys, MsgHandler.own_device. keeps_h.
  - unfold MsgHandler.getBundleForUser, MsgHandler.remote_bundle, MsgHandler.relabelled. keeps_h.
  - unfold MsgHandler.getBundle, MsgHandler.remote_keys. keeps_h.
  - unfold MsgHandler.listDevicesForUser, MsgHandler.remote_devices. keeps_h.
  - unfold Peers.search, Peers.local_users. keeps_h.
  - apply MsgHandler.keeps_hub_send.
  - apply MsgHandler.keeps_hub_typing.
  - apply MsgHandler.keeps_hub_read.
  - apply MsgHandler.keeps_hub_sync.
  - destruct k; cbn [RoomsHandler.run];
      unfold RoomsHandler.create, RoomsHandler.list, RoomsHandler.get, RoomsHandler.invite,
        RoomsHandler.leave, RoomsHandler.members, RoomsHandler.transferCreator,
        RoomsHandler.removeMember, RoomsHandler.room_param, RoomsHandler.target_user; keeps_h.
  - unfold Backup.prepare. keeps_h.
  - unfold Backup.getSalt. keeps_h.
  - unfold Backup.syncKeys. keeps_h.
  - by apply MediaHandler.keeps_upload.
  - by apply MediaHandler.keeps_download.
  - unfold VpnHandler.listNodes. keeps_h.
  - unfold VpnHandler.myConfigs. keeps_h.
  - unfold VpnHandler.revoke. keeps_h.
  - unfold VpnHandler.getConfig. keeps_h.
  - unfold PushHandler.subscribe. keeps_h.
  - unfold PushHandler.unsubscribe. keeps_h.
Qed.
#[local] Hint Resolve keeps_hub_private : wp_db.

Lemma keeps_hub_handle k x r : k ≠ Stream_ → keeps hinv (handle s k x r).
Proof.
  intros Hk. pose proof (keeps_hub_public k x r Hk) as Hpub.
  unfold handle, authenticated, AuthMiddleware, ProxyForwardMiddleware, federation_limited.
  destruct (protected k); [keeps_h|]. destruct k; keeps_h; done.
Qed.

Lemma keeps_hub_cleanup t : keeps hinv (cleanup t).
Proof. unfold cleanup. keeps_h. Qed.
End hub.

(** ** The server as a transition system *)

(** What the hub does by itself: [Run], the Redis subscriber, the writers of
    sockets, other nodes, and its end. *)
Definition background (l : Stream.label) : Prop :=
  match l with
  | Stream.LReceive _ | Stream.LSocket _ | Stream.LRun | Stream.LForeign _ | Stream.LClose => True
  | Stream.LVisit g _ | Stream.LDone g => g < 2
  | _ => False
  end.

Section system.
Context `{HU : GoUnicode, HN : GoNet, HS : Sha256, HE : Ed25519, HH : S2S.Http, HUu : UuidLib,
  HP : PgText, HAe : Aead, HB : Bcrypt, HJw : Jwt, HL : Peers.PgLike,
  HC : VpnText.Curve25519, HT : Vpn.Calendar, HM : Media.Minio}.
Context `{!ErrText S2S.cerr, !ErrText Auth.err, !ErrText Keydir.err, !ErrText Relay.err,
  !ErrText Rooms.err, !ErrText VpnNodes.err, !ErrText Push.err, !ErrText Media.err}.
Context (s : settings) (sealing : string → Z * Z → nat → option string).

(** A new socket has a client and a map of its own. *)
Definition new_socket (x : Draws) (w : World) : Prop :=
  Stream.conns (w_hub w) !! dr_client x = None ∧ Stream.heap (w_hub w) !! dr_map x = None.

(** The process as it starts on a database: [redis] when the hub has one. *)
Definition booted (redis : bool) (cl : S2S.Client) (sec : Security.SecurityService)
    (fs : Security.files) (bucket : gmap string string) (d : DB) : World :=
  mkWorld d (Stream.NewHubWithRedis redis) cl sec fs (mkCache "" [] 0) [] [] [] bucket.

(** What starting does to the database: columns still in plaintext are
    encrypted, and the nodes of the configuration stored; only an error of the
    first stops it.  [fresh]: the ids of new nodes. *)
Definition startup (fresh : nat → Z) : M DB Dbenc.err unit :=
  _ ← Dbenc.EncryptExisting sealing (s_enc s);
  _ ← attempt (VpnNodes.SeedFromJSON fresh (Config.NodesJSON (VpnHandler.v_cfg (s_vpn s))));
  mret tt.

(** Starts that fail, and one that does not. *)
Inductive boots (d : DB) : DB → Prop :=
| boots_ok fresh F d' : Exec F (startup fresh) d (Ok tt) d' → boots d d'
| boots_fatal fresh F e d1 d' : Exec F (startup fresh) d (Err e) d1 → boots d1 d' → boots d d'.

Inductive step (w : World) : World → Prop :=
| st_request k x r F res w' :
    (k = Stream_ → new_socket x w) → Exec F (handle s k x r) w res w' → step w w'
| st_closed c :
    is_Some (Stream.conns (w_hub w) !! c) → step w (with_hub (Stream.Unregister c (w_hub w)) w)
| st_background l hub :
    background l → Stream.step (w_hub w) l hub → step w (with_hub hub w)
| st_cleanup t F res w' : Exec F (cleanup t) w res w' → step w w'
| st_blocklist get :
    step w (with_security (Security.loadBlocklist (w_files w) get (w_security w)) (w_files w) w)
(** The server announces itself to the discovery hub, once started. *)
| st_announce t0 t1 t2 hub :
    step w (with_client (S2S.Register t0 t1 t2 hub (w_client w)).2 w)
(** The process ends, at any time, and is started again, until that succeeds. *)
| st_restart d redis cl sec fs :
    boots (w_db w) d → step w (booted redis cl sec fs (w_objects w) d).

(** From a server that starts on a new database; [node]: the id of its default
    node. *)
Inductive reachable : World → Prop :=
| reach_boot node d redis cl sec fs :
    boots (migrated_db node) d → reachable (booted redis cl sec fs ∅ d)
| reach_step w w' : reachable w → step w w' → reachable w'.

(** The hub did what some run of a new hub does, and no request is in the
    middle of a loop. *)
Definition hub_ok (hub : Stream.Hub) : Prop :=
  Stream.iters hub !! 2 = None ∧
  ∃ redis tr, Stream.runs (Stream.NewHubWithRedis redis) tr hub.

Lemma hub_ok_new redis : hub_ok (Stream.NewHubWithRedis redis).
Proof. split; [done|]. exists redis, []. constructor. Qed.

Lemma hub_ok_step hub l hub' :
  hub_ok hub → Stream.step hub l hub' → Stream.iters hub' !! 2 = None → hub_ok hub'.
Proof.
  intros (_ & redis & tr & Hr) Hs Hi. split; [done|]. exists redis, (l :: tr). by eapply Stream.runs_step.
Qed.

Lemma hub_ok_from hub hub' : hub_ok hub → MsgHandler.from hub hub' → hub_ok hub'.
Proof.
  intros (Hi & redis & tr & Hr) Hf. destruct (Hf Hi) as [[tr' Hr'] He]. split; [by rewrite He|].
  exists redis, (tr' ++ tr). by eapply Stream.runs_app.
Qed.

Lemma start_iter_other g r m hub : g < 2 →
  Stream.iters (Stream.start_iter g r m hub) !! 2 = Stream.iters hub !! 2.
Proof.
  intros Hg. unfold Stream.start_iter. destruct (Stream.clients hub !! r); [|done]. simpl.
  by rewrite lookup_insert_ne by lia.
Qed.

Lemma background_iters l hub hub' :
  background l → Stream.step hub l hub' → Stream.iters hub !! 2 = None → Stream.iters hub' !! 2 = None.
Proof.
  intros Hb Hs Hi. destruct Hs; try done; simpl in *; rewrite ?start_iter_other by lia; try done.
  - destruct p; simpl; unfold Stream.pushReadToLocal, Stream.pushDeliveryToLocal;
      rewrite ?start_iter_other by lia; done.
  - by rewrite lookup_insert_ne by lia.
  - rewrite lookup_delete_ne by lia. done.
Qed.

Lemma hub_ok_request F k x r w res w' :
  hub_ok (w_hub w) → (k = Stream_ → new_socket x w) → Exec F (handle s k x r) w res w' →
  hub_ok (w_hub w').
Proof.
  intros Hok Hnew He.
  assert (k = Stream_ ∨ k ≠ Stream_) as [->|Hk] by (destruct k; auto; by right).
  - unfold handle in He. cbn [protected limited_route limit andb] in He.
    destruct (wp_Exec _ _ _ _ _ _ (Sockets.wp_serveWs _ _ F _ _ _ _ r w) He)
      as [->|(_ & user & dev & addr & _ & ->)]; [done|].
    destruct (Hnew eq_refl) as [Hc Hm]. eapply hub_ok_step; [done|by apply Stream.st_register|].
    destruct Hok as [Hi _]. simpl. unfold Stream.Register. by case_match.
  - assert (of_hub (MsgHandler.from (w_hub w)) w) as Hr by apply MsgHandler.hub_runs_refl.
    pose proof (wp_Exec _ _ _ _ _ _ (keeps_hub_handle s (w_hub w) k x r Hk F w Hr) He) as Hf.
    by eapply hub_ok_from.
Qed.

Lemma keeps_startup fresh : keeps server_inv (startup fresh).
Proof.
  unfold startup. apply keeps_bind; [apply Dbenc.EncryptExisting_keeps, boot_statements|intros _].
  apply keeps_bind; [|intros; apply keeps_ret]. apply keeps_attempt. intros F d Hd.
  eapply wp_mono; [apply Vpn.keeps_SeedFromJSON, Vpn.served_refl; apply Hd|].
  intros r d' Hs. by eapply server_inv_served.
Qed.

Lemma boots_inv d d' : boots d d' → server_inv d → server_inv d'.
Proof.
  induction 1 as [d fresh F d' He|d fresh F e d1 d' He _ IH]; intros Hd;
    [|apply IH]; exact (wp_Exec _ _ _ _ _ _ (keeps_startup fresh F _ Hd) He).
Qed.

Lemma reachable_inv w : reachable w → server_inv (w_db w) ∧ hub_ok (w_hub w).
Proof.
  induction 1 as [node d redis cl sec fs Hb|w w' _ [Hd Hh] Hs].
  { split; [exact (boots_inv _ _ Hb (server_inv_migrated node))|apply hub_ok_new]. }
  destruct Hs as [k x r F res w' Hnew He|c Hc|l hub Hb Hs|t F res w' He|get|t0 t1 t2 hub|d redis cl sec fs Hb].
  - split; [|by eapply hub_ok_request]. apply (wp_Exec _ _ _ _ _ _ (keeps_handle s k x r F w Hd) He).
  - split; [done|]. eapply hub_ok_step; [done|by apply Stream.st_unregister|].
    destruct Hh as [Hi _]. simpl. unfold Stream.Unregister. by repeat case_match.
  - split; [done|]. eapply hub_ok_step; [done..|]. by eapply background_iters, Hh.
  - split; [apply (wp_Exec _ _ _ _ _ _ (keeps_cleanup t F w Hd) He)|].
    assert (of_hub (MsgHandler.from (w_hub w)) w) as Hr by apply MsgHandler.hub_runs_refl.
    eapply hub_ok_from; [done|]. apply (wp_Exec _ _ _ _ _ _ (keeps_hub_cleanup (w_hub w) t F w Hr) He).
  - done.
  - done.
  - split; [exact (boots_inv _ _ Hb Hd)|apply hub_ok_new].
Qed.

(** C4: Whatever requests come in, to any route, in any order, with any statement
    failing, and the process ending at any time and being started again: user
    names stay unique, every token belongs to the owner of its device, every
    key to a device, members and creators of rooms are users and nobody but the
    creator of a room has that role, event ids stay unique and receipts are for
    queued events, there is at most one default VPN node, VPN configurations
    and push subscriptions are of users and devices that exist, and no two
    configurations share an address; and the hub registers each socket under
    its recipient only, with no channel over its capacity. *)
Theorem server_invariant w :
  reachable w → server_inv (w_db w) ∧ Stream.reg_inv (w_hub w) ∧ Stream.bounded (w_hub w).
Proof.
  intros [Hd (_ & redis & tr & Hr)]%reachable_inv. split; [done|].
  apply Stream.runs_inv in Hr as (? & _ & ?). done.
Qed.

(** What the handler of a protected route does, past the middleware. *)
Definition answered_for F k x r (w : World) (c : Ctx) (rep : Reply) (w' : World) : Prop :=
  limited_route k && dr_limited x = true ∧ rep = limited_reply ∧ w' = w ∨
  ∃ res, Exec F (private s k x c r) w res w' ∧ rep = respond api_recovered res.

End system.

(** ** Ann registers and writes to herself *)
Module Sample.
Import FedHandler.Net.
#[local] Instance exact_like : Peers.PgLike := {| Peers.pg_ilike := String.eqb |}.
#[local] Existing Instances Vpn.Sample.a_curve Vpn.Sample.a_calendar Media.Sample.a_minio.
#[local] Instance vpn_errors : ErrText VpnNodes.err := λ _, "vpn error".
#[local] Instance push_errors : ErrText Push.err := λ _, "error".
#[local] Instance media_errors : ErrText Media.err := λ _, "error".

Definition a_settings : settings :=
  mkSettings "a.org" "secret" None a_keys 0 "" "" (PushHandler.mkConfig "" "")
    (VpnHandler.mkConfig Vpn.Sample.a_cfg true) true [] "".

Definition a_draws : Draws := mkDraws noon (λ _, noon) (λ i, 7 + Z.of_nat i)%Z (λ _, Some "r") (λ _, Some "r")
  (Some (pad32 "d")) (Some "n") "salt" base.elements id id itoa b_files None 0 0 false id
  (λ _, true) (λ _, None).

Definition a_world : World := booted false (S2S.NewClient "a.org" a_keys)
  (Security.NewSecurityService ∅ (λ _, Security.NoResponse) Security.DefaultSecurityConfig) ∅ ∅ (migrated_db 5).

Lemma a_boots : boots a_settings (λ _ _ _, None) (migrated_db 5) (migrated_db 5).
Proof. eapply (boots_ok _ _ _ (λ _, 0%Z) no_faults). exists 0, 0. by vm_compute. Qed.

Definition post (path token : string) (j : json) : Request := mkRequest
  {| r_method := "POST"; r_path := path; r_rawquery := "";
     r_headers := {[ "Authorization" := "Bearer " +:+ token ]}; r_body := marshal j |}
  true "a.org" (λ _, "") 0 false.

Definition registering : Request := post "/api/v1/auth/register" "" (JObj
  [("username", JStr "ann"); ("password", JStr "secret"); ("device_id", JStr "3");
   ("keys", JObj [("identity_key", JStr (b64_encode "ik"));
     ("signed_prekey", JObj [("key", JStr (b64_encode "spk")); ("signature", JStr (b64_encode "sig"));
                             ("key_id", JInt 1)]);
     ("one_time_prekeys", JArr [])])]).

Definition registered : Reply * World :=
  serve api_recovered no_faults (handle a_settings RegisterUser a_draws registering) a_world.

Definition ann_token : string :=
  match reply registered.1 with Json (JObj ((_, JStr t) :: _)) => t | _ => "" end.

Definition writing : Request := post "/api/v1/messages/send" ann_token (JObj
  [("sender", JStr "@ann:a.org"); ("recipient", JStr "@ann:a.org"); ("timestamp", JInt 1700000000);
   ("content", JObj [("ciphertext", JStr (b64_encode "sig1:hello"))])]).

Definition written : Reply * World :=
  serve api_recovered no_faults (handle a_settings SendMessage a_draws writing) registered.2.

Lemma served k x r w :
  ∃ res, Exec no_faults (handle a_settings k x r) w res
           (serve api_recovered no_faults (handle a_settings k x r) w).2 ∧
         (serve api_recovered no_faults (handle a_settings k x r) w).1 = respond api_recovered res.
Proof.
  pose proof (Exec_first no_faults (handle a_settings k x r) w) as He. unfold serve.
  destruct (handle a_settings k x r no_faults w 0) as [[res w'] n]. by exists res.
Qed.

Lemma server_invariant_witness :
  status written.1 = 202%Z ∧
  server_inv (w_db written.2) ∧ Stream.reg_inv (w_hub written.2) ∧ Stream.bounded (w_hub written.2).
Proof.
  split; [by vm_compute|].
  destruct (served RegisterUser a_draws registering a_world) as (r1 & H1 & _).
  destruct (served SendMessage a_draws writing registered.2) as (r2 & H2 & _).
  apply (server_invariant a_settings (λ _ _ _, None)).
  eapply reach_step; [eapply reach_step; [by eapply reach_boot, a_boots|]|].
  - eapply (st_request _ _ _ RegisterUser a_draws registering no_faults); [done|exact H1].
  - eapply (st_request _ _ _ SendMessage a_draws writing no_faults); [done|exact H2].
Defined.

End Sample.
End Server.
