(* ===== verification/Boot.v ===== *)
(** * Starting the server ([server/cmd/server/main.go])

    From the environment, the files and the database to the process that
    serves requests; what a server that starts can rely on. *)

From Stdlib Require Import Ascii String.
From stdpp Require Import strings.
From S2P Require Import Prelude GoStrings Encoding Json Wire Crypto Schema Samples Dbenc Keydir Auth.
From S2P Require Import RoomChecker Rooms Relay Stream Federation Api FedHandler Peers AuthHandler.
From S2P Require Import Config VpnText VpnNodes Vpn Push Media Invariant Backup Sockets RoomsHandler MsgHandler.
From S2P Require Import VpnHandler PushHandler MediaHandler Server.
Set Default Goal Selector "!".
Open Scope stdpp_scope.

Module Boot.
Import Api Invariant.

(** [log.Fatalf] *)
Inductive fatal := FatalDatabase | FatalMigrate | FatalEncrypt (e : Dbenc.err) | FatalJwt | FatalMedia | FatalKeys.

(** ** The database ([internal/db])

    [pool], [ping]: whether pgx makes a pool and the server answers. *)
Definition New (pool ping : bool) : bool := pool && ping.

(** What golang-migrate answers: whether it reads the migrations, whether it
    opens the database, and [m.Up()]. *)
Inductive up := UpDone | ErrNoChange | UpFailed.

Definition Migrate (source instance_ : bool) (u : up) : bool :=
  source && instance_ && match u with UpFailed => false | _ => true end.

(** The command [cmd/migrate]. *)
Inductive exit := MigrationsOK | ExitNoURL | ExitMigrate.

Definition migrate_command (env : string → string) (migrate : string → bool * bool * up) : exit :=
  let url := Config.DatabaseURL (Config.Database (Config.Load env)) in
  let url := if String.eqb url "" then env "DATABASE_URL" else url in
  if String.eqb url "" then ExitNoURL
  else let '(source, instance_, u) := migrate url in
       if Migrate source instance_ u then MigrationsOK else ExitMigrate.

Lemma database_url_set env : Config.DatabaseURL (Config.Database (Config.Load env)) ≠ "".
Proof. cbn. unfold Config.getEnv. case_match eqn:He; [done|]. by apply String.eqb_neq. Qed.

(** The configuration has a URL of its own: the command never asks for one,
    but migrates a database of the local host. *)
Lemma migrate_never_lacks_url env migrate : migrate_command env migrate ≠ ExitNoURL.
Proof.
  unfold migrate_command. cbv zeta. pose proof (database_url_set env) as Hu%String.eqb_neq.
  rewrite Hu, Hu. by repeat case_match.
Qed.

(** *** What [main] makes of the configuration *)
Definition cipher (c : Config.Config) : Dbenc.Cipher :=
  match Dbenc.New (Config.EncryptionKey (Config.Database c)) with Ok enc => enc | Err _ => None end.

Definition production (env : string → string) : bool :=
  let e := env "ENV" in
  let e := if String.eqb e "" then env "APP_ENV" else e in
  String.eqb e "production" || String.eqb e "prod".

Definition jwt_secret (env : string → string) : option string :=
  let secret := env "JWT_SECRET" in
  if production env && (String.eqb secret "" || (slen secret <? 16)) then None
  else Some (if String.eqb secret "" then "dev-secret-change-in-production" else secret).

Definition main_only (c : Config.Config) : string :=
  let f := Config.Federation c in
  if String.eqb (Config.Mode f) "main_only" then Config.MainDomain f else "".

(** With a certificate when both its paths are configured. *)
Definition fed_client (c : Config.Config) (pair : string → string → bool) (fs : gmap string string)
    (keys : S2S.ServerKeys) : S2S.Client * S2S.certificate :=
  let domain := Config.Domain (Config.Server c) in
  let cert := Config.ClientCert (Config.MTLS (Config.Federation c)) in
  let key := Config.ClientKey (Config.MTLS (Config.Federation c)) in
  let mtls := negb (String.eqb cert "") && negb (String.eqb key "") in
  let mainOnly := negb (String.eqb (main_only c) "") in
  if mainOnly && mtls then S2S.NewClientWithMainAndMTLS pair fs domain (main_only c) keys cert key
  else if mainOnly then (S2S.NewClientWithMain domain (main_only c) keys, None)
  else if mtls then S2S.NewClientWithMTLS pair fs domain keys cert key
  else (S2S.NewClient domain keys, None).

Definition uses_redis (c : Config.Config) : bool :=
  negb (Config.RedisDisabled (Config.Redis c) || String.eqb (Config.RedisURL (Config.Redis c)) "").

Definition security_config (c : Config.Config) : Security.SecurityConfig :=
  let l := Config.Security (Config.Federation c) in {|
    Security.RateLimit := Config.RateLimit l;
    Security.cfg_MaxBodySize :=
      if (Config.MaxBodySize l <=? 0)%Z then Security.MaxBodySize_default else Config.MaxBodySize l;
    Security.AllowlistMode := if String.eqb (Config.AllowlistMode l) "" then "auto" else Config.AllowlistMode l;
    Security.AllowlistPath := Config.AllowlistPath l;
    Security.AllowlistTrustThreshold := Config.AllowlistTrustThreshold l;
    Security.BlocklistPath := Config.BlocklistPath l;
    Security.BlocklistURL := Config.BlocklistURL l;
    Security.BlocklistReload := wrap64 (Config.BlocklistReload l * hour);
  |}.

(** The pool of the federation's own database user, when it is configured and
    answers; else the main pool is used. *)
Definition federation_pool (c : Config.Config) (answers : string → bool * bool) : bool :=
  let url := Config.FederationURL (Config.Database c) in
  negb (String.eqb url "") && (let '(pool, ping) := answers url in New pool ping).

Definition listen_addr (c : Config.Config) : string :=
  let port := Config.Port (Config.Server c) in ":" +:+ itoa (if (port <=? 0)%Z then 8080 else port).

Section hub.
Context `{HU : GoUnicode}.

(** The hub the server registers with, unless it is the hub. *)
Definition register_hub (c : Config.Config) : option string :=
  let hub := Config.DiscoveryHub (Config.Federation c) in
  if negb (String.eqb hub "") &&
     negb (String.eqb (to_lower (trim_space (Config.Domain (Config.Server c)))) (to_lower (trim_space hub)))
  then Some hub else None.
End hub.

(** [dialed]: whether the Xray API answered. *)
Definition settings_of (c : Config.Config) (secret : string) (keys : S2S.ServerKeys)
    (sec : Security.SecurityService) (dialed : bool) : Server.settings :=
  let f := Config.Federation c in
  let x := Config.Xray (Config.VPN c) in
  Server.mkSettings (Config.Domain (Config.Server c)) secret (cipher c) keys (Security.MaxBodySize sec)
    (main_only c) (Config.AlertWebhookURL (Config.Security f))
    (PushHandler.mkConfig (Config.VAPIDPublicKey (Config.Push c)) (Config.VAPIDPrivateKey (Config.Push c)))
    (VpnHandler.mkConfig (Config.VPN c)
       (Config.XrayEnabled x && negb (String.eqb (Config.APIAddr x) "") && dialed))
    (Config.E2EEStrictOnly (Config.Server c)) (Config.Peers f) (Config.DiscoveryHub f).

(** What the process finds when it starts, besides the database: its
    environment; which URLs answer as databases, and their migration; the file of its keys and what drawing and writing new ones
    does; the files of its TLS certificate, and which of them are a pair; the lists of the
    federation, and what is fetched for them; whether the object store and the Xray API answer; ids of new VPN nodes. *)
Record Outside := mkOutside {
  o_env : string → string;
  o_answers : string → bool * bool;
  o_migrate : string → bool * bool * up;
  o_keypath : string;
  o_keyfiles : gmap string string;
  o_gen : option string;
  o_werr : bool;
  o_tlsfiles : gmap string string;
  o_pair : string → string → bool;
  o_lists : Security.files;
  o_get : string → Security.fetched;
  o_media : bool;
  o_dial : bool;
  o_fresh : nat → Z;
}.

(** What serves requests, but the database. *)
Record Process := mkProcess {
  p_settings : Server.settings;
  p_fedpool : bool;
  p_hub : option string;
  p_addr : string;
  p_redis : bool;
  p_client : S2S.Client;
  p_cert : S2S.certificate;
  p_security : Security.SecurityService;
  p_lists : Security.files;
  p_keyfiles : gmap string string;
}.

Definition world (p : Process) (bucket : gmap string string) (d : DB) : World :=
  Server.booted (p_redis p) (p_client p) (p_security p) (p_lists p) bucket d.

Section main.
Context `{HU : GoUnicode, HN : GoNet, HE : Ed25519, HAe : Aead}.
Context (sealing : string → Z * Z → nat → option string).

Definition main (o : Outside) : M DB fatal Process :=
  let env := o_env o in
  let cfg := Config.Load env in
  let url := Config.DatabaseURL (Config.Database cfg) in
  _ ← (let '(pool, ping) := o_answers o url in if New pool ping then mret tt else raise FatalDatabase);
  _ ← (let '(source, instance_, u) := o_migrate o url in
       if Migrate source instance_ u then mret tt else raise FatalMigrate);
  _ ← map_err FatalEncrypt (Dbenc.EncryptExisting sealing (cipher cfg));
  match jwt_secret env with
  | None => raise FatalJwt
  | Some secret =>
    _ ← (if o_media o then mret tt else raise FatalMedia);
    match S2S.LoadServerKeys (o_keypath o) (o_gen o) (o_werr o) {| S2S.ran := false; S2S.keys := None |}
            (o_keyfiles o) with
    | (Some keys, _, _, keyfiles) =>
      _ ← attempt (VpnNodes.SeedFromJSON (o_fresh o) (Config.NodesJSON (Config.VPN cfg)));
      let sec := Security.NewSecurityService (o_lists o) (o_get o) (security_config cfg) in
      let client := fed_client cfg (o_pair o) (o_tlsfiles o) keys in
      mret (mkProcess (settings_of cfg secret keys sec (o_dial o)) (federation_pool cfg (o_answers o))
              (register_hub cfg) (listen_addr cfg) (uses_redis cfg) client.1 client.2 sec (o_lists o) keyfiles)
    | (None, _, _, _) => raise FatalKeys
    end
  end.

(** ** Properties *)
Lemma keeps_main o : keeps server_inv (main o).
Proof.
  unfold main. cbv zeta. destruct (o_answers o _) as [pool ping], (o_migrate o _) as [[source inst] u].
  apply keeps_bind; [by case_match; auto with wp_db|intros _].
  apply keeps_bind; [by case_match; auto with wp_db|intros _]. apply keeps_bind.
  { intros F d Hd. apply wp_map_err. eapply wp_mono; [by apply Dbenc.EncryptExisting_keeps; [apply boot_statements|]|done]. }
  intros _. destruct (jwt_secret _); [|apply keeps_raise].
  apply keeps_bind; [destruct (o_media o); auto with wp_db|intros _].
  destruct (S2S.LoadServerKeys _ _ _ _ _) as [[[[keys|] ?] ?] ?]; [|apply keeps_raise].
  apply keeps_bind; [|intros; apply keeps_ret]. apply keeps_attempt. intros F d Hd.
  eapply wp_mono; [apply Vpn.keeps_SeedFromJSON, Vpn.served_refl; apply Hd|].
  intros r d' Hs. by eapply server_inv_served.
Qed.

(** A start is one of the restarts of [Server.step]. *)
Lemma main_boots F o d p d' :
  Exec F (main o) d (Ok p) d' → Server.boots (p_settings p) sealing d d'.
Proof.
  intros (n & n' & He). apply (Server.boots_ok _ _ _ (o_fresh o) F). exists n, n'. revert He.
  unfold main, Server.startup, mbind, M_bind, map_err, attempt, mret, M_ret, raise. cbv zeta.
  set (cfg := Config.Load (o_env o)).
  destruct (o_answers o _) as [pool ping], (o_migrate o _) as [[source inst] u].
  destruct (New pool ping); [|done]. destruct (Migrate source inst u); [|done].
  destruct (Dbenc.EncryptExisting sealing (cipher cfg) F d n) as [[[[]|e] d1] n1] eqn:Hen; [|done].
  destruct (jwt_secret _) as [secret|]; [|done]. destruct (o_media o); [|done].
  destruct (S2S.LoadServerKeys _ _ _ _ _) as [[[[keys|] ?] ?] ?]; [|done].
  destruct (VpnNodes.SeedFromJSON (o_fresh o) (Config.NodesJSON (Config.VPN cfg)) F d1 n1) as [[r d2] n2] eqn:Hseed.
  intros [= <- <- <-]. cbn [p_settings settings_of Server.s_enc Server.s_vpn VpnHandler.v_cfg].
  rewrite Hen, Hseed. done.
Qed.

(** What a process that has started is built from. *)
Lemma main_process F o d p d' :
  Exec F (main o) d (Ok p) d' →
  ∃ secret keys keyfiles err once,
    jwt_secret (o_env o) = Some secret ∧
    S2S.LoadServerKeys (o_keypath o) (o_gen o) (o_werr o) {| S2S.ran := false; S2S.keys := None |} (o_keyfiles o) =
      (Some keys, err, once, keyfiles) ∧
    let cfg := Config.Load (o_env o) in
    let sec := Security.NewSecurityService (o_lists o) (o_get o) (security_config cfg) in
    let client := fed_client cfg (o_pair o) (o_tlsfiles o) keys in
    p = mkProcess (settings_of cfg secret keys sec (o_dial o)) (federation_pool cfg (o_answers o)) (register_hub cfg)
          (listen_addr cfg) (uses_redis cfg) client.1 client.2 sec (o_lists o) keyfiles.
Proof.
  intros (n & n' & He). revert He.
  unfold main, mbind, M_bind, map_err, attempt, mret, M_ret, raise. cbv zeta.
  destruct (o_answers o (Config.DatabaseURL _)) as [pool ping], (o_migrate o _) as [[source inst] u].
  destruct (New pool ping); [|done]. destruct (Migrate source inst u); [|done].
  destruct (Dbenc.EncryptExisting _ _ _ _ _) as [[[[]|e] d1] n1]; [|done].
  destruct (jwt_secret _) as [secret|]; [|done]. destruct (o_media o); [|done].
  destruct (S2S.LoadServerKeys _ _ _ _ _) as [[[[keys|] err] once] keyfiles] eqn:Hk; [|done].
  destruct (VpnNodes.SeedFromJSON _ _ _ _ _) as [[r d2] n2].
  intros [= <- <- <-]. by exists secret, keys, keyfiles, err, once.
Qed.

Lemma jwt_secret_some env secret :
  jwt_secret env = Some secret → secret ≠ "" ∧ (production env = true → 16 ≤ slen secret).
Proof.
  unfold jwt_secret. cbv zeta. destruct (production env) eqn:Hp; simpl.
  - destruct (String.eqb_spec (env "JWT_SECRET") ""); simpl; [done|].
    destruct (Nat.ltb_spec (slen (env "JWT_SECRET")) 16); [done|]. intros [= <-]. auto.
  - destruct (String.eqb_spec (env "JWT_SECRET") ""); intros [= <-]; by split.
Qed.

Definition tls_paths (o : Outside) : string * string :=
  let m := Config.MTLS (Config.Federation (Config.Load (o_env o))) in (Config.ClientCert m, Config.ClientKey m).

Lemma fed_client_spec o keys c :
  let cfg := Config.Load (o_env o) in
  let client := fed_client cfg (o_pair o) (o_tlsfiles o) keys in
  S2S.c_domain client.1 = Config.Domain (Config.Server cfg) ∧ S2S.c_keys client.1 = keys ∧
  S2S.mainDomain client.1 = main_only cfg ∧
  (client.2 = Some c ↔
   S2S.loadClientTLS (o_pair o) (o_tlsfiles o) (tls_paths o).1 (tls_paths o).2 = Ok (Some c)).
Proof.
  cbv zeta. unfold fed_client, tls_paths. cbn [fst snd].
  set (cert := Config.ClientCert _). set (key := Config.ClientKey _).
  unfold S2S.NewClientWithMainAndMTLS, S2S.NewClientWithMTLS, S2S.loadClientTLS.
  destruct (String.eqb_spec (main_only (Config.Load (o_env o))) "") as [->|],
    (String.eqb cert ""), (String.eqb key ""); cbn; (split_and!; [done..|]); try done;
    repeat case_match; naive_solver.
Qed.

Lemma register_hub_other c hub :
  register_hub c = Some hub →
  hub ≠ "" ∧ to_lower (trim_space hub) ≠ to_lower (trim_space (Config.Domain (Config.Server c))).
Proof.
  unfold register_hub. cbv zeta. destruct (_ && _) eqn:Hc; [|done]. intros [= <-].
  apply andb_true_iff in Hc as [Hn%negb_true_iff%String.eqb_neq Hd%negb_true_iff%String.eqb_neq]. auto.
Qed.

Lemma wp_main_sealed o d :
  server_inv d → Dbenc.good_rand sealing → Dbenc.Enabled (cipher (Config.Load (o_env o))) = true →
  wp no_faults (main o) (λ r d', is_ok r = true → Dbenc.visited_sealed d') d.
Proof.
  intros Hd Hr He. unfold main. cbv zeta.
  destruct (o_answers o _) as [pool ping], (o_migrate o _) as [[source inst] u].
  apply wp_bind. destruct (New pool ping); [apply wp_ret|by apply wp_raise].
  apply wp_bind. destruct (Migrate source inst u); [apply wp_ret|by apply wp_raise].
  apply wp_bind, wp_map_err. eapply wp_mono.
  { apply wp_conj; [by apply Dbenc.wp_EncryptExisting|].
    apply (Dbenc.EncryptExisting_keeps sealing server_inv); [apply boot_statements|exact Hd]. }
  intros r d1 [[-> Hs] Hd1]. destruct (jwt_secret _); [|by apply wp_raise].
  apply wp_bind. destruct (o_media o); [apply wp_ret|by apply wp_raise].
  destruct (S2S.LoadServerKeys _ _ _ _ _) as [[[[keys|] ?] ?] ?]; [|by apply wp_raise].
  apply wp_bind, wp_attempt. eapply wp_mono; [apply Vpn.keeps_SeedFromJSON, Vpn.served_refl; apply Hd1|].
  intros r d2 [_ Ho _]. apply wp_ret. intros _. unfold Vpn.outside in Ho. by rewrite Ho.
Qed.

End main.

(** ** A development server *)
Module Sample.
Import FedHandler.Net.
#[local] Existing Instances toy_aead.

Definition a_outside : Outside := mkOutside
  (λ k, if String.eqb k "SERVER_DOMAIN" then "a.org" else "") (λ _, (true, true)) (λ _, (true, true, ErrNoChange)) "keys" ∅ (Some (pad32 "a")) false ∅ (λ _ _, true) ∅
  (λ _, Security.NoResponse) true false (λ i, Z.of_nat i).

Definition a_start := run (main (λ _ _ _, Some "nonce") a_outside) (migrated_db 5).


(** A key that is not 32 bytes of base64 turns the encryption of columns off,
    and nothing but a log line says so. *)
Example invalid_key_disables_encryption :
  let o := mkOutside (λ k, if String.eqb k "DB_ENCRYPTION_KEY" then "secret" else "") (λ _, (true, true))
             (λ _, (true, true, ErrNoChange)) "keys" ∅ (Some (pad32 "a"))
             false ∅ (λ _ _, true) ∅ (λ _, Security.NoResponse) true false (λ i, Z.of_nat i) in
  (λ r, match r with Ok p => Dbenc.Enabled (Server.s_enc (p_settings p)) | Err _ => true end)
    (run (main (λ _ _ _, Some "nonce") o) (migrated_db 5)).1 = false.
Proof. by vm_compute. Qed.

(** A server starts although the file of its TLS certificate is missing:
    requests go out without it, and no log line says so. *)
Example missing_certificate_not_presented :
  let o := mkOutside (λ k, if String.eqb k "FEDERATION_MTLS_CLIENT_CERT" then "cert.pem"
                           else if String.eqb k "FEDERATION_MTLS_CLIENT_KEY" then "key.pem" else "") (λ _, (true, true))
             (λ _, (true, true, ErrNoChange)) "keys" ∅ (Some (pad32 "a")) false ∅ (λ _ _, true) ∅ (λ _, Security.NoResponse) true false (λ i, Z.of_nat i) in
  tls_paths o = ("cert.pem", "key.pem") ∧
  (λ r, match r with Ok p => Some (p_cert p) | Err _ => None end)
    (run (main (λ _ _ _, Some "nonce") o) (migrated_db 5)).1 = Some None.
Proof. by vm_compute. Qed.
End Sample.
End Boot.
