(* ===== verification/EndToEnd.v ===== *)
(** * A message between two servers

    Composition: the [send] handler of one server ([MsgHandler]), the network,
    and the [transaction] handler of another ([FedHandler]).  Each server has
    its own view of the network. *)

From Stdlib Require Import Ascii String.
From stdpp Require Import strings.
From S2P Require Import Prelude GoStrings Encoding Json Wire Crypto Schema Samples Dbenc Keydir Auth.
From S2P Require Import RoomChecker Rooms Relay Stream Federation Api FedHandler MsgHandler.
Set Default Goal Selector "!".
Open Scope stdpp_scope.

Module EndToEnd.
Import Api MsgHandler.

(** A request as the server of [host] receives it. *)
Definition arrives (host : string) (rq : HttpRequest) : option Request :=
  (λ sr, mkRequest sr true host (λ _, "") (Z.of_nat (slen (r_body sr))) false) <$> transmit rq.

Definition answered (rep : Reply) : HttpResponse :=
  {| rs_status := status rep; rs_body := reply_text rep |}.

Section two_servers.
Context `{HU : GoUnicode, HN : GoNet, HS : Sha256, HE : Ed25519, HUu : UuidLib, HP : PgText,
  HAe : Aead, HB : Bcrypt, HJw : Jwt}.
Context `{!ErrText S2S.cerr, !ErrText Auth.err, !ErrText Keydir.err, !ErrText Relay.err}.

(** Server [a] serves the client; its network is [net_a].  Server [b], whose
    network is [net_b], handles transactions from the state [wb]. *)
Context (net_a net_b : S2S.Http).
Context (ha : config) (hb : FedHandler.federationHandler) (list : FedHandler.ListFile).
Context (Fb : nat → bool) (tick_b : nat → Z) (wb : World).

Definition b_handles (r : Request) : Reply * World :=
  serve federation_recovered Fb (FedHandler.transaction (HH := net_b) hb list tick_b r) wb.

(** What is at [url] of [a]'s network: [b]. *)
Definition b_is_at (url : string) : Prop :=
  ∀ rq, rq_url rq = url →
    S2S.http_do (Http := net_a) rq =
    (λ r, answered (b_handles r).1) <$> arrives (FedHandler.h_domain hb) rq.

(** The event [b] reads in the transaction of the message [q]. *)
Definition event_received (id : string) (q : sendRequest) : Relay.FederatedEvent :=
  Relay.mkFederatedEvent (json_str id) "m.room.encrypted" (json_str (sr_sender q))
    (json_str (sr_recipient q)) (json_str (sr_sender q)) (b64_bytes (sr_ciphertext q))
    (json_str (sr_session q)) (sr_timestamp q).

(** [b] has the message of [q], numbered [id], and has told its recipient. *)
Definition message_at_b (id : string) (q : sendRequest) (w : World) : Prop :=
  let e := event_received id q in
  faulty Fb ∨
  w_hub w = Stream.Notify (Relay.FRecipient e) (Relay.FEventID e) (w_hub wb) ∧
  (Relay.has_event (Relay.FEventID e) (w_db wb) = true ∨
   Relay.find_event (Relay.FEventID e) (w_db w) = Some (Relay.fed_row e (tick_b 6))).

Lemma dec_send_timestamp r q :
  decode_first (body r) ≫= dec_send zero_send = Some q → in_int64 (sr_timestamp q) = true.
Proof.
  destruct (decode_first (body r)) as [j|]; [|done]. cbn. unfold dec_send.
  apply (dec_struct_keeps (λ q, in_int64 (sr_timestamp q) = true)); [|done].
  assert (∀ (d : Dec sendRequest), (∀ x j y, d x j = Some y → sr_timestamp y = sr_timestamp x) →
    ∀ x j y, in_int64 (sr_timestamp x) = true → d x j = Some y → in_int64 (sr_timestamp y) = true)
    as Hsame by (intros d Hd x k y Hx ->%Hd; done).
  repeat apply List.Forall_cons; cbn [snd].
  7: constructor.
  1-4: apply Hsame; intros x k y; unfold at_field; by destruct (dec_string _ _); intros [= <-].
  - intros x k y Hx. unfold at_field, dec_int64, parse_int64.
    destruct k; cbn; try done; [by intros [= <-]|]. destruct (parse_int _); [|done]. cbn.
    destruct (in_int64 z) eqn:Hz; [|done]. by intros [= <-].
  - apply Hsame. intros x k y. unfold dec_send_content.
    apply (dec_struct_keeps (λ y, sr_timestamp y = sr_timestamp x)); [|done].
    repeat apply List.Forall_cons; cbn [snd]; [..|constructor]; intros z m t <-; unfold at_field;
      (by destruct (dec_string _ _); intros [= <-]) || by destruct (dec_map _ _); intros [= <-].
Qed.

(** The transaction of a message survives the encoding. *)
Lemma outgoing_received txn id q c :
  in_int64 (sr_timestamp q) = true →
  ∃ x, dec_transaction (enc_transaction (S2S.addressed (FedHandler.h_domain hb)
         (outgoing txn id q) c)) = Some x ∧
    Destination x = json_str (FedHandler.h_domain hb) ∧
    FedHandler.federated_event <$> Events x = [event_received id q].
Proof.
  intros Ht. eexists. rewrite dec_enc_transaction by by repeat constructor.
  split; [done|]. split; [done|]. cbn [Events received t_Events S2S.addressed outgoing fmap list_fmap].
  unfold FedHandler.federated_event, event_received, clean_event. cbn [Wire.EventID Wire.Sender
    Wire.Recipient Wire.Content Wire.Ciphertext Wire.SessionID Wire.Timestamp].
  by rewrite (json_str_ascii (b64_encode _)), b64_bytes_encode by apply b64_ascii.
Qed.

(** [b] answers 200 to the transaction only with the message stored. *)
Lemma b_accepts txn id q c r :
  in_int64 (sr_timestamp q) = true → is_ascii (FedHandler.h_domain hb) = true →
  body r = enc_transaction (S2S.addressed (FedHandler.h_domain hb) (outgoing txn id q) c) →
  slen (body r) ≤ Z.to_nat (FedHandler.max_body hb) →
  status (b_handles r).1 = 200%Z → message_at_b id q (b_handles r).2.
Proof.
  intros Ht Hascii Hbody Hfits Hst.
  pose proof (wp_Exec _ _ _ _ _ _ (FedHandler.wp_transaction (HH := net_b) hb Fb list tick_b r wb)
    (Exec_first _ _ _)) as Hpost.
  unfold b_handles, serve in *.
  destruct (FedHandler.transaction _ _ _ _ _ _ _) as [[res w'] n]. cbn [fst snd] in *.
  destruct Hpost as [(_ & _ & Hbad)|(x & Hadm & Hdone)]; [rewrite Hst in Hbad; lia|].
  destruct Hadm as (_ & _ & _ & _ & _ & _ & Hdec & _). cbv zeta in Hdec.
  destruct (outgoing_received txn id q c Ht) as (x' & Hdec' & Hdest & Hev).
  unfold limited in Hdec. rewrite stake_all in Hdec by done. rewrite Hbody, Hdec' in Hdec.
  apply (inj Some) in Hdec as ->.
  destruct Hdone as (d1 & Hd1 & Hdone). rewrite Hdest, json_str_ascii, String.eqb_refl, Hev in Hdone by done.
  destruct Hdone as (ar & Hacc & _ & Hhub & _).
  apply Relay.accepted_one in Hacc as [HF|[Har Hq]]; [by left|right].
  split; [by rewrite Hhub, Har|]. destruct Hq as [Hq|Hq]; [left|by right].
  destruct Hd1 as [[_ ->]| ->]; exact Hq.
Qed.

(** C1: A message to a user of another server: when the sender is told that
    it is queued, the recipient's server has put it in its queue, with the
    text the sender encrypted, and has told the recipient's clients, unless
    a message with its id was there already or a statement failed there. *)
Theorem message_delivered F fresh txn tick c r wa res wa' q ep cl :
  Exec F (send (HH := net_a) ha fresh txn tick c r) wa res wa' →
  decode_first (body r) ≫= dec_send zero_send = Some q →
  let dom := FedHandler.h_domain hb in
  let id := Relay.send_event_id fresh (send_input c r q) in
  extractDomain (sr_recipient q) = dom → dom ≠ "" → dom ≠ h_domain ha → is_ascii dom = true →
  S2S.resolveEndpoint (HH := net_a) (tick 1) (tick 2) (S2S.target dom (w_client wa)) (w_client wa) =
    (Ok ep, cl) →
  b_is_at (trim_suffix ep "/" +:+ "/transaction") →
  slen (enc_transaction (S2S.addressed dom (outgoing txn id q) (w_client wa))) ≤
    Z.to_nat (FedHandler.max_body hb) →
  status (respond api_recovered res) = 202%Z →
  ∃ rq req, arrives dom rq = Some req ∧ rq_url rq = trim_suffix ep "/" +:+ "/transaction" ∧
    message_at_b id q (b_handles req).2.
Proof.
  intros He Hq dom id Hrcpt Hdom1 Hdom2 Hascii Hep Hat Hfits Hst.
  eapply wp_Exec in He; [|apply wp_send].
  destruct He as [[[_ Hbad] _]|(q' & Hq' & _ & Hsent)]; [rewrite Hst in Hbad; lia|].
  rewrite Hq in Hq'. apply (inj Some) in Hq' as <-.
  assert (¬ Relay.local_recipient (h_domain ha) (sr_recipient q)) as Hrem.
  { unfold Relay.local_recipient. change (Relay.extractDomain _) with (extractDomain (sr_recipient q)).
    rewrite Hrcpt. by intros []. }
  destruct Hsent as [(i & d' & l & _ & (_ & Hloc & _) & _)|(_ & _ & f & c' & Hf & Hres)]; [done|].
  destruct f as [[]|e]; [|destruct Hres; rewrite Hst in *; lia]. clear Hres.
  fold id in Hf. rewrite Hrcpt in Hf. fold dom in Hf.
  apply S2SFacts.SendTransaction_posts in Hf as (ep' & resp & c1 & Hep' & _ & _ & _ & Hdo & Hok).
  rewrite Hep in Hep'. injection Hep' as <- <-.
  rewrite Hat in Hdo by done. set (rq := S2S.signed _ _ _ _ _ _) in Hdo. fold dom in Hdo.
  destruct (arrives dom rq) as [req|] eqn:Hreq; [|done]. injection Hdo as <-.
  exists rq, req. split; [done|]. split; [done|].
  assert (body req = rq_body rq) as Hbody.
  { unfold arrives, transmit in Hreq. destruct (unescape _); [|done]. by injection Hreq as <-. }
  eapply (b_accepts txn id q (w_client wa)); [by eapply dec_send_timestamp|done|by rewrite Hbody| |exact Hok].
  by rewrite Hbody.
Qed.
End two_servers.

(** ** [a.org] and [b.org] *)
Module Pair.
Import FedHandler.Net.

Definition b_handled (r : Request) : Reply * World :=
  b_handles discovery_only b_handler b_files no_faults noon b_world r.

(** What [a.org] reaches: [b.org]'s transactions, and discovery. *)
Definition b_online : S2S.Http := {|
  S2S.http_do rq :=
    if String.eqb (rq_url rq) "https://b.org/federation/v1/transaction"
    then (λ r, answered (b_handled r).1) <$> arrives "b.org" rq
    else S2S.http_do (Http := discovery_only) rq;
  S2S.url_ok _ := true |}.

Definition a_config : MsgHandler.config := mkConfig "a.org" false true.

Definition a_world : World := mkWorld (Schema.with_users {[ 1%Z := UserRow "ann" "a.org" None ]} empty_db)
  Stream.NewHub (S2S.NewClient "a.org" a_keys)
  (Security.NewSecurityService ∅ (λ _, Security.NoResponse) Security.DefaultSecurityConfig)
  ∅ (mkCache "" [] 0) [] [] [] ∅.

(** Ann writes to Bob. *)
Definition a_request : Request := mkRequest
  {| r_method := "POST"; r_path := "/api/v1/messages/send"; r_rawquery := ""; r_headers := ∅;
     r_body := marshal (JObj [("type", JStr "m.room.encrypted"); ("sender", JStr "@ann:a.org");
       ("recipient", JStr "@bob:b.org"); ("timestamp", JInt 1700000000);
       ("content", JObj [("ciphertext", JStr (b64_encode "sig1:hello")); ("session_id", JStr "s")])]) |}
  true "a.org" (λ _, "") 0 false.

Definition a_message : sendRequest := mkSend "m.room.encrypted" "@ann:a.org" "@bob:b.org" ""
  1700000000 (b64_encode "sig1:hello") ∅ "s".

Definition a_sends : Reply * World :=
  serve api_recovered no_faults
    (send (HH := b_online) a_config 7 8 noon (mkCtx 1 "3" None) a_request) a_world.

Lemma message_delivered_witness :
  status a_sends.1 = 202%Z ∧
  ∃ rq req, arrives "b.org" rq = Some req ∧ rq_url rq = "https://b.org/federation/v1/transaction" ∧
    message_at_b no_faults noon b_world "evt_7" a_message (b_handled req).2.
Proof.
  assert (status a_sends.1 = 202%Z) as Hst by by vm_compute. split; [exact Hst|].
  replace "evt_7" with (Relay.send_event_id 7 (send_input (mkCtx 1 "3" None) a_request a_message))
    by by vm_compute.
  replace "https://b.org/federation/v1/transaction"
    with (trim_suffix "https://b.org/federation/v1" "/" +:+ "/transaction") by by vm_compute.
  change "b.org" with (FedHandler.h_domain b_handler). unfold b_handled.
  eapply (message_delivered b_online discovery_only a_config b_handler b_files no_faults noon b_world
    no_faults 7 8 noon (mkCtx 1 "3" None) a_request a_world
    (send (HH := b_online) a_config 7 8 noon (mkCtx 1 "3" None) a_request no_faults a_world 0).1.1).
  - exact (Exec_first _ _ _).
  - by vm_compute.
  - by vm_compute.
  - done.
  - done.
  - done.
  - apply surjective_pairing.
  - intros rq Hrq. cbn [S2S.http_do b_online]. by rewrite Hrq.
  - apply Nat.leb_le. by vm_compute.
  - unfold a_sends, serve in Hst. destruct (send _ _ _ _ _ _ _) as [[res w'] n]. exact Hst.
Defined.

(** The sender of a message is what the client says it is. *)
Example sender_not_checked :
  let forged := mkRequest
    {| r_method := "POST"; r_path := "/api/v1/messages/send"; r_rawquery := ""; r_headers := ∅;
       r_body := marshal (JObj [("sender", JStr "@eve:a.org"); ("recipient", JStr "@ann:a.org");
         ("timestamp", JInt 1700000000); ("content", JObj [("ciphertext", JStr "c2lnMTo=")])]) |}
    true "a.org" (λ _, "") 0 false in
  q_sender <$> Relay.find_event "evt_7" (w_db (serve api_recovered no_faults
    (send (HH := b_online) a_config 7 8 noon (mkCtx 1 "3" None) forged) a_world).2) =
  Some "@eve:a.org".
Proof. by vm_compute. Qed.
End Pair.
End EndToEnd.
